(** * GL_Analysis: the deviation engine and the statistical comparator

    A shallow embedding of [deviation_engine.py] (safe parsing helpers,
    materiality ranks, configuration, scoring, tiering and the Tier-1 cap)
    and of [statisticsal_inferences.py] (period aggregation, the metric skip
    rule and the effect-size label), followed by the properties of the
    specification that concern them.

    Python floats are IEEE 754 binary64 numbers: they are modelled by the
    Standard Library's [spec_float] with [prec = 53] and [emax = 1024], so
    that NaN, the infinities, signed zeros, rounding and underflow are the
    ones of the running program.  Python integers are [Z].  Dictionaries that
    are only looked up by key are [gmap]s; dictionaries and lists whose order
    the code observes are lists. *)

From Stdlib Require Import ZArith List String Ascii Lia Bool Permutation.
From Stdlib Require Import DecimalString.
From Stdlib Require Import Floats.SpecFloat.
From stdpp Require Import base option list gmap strings sorting.

Open Scope string_scope.
Open Scope list_scope.
Open Scope Z_scope.

(** ** Binary64 floats *)

Module F64.

Definition prec : Z := 53.
Definition emax : Z := 1024.

Definition float : Type := spec_float.

Definition nan : float := S754_nan.
Definition inf : float := S754_infinity false.
Definition zero : float := S754_zero false.

(** [math.isnan] *)
Definition isnan (x : float) : bool :=
  match x with S754_nan => true | _ => false end.

Definition isinf (x : float) : bool :=
  match x with S754_infinity _ => true | _ => false end.

Definition add : float -> float -> float := SFadd prec emax.
Definition sub : float -> float -> float := SFsub prec emax.
Definition mul : float -> float -> float := SFmul prec emax.
Definition div : float -> float -> float := SFdiv prec emax.
Definition sqrt : float -> float := SFsqrt prec emax.
Definition abs : float -> float := SFabs.

(** Python's comparison operators on floats: every comparison with NaN
    is false, [x != y] is the negation of [x == y]. *)
Definition eqb : float -> float -> bool := SFeqb.
Definition ltb : float -> float -> bool := SFltb.
Definition leb : float -> float -> bool := SFleb.
Definition gtb (x y : float) : bool := SFltb y x.
Definition geb (x y : float) : bool := SFleb y x.
Definition neqb (x y : float) : bool := negb (SFeqb x y).

(** Python's [max(a, b)] on two floats: the first argument unless the
    second is strictly greater. *)
Definition max (a b : float) : float := if gtb b a then b else a.

(** The binary64 number nearest to an integer (ties to even); an integer
    beyond the finite range rounds to an infinity. *)
Definition of_Z (z : Z) : float := binary_normalize prec emax z 0 false.

(** The binary64 number nearest to [m * 10^e], what a decimal literal such
    as [0.4] or [1e-9] denotes: one correctly rounded operation on exact
    integers. *)
Definition of_decimal (neg : bool) (m : Z) (e : Z) : float :=
  match m with
  | Z0 => S754_zero neg
  | Zpos p =>
      if 0 <=? e
      then binary_normalize prec emax
             (if neg then - (m * 10 ^ e) else m * 10 ^ e) 0 false
      else SFdiv prec emax (S754_finite neg p 0)
             (S754_finite false (Z.to_pos (10 ^ (- e))) 0)
  | Zneg _ => S754_nan
  end.

(** [int(x)] on a finite float: truncation towards zero. *)
Definition trunc (x : float) : option Z :=
  match x with
  | S754_zero _ => Some 0
  | S754_finite s m e =>
      let a := match e with
               | Z0 => Zpos m
               | Zpos _ => Zpos m * 2 ^ e
               | Zneg _ => Zpos m / 2 ^ (- e)
               end in
      Some (if s then - a else a)
  | _ => None
  end.

End F64.

Abbreviation float := F64.float.

(** Decimal literals of the source. *)
Definition f0_2 : float := F64.of_decimal false 2 (-1).
Definition f0_4 : float := F64.of_decimal false 4 (-1).
Definition f0_5 : float := F64.of_decimal false 5 (-1).
Definition f0_8 : float := F64.of_decimal false 8 (-1).
Definition f3_0 : float := F64.of_Z 3.
Definition f1e_9 : float := F64.of_decimal false 1 (-9).
Definition f1e_12 : float := F64.of_decimal false 1 (-12).

(** ** Python values, exceptions and strings *)

(** The exceptions of the code.  [OutsideModel] is no exception of Python:
    it marks a run that stores in a typed field a value of another type
    than the field is declared with (Python stores it as it is), or that
    needs the text of a float; the model follows such runs no further. *)

Inductive exn : Type :=
| ValueError (msg : string)
| KeyError (key : string)
| OverflowError
| TypeError
| AttributeError
| OutsideModel (what : string).

Inductive result (A : Type) : Type :=
| Ok (a : A)
| Raise (e : exn).
Arguments Ok {A} a.
Arguments Raise {A} e.

#[global] Instance result_ret : MRet result := fun A a => Ok a.
#[global] Instance result_bind : MBind result := fun A B f m =>
  match m with
  | Ok a => f a
  | Raise e => Raise e
  end.

(** The values a cell of a table or an entry of a configuration dictionary
    can hold.  [numpy] scalars are identified with the Python scalars they
    subclass or mimic ([np.float64] with [float], [np.bool_] with [bool]).
    Dictionary keys are strings. *)
#[warnings="-register-all"]
Inductive pyval : Type :=
| PNone
| PBool (b : bool)
| PInt (z : Z)
| PFloat (f : float)
| PStr (s : string)
| PList (l : list pyval)
| PTuple (l : list pyval)
| PDict (d : list (string * pyval)).

Module Str.

Definition code (c : ascii) : Z := Z.of_N (N_of_ascii c).

(** A text is a sequence of characters with a code below 256 (the code
    points of Latin-1). *)

(** The characters [str.strip()] removes: those that [str.isspace] holds
    for, among them the separators 28 to 31, the next-line control 133 and
    the no-break space 160. *)
Definition is_space (c : ascii) : bool :=
  let n := code c in
  ((9 <=? n) && (n <=? 13)) || ((28 <=? n) && (n <=? 32))
  || (n =? 133) || (n =? 160).

Definition is_digit (c : ascii) : bool :=
  let n := code c in (48 <=? n) && (n <=? 57).

Definition digit_val (c : ascii) : Z := code c - 48.

(** The lower case of a character: of the letters [A] to [Z], and of the
    capital letters 192 to 222 of Latin-1, but the multiplication sign
    215. *)
Definition lower_char (c : ascii) : ascii :=
  let n := code c in
  if ((65 <=? n) && (n <=? 90))
     || ((192 <=? n) && (n <=? 222) && negb (n =? 215))
  then ascii_of_N (Z.to_N (n + 32)) else c.

Definition chars (s : string) : list ascii := list_ascii_of_string s.
Definition of_chars (l : list ascii) : string := string_of_list_ascii l.

(** [s.lower()] *)
Definition lower (s : string) : string := of_chars (map lower_char (chars s)).

Fixpoint lstrip_chars (l : list ascii) : list ascii :=
  match l with
  | c :: l' => if is_space c then lstrip_chars l' else l
  | [] => []
  end.

(** [s.strip()] *)
Definition strip (s : string) : string :=
  of_chars (rev (lstrip_chars (rev (lstrip_chars (chars s))))).

(** [x in [a; b; ...]] for strings *)
Definition mem (s : string) (l : list string) : bool :=
  existsb (String.eqb s) l.

Fixpoint is_prefix (p s : list ascii) : bool :=
  match p, s with
  | [], _ => true
  | c :: p', d :: s' => Ascii.eqb c d && is_prefix p' s'
  | _ :: _, [] => false
  end.

Fixpoint join (sep : string) (l : list string) : string :=
  match l with
  | [] => ""
  | [s] => s
  | s :: l' => s +:+ sep +:+ join sep l'
  end.

End Str.

(** *** The builtin [float()] *)

Module PyFloat.
Import Str.

(** [digit (["_"] digit)*] once its first digit is read: the value and the
    number of digits read so far, and what follows. *)
Fixpoint digitpart_rest (acc : Z) (n : Z) (cs : list ascii)
  : Z * Z * list ascii :=
  match cs with
  | c :: cs' =>
      if is_digit c then digitpart_rest (10 * acc + digit_val c) (n + 1) cs'
      else if Ascii.eqb c "_" then
        match cs' with
        | d :: cs'' =>
            if is_digit d
            then digitpart_rest (10 * acc + digit_val d) (n + 1) cs''
            else (acc, n, cs)
        | [] => (acc, n, cs)
        end
      else (acc, n, cs)
  | [] => (acc, n, [])
  end.

Definition digitpart (acc : Z) (cs : list ascii)
  : option (Z * Z * list ascii) :=
  match cs with
  | c :: cs' =>
      if is_digit c then Some (digitpart_rest (10 * acc + digit_val c) 1 cs')
      else None
  | [] => None
  end.

Definition sign (cs : list ascii) : bool * list ascii :=
  match cs with
  | c :: cs' =>
      if Ascii.eqb c "-" then (true, cs')
      else if Ascii.eqb c "+" then (false, cs')
      else (false, cs)
  | [] => (false, [])
  end.

(** [[digitpart] "." digitpart | digitpart ["."]]: the digits read as one
    integer, the number of digits after the point, and what follows. *)
Definition number (cs : list ascii) : option (Z * Z * list ascii) :=
  match digitpart 0 cs with
  | Some (ip, _, rest) =>
      match rest with
      | c :: rest' =>
          if Ascii.eqb c "." then
            match digitpart ip rest' with
            | Some (m, k, rest'') => Some (m, k, rest'')
            | None => Some (ip, 0, rest')
            end
          else Some (ip, 0, rest)
      | [] => Some (ip, 0, [])
      end
  | None =>
      match cs with
      | c :: rest' =>
          if Ascii.eqb c "." then digitpart 0 rest' else None
      | [] => None
      end
  end.

(** [("e" | "E") [sign] digitpart], or nothing. *)
Definition exponent (cs : list ascii) : option (Z * list ascii) :=
  match cs with
  | c :: cs' =>
      if Ascii.eqb c "e" || Ascii.eqb c "E" then
        let '(neg, cs'') := sign cs' in
        match digitpart 0 cs'' with
        | Some (e, _, rest) => Some (if neg then - e else e, rest)
        | None => None
        end
      else Some (0, cs)
  | [] => Some (0, [])
  end.

(** The characters that [float()] removes around the number: the six
    blanks of ASCII, and the two blanks of Latin-1 above them, which it
    first turns into spaces.  The separators 28 to 31, which [str.strip()]
    removes, stay and make the text no number. *)
Definition is_blank (c : ascii) : bool :=
  let n := code c in
  ((9 <=? n) && (n <=? 13)) || (n =? 32) || (n =? 133) || (n =? 160).

Fixpoint lstrip_blanks (l : list ascii) : list ascii :=
  match l with
  | c :: l' => if is_blank c then lstrip_blanks l' else l
  | [] => []
  end.

(** [float(s)] for a text [s]; [None] is [ValueError]. *)
Definition of_string (s : string) : option float :=
  let '(neg, cs) := sign (rev (lstrip_blanks (rev (lstrip_blanks (chars s))))) in
  let word := lower (of_chars cs) in
  if mem word ["inf"; "infinity"] then Some (S754_infinity neg)
  else if String.eqb word "nan" then Some S754_nan
  else
    match number cs with
    | Some (m, k, rest) =>
        match exponent rest with
        | Some (e, []) => Some (F64.of_decimal neg m (e - k))
        | _ => None
        end
    | None => None
    end.

(** [float(n)] for an integer; [None] is [OverflowError]. *)
Definition of_int (z : Z) : option float :=
  let f := F64.of_Z z in
  if F64.isinf f then None else Some f.

(** [float(x)]; [None] stands for the exception it raises. *)
Definition of_val (x : pyval) : option float :=
  match x with
  | PBool b => Some (F64.of_Z (if b then 1 else 0))
  | PInt z => of_int z
  | PFloat f => Some f
  | PStr s => of_string s
  | _ => None
  end.

(** [int(x)] for a float. *)
Definition to_int (x : float) : result Z :=
  match F64.trunc x with
  | Some z => Ok z
  | None => Raise (if F64.isnan x then ValueError "cannot convert float NaN to integer"
                   else OverflowError)
  end.

(** [n * x] for an integer [n] and a float [x]. *)
Definition int_mul (n : Z) (x : float) : result float :=
  match of_int n with
  | Some f => Ok (F64.mul f x)
  | None => Raise OverflowError
  end.

End PyFloat.

(** ** Safe parsing helpers *)

Definition to_float (x : pyval) : float :=
  match x with
  | PNone => F64.nan
  | PBool _ => F64.nan
  | _ => match PyFloat.of_val x with
         | Some f => f
         | None => F64.nan
         end
  end.

Definition to_bool (x : pyval) : option bool :=
  match x with
  | PNone => None
  | PFloat f => None
  | PBool b => Some b
  | PStr x =>
      let s := Str.lower (Str.strip x) in
      if Str.mem s ["true"; "t"; "1"; "yes"; "y"] then Some true
      else if Str.mem s ["false"; "f"; "0"; "no"; "n"] then Some false
      else None
  | _ => None
  end.

(** [str(x)] of a cell: the text itself, [None], [True] or [False], the
    digits of an integer.  The text of a float or of a container is not
    written out (the empty text stands for it): [str] is applied to the
    name of an account only, for a sentence that the rows of the model
    leave out. *)
Definition str_of (x : pyval) : string :=
  match x with
  | PStr s => s
  | PNone => "None"
  | PBool b => if b then "True" else "False"
  | PInt z => NilZero.string_of_int (Z.to_int z)
  | _ => ""
  end.

(** ** Tables *)

(** Deduplication that keeps first occurrences, [list(dict.fromkeys(l))]. *)
Fixpoint dedup_strings (l : list string) : list string :=
  match l with
  | [] => []
  | x :: l' => x :: filter (fun y => negb (String.eqb x y)) (dedup_strings l')
  end.

(** A stable sort: [x] is placed before the first element it is not above,
    so that items that compare equal keep the order they came in. *)
Fixpoint insert_by {A : Type} (le : A -> A -> bool) (x : A) (l : list A)
  : list A :=
  match l with
  | [] => [x]
  | y :: l' => if le x y then x :: l else y :: insert_by le x l'
  end.

Definition sort_by {A : Type} (le : A -> A -> bool) (l : list A) : list A :=
  foldr (insert_by le) [] l.

(** Python's [l[k:]] *)
Definition slice_from {A : Type} (k : Z) (l : list A) : list A :=
  if 0 <=? k then drop (Z.to_nat k) l
  else drop (Z.to_nat (Z.of_nat (length l) + k)) l.

(** A row of a table, as the [Series] that [iterrows] yields: the cells by
    column label. *)
Definition row : Type := list (string * pyval).

(** A table: its column labels and its rows, under the index 0, 1, ...
    that a table read from a file has.  The code is followed for tables
    whose labels are distinct (the selection of a repeated label is a
    table, not a column). *)
Record DataFrame : Type := {
  columns : list string;
  rows : list row
}.

Fixpoint assoc {A : Type} (k : string) (l : list (string * A)) : option A :=
  match l with
  | [] => None
  | (k', v) :: l' => if String.eqb k k' then Some v else assoc k l'
  end.

(** [r.get(c)] and [r.get(c, d)] *)
Definition get_or (d : pyval) (r : row) (c : string) : pyval :=
  match assoc c r with
  | Some v => v
  | None => d
  end.

Definition get (r : row) (c : string) : pyval := get_or PNone r c.

(** *** Metric detection *)

Definition newline : ascii := ascii_of_N 10.

(** [re.match] of a column label against the pattern of the source, any
    text followed by [_CY_Mean] at the end: the group, when it matches.
    [.] matches no newline, and [$] matches at the end of the text or just
    before a newline that ends it. *)
Definition metric_of_column (c : string) : option string :=
  let rc := rev (Str.chars c) in
  let suffix := rev (Str.chars "_CY_Mean") in
  let group (rp : list ascii) : option string :=
    if existsb (Ascii.eqb newline) rp then None
    else Some (Str.of_chars (rev rp)) in
  if Str.is_prefix suffix rc then group (drop 8%nat rc)
  else if Str.is_prefix (newline :: suffix) rc then group (drop 9%nat rc)
  else None.

Definition pref : list string := ["Credit"; "Debit"; "Running_Balance"; "GST"].

(** [pref.index(x) if x in pref else 999] *)
Fixpoint pref_index (x : string) (l : list string) (i : Z) : Z :=
  match l with
  | [] => 999
  | y :: l' => if String.eqb x y then i else pref_index x l' (i + 1)
  end.

Definition metric_key_le (x y : string) : bool :=
  let kx := pref_index x pref 0 in
  let ky := pref_index y pref 0 in
  (kx <? ky) || ((kx =? ky) && String.leb x y).

Definition detect_metrics (columns : list string) : list string :=
  sort_by metric_key_le (dedup_strings (omap metric_of_column columns)).

(** *** Materiality percentiles *)

(** [pd.to_numeric(..., errors="coerce")] on one cell of a column with
    one label: a float is itself, a boolean is 1 or 0, a missing cell and
    a container are NaN, an integer is the float nearest to it.  Text
    without an underscore is read as [float()] reads it; [pandas] takes no
    underscore between digits, so that text with one is NaN.  The parser
    of [pandas] is followed no further than that (it may round a literal
    of many digits to a neighbour of the nearest float).  For an integer
    beyond the range of the floats [pandas] raises [OverflowError]; here
    the cell is NaN after [abs_finite], and the properties that depend on
    it leave such frames out. *)
Definition to_numeric (x : pyval) : float :=
  match x with
  | PInt z => F64.of_Z z
  | PStr s =>
      if existsb (Ascii.eqb "_") (Str.chars s) then F64.nan
      else match PyFloat.of_string s with
           | Some f => f
           | None => F64.nan
           end
  | _ => match PyFloat.of_val x with
         | Some f => f
         | None => F64.nan
         end
  end.

(** [.abs().replace([np.inf, -np.inf], np.nan)] on one cell *)
Definition abs_finite (x : pyval) : float :=
  let v := F64.abs (to_numeric x) in
  if F64.isinf v then F64.nan else v.

Definition count_if {A : Type} (p : A -> bool) (l : list A) : Z :=
  Z.of_nat (length (filter p l)).

(** [Series.rank(pct=True)] of the value [v] among the values [non_null]:
    the average of the positions [v] and its ties take in sorted order,
    divided by the number of values. *)
Definition rank_pct (non_null : list float) (v : float) : float :=
  let less := count_if (fun x => F64.ltb x v) non_null in
  let dups := count_if (fun x => F64.eqb x v) non_null in
  let sum_ranks := dups * less + dups * (dups + 1) / 2 in
  F64.div (F64.div (F64.of_Z sum_ranks) (F64.of_Z dups))
          (F64.of_Z (Z.of_nat (length non_null))).

(** The percentile ranks, one for each row of the table in row order. *)
Definition percentile_rank_abs (df : DataFrame) (metric suffix : string)
  : list float :=
  let col := metric +:+ "_" +:+ suffix in
  if negb (Str.mem col (columns df)) then map (fun _ => F64.nan) (rows df)
  else
    let vals := map (fun r => abs_finite (get r col)) (rows df) in
    let non_null := filter (fun v => negb (F64.isnan v)) vals in
    map (fun v => if F64.isnan v then F64.nan else rank_pct non_null v) vals.

(** ** Configuration *)

Module Thresholds.
Record t : Type := mk {
  high_cv : float;
  moderate_cv : float;
  mean_median_gap_ratio : float;
  pearson_skew_abs : float;
  rel_mean_shift : float;
  rel_std_jump : float;
  cohens_d_large : float;
  cohens_d_medium : float;
  sign_reversal_min_mean_pct : float;
  new_activity_factor : float
}.
Definition default : t := {|
  high_cv := F64.of_Z 1;
  moderate_cv := F64.of_decimal false 7 (-1);
  mean_median_gap_ratio := F64.of_decimal false 38 (-2);
  pearson_skew_abs := F64.of_decimal false 12 (-1);
  rel_mean_shift := F64.of_decimal false 75 (-2);
  rel_std_jump := F64.of_decimal false 80 (-2);
  cohens_d_large := F64.of_decimal false 8 (-1);
  cohens_d_medium := F64.of_decimal false 5 (-1);
  sign_reversal_min_mean_pct := F64.of_decimal false 60 (-2);
  new_activity_factor := F64.of_Z 10
|}.
End Thresholds.

Module Weights.
Record t : Type := mk {
  distribution_change : Z;
  mean_shift : Z;
  effect_large : Z;
  effect_medium : Z;
  high_cv : Z;
  moderate_cv : Z;
  mean_median_gap : Z;
  pearson_skew : Z;
  volatility_jump : Z;
  low_mean_high_variance : Z;
  new_activity : Z;
  sign_reversal : Z
}.
Definition default : t := {|
  distribution_change := 5;
  mean_shift := 5;
  effect_large := 4;
  effect_medium := 2;
  high_cv := 2;
  moderate_cv := 1;
  mean_median_gap := 2;
  pearson_skew := 1;
  volatility_jump := 2;
  low_mean_high_variance := 2;
  new_activity := 2;
  sign_reversal := 3
|}.
End Weights.

Module MetricProfile.
Record t : Type := mk {
  name : string;
  min_mean_pct_for_cv : float;
  min_mean_pct_for_effect : float;
  effect_weight_mult : float;
  cv_weight_mult : float;
  low_mean_pct : float;
  high_std_pct : float
}.
(** [MetricProfile(name)] *)
Definition new (name : string) : t := {|
  name := name;
  min_mean_pct_for_cv := F64.of_decimal false 60 (-2);
  min_mean_pct_for_effect := F64.of_decimal false 30 (-2);
  effect_weight_mult := F64.of_Z 1;
  cv_weight_mult := F64.of_Z 1;
  low_mean_pct := F64.of_decimal false 30 (-2);
  high_std_pct := F64.of_decimal false 70 (-2)
|}.
End MetricProfile.

Definition default_profiles : gmap string MetricProfile.t :=
  let d (m n : Z) : float := F64.of_decimal false m n in
  list_to_map [
    ("Credit", MetricProfile.mk "Credit" (d 60 (-2)) (d 60 (-2))
                 (F64.of_Z 1) (F64.of_Z 1) (d 30 (-2)) (d 70 (-2)));
    ("Debit", MetricProfile.mk "Debit" (d 30 (-2)) (d 30 (-2))
                 (F64.of_Z 1) (F64.of_Z 1) (d 30 (-2)) (d 70 (-2)));
    ("Running_Balance", MetricProfile.mk "Running_Balance" (d 75 (-2)) (d 78 (-2))
                 (d 7 (-1)) (d 8 (-1)) (d 30 (-2)) (d 70 (-2)));
    ("GST", MetricProfile.mk "GST" (d 40 (-2)) (d 45 (-2))
                 (d 9 (-1)) (d 9 (-1)) (d 30 (-2)) (d 70 (-2)))
  ].

Module Tiering.
Record t : Type := mk {
  tier1_min_score : Z;
  tier2_min_score : Z;
  tier3_min_score : Z;
  include_tier3 : bool;
  max_tier1 : Z;
  tier1_materiality_pct : float;
  tier1_override_score : Z;
  drop_pure_volatility_below_mean_pct : float;
  require_any_of_triggers : list string
}.
Definition default : t := {|
  tier1_min_score := 14;
  tier2_min_score := 7;
  tier3_min_score := 5;
  include_tier3 := false;
  max_tier1 := 10;
  tier1_materiality_pct := F64.of_decimal false 75 (-2);
  tier1_override_score := 28;
  drop_pure_volatility_below_mean_pct := F64.of_decimal false 80 (-2);
  require_any_of_triggers := [
    "Distribution Change";
    "Mean Shift";
    "Large Effect Size";
    "Low Mean with High Variance";
    "New Activity / Re-start";
    "Sign Reversal";
    "High CV";
    "Mean-Median Gap"
  ]
|}.
End Tiering.

Module Language.
Record t : Type := mk {
  bucket_finish : gmap string string
}.
Definition default : t := {|
  bucket_finish := list_to_map [
    ("revenue", "Check cut-off, pricing/mix changes, and recognition timing.");
    ("cash", "Often driven by batch journals, timing, bank rule changes, or missed automation.");
    ("timing", "Common causes are accruals vs prepaids, one-offs, or timing corrections.");
    ("clearing", "Usually points to reconciliation gaps, clearing discipline, or mis-postings into control accounts.");
    ("tax", "Validate coding, rate mapping, and whether supply classification changed.");
    ("rounding", "Unexpected activity can mask systemic posting issues or forced balancing journals.");
    ("general", "Often a mix of reclasses, one-offs, or process changes.")
  ]
|}.
End Language.

Definition check_names : list string := [
  "distribution_change";
  "mean_shift";
  "effect_size";
  "cv";
  "mean_median_gap";
  "pearson_skew";
  "volatility_jump";
  "low_mean_high_variance";
  "new_activity";
  "sign_reversal"
].

Record DeviationConfig : Type := {
  thresholds : Thresholds.t;
  weights : Weights.t;
  tiers : Tiering.t;
  profiles : gmap string MetricProfile.t;
  language : Language.t;
  enabled_checks : gmap string bool
}.

(** [DeviationConfig()] *)
Definition default_config : DeviationConfig := {|
  thresholds := Thresholds.default;
  weights := Weights.default;
  tiers := Tiering.default;
  profiles := default_profiles;
  language := Language.default;
  enabled_checks := list_to_map (map (fun k => (k, true)) check_names)
|}.

(** ** Core scoring *)

(** [pct_ok]: the percentile [p] of the row is known and reaches the
    threshold. *)
Definition pct_ok (p threshold : float) : bool :=
  negb (F64.isnan p) && F64.geb p threshold.

(** [cfg.enabled_checks[key]] *)
Definition enabled (cfg : DeviationConfig) (key : string) : result bool :=
  match enabled_checks cfg !! key with
  | Some b => Ok b
  | None => Raise (KeyError key)
  end.

(** [cfg.profiles.get(m, MetricProfile(m))] *)
Definition prof (cfg : DeviationConfig) (m : string) : MetricProfile.t :=
  match profiles cfg !! m with
  | Some p => p
  | None => MetricProfile.new m
  end.

(** The text [eff] of the effect-size cell: empty for a missing cell and for
    NaN, the stripped lower-case text of a string.  The text of any other
    cell (a number, a boolean) is never ["large"] or ["medium"], the only two
    texts [eff] is compared with; [None] stands for such a text. *)
Definition eff_text (eff_raw : pyval) : option string :=
  match eff_raw with
  | PNone => Some ""
  | PFloat f => if F64.isnan f then Some "" else None
  | PStr s => Some (Str.lower (Str.strip s))
  | _ => None
  end.

Definition eff_is (eff : option string) (label : string) : bool :=
  match eff with
  | Some s => String.eqb s label
  | None => false
  end.

(** Column label [f"{m}_{suffix}"] *)
Definition col (m suffix : string) : string := m +:+ "_" +:+ suffix.

(** What the loop body reads for one metric of one row: the parsed cells,
    and the row's percentile ranks of [abs(CY mean)] and [abs(CY std)]
    within the batch. *)
Record signals : Type := {
  ly_mean : float;
  cy_mean : float;
  ly_std : float;
  cy_std : float;
  cy_med : float;
  mean_diff : float;
  std_diff : float;
  t_sig : option bool;
  mw_sig : option bool;
  ks_sig : option bool;
  anova_sig : option bool;
  eff : option string;
  cohens_d : float;
  mean_pct : float;
  std_pct : float
}.

Definition read_signals (r : row) (m : string) (mean_pct std_pct : float)
  : signals := {|
  ly_mean := to_float (get r (col m "LY_Mean"));
  cy_mean := to_float (get r (col m "CY_Mean"));
  ly_std := to_float (get r (col m "LY_Std"));
  cy_std := to_float (get r (col m "CY_Std"));
  cy_med := to_float (get r (col m "CY_Median"));
  mean_diff := to_float (get r (col m "Mean_Diff"));
  std_diff := to_float (get r (col m "Std_Diff"));
  t_sig := to_bool (get r (col m "TTest_Significant"));
  mw_sig := to_bool (get r (col m "MannWhitney_Significant"));
  ks_sig := to_bool (get r (col m "KS_Significant"));
  anova_sig := to_bool (get r (col m "ANOVA_Significant"));
  eff := eff_text (get r (col m "Effect_Size"));
  cohens_d := to_float (get r (col m "Cohens_D"));
  mean_pct := mean_pct;
  std_pct := std_pct
|}.

Definition mean_mat (p : MetricProfile.t) (x : signals) : bool :=
  pct_ok (mean_pct x) (MetricProfile.min_mean_pct_for_cv p).

Definition eff_mat (p : MetricProfile.t) (x : signals) : bool :=
  pct_ok (mean_pct x) (MetricProfile.min_mean_pct_for_effect p).

Definition cv (x : signals) : float :=
  if negb (F64.isnan (cy_std x) || F64.isnan (cy_mean x))
  then F64.div (F64.abs (cy_std x)) (F64.max (F64.abs (cy_mean x)) f1e_9)
  else F64.nan.

Definition gap_ratio (x : signals) : float :=
  if negb (F64.isnan (cy_mean x) || F64.isnan (cy_med x))
  then F64.div (F64.abs (F64.sub (cy_mean x) (cy_med x)))
               (F64.max (F64.abs (cy_mean x)) f1e_9)
  else F64.nan.

Definition pearson_skew (x : signals) : float :=
  if negb (F64.isnan (cy_mean x) || F64.isnan (cy_med x) || F64.isnan (cy_std x))
     && F64.gtb (F64.abs (cy_std x)) f1e_12
  then F64.abs (F64.div (F64.mul f3_0 (F64.sub (cy_mean x) (cy_med x)))
                        (cy_std x))
  else F64.nan.

(** [flag is True] *)
Definition is_True (flag : option bool) : bool :=
  match flag with
  | Some true => true
  | _ => false
  end.

Definition dist_change (x : signals) : bool :=
  is_True (ks_sig x) || is_True (mw_sig x).

Definition mean_change (x : signals) : bool :=
  is_True (t_sig x) || is_True (anova_sig x).

Definition eff_large (th : Thresholds.t) (x : signals) : bool :=
  eff_is (eff x) "large"
  || (negb (F64.isnan (cohens_d x))
      && F64.geb (F64.abs (cohens_d x)) (Thresholds.cohens_d_large th)).

Definition eff_med (th : Thresholds.t) (x : signals) : bool :=
  eff_is (eff x) "medium"
  || (negb (F64.isnan (cohens_d x))
      && F64.geb (F64.abs (cohens_d x)) (Thresholds.cohens_d_medium th)).

(** The running score and trigger list of one metric of one account. *)
Definition tally : Type := Z * list string.

Definition fire (name : string) (points : Z) (s : tally) : tally :=
  (fst s + points, snd s ++ [name]).

(** [int(w * mult)] for an integer weight and a float multiplier *)
Definition scaled (w : Z) (mult : float) : result Z :=
  x ← PyFloat.int_mul w mult; PyFloat.to_int x.

(** The ten checks, in the order of the source.  Each reads its switch in
    [enabled_checks] first and then adds at most one trigger to the tally. *)

Definition check_distribution_change (cfg : DeviationConfig)
    (p : MetricProfile.t) (x : signals) (s : tally) : result tally :=
  en ← enabled cfg "distribution_change";
  if en && dist_change x then
    if eff_mat p x || mean_change x || eff_large (thresholds cfg) x
    then Ok (fire "Distribution Change"
                  (Weights.distribution_change (weights cfg)) s)
    else (n ← scaled (Weights.distribution_change (weights cfg)) f0_4;
          Ok (fire "Distribution Change" n s))
  else Ok s.

Definition check_mean_shift (cfg : DeviationConfig)
    (p : MetricProfile.t) (x : signals) (s : tally) : result tally :=
  en ← enabled cfg "mean_shift";
  if en && mean_change x then
    if eff_mat p x || eff_large (thresholds cfg) x
    then Ok (fire "Mean Shift" (Weights.mean_shift (weights cfg)) s)
    else (n ← scaled (Weights.mean_shift (weights cfg)) f0_5;
          Ok (fire "Mean Shift" n s))
  else
    (en ← enabled cfg "mean_shift";
     if (en : bool) then
       if negb (F64.isnan (mean_diff x) || F64.isnan (ly_mean x)
                || F64.isnan (cy_mean x))
       then
         let rel := F64.div (F64.abs (mean_diff x))
                            (F64.max (F64.abs (ly_mean x)) f1e_9) in
         if F64.geb rel (Thresholds.rel_mean_shift (thresholds cfg))
            && eff_mat p x
         then (n ← scaled (Weights.mean_shift (weights cfg)) f0_5;
               Ok (fire "Mean Shift" n s))
         else Ok s
       else Ok s
     else Ok s).

Definition big_move (th : Thresholds.t) (x : signals) : bool :=
  if negb (F64.isnan (mean_diff x) || F64.isnan (ly_mean x))
  then F64.gtb (F64.abs (mean_diff x))
         (F64.mul (F64.max (F64.abs (ly_mean x)) f1e_9)
                  (Thresholds.rel_mean_shift th))
  else false.

Definition check_effect_size (cfg : DeviationConfig)
    (p : MetricProfile.t) (x : signals) (s : tally) : result tally :=
  en ← enabled cfg "effect_size";
  if (en : bool) then
    if eff_large (thresholds cfg) x
       && (dist_change x || mean_change x || big_move (thresholds cfg) x)
       && eff_mat p x
    then (n ← scaled (Weights.effect_large (weights cfg))
                     (MetricProfile.effect_weight_mult p);
          Ok (fire "Large Effect Size" n s))
    else if eff_med (thresholds cfg) x
            && (dist_change x || mean_change x) && eff_mat p x
    then (n ← scaled (Weights.effect_medium (weights cfg))
                     (MetricProfile.effect_weight_mult p);
          Ok (fire "Medium Effect Size" n s))
    else Ok s
  else Ok s.

Definition check_cv (cfg : DeviationConfig)
    (p : MetricProfile.t) (x : signals) (s : tally) : result tally :=
  en ← enabled cfg "cv";
  if en && negb (F64.isnan (cv x)) then
    if F64.geb (cv x) (Thresholds.high_cv (thresholds cfg)) && mean_mat p x
    then (n ← scaled (Weights.high_cv (weights cfg))
                     (MetricProfile.cv_weight_mult p);
          Ok (fire "High CV" n s))
    else if F64.geb (cv x) (Thresholds.moderate_cv (thresholds cfg))
            && mean_mat p x
    then (n ← scaled (Weights.moderate_cv (weights cfg))
                     (MetricProfile.cv_weight_mult p);
          Ok (fire "Moderate CV" n s))
    else Ok s
  else Ok s.

Definition check_low_mean_high_variance (cfg : DeviationConfig)
    (p : MetricProfile.t) (x : signals) (s : tally) : result tally :=
  en ← enabled cfg "low_mean_high_variance";
  if en && negb (F64.isnan (cv x)) then
    if negb (F64.isnan (mean_pct x))
       && F64.leb (mean_pct x) (MetricProfile.low_mean_pct p)
       && pct_ok (std_pct x) (MetricProfile.high_std_pct p)
       && F64.geb (cv x) (Thresholds.high_cv (thresholds cfg))
    then Ok (fire "Low Mean with High Variance"
                  (Weights.low_mean_high_variance (weights cfg)) s)
    else Ok s
  else Ok s.

Definition check_mean_median_gap (cfg : DeviationConfig)
    (p : MetricProfile.t) (x : signals) (s : tally) : result tally :=
  en ← enabled cfg "mean_median_gap";
  if en && negb (F64.isnan (gap_ratio x)) then
    if F64.geb (gap_ratio x) (Thresholds.mean_median_gap_ratio (thresholds cfg))
       && mean_mat p x
    then Ok (fire "Mean-Median Gap" (Weights.mean_median_gap (weights cfg)) s)
    else Ok s
  else Ok s.

Definition check_pearson_skew (cfg : DeviationConfig)
    (p : MetricProfile.t) (x : signals) (s : tally) : result tally :=
  en ← enabled cfg "pearson_skew";
  if en && negb (F64.isnan (pearson_skew x)) then
    if F64.geb (pearson_skew x) (Thresholds.pearson_skew_abs (thresholds cfg))
       && mean_mat p x
    then Ok (fire "Pearson Skew" (Weights.pearson_skew (weights cfg)) s)
    else Ok s
  else Ok s.

Definition check_volatility_jump (cfg : DeviationConfig)
    (p : MetricProfile.t) (x : signals) (s : tally) : result tally :=
  en ← enabled cfg "volatility_jump";
  if en && negb (F64.isnan (std_diff x) || F64.isnan (ly_std x)) then
    let rel_std := F64.div (F64.abs (std_diff x))
                           (F64.max (F64.abs (ly_std x)) f1e_9) in
    if F64.geb rel_std (Thresholds.rel_std_jump (thresholds cfg))
       && mean_mat p x
    then (n ← scaled (Weights.volatility_jump (weights cfg))
                     (MetricProfile.cv_weight_mult p);
          Ok (fire "Volatility Jump" n s))
    else Ok s
  else Ok s.

Definition check_new_activity (cfg : DeviationConfig)
    (p : MetricProfile.t) (x : signals) (s : tally) : result tally :=
  en ← enabled cfg "new_activity";
  if en && negb (F64.isnan (ly_mean x) || F64.isnan (cy_mean x)) then
    if F64.ltb (F64.abs (ly_mean x)) f1e_9 && eff_mat p x
       && F64.gtb (F64.abs (cy_mean x))
            (F64.mul (Thresholds.new_activity_factor (thresholds cfg)) f1e_9)
    then Ok (fire "New Activity / Re-start"
                  (Weights.new_activity (weights cfg)) s)
    else Ok s
  else Ok s.

Definition check_sign_reversal (cfg : DeviationConfig)
    (p : MetricProfile.t) (x : signals) (s : tally) : result tally :=
  en ← enabled cfg "sign_reversal";
  if en && negb (F64.isnan (ly_mean x) || F64.isnan (cy_mean x)) then
    if F64.ltb (F64.mul (ly_mean x) (cy_mean x)) F64.zero
       && pct_ok (mean_pct x)
            (Thresholds.sign_reversal_min_mean_pct (thresholds cfg))
    then Ok (fire "Sign Reversal" (Weights.sign_reversal (weights cfg)) s)
    else Ok s
  else Ok s.

Definition checks : list (DeviationConfig -> MetricProfile.t -> signals ->
                           tally -> result tally) := [
  check_distribution_change;
  check_mean_shift;
  check_effect_size;
  check_cv;
  check_low_mean_high_variance;
  check_mean_median_gap;
  check_pearson_skew;
  check_volatility_jump;
  check_new_activity;
  check_sign_reversal
].

(** The checks run one after the other on the tally; an exception ends the
    run. *)
Fixpoint run_checks (cfg : DeviationConfig) (p : MetricProfile.t)
    (x : signals)
    (l : list (DeviationConfig -> MetricProfile.t -> signals ->
               tally -> result tally))
    (s : tally) : result tally :=
  match l with
  | [] => Ok s
  | c :: l' => s' ← c cfg p x s; run_checks cfg p x l' s'
  end.

(** The body of the loop over metrics, up to the test [score > 0]: the score
    and the triggers of metric [m] for the row [r], whose percentile ranks
    within the batch are [mean_pct] and [std_pct]. *)
Definition score_metric (cfg : DeviationConfig) (r : row)
    (mean_pct std_pct : float) (m : string) : result tally :=
  run_checks cfg (prof cfg m) (read_signals r m mean_pct std_pct) checks (0, []).

(** ** Interpretation *)

(** [k in n] for two strings: [k] occurs in [n]. *)
Fixpoint occurs (k n : list ascii) : bool :=
  Str.is_prefix k n
  || match n with
     | [] => false
     | _ :: n' => occurs k n'
     end.

Definition contains (k n : string) : bool := occurs (Str.chars k) (Str.chars n).

(** [any(k in n for k in keys)] *)
Definition any_in (keys : list string) (n : string) : bool :=
  existsb (fun k => contains k n) keys.

(** The bucket of an account, by the first group of keywords of which one
    occurs in its name in lower case.  The name is a string (the engine
    passes [str(...)]); [None] would be read as the empty name. *)
Definition bucketize (account_name : string) : string :=
  let n := Str.lower account_name in
  if any_in ["sales"; "revenue"; "income"] n then "revenue"
  else if any_in ["bank"; "merchant"; "eftpos"; "stripe"; "fees"; "interest"] n
  then "cash"
  else if any_in ["insurance"; "subscription"; "subscriptions"; "prepaid";
                  "licence"; "license"; "annual"] n
  then "timing"
  else if any_in ["payable"; "receivable"; "deposit"; "clearing"; "suspense";
                  "control"; "intercompany"; "loan"; "hire purchase"; "hp"] n
  then "clearing"
  else if any_in ["gst"; "vat"; "tax"; "rwt"] n then "tax"
  else if any_in ["rounding"; "round off"; "round-off"] n then "rounding"
  else "general".

Definition bucket_names : list string :=
  ["revenue"; "cash"; "timing"; "clearing"; "tax"; "rounding"; "general"].

(** The subject of the sentence, by dominant metric. *)
Definition subject (dominant_metric : string) : string :=
  match assoc dominant_metric
          [("Credit", "Credit postings");
           ("Debit", "Debit postings");
           ("Running_Balance", "Balance movements");
           ("GST", "GST behaviour")] with
  | Some s => s
  | None => dominant_metric +:+ " behaviour"
  end.

(** The triggers that the sentence tells, each with its words, in the
    order of the tests of the source. *)
Definition told : list (string * string) := [
  ("Distribution Change", "posting pattern changed versus last year");
  ("Mean Shift", "average level moved materially");
  ("Large Effect Size", "change looks practically large, not just noise");
  ("High CV", "volatility is lumpy and irregular");
  ("Low Mean with High Variance",
   "small average with outsized variability suggests batching or timing noise");
  ("Mean-Median Gap", "skew suggests outliers or one-offs");
  ("Pearson Skew", "outliers likely dominate the movement");
  ("New Activity / Re-start", "activity appears newly introduced or restarted");
  ("Sign Reversal", "direction flipped (possible reclass/contra entries)")
].

Definition bits (triggers : list string) : list string :=
  omap (fun tw => if Str.mem (fst tw) triggers then Some (snd tw) else None)
       told.

Definition middle (triggers : list string) : string :=
  match bits triggers with
  | [] => "shows unusual movement versus last year"
  | _ :: _ => Str.join "; " (bits triggers)
  end.

(** The text of the column [Accounting Interpretation].  The default of
    [bucket_finish.get] is an argument of the call: the text of the bucket
    ["general"] is looked up before the text of the bucket is. *)
Definition interpret (account_name dominant_metric : string)
    (triggers : list string) (lang : Language.t) : result string :=
  let bucket := bucketize account_name in
  general ← match Language.bucket_finish lang !! "general" with
            | Some g => Ok g
            | None => Raise (KeyError "general")
            end;
  Ok (subject dominant_metric +:+ ": " +:+ middle triggers +:+ ". "
      +:+ match Language.bucket_finish lang !! bucket with
          | Some s => s
          | None => general
          end).

(** *** One account *)

(** The loop over metrics: [metric_scores] and [metric_triggers] as one
    insertion-ordered dictionary, from a metric that scored above zero to
    its score and its triggers without repeats. *)
Fixpoint score_metrics (cfg : DeviationConfig) (r : row)
    (mean_pct std_pct : string -> float) (metrics : list string)
  : result (list (string * tally)) :=
  match metrics with
  | [] => Ok []
  | m :: ms =>
      t ← score_metric cfg r (mean_pct m) (std_pct m) m;
      rest ← score_metrics cfg r mean_pct std_pct ms;
      Ok (if 0 <? fst t then (m, (fst t, dedup_strings (snd t))) :: rest
          else rest)
  end.

(** A row of the report.  The column [Metric Values] and the column
    [Accounting Interpretation] are free text built from the same triggers
    and numbers (decimal renderings of floats, remediation hints); they feed
    nothing back into tier, score or order and are left out.  The call of
    [interpret] that writes the second stays in [account_row], for the
    exception it can raise. *)
Record report_row : Type := {
  Tier : string;
  Account_Code : pyval;
  Account_Name : pyval;
  Key_Metrics_Triggered : string;
  Score : Z;
  Dominant_Metric : string
}.

Definition vol_set : list string :=
  ["High CV"; "Moderate CV"; "Mean-Median Gap"; "Volatility Jump"; "Pearson Skew"].

Definition priority : list string := [
  "Distribution Change";
  "Mean Shift";
  "Large Effect Size";
  "Low Mean with High Variance";
  "High CV";
  "Mean-Median Gap";
  "Pearson Skew";
  "Volatility Jump";
  "Sign Reversal";
  "New Activity / Re-start";
  "Medium Effect Size";
  "Moderate CV"
].

(** [max(l or [np.nan])] for a list of floats: the first greatest item. *)
Definition max_or_nan (l : list float) : float :=
  match l with
  | [] => F64.nan
  | x :: l' => fold_left (fun acc y => if F64.gtb y acc then y else acc) l' x
  end.

(** [max(items, key=lambda kv: kv[1])[0]]: the first metric with the
    greatest score. *)
Definition dominant (scored : list (string * tally)) : string :=
  match scored with
  | [] => ""
  | x :: l =>
      fst (fold_left (fun acc y => if fst (snd acc) <? fst (snd y) then y else acc)
                     l x)
  end.

Definition sum_scores (scored : list (string * tally)) : Z :=
  fold_right (fun x acc => fst (snd x) + acc) 0 scored.

(** The per-account score: the metric scores and the breadth bonus. *)
Definition total_score (scored : list (string * tally)) : Z :=
  let n := Z.of_nat (length scored) in
  sum_scores scored + (if 2 <=? n then 2 else 0) + (if 3 <=? n then 2 else 0).

Definition uniq_triggers (scored : list (string * tally)) : list string :=
  dedup_strings (concat (map (fun x => snd (snd x)) scored)).

(** The best materiality percentile among the metrics that scored. *)
Definition max_mean_pct (mean_pct : string -> float)
    (scored : list (string * tally)) : float :=
  max_or_nan (filter (fun p => negb (F64.isnan p))
                     (map (fun x => mean_pct (fst x)) scored)).

(** The tier of an account that passed the gates, [None] when it is
    dropped. *)
Definition assign_tier (t : Tiering.t) (total : Z) (max_mean_pct : float)
  : option string :=
  if (Tiering.tier1_min_score t <=? total)
     && ((negb (F64.isnan max_mean_pct)
          && F64.geb max_mean_pct (Tiering.tier1_materiality_pct t))
         || (Tiering.tier1_override_score t <=? total))
  then Some "Tier-1"
  else if Tiering.tier2_min_score t <=? total then Some "Tier-2"
  else if (Tiering.tier3_min_score t <=? total) && Tiering.include_tier3 t
  then Some "Tier-3"
  else None.

(** The triggers in display order: the priority list first, then the rest. *)
Definition ordered_triggers (uniq : list string) : list string :=
  dedup_strings (filter (fun p => Str.mem p uniq) priority ++ uniq).

(** The body of the loop over rows: the report row of an account, [None]
    when the account is skipped. *)
Definition account_row (cfg : DeviationConfig) (metrics : list string)
    (mean_pct std_pct : string -> float) (r : row)
  : result (option report_row) :=
  scored ← score_metrics cfg r mean_pct std_pct metrics;
  match scored with
  | [] => Ok None
  | _ :: _ =>
      let total := total_score scored in
      let uniq := uniq_triggers scored in
      let mmp := max_mean_pct mean_pct scored in
      if (negb (bool_decide (uniq = [])) && forallb (fun t => Str.mem t vol_set) uniq)
         && (F64.isnan mmp
             || F64.ltb mmp (Tiering.drop_pure_volatility_below_mean_pct (tiers cfg)))
      then Ok None
      else if negb (bool_decide (Tiering.require_any_of_triggers (tiers cfg) = []))
              && negb (existsb (fun t => Str.mem t uniq)
                               (Tiering.require_any_of_triggers (tiers cfg)))
      then Ok None
      else
        match assign_tier (tiers cfg) total mmp with
        | None => Ok None
        | Some tier =>
            let ordered := ordered_triggers uniq in
            _ ← interpret (str_of (get_or (PStr "") r "Account Name"))
                  (dominant scored) ordered (language cfg);
            Ok (Some {|
              Tier := tier;
              Account_Code := get_or (PStr "") r "Account Code";
              Account_Name := get_or (PStr "") r "Account Name";
              Key_Metrics_Triggered := Str.join ", " (take 6 ordered);
              Score := total;
              Dominant_Metric := dominant scored
            |})
        end
  end.

(** *** The whole batch *)

(** [series.loc[idx]] for a series held in row order *)
Definition loc (s : list float) (idx : nat) : float := nth idx s F64.nan.

(** [{m: percentile_rank_abs(df, m, suffix) for m in metrics}] *)
Definition pct_table (df : DataFrame) (metrics : list string) (suffix : string)
  : list (string * list float) :=
  map (fun m => (m, percentile_rank_abs df m suffix)) metrics.

Definition pct_at (tbl : list (string * list float)) (idx : nat) (m : string)
  : float :=
  match assoc m tbl with
  | Some s => loc s idx
  | None => F64.nan
  end.

(** The loop [for idx, r in df.iterrows()], from row number [idx] on: the
    rows appended to the report, in order; the first exception ends it. *)
Fixpoint iterrows (cfg : DeviationConfig) (metrics : list string)
    (mean_pct std_pct : list (string * list float)) (idx : nat) (l : list row)
  : result (list report_row) :=
  match l with
  | [] => Ok []
  | r :: l' =>
      o ← account_row cfg metrics (pct_at mean_pct idx) (pct_at std_pct idx) r;
      rest ← iterrows cfg metrics mean_pct std_pct (S idx) l';
      Ok (match o with Some x => x :: rest | None => rest end)
  end.

(** [tier_rank], with [fillna(9)] *)
Definition tier_rank (tier : string) : Z :=
  if String.eqb tier "Tier-1" then 1
  else if String.eqb tier "Tier-2" then 2
  else if String.eqb tier "Tier-3" then 3
  else 9.

(** The report while it is sorted and capped: each row with its index
    label. *)
Definition labelled : Type := nat * report_row.

(** [sort_values(["_tr", "Score"], ascending=[True, False])]: by tier rank,
    then by falling score; rows that tie keep their order. *)
Definition sort_le (a b : labelled) : bool :=
  let ta := tier_rank (Tier (snd a)) in
  let tb := tier_rank (Tier (snd b)) in
  (ta <? tb) || ((ta =? tb) && (Score (snd b) <=? Score (snd a))).

Definition sort_values (out : list labelled) : list labelled :=
  sort_by sort_le out.

Definition is_tier1 (x : labelled) : bool := String.eqb (Tier (snd x)) "Tier-1".

Definition set_tier (tier : string) (o : report_row) : report_row := {|
  Tier := tier;
  Account_Code := Account_Code o;
  Account_Name := Account_Name o;
  Key_Metrics_Triggered := Key_Metrics_Triggered o;
  Score := Score o;
  Dominant_Metric := Dominant_Metric o
|}.

Definition mem_nat (i : nat) (l : list nat) : bool := existsb (Nat.eqb i) l.

(** The hard cap on Tier-1: when [max_tier1] is set (not zero) and more
    rows than that are Tier-1, the Tier-1 rows past the first [max_tier1]
    in sorted order become Tier-2 and the report is sorted again. *)
Definition cap_tier1 (max_tier1 : Z) (out : list labelled) : list labelled :=
  if negb (max_tier1 =? 0) && (max_tier1 <? count_if is_tier1 out) then
    let t1_idxs := map fst (filter is_tier1 out) in
    let demote := slice_from max_tier1 t1_idxs in
    sort_values
      (map (fun x => if mem_nat (fst x) demote
                     then (fst x, set_tier "Tier-2" (snd x)) else x) out)
  else out.

(** [pd.DataFrame(rows)]: the rows under a fresh index 0, 1, ... *)
Definition with_index (l : list report_row) : list labelled :=
  imap (fun i o => (i, o)) l.

Definition finish (max_tier1 : Z) (rows : list report_row) : list report_row :=
  match rows with
  | [] => []
  | _ :: _ => map snd (cap_tier1 max_tier1 (sort_values (with_index rows)))
  end.

Definition build_deviation_report (results_df : DataFrame)
    (cfg : option DeviationConfig) : result (list report_row) :=
  let cfg := match cfg with Some c => c | None => default_config end in
  let df := results_df in
  if negb (Str.mem "Account Code" (columns df))
     || negb (Str.mem "Account Name" (columns df))
  then Raise (ValueError "Expected columns: 'Account Code', 'Account Name'")
  else
    let metrics := detect_metrics (columns df) in
    match metrics with
    | [] => Raise (ValueError
              "No metrics detected. Expected '<Metric>_CY_Mean' columns.")
    | _ :: _ =>
        let mean_pct := pct_table df metrics "CY_Mean" in
        let std_pct := pct_table df metrics "CY_Std" in
        rows ← iterrows cfg metrics mean_pct std_pct 0 (rows df);
        Ok (finish (Tiering.max_tier1 (tiers cfg)) rows)
    end.

(** ** Vocabulary of the properties of the engine *)

Definition numeric_suffixes : list string :=
  ["LY_Mean"; "CY_Mean"; "LY_Std"; "CY_Std"; "CY_Median"; "Mean_Diff";
   "Std_Diff"; "Cohens_D"].

Definition flag_suffixes : list string :=
  ["TTest_Significant"; "MannWhitney_Significant"; "ANOVA_Significant";
   "KS_Significant"].

(** The numeric fields of metric [m] in row [r], as the scorer parses
    them, and its significance flags. *)
Definition numeric_cells (r : row) (m : string) : list float :=
  map (fun sfx => to_float (get r (col m sfx))) numeric_suffixes.

Definition flag_cells (r : row) (m : string) : list (option bool) :=
  map (fun sfx => to_bool (get r (col m sfx))) flag_suffixes.

Definition flags_unknown (r : row) (m : string) : bool :=
  forallb (fun b => bool_decide (b = None)) (flag_cells r m).

(** No evidence: every numeric field is not-a-number and every flag is
    missing or unknown. *)
Definition no_evidence (r : row) (m : string) : bool :=
  forallb F64.isnan (numeric_cells r m) && flags_unknown r m.

(** A lone field: at most one numeric field holds a number (finite or
    infinite), all others are not-a-number, and every flag is missing or
    unknown. *)
Definition lone_field (r : row) (m : string) : bool :=
  (count_if (fun f => negb (F64.isnan f)) (numeric_cells r m) <=? 1)
  && flags_unknown r m.

(** A cell that holds a plain number: an integer, or a float that is not
    NaN. *)
Definition plain_number (x : pyval) : bool :=
  match x with
  | PInt _ => true
  | PFloat f => negb (F64.isnan f)
  | _ => false
  end.

(** The number of Tier-1 rows of a report. *)
Definition tier1_count (out : list report_row) : Z :=
  count_if (fun o => String.eqb (Tier o) "Tier-1") out.

(** The same row under another tier. *)
Definition same_but_tier (o o' : report_row) : Prop :=
  set_tier "" o = set_tier "" o'.

(** The switches of [enabled_checks] in the order in which a pass over a
    metric reads them. *)
Definition switch_order : list string := [
  "distribution_change";
  "mean_shift";
  "effect_size";
  "cv";
  "low_mean_high_variance";
  "mean_median_gap";
  "pearson_skew";
  "volatility_jump";
  "new_activity";
  "sign_reversal"
].

(** Reading switches one after the other. *)
Fixpoint read_switches (cfg : DeviationConfig) (keys : list string)
  : result unit :=
  match keys with
  | [] => Ok tt
  | k :: keys' => _ ← enabled cfg k; read_switches cfg keys'
  end.

(** The number of Tier-1 rows that the cap leaves out of [n]: all of them
    when [max_tier1] is zero (no cap), at most [max_tier1] when it is
    positive, and all but the last [- max_tier1] when it is negative. *)
Definition cap_count (max_tier1 n : Z) : Z :=
  if max_tier1 =? 0 then n
  else if 0 <? max_tier1 then Z.min n max_tier1
  else Z.max (n + max_tier1) 0.

(** The configuration [cfg] with another [tiers.tier1_min_score], all else
    held fixed. *)
Definition with_tier1_min_score (score : Z) (cfg : DeviationConfig)
  : DeviationConfig := {|
  thresholds := thresholds cfg;
  weights := weights cfg;
  tiers := {|
    Tiering.tier1_min_score := score;
    Tiering.tier2_min_score := Tiering.tier2_min_score (tiers cfg);
    Tiering.tier3_min_score := Tiering.tier3_min_score (tiers cfg);
    Tiering.include_tier3 := Tiering.include_tier3 (tiers cfg);
    Tiering.max_tier1 := Tiering.max_tier1 (tiers cfg);
    Tiering.tier1_materiality_pct := Tiering.tier1_materiality_pct (tiers cfg);
    Tiering.tier1_override_score := Tiering.tier1_override_score (tiers cfg);
    Tiering.drop_pure_volatility_below_mean_pct :=
      Tiering.drop_pure_volatility_below_mean_pct (tiers cfg);
    Tiering.require_any_of_triggers :=
      Tiering.require_any_of_triggers (tiers cfg)
  |};
  profiles := profiles cfg;
  language := language cfg;
  enabled_checks := enabled_checks cfg
|}.

(** The configuration [cfg] with another [tiers.max_tier1]. *)
Definition with_max_tier1 (cap : Z) (cfg : DeviationConfig)
  : DeviationConfig := {|
  thresholds := thresholds cfg;
  weights := weights cfg;
  tiers := {|
    Tiering.tier1_min_score := Tiering.tier1_min_score (tiers cfg);
    Tiering.tier2_min_score := Tiering.tier2_min_score (tiers cfg);
    Tiering.tier3_min_score := Tiering.tier3_min_score (tiers cfg);
    Tiering.include_tier3 := Tiering.include_tier3 (tiers cfg);
    Tiering.max_tier1 := cap;
    Tiering.tier1_materiality_pct := Tiering.tier1_materiality_pct (tiers cfg);
    Tiering.tier1_override_score := Tiering.tier1_override_score (tiers cfg);
    Tiering.drop_pure_volatility_below_mean_pct :=
      Tiering.drop_pure_volatility_below_mean_pct (tiers cfg);
    Tiering.require_any_of_triggers :=
      Tiering.require_any_of_triggers (tiers cfg)
  |};
  profiles := profiles cfg;
  language := language cfg;
  enabled_checks := enabled_checks cfg
|}.

(** The order of the report: by tier rank, then by falling score. *)
Definition report_le (a b : report_row) : Prop :=
  tier_rank (Tier a) < tier_rank (Tier b)
  \/ (tier_rank (Tier a) = tier_rank (Tier b) /\ Score b <= Score a).

Definition tier1 (o : report_row) : bool := String.eqb (Tier o) "Tier-1".

(** A row with its label, moved to Tier-2. *)
Definition demote1 (x : labelled) : labelled :=
  (fst x, set_tier "Tier-2" (snd x)).

(** The rows that qualify for Tier-1, and the others, in the order the
    first sort of the report puts them in. *)
Definition candidates (kept : list report_row) : list report_row :=
  map snd (filter (fun x => is_tier1 x) (sort_values (with_index kept))).

Definition others (kept : list report_row) : list report_row :=
  map snd (filter (fun x => ~ is_tier1 x) (sort_values (with_index kept))).

(** The percentile rank of one row of the batch, as a function of the row
    and of the batch: the entry of [percentile_rank_abs] at the row. *)
Definition row_pct (df : DataFrame) (metric suffix : string) (r : row)
  : float :=
  let col := metric +:+ "_" +:+ suffix in
  if negb (Str.mem col (columns df)) then F64.nan
  else
    let vals := map (fun r => abs_finite (get r col)) (rows df) in
    let non_null := filter (fun v => negb (F64.isnan v)) vals in
    let v := abs_finite (get r col) in
    if F64.isnan v then F64.nan else rank_pct non_null v.

Definition row_pct_at (df : DataFrame) (metrics : list string)
    (suffix : string) (r : row) (m : string) : float :=
  if Str.mem m metrics then row_pct df m suffix r else F64.nan.

(** The loop over rows for a body [g] that needs no row number. *)
Fixpoint collect (g : row -> result (option report_row)) (l : list row)
  : result (list report_row) :=
  match l with
  | [] => Ok []
  | r :: l' =>
      o ← g r;
      rest ← collect g l';
      Ok (match o with Some x => x :: rest | None => rest end)
  end.

(** The body of the loop over rows, with the percentile ranks looked up by
    row rather than by row number. *)
Definition account_of (df : DataFrame) (cfg : DeviationConfig) (r : row)
  : result (option report_row) :=
  let metrics := detect_metrics (columns df) in
  account_row cfg metrics (row_pct_at df metrics "CY_Mean" r)
              (row_pct_at df metrics "CY_Std" r) r.

(** No two different rows of [l] that qualify for Tier-1 have the same
    score. *)
Definition no_tied_candidates (l : list report_row) : Prop :=
  forall a b, a ∈ l -> b ∈ l -> tier1 a = true -> tier1 b = true ->
              Score a = Score b -> a = b.

(** ** Configuration helpers *)

(** Reading a typed field out of a dictionary of attributes. *)
Definition field (l : list (string * pyval)) (k : string) : result pyval :=
  match assoc k l with
  | Some v => Ok v
  | None => Raise AttributeError
  end.

Definition as_float (k : string) (v : pyval) : result float :=
  match v with PFloat f => Ok f | _ => Raise (OutsideModel k) end.

Definition as_int (k : string) (v : pyval) : result Z :=
  match v with PInt z => Ok z | _ => Raise (OutsideModel k) end.

Definition as_bool (k : string) (v : pyval) : result bool :=
  match v with PBool b => Ok b | _ => Raise (OutsideModel k) end.

Definition as_str (k : string) (v : pyval) : result string :=
  match v with PStr s => Ok s | _ => Raise (OutsideModel k) end.

Fixpoint as_strs (k : string) (l : list pyval) : result (list string) :=
  match l with
  | [] => Ok []
  | v :: l' => s ← as_str k v; rest ← as_strs k l'; Ok (s :: rest)
  end.

Definition as_str_tuple (k : string) (v : pyval) : result (list string) :=
  match v with PTuple l => as_strs k l | _ => Raise (OutsideModel k) end.

Definition field_float (l : list (string * pyval)) (k : string) : result float :=
  v ← field l k; as_float k v.

Definition field_int (l : list (string * pyval)) (k : string) : result Z :=
  v ← field l k; as_int k v.

(** The attributes of an object with the attribute [k] set to [v]. *)
Definition update_assoc {A : Type} (k : string) (v : A)
    (l : list (string * A)) : list (string * A) :=
  map (fun kv => if String.eqb (fst kv) k then (k, v) else kv) l.

(** [if hasattr(obj, k): setattr(obj, k, v)] for an object with the
    attributes [fields obj], rebuilt by [of_fields].  Besides the fields of
    its dataclass an object has the attributes of every object, whose names
    start with two underscores ([__class__], [__doc__], ...): setting one of
    those is outside the model. *)
Definition set_if_has {T : Type} (fields : T -> list (string * pyval))
    (of_fields : list (string * pyval) -> result T)
    (obj : T) (k : string) (v : pyval) : result T :=
  if Str.mem k (map fst (fields obj))
  then of_fields (update_assoc k v (fields obj))
  else if String.prefix "__" k then Raise (OutsideModel k)
  else Ok obj.

(** [for k, v in items: if hasattr(obj, k): setattr(obj, k, v)] *)
Fixpoint set_all {T : Type} (setattr : T -> string -> pyval -> result T)
    (items : list (string * pyval)) (obj : T) : result T :=
  match items with
  | [] => Ok obj
  | (k, v) :: items' => obj' ← setattr obj k v; set_all setattr items' obj'
  end.

Module ThresholdsDict.
Import Thresholds.
(** [asdict] of the dataclass *)
Definition fields (t : Thresholds.t) : list (string * pyval) := [
  ("high_cv", PFloat (high_cv t));
  ("moderate_cv", PFloat (moderate_cv t));
  ("mean_median_gap_ratio", PFloat (mean_median_gap_ratio t));
  ("pearson_skew_abs", PFloat (pearson_skew_abs t));
  ("rel_mean_shift", PFloat (rel_mean_shift t));
  ("rel_std_jump", PFloat (rel_std_jump t));
  ("cohens_d_large", PFloat (cohens_d_large t));
  ("cohens_d_medium", PFloat (cohens_d_medium t));
  ("sign_reversal_min_mean_pct", PFloat (sign_reversal_min_mean_pct t));
  ("new_activity_factor", PFloat (new_activity_factor t))
].
Definition of_fields (l : list (string * pyval)) : result Thresholds.t :=
  a1 ← field_float l "high_cv";
  a2 ← field_float l "moderate_cv";
  a3 ← field_float l "mean_median_gap_ratio";
  a4 ← field_float l "pearson_skew_abs";
  a5 ← field_float l "rel_mean_shift";
  a6 ← field_float l "rel_std_jump";
  a7 ← field_float l "cohens_d_large";
  a8 ← field_float l "cohens_d_medium";
  a9 ← field_float l "sign_reversal_min_mean_pct";
  a10 ← field_float l "new_activity_factor";
  Ok (Thresholds.mk a1 a2 a3 a4 a5 a6 a7 a8 a9 a10).
Definition setattr : Thresholds.t -> string -> pyval -> result Thresholds.t :=
  set_if_has fields of_fields.
End ThresholdsDict.

Module WeightsDict.
Import Weights.
Definition fields (t : Weights.t) : list (string * pyval) := [
  ("distribution_change", PInt (distribution_change t));
  ("mean_shift", PInt (mean_shift t));
  ("effect_large", PInt (effect_large t));
  ("effect_medium", PInt (effect_medium t));
  ("high_cv", PInt (high_cv t));
  ("moderate_cv", PInt (moderate_cv t));
  ("mean_median_gap", PInt (mean_median_gap t));
  ("pearson_skew", PInt (pearson_skew t));
  ("volatility_jump", PInt (volatility_jump t));
  ("low_mean_high_variance", PInt (low_mean_high_variance t));
  ("new_activity", PInt (new_activity t));
  ("sign_reversal", PInt (sign_reversal t))
].
Definition of_fields (l : list (string * pyval)) : result Weights.t :=
  a1 ← field_int l "distribution_change";
  a2 ← field_int l "mean_shift";
  a3 ← field_int l "effect_large";
  a4 ← field_int l "effect_medium";
  a5 ← field_int l "high_cv";
  a6 ← field_int l "moderate_cv";
  a7 ← field_int l "mean_median_gap";
  a8 ← field_int l "pearson_skew";
  a9 ← field_int l "volatility_jump";
  a10 ← field_int l "low_mean_high_variance";
  a11 ← field_int l "new_activity";
  a12 ← field_int l "sign_reversal";
  Ok (Weights.mk a1 a2 a3 a4 a5 a6 a7 a8 a9 a10 a11 a12).
Definition setattr : Weights.t -> string -> pyval -> result Weights.t :=
  set_if_has fields of_fields.
End WeightsDict.

Module MetricProfileDict.
Import MetricProfile.
Definition fields (t : MetricProfile.t) : list (string * pyval) := [
  ("name", PStr (name t));
  ("min_mean_pct_for_cv", PFloat (min_mean_pct_for_cv t));
  ("min_mean_pct_for_effect", PFloat (min_mean_pct_for_effect t));
  ("effect_weight_mult", PFloat (effect_weight_mult t));
  ("cv_weight_mult", PFloat (cv_weight_mult t));
  ("low_mean_pct", PFloat (low_mean_pct t));
  ("high_std_pct", PFloat (high_std_pct t))
].
Definition of_fields (l : list (string * pyval)) : result MetricProfile.t :=
  v ← field l "name";
  a1 ← as_str "name" v;
  a2 ← field_float l "min_mean_pct_for_cv";
  a3 ← field_float l "min_mean_pct_for_effect";
  a4 ← field_float l "effect_weight_mult";
  a5 ← field_float l "cv_weight_mult";
  a6 ← field_float l "low_mean_pct";
  a7 ← field_float l "high_std_pct";
  Ok (MetricProfile.mk a1 a2 a3 a4 a5 a6 a7).
Definition setattr
  : MetricProfile.t -> string -> pyval -> result MetricProfile.t :=
  set_if_has fields of_fields.
End MetricProfileDict.

(** [tuple(v)]: the items of a list or tuple, the characters of a string,
    the keys of a dictionary; [TypeError] on what cannot be iterated. *)
Definition py_tuple (v : pyval) : result pyval :=
  match v with
  | PList l => Ok (PTuple l)
  | PTuple l => Ok (PTuple l)
  | PStr s => Ok (PTuple (map (fun c => PStr (String c "")) (Str.chars s)))
  | PDict d => Ok (PTuple (map (fun kv => PStr (fst kv)) d))
  | _ => Raise TypeError
  end.

Module TieringDict.
Import Tiering.
Definition fields (t : Tiering.t) : list (string * pyval) := [
  ("tier1_min_score", PInt (tier1_min_score t));
  ("tier2_min_score", PInt (tier2_min_score t));
  ("tier3_min_score", PInt (tier3_min_score t));
  ("include_tier3", PBool (include_tier3 t));
  ("max_tier1", PInt (max_tier1 t));
  ("tier1_materiality_pct", PFloat (tier1_materiality_pct t));
  ("tier1_override_score", PInt (tier1_override_score t));
  ("drop_pure_volatility_below_mean_pct",
   PFloat (drop_pure_volatility_below_mean_pct t));
  ("require_any_of_triggers", PTuple (map PStr (require_any_of_triggers t)))
].
Definition of_fields (l : list (string * pyval)) : result Tiering.t :=
  a1 ← field_int l "tier1_min_score";
  a2 ← field_int l "tier2_min_score";
  a3 ← field_int l "tier3_min_score";
  v ← field l "include_tier3";
  a4 ← as_bool "include_tier3" v;
  a5 ← field_int l "max_tier1";
  a6 ← field_float l "tier1_materiality_pct";
  a7 ← field_int l "tier1_override_score";
  a8 ← field_float l "drop_pure_volatility_below_mean_pct";
  v ← field l "require_any_of_triggers";
  a9 ← as_str_tuple "require_any_of_triggers" v;
  Ok (Tiering.mk a1 a2 a3 a4 a5 a6 a7 a8 a9).
(** The loop body of [config_from_dict] over [d["tiers"]]: the trigger list
    is stored as a tuple. *)
Definition setattr (t : Tiering.t) (k : string) (v : pyval)
  : result Tiering.t :=
  if Str.mem k (map fst (fields t)) then
    if String.eqb k "require_any_of_triggers"
    then v' ← py_tuple v; of_fields (update_assoc k v' (fields t))
    else of_fields (update_assoc k v (fields t))
  else if String.prefix "__" k then Raise (OutsideModel k)
  else Ok t.
End TieringDict.

(** [bool(v)] *)
Definition py_bool (v : pyval) : bool :=
  match v with
  | PNone => false
  | PBool b => b
  | PInt z => negb (z =? 0)
  | PFloat f => negb (F64.eqb f F64.zero)
  | PStr s => negb (String.eqb s "")
  | PList l | PTuple l => match l with [] => false | _ => true end
  | PDict d => match d with [] => false | _ => true end
  end.

(** [str(v)], but for floats and containers. *)
Definition py_str (v : pyval) : result string :=
  match v with
  | PStr s => Ok s
  | PNone => Ok "None"
  | PBool b => Ok (if b then "True" else "False")
  | PInt z => Ok (NilZero.string_of_int (Z.to_int z))
  | _ => Raise (OutsideModel "str")
  end.

(** [v.items()] *)
Definition items (v : pyval) : result (list (string * pyval)) :=
  match v with
  | PDict d => Ok d
  | _ => Raise AttributeError
  end.

(** [asdict(c)]: dataclasses become dictionaries of their fields, in the
    order of declaration; the dictionaries of the configuration in the
    order of their entries. *)
Definition asdict (c : DeviationConfig) : list (string * pyval) := [
  ("thresholds", PDict (ThresholdsDict.fields (thresholds c)));
  ("weights", PDict (WeightsDict.fields (weights c)));
  ("tiers", PDict (TieringDict.fields (tiers c)));
  ("profiles",
   PDict (map (fun mp => (fst mp, PDict (MetricProfileDict.fields (snd mp))))
              (map_to_list (profiles c))));
  ("language",
   PDict [("bucket_finish",
           PDict (map (fun kv => (fst kv, PStr (snd kv)))
                      (map_to_list (Language.bucket_finish (language c)))))]);
  ("enabled_checks",
   PDict (map (fun kb => (fst kb, PBool (snd kb)))
              (map_to_list (enabled_checks c))))
].

Definition default_config_dict : list (string * pyval) := asdict default_config.

(** The loop over [d["enabled_checks"]]: known switches are set to the truth
    value of the entry, unknown keys are ignored. *)
Fixpoint merge_checks (items : list (string * pyval)) (ec : gmap string bool)
  : gmap string bool :=
  match items with
  | [] => ec
  | (k, v) :: items' =>
      merge_checks items'
        (match ec !! k with
         | Some _ => <[k := py_bool v]> ec
         | None => ec
         end)
  end.

(** The loop over [d["profiles"]]: the profile of a known metric is updated
    field by field, the profile of a new metric starts from
    [MetricProfile(name=metric)]. *)
Fixpoint merge_profiles (entries : list (string * pyval))
    (ps : gmap string MetricProfile.t) : result (gmap string MetricProfile.t) :=
  match entries with
  | [] => Ok ps
  | (metric, profd) :: entries' =>
      kvs ← items profd;
      mp ← set_all MetricProfileDict.setattr kvs
             (match ps !! metric with
              | Some p => p
              | None => MetricProfile.new metric
              end);
      merge_profiles entries' (<[metric := mp]> ps)
  end.

(** [{str(k): str(v) for k, v in bf.items()}] *)
Fixpoint str_items (bf : list (string * pyval)) : result (list (string * string)) :=
  match bf with
  | [] => Ok []
  | (k, v) :: bf' => s ← py_str v; rest ← str_items bf'; Ok ((k, s) :: rest)
  end.

(** [m.update(new)] *)
Definition dict_update {A : Type} (m : gmap string A)
    (new : list (string * A)) : gmap string A :=
  foldl (fun acc kv => <[fst kv := snd kv]> acc) m new.

(** [obj.items()] of the section [k] of [d] run through [loop], when [d]
    has the section. *)
Definition section {T : Type} (d : list (string * pyval)) (k : string)
    (loop : list (string * pyval) -> T -> result T) (obj : T) : result T :=
  match assoc k d with
  | Some v => kvs ← items v; loop kvs obj
  | None => Ok obj
  end.

(** The dictionaries of the model are association lists with distinct keys;
    their keys are strings, so that [str(metric)] is [metric]. *)
Definition config_from_dict (d : list (string * pyval)) : result DeviationConfig :=
  let cfg := default_config in
  th ← section d "thresholds" (set_all ThresholdsDict.setattr) (thresholds cfg);
  we ← section d "weights" (set_all WeightsDict.setattr) (weights cfg);
  ti ← section d "tiers" (set_all TieringDict.setattr) (tiers cfg);
  ec ← section d "enabled_checks"
         (fun kvs ec => Ok (merge_checks kvs ec)) (enabled_checks cfg);
  ps ← match assoc "profiles" d with
       | Some (PDict entries) => merge_profiles entries (profiles cfg)
       | _ => Ok (profiles cfg)
       end;
  la ← match assoc "language" d with
       | Some (PDict l) =>
           match assoc "bucket_finish" l with
           | Some (PDict bf) =>
               new ← str_items bf;
               Ok (Language.mk
                     (dict_update (Language.bucket_finish (language cfg)) new))
           | _ => Ok (language cfg)
           end
       | _ => Ok (language cfg)
       end;
  Ok {| thresholds := th; weights := we; tiers := ti; profiles := ps;
        language := la; enabled_checks := ec |}.

Definition section_names : list string :=
  ["thresholds"; "weights"; "tiers"; "enabled_checks"; "profiles"; "language"].

(** What a configuration comes back as from its dictionary: the entries of
    the default dictionaries that it lacks are filled in, and switches that
    are not among the default ones are dropped. *)
Definition restored (c : DeviationConfig) : DeviationConfig := {|
  thresholds := thresholds c;
  weights := weights c;
  tiers := tiers c;
  profiles := profiles c ∪ profiles default_config;
  language :=
    Language.mk (Language.bucket_finish (language c)
                 ∪ Language.bucket_finish (language default_config));
  enabled_checks :=
    filter (fun kb => is_Some (enabled_checks default_config !! fst kb))
           (enabled_checks c ∪ enabled_checks default_config)
|}.

(** A configuration that has every default entry and no further switch. *)
Definition complete (c : DeviationConfig) : Prop :=
  dom (profiles default_config) ⊆ dom (profiles c)
  /\ dom (Language.bucket_finish (language default_config))
       ⊆ dom (Language.bucket_finish (language c))
  /\ dom (enabled_checks c) = dom (enabled_checks default_config).

(** ** The statistical comparator *)

(** What the comparator takes from [scipy.stats] and from the quantiles of
    [pandas]: each test maps the two samples to its statistic and its
    p-value, [quantile q s] is the [q]-quantile that [describe] reports. *)
Record Library : Type := {
  ttest_ind : list float -> list float -> float * float;
  mannwhitneyu : list float -> list float -> float * float;
  f_oneway : list float -> list float -> float * float;
  ks_2samp : list float -> list float -> float * float;
  pearsonr : list float -> list float -> float * float;
  quantile : float -> list float -> float
}.

Definition f0_05 : float := F64.of_decimal false 5 (-2).
Definition f0_1 : float := F64.of_decimal false 1 (-1).
Definition f0_3 : float := F64.of_decimal false 3 (-1).
Definition f0_25 : float := F64.of_decimal false 25 (-2).
Definition f0_75 : float := F64.of_decimal false 75 (-2).

(** [d[k] = v] on a dictionary kept in insertion order *)
Fixpoint dict_set {A : Type} (k : string) (v : A) (d : list (string * A))
  : list (string * A) :=
  match d with
  | [] => [(k, v)]
  | (k', v') :: d' =>
      if String.eqb k k' then (k, v) :: d' else (k', v') :: dict_set k v d'
  end.

(** The first occurrences of the items of a list, up to [eqb]. *)
Fixpoint distinct {A : Type} (eqb : A -> A -> bool) (l : list A) : list A :=
  match l with
  | [] => []
  | x :: l' => x :: filter (fun y => negb (eqb x y)) (distinct eqb l')
  end.

Module Period.

(** The year and the month of a day given by its number of days since
    1970-01-01, in the proleptic Gregorian calendar. *)
Definition year_month (days : Z) : Z * Z :=
  let z := days + 719468 in
  let era := z / 146097 in
  let doe := z - era * 146097 in
  let yoe := (doe - doe / 1460 + doe / 36524 - doe / 146096) / 365 in
  let doy := doe - (365 * yoe + yoe / 4 - yoe / 100) in
  let mp := (5 * doy + 2) / 153 in
  let m := if mp <? 10 then mp + 3 else mp - 9 in
  (yoe + era * 400 + (if m <=? 2 then 1 else 0), m).

(** The ordinals of [to_period('W')] (weeks that end on Sunday),
    [to_period('M')] and [to_period('Q')]. *)
Definition W (days : Z) : Z := (days + 3) / 7 + 1.

Definition M (days : Z) : Z :=
  let '(y, m) := year_month days in (y - 1970) * 12 + (m - 1).

Definition Q (days : Z) : Z :=
  let '(y, m) := year_month days in (y - 1970) * 4 + (m - 1) / 3.

End Period.

Module StatisticalInferences.

(** A prepared ledger, what [load_and_prepare_data] leaves of a frame that
    is not empty: the rows with a date, each with the day of its date (days
    since 1970-01-01; the time of day plays no part in a period) and its
    numeric cells, NaN where the text was no number.  The frame has the
    [Date] column besides [ledger_columns], so it is empty when it has no
    row.  On an empty frame [load_and_prepare_data] returns [None]. *)
Record entry : Type := {
  Date : Z;
  amounts : list (string * float)
}.

Record ledger : Type := {
  ledger_columns : list string;
  entries : list entry
}.

Definition amount (c : string) (e : entry) : float :=
  match assoc c (amounts e) with
  | Some x => x
  | None => F64.nan
  end.

(** The object: the columns of interest and the two prepared frames. *)
Record t : Type := {
  columns_of_interest : list string;
  df_last_year : option ledger;
  df_current_year : option ledger
}.

(** The labels of the groups: a period, ordered by its ordinal, or the
    text of half the week ordinal, ordered as text. *)
Inductive group_key : Type :=
| ByPeriod (ordinal : Z)
| ByText (label : string).

Definition key_eqb (a b : group_key) : bool :=
  match a, b with
  | ByPeriod m, ByPeriod n => m =? n
  | ByText s, ByText u => String.eqb s u
  | _, _ => false
  end.

Definition key_le (a b : group_key) : bool :=
  match a, b with
  | ByPeriod m, ByPeriod n => m <=? n
  | ByText s, ByText u => String.leb s u
  | ByPeriod _, ByText _ => true
  | ByText _, ByPeriod _ => false
  end.

(** A frame indexed by period, one series for each column; [pd.DataFrame()]
    has neither rows nor columns. *)
Record frame : Type := {
  index : list group_key;
  data : list (string * list float)
}.

Definition empty_frame : frame := {| index := []; data := [] |}.

(** [f.empty] *)
Definition is_empty (f : frame) : bool :=
  match index f, data f with
  | _ :: _, _ :: _ => false
  | _, _ => true
  end.

Definition invalid_period : string :=
  "Invalid period specified. Choose from 'weekly'," +:+ String newline
    "                                'bi-weekly', 'monthly', or 'quarterly'.".

Definition period_names : list string :=
  ["weekly"; "bi-weekly"; "monthly"; "quarterly"].

(** The [Period] column for the period name, or the [ValueError]. *)
Definition period_column (period : string) (dates : list Z)
  : result (list group_key) :=
  if String.eqb period "weekly" then
    Ok (map (fun d => ByPeriod (Period.W d)) dates)
  else if String.eqb period "bi-weekly" then
    Ok (map (fun d => ByText (NilZero.string_of_int (Z.to_int (Period.W d / 2))))
            dates)
  else if String.eqb period "monthly" then
    Ok (map (fun d => ByPeriod (Period.M d)) dates)
  else if String.eqb period "quarterly" then
    Ok (map (fun d => ByPeriod (Period.Q d)) dates)
  else Raise (ValueError invalid_period).

(** A step of the sum of a group as [pandas] adds it, with the
    compensation of Kahan: for the running sum [sumx], the compensation and
    the next cell [val], [y = val - compensation], [t = sumx + y], the new
    compensation is [t - sumx - y], put back to 0 when it is NaN (after an
    infinity), and the new sum is [t]. *)
Definition kahan_step (acc : float * float) (val : float) : float * float :=
  let y := F64.sub val (snd acc) in
  let t := F64.add (fst acc) y in
  let compensation := F64.sub (F64.sub t (fst acc)) y in
  (t, if F64.isnan compensation then F64.zero else compensation).

(** The sum of a group: the cells of the rows of the group from the first
    to the last, NaN cells skipped, added by [kahan_step] from a sum and a
    compensation of 0.  A group of NaN cells sums to 0. *)
Definition group_sum (keys : list group_key) (cells : list float)
    (k : group_key) : float :=
  fst (fold_left kahan_step
         (map snd (filter (fun kc => key_eqb (fst kc) k
                                     && negb (F64.isnan (snd kc)))
                          (combine keys cells)))
         (F64.zero, F64.zero)).

(** [df.groupby('Period')[columns].sum()]: the groups in the order of
    their labels; a column that the frame lacks is a [KeyError]. *)
Fixpoint groupby_sum (df : ledger) (keys labels : list group_key)
    (columns : list string) : result (list (string * list float)) :=
  match columns with
  | [] => Ok []
  | c :: columns' =>
      if Str.mem c (ledger_columns df) then
        rest ← groupby_sum df keys labels columns';
        Ok ((c, map (group_sum keys (map (amount c) (entries df))) labels)
            :: rest)
      else Raise (KeyError c)
  end.

Definition aggregate (self : t) (df : option ledger) (period : string)
  : result frame :=
  match df with
  | Some (Build_ledger _ (_ :: _) as df) =>
      keys ← period_column period (map Date (entries df));
      let labels := sort_by key_le (distinct key_eqb keys) in
      series ← groupby_sum df keys labels (columns_of_interest self);
      Ok {| index := labels; data := series |}
  | _ => Ok empty_frame
  end.

(** *** Descriptive statistics *)

Definition len {A : Type} (l : list A) : Z := Z.of_nat (length l).

Definition notna (s : list float) : list float :=
  filter (fun x => negb (F64.isnan x)) s.

(** [s.nunique()]: the number of distinct values, NaN left out. *)
Definition nunique (s : list float) : Z := len (distinct F64.eqb (notna s)).

Definition fsum (s : list float) : float := fold_left F64.add s F64.zero.

(** The statistics of [describe] skip NaN.  The mean is the sum over the
    count; the standard deviation is the one of a sample: the square root
    of the sum of the squared distances to the mean over the count less
    one, NaN when there are fewer than two values.  The sums are taken
    from the first value to the last, which is the order of [numpy] for
    fewer than eight values; from eight values on [numpy] adds by blocks,
    and the last bits of a mean or of a standard deviation can differ
    from the ones here. *)
Definition mean (s : list float) : float :=
  let v := notna s in F64.div (fsum v) (F64.of_Z (len v)).

Definition var (s : list float) : float :=
  let v := notna s in
  if len v <=? 1 then F64.nan
  else
    let avg := F64.div (fsum v) (F64.of_Z (len v)) in
    let sqr := map (fun x => let d := F64.sub avg x in F64.mul d d) v in
    F64.div (fsum sqr) (F64.of_Z (len v - 1)).

Definition std (s : list float) : float := F64.sqrt (var s).

Definition smallest (s : list float) : float :=
  match notna s with
  | [] => F64.nan
  | x :: v => fold_left (fun a b => if F64.ltb b a then b else a) v x
  end.

Definition largest (s : list float) : float :=
  match notna s with
  | [] => F64.nan
  | x :: v => fold_left (fun a b => if F64.gtb b a then b else a) v x
  end.

(** A column of [f.describe()] *)
Record summary : Type := {
  s_count : Z;
  s_mean : float;
  s_std : float;
  s_min : float;
  s_25 : float;
  s_50 : float;
  s_75 : float;
  s_max : float
}.

Definition summarize (lib : Library) (s : list float) : summary := {|
  s_count := len (notna s);
  s_mean := mean s;
  s_std := std s;
  s_min := smallest s;
  s_25 := quantile lib f0_25 s;
  s_50 := quantile lib f0_5 s;
  s_75 := quantile lib f0_75 s;
  s_max := largest s
|}.

Definition describe (lib : Library) (f : frame) : list (string * summary) :=
  map (fun cs => (fst cs, summarize lib (snd cs))) (data f).

(** [f[c]] *)
Definition getitem {A : Type} (d : list (string * A)) (c : string) : result A :=
  match assoc c d with
  | Some x => Ok x
  | None => Raise (KeyError c)
  end.

(** *** The comparison of one metric *)

Definition differences (ly cy : summary) : list (string * pyval) := [
  ("mean_diff", PFloat (F64.sub (s_mean cy) (s_mean ly)));
  ("std_diff", PFloat (F64.sub (s_std cy) (s_std ly)));
  ("min_diff", PFloat (F64.sub (s_min cy) (s_min ly)));
  ("max_diff", PFloat (F64.sub (s_max cy) (s_max ly)));
  ("25%_diff", PFloat (F64.sub (s_25 cy) (s_25 ly)));
  ("50%_diff", PFloat (F64.sub (s_50 cy) (s_50 ly)));
  ("75%_diff", PFloat (F64.sub (s_75 cy) (s_75 ly)))
].

(** The statistic, the p-value and [p < 0.05] of a test, under the keys
    given. *)
Definition test_entries (k_stat k_pval k_significant : string)
    (r : float * float) : list (string * pyval) := [
  (k_stat, PFloat (fst r));
  (k_pval, PFloat (snd r));
  (k_significant, PBool (F64.ltb (snd r) f0_05))
].

Definition corr_strength (corr_abs : float) : string :=
  if F64.ltb f0_1 corr_abs && F64.ltb corr_abs f0_3 then "weak"
  else if F64.ltb f0_3 corr_abs && F64.ltb corr_abs f0_5 then "moderate"
  else if F64.gtb corr_abs f0_5 then "strong"
  else "none".

(** The correlation is computed when the two series are as long. *)
Definition correlation (lib : Library) (ly cy : list float)
  : list (string * pyval) :=
  if len ly =? len cy then
    let r := pearsonr lib ly cy in
    test_entries "corr_coef" "corr_pval" "corr_significant" r
    ++ [("corr_strength", PStr (corr_strength (F64.abs (fst r))))]
  else [].

Definition pooled_std (std_ly std_cy : float) : float :=
  F64.sqrt (F64.div (F64.add (F64.mul std_ly std_ly) (F64.mul std_cy std_cy))
                    (F64.of_Z 2)).

Definition effect_size (abs_cd : float) : string :=
  if F64.ltb abs_cd f0_2 then "small"
  else if F64.ltb abs_cd f0_5 then "medium"
  else if F64.geb abs_cd f0_8 then "large"
  else "none".

(** Cohen's d and its label; the second branch is the one for a pooled
    standard deviation of zero. *)
Definition effect (mean_diff std_ly std_cy : float) : list (string * pyval) :=
  let pooled := pooled_std std_ly std_cy in
  if F64.neqb pooled F64.zero then
    let cohens_d := F64.div mean_diff pooled in
    [("cohens_d", PFloat cohens_d);
     ("effect_size", PStr (effect_size (F64.abs cohens_d)))]
  else
    [("cohens_d", PFloat F64.nan); ("effect_size", PStr "none")].

(** The body of the loop for a metric that is evaluated. *)
Definition inferences (lib : Library) (ly cy : list float)
    (describe_ly describe_cy : summary) : list (string * pyval) :=
  differences describe_ly describe_cy
  ++ test_entries "t_stat" "t_pval" "t_significant" (ttest_ind lib ly cy)
  ++ test_entries "u_stat" "u_pval" "u_significant" (mannwhitneyu lib ly cy)
  ++ test_entries "anova_f_stat" "anova_pval" "anova_significant"
       (f_oneway lib ly cy)
  ++ test_entries "ks_stat" "ks_pval" "ks_significant" (ks_2samp lib ly cy)
  ++ correlation lib ly cy
  ++ effect (F64.sub (s_mean describe_cy) (s_mean describe_ly))
       (s_std describe_ly) (s_std describe_cy).

(** The test of the loop, then its body: [None] for a metric that is
    skipped. *)
Definition compare_column (lib : Library) (monthly_ly monthly_cy : frame)
    (describe_ly describe_cy : list (string * summary)) (column : string)
  : result (option (list (string * pyval))) :=
  if Str.mem column (map fst (data monthly_cy)) then
    ly ← getitem (data monthly_ly) column;
    if 1 <? nunique ly then
      cy ← getitem (data monthly_cy) column;
      if 1 <? nunique cy then
        d_cy ← getitem describe_cy column;
        d_ly ← getitem describe_ly column;
        Ok (Some (inferences lib ly cy d_ly d_cy))
      else Ok None
    else Ok None
  else Ok None.

Fixpoint compare_columns (lib : Library) (monthly_ly monthly_cy : frame)
    (describe_ly describe_cy : list (string * summary))
    (columns : list string)
    (comparison_inferences : list (string * list (string * pyval)))
  : result (list (string * list (string * pyval))) :=
  match columns with
  | [] => Ok comparison_inferences
  | column :: columns' =>
      o ← compare_column lib monthly_ly monthly_cy describe_ly describe_cy
            column;
      compare_columns lib monthly_ly monthly_cy describe_ly describe_cy
        columns'
        (match o with
         | Some e => dict_set column e comparison_inferences
         | None => comparison_inferences
         end)
  end.

(** The two descriptions and the comparison, a dictionary by metric; three
    empty frames when a year has nothing to compare. *)
Definition compare_statistical_inferences (lib : Library) (self : t)
    (period : string)
  : result (list (string * summary) * list (string * summary)
            * list (string * list (string * pyval))) :=
  monthly_last_year ← aggregate self (df_last_year self) period;
  monthly_current_year ← aggregate self (df_current_year self) period;
  if negb (is_empty monthly_last_year) && negb (is_empty monthly_current_year)
  then
    let describe_last_year := describe lib monthly_last_year in
    let describe_current_year := describe lib monthly_current_year in
    comparison ← compare_columns lib monthly_last_year monthly_current_year
                   describe_last_year describe_current_year
                   (columns_of_interest self) [];
    Ok (describe_last_year, describe_current_year, comparison)
  else Ok ([], [], []).

(** *** Vocabulary of the properties *)

(** A frame with rows: neither [None] nor empty. *)
Definition has_rows (df : option ledger) : bool :=
  match df with
  | Some df => match entries df with [] => false | _ :: _ => true end
  | None => false
  end.

Definition has_columns (columns : list string) (df : option ledger) : bool :=
  match df with
  | Some df =>
      match entries df with
      | [] => true
      | _ :: _ => forallb (fun c => Str.mem c (ledger_columns df)) columns
      end
  | None => true
  end.

(** What the constructor leaves: frames that have the columns of interest
    when they have rows.  The names of the columns are distinct (with a
    name that is repeated the selection of a column is a frame, no
    series). *)
Definition prepared (self : t) : bool :=
  bool_decide (NoDup (columns_of_interest self))
  && has_columns (columns_of_interest self) (df_last_year self)
  && has_columns (columns_of_interest self) (df_current_year self).

(** The series of a metric has more than one distinct value. *)
Definition varies (f : frame) (c : string) : bool :=
  match assoc c (data f) with
  | Some s => 1 <? nunique s
  | None => false
  end.

(** The entry of a metric in the comparison of two aggregated frames. *)
Definition entry_of (lib : Library) (monthly_ly monthly_cy : frame)
    (c : string) : option (list (string * pyval)) :=
  match assoc c (data monthly_ly), assoc c (data monthly_cy) with
  | Some ly, Some cy =>
      if (1 <? nunique ly) && (1 <? nunique cy)
      then Some (inferences lib ly cy (summarize lib ly) (summarize lib cy))
      else None
  | _, _ => None
  end.

(** The dictionary that the loop over the columns builds. *)
Definition collected (lib : Library) (ly cy : frame) (columns : list string)
    (acc : list (string * list (string * pyval)))
  : list (string * list (string * pyval)) :=
  fold_left (fun acc c => match entry_of lib ly cy c with
                          | Some e => dict_set c e acc
                          | None => acc
                          end) columns acc.

(** The keys of the descriptive differences, of the four tests and of the
    effect size. *)
Definition emitted_keys : list string := [
  "mean_diff"; "std_diff"; "min_diff"; "max_diff";
  "25%_diff"; "50%_diff"; "75%_diff";
  "t_stat"; "t_pval"; "t_significant";
  "u_stat"; "u_pval"; "u_significant";
  "anova_f_stat"; "anova_pval"; "anova_significant";
  "ks_stat"; "ks_pval"; "ks_significant";
  "cohens_d"; "effect_size"
].

End StatisticalInferences.

(** ** Vocabulary of the properties of the engine *)

(** What a check does to the tally: nothing, or one trigger fired. *)
Definition fires_only (names : list string) (s s' : tally) : Prop :=
  s' = s \/ exists name n, name ∈ names /\ s' = fire name n s.

(** With at most one numeric field that is a number and no known flag,
    every guard of the scorer that needs two valid numbers, or a
    significant test, is closed. *)
Record quiet (x : signals) : Prop := {
  quiet_dist : dist_change x = false;
  quiet_mean : mean_change x = false;
  quiet_shift : F64.isnan (mean_diff x) || F64.isnan (ly_mean x)
                || F64.isnan (cy_mean x) = true;
  quiet_move : F64.isnan (mean_diff x) || F64.isnan (ly_mean x) = true;
  quiet_cv : F64.isnan (cy_std x) || F64.isnan (cy_mean x) = true;
  quiet_gap : F64.isnan (cy_mean x) || F64.isnan (cy_med x) = true;
  quiet_skew : F64.isnan (cy_mean x) || F64.isnan (cy_med x)
               || F64.isnan (cy_std x) = true;
  quiet_jump : F64.isnan (std_diff x) || F64.isnan (ly_std x) = true;
  quiet_means : F64.isnan (ly_mean x) || F64.isnan (cy_mean x) = true
}.

(** The demotion step of the cap on its own. *)
Definition demote_rows (demote : list nat) (out : list labelled)
  : list labelled :=
  map (fun x => if mem_nat (fst x) demote
                then (fst x, set_tier "Tier-2" (snd x)) else x) out.

(** The row that an account contributes is a Tier-1 row. *)
Definition row_is_tier1 (o : option report_row) : bool :=
  match o with
  | Some x => String.eqb (Tier x) "Tier-1"
  | None => false
  end.

(** The order of [sort_values] as a relation. *)
Definition labelled_le (a b : labelled) : Prop := sort_le a b = true.

(** ** Vocabulary of the further properties *)

(** [isinstance(v, dict)] *)
Definition is_dict (v : pyval) : bool :=
  match v with
  | PDict _ => true
  | _ => false
  end.

(** The dictionary without the key [k]. *)
Definition without {A : Type} (k : string) (d : list (string * A))
  : list (string * A) :=
  List.filter (fun kv => negb (String.eqb (fst kv) k)) d.

(** The exceptions that scoring a row can raise: the [KeyError] of a
    switch that [enabled_checks] lacks, and the errors of [int(w * mult)]
    for a product that is no finite number. *)
Definition scoring_error (cfg : DeviationConfig) (e : exn) : Prop :=
  (exists k, k ∈ switch_order /\ enabled_checks cfg !! k = None
             /\ e = KeyError k)
  \/ e = OverflowError
  \/ e = ValueError "cannot convert float NaN to integer".

(** The exceptions of a row: those of its scores, and the [KeyError] of
    [interpret] for a language without a text for ["general"]. *)
Definition report_error (cfg : DeviationConfig) (e : exn) : Prop :=
  scoring_error cfg e
  \/ (Language.bucket_finish (language cfg) !! "general" = None
      /\ e = KeyError "general").

(** A frame that [pd.to_numeric] takes without an exception: no label is
    repeated (the selection of a repeated label is a frame, no column),
    and no cell holds an integer beyond the range of the floats. *)
Definition in_float_range (x : pyval) : bool :=
  match x with
  | PInt z => negb (F64.isinf (F64.of_Z z))
  | _ => true
  end.

Definition plain_frame (df : DataFrame) : Prop :=
  NoDup (columns df)
  /\ Forall (fun r => Forall (fun kv => in_float_range (snd kv) = true) r)
            (rows df).

Definition missing_columns : string :=
  "Expected columns: 'Account Code', 'Account Name'".

Definition no_metrics : string :=
  "No metrics detected. Expected '<Metric>_CY_Mean' columns.".

(** ** Input validation *)

(** [df.empty]: no row or no column. *)
Definition df_empty (df : DataFrame) : bool :=
  match columns df, rows df with
  | _ :: _, _ :: _ => false
  | _, _ => true
  end.

Definition validate_input_df (df : option DataFrame) : bool * list string :=
  match df with
  | None => (false, ["CSV looks empty."])
  | Some df =>
      if df_empty df then (false, ["CSV looks empty."])
      else
        let issues :=
          flat_map (fun col => if negb (Str.mem col (columns df))
                               then ["Missing required column: " +:+ col]
                               else [])
                   ["Account Code"; "Account Name"] in
        let metrics := detect_metrics (columns df) in
        let issues :=
          issues ++ match metrics with
                    | [] => ["No '<Metric>_CY_Mean' columns found. Input doesn't look like gl_analysis_results_monthly.csv."]
                    | _ :: _ => []
                    end in
        (Z.of_nat (length issues) =? 0, issues)
  end.

(** The triggers that each switch of [enabled_checks] governs. *)
Definition switch_triggers : list (string * list string) := [
  ("distribution_change", ["Distribution Change"]);
  ("mean_shift", ["Mean Shift"]);
  ("effect_size", ["Large Effect Size"; "Medium Effect Size"]);
  ("cv", ["High CV"; "Moderate CV"]);
  ("low_mean_high_variance", ["Low Mean with High Variance"]);
  ("mean_median_gap", ["Mean-Median Gap"]);
  ("pearson_skew", ["Pearson Skew"]);
  ("volatility_jump", ["Volatility Jump"]);
  ("new_activity", ["New Activity / Re-start"]);
  ("sign_reversal", ["Sign Reversal"])
].

(** The configuration [cfg] with other switches. *)
Definition with_enabled_checks (ec : gmap string bool) (cfg : DeviationConfig)
  : DeviationConfig := {|
  thresholds := thresholds cfg;
  weights := weights cfg;
  tiers := tiers cfg;
  profiles := profiles cfg;
  language := language cfg;
  enabled_checks := ec
|}.

(** What a check does to the tally: nothing, or, when its switch [k] is
    on, one of its triggers fired. *)
Definition fires_when (cfg : DeviationConfig) (k : string)
    (names : list string) (s s' : tally) : Prop :=
  s' = s
  \/ (enabled_checks cfg !! k = Some true
      /\ exists name n, name ∈ names /\ s' = fire name n s).

(** Every trigger of the tally is one that a switch that is on governs. *)
Definition triggers_enabled (cfg : DeviationConfig) (s : tally) : Prop :=
  forall name, name ∈ snd s ->
    exists k names, (k, names) ∈ switch_triggers /\ name ∈ names
                    /\ enabled_checks cfg !! k = Some true.

(** ** The analyzer's row of an account *)

Module GLAnalyzer.

Import StatisticalInferences.

(** [column.replace(' ', '_')] *)
Definition prefix_of (column : string) : string :=
  Str.of_chars (map (fun ch => if Ascii.eqb ch " " then "_"%char else ch)
                    (Str.chars column)).

(** [pd.DataFrame(d)[column].get(k, None)] on a dictionary [d] of
    dictionaries: the index of the frame holds the keys of all the inner
    dictionaries, a cell whose key the dictionary of the column lacks is
    NaN, and a key outside the index gives the default. *)
Definition series_get (comparison_df : list (string * list (string * pyval)))
    (data : list (string * pyval)) (k : string) : pyval :=
  match assoc k data with
  | Some v => v
  | None =>
      if existsb (fun ce => Str.mem k (map fst (snd ce))) comparison_df
      then PFloat F64.nan
      else PNone
  end.

(** The assignments [result[k] = v], from the first to the last. *)
Definition set_items (items : list (string * pyval)) (result : row) : row :=
  fold_left (fun d kv => dict_set (fst kv) (snd kv) d) items result.

(** The five cells taken from a column of [describe()], for the year that
    [year] names ([LY] or [CY]). *)
Definition described (prefix year : string) (s : summary)
  : list (string * pyval) := [
  (col prefix (year +:+ "_Mean"), PFloat (s_mean s));
  (col prefix (year +:+ "_Std"), PFloat (s_std s));
  (col prefix (year +:+ "_Min"), PFloat (s_min s));
  (col prefix (year +:+ "_Max"), PFloat (s_max s));
  (col prefix (year +:+ "_Median"), PFloat (s_50 s))
].

(** The cells taken from the column of the comparison. *)
Definition compared (prefix : string) (get : string -> pyval)
  : list (string * pyval) := [
  (col prefix "Mean_Diff", get "mean_diff");
  (col prefix "Std_Diff", get "std_diff");
  (col prefix "Min_Diff", get "min_diff");
  (col prefix "Max_Diff", get "max_diff");
  (col prefix "Median_Diff", get "50%_diff");
  (col prefix "TTest_Statistic", get "t_stat");
  (col prefix "TTest_PValue", get "t_pval");
  (col prefix "TTest_Significant", get "t_significant");
  (col prefix "MannWhitney_Statistic", get "u_stat");
  (col prefix "MannWhitney_PValue", get "u_pval");
  (col prefix "MannWhitney_Significant", get "u_significant");
  (col prefix "ANOVA_FStatistic", get "anova_f_stat");
  (col prefix "ANOVA_PValue", get "anova_pval");
  (col prefix "ANOVA_Significant", get "anova_significant");
  (col prefix "KS_Statistic", get "ks_stat");
  (col prefix "KS_PValue", get "ks_pval");
  (col prefix "KS_Significant", get "ks_significant");
  (col prefix "Cohens_D", get "cohens_d");
  (col prefix "Effect_Size", get "effect_size");
  (col prefix "Correlation", get "corr_coef");
  (col prefix "Correlation_PValue", get "corr_pval");
  (col prefix "Correlation_Significant", get "corr_significant");
  (col prefix "Correlation_Strength", get "corr_strength")
].

(** The body of the loop for one column of interest.  A frame of
    [describe()] has rows, so it is empty only without columns: the test
    of [column in desc.columns] decides. *)
Definition extract_column
    (desc_last_year desc_current_year : list (string * summary))
    (comparison_df : list (string * list (string * pyval)))
    (result : row) (column : string) : row :=
  match assoc column comparison_df with
  | None => result
  | Some data =>
      let prefix := prefix_of column in
      let result :=
        match assoc column desc_last_year with
        | Some s => set_items (described prefix "LY" s) result
        | None => result
        end in
      let result :=
        match assoc column desc_current_year with
        | Some s => set_items (described prefix "CY" s) result
        | None => result
        end in
      set_items (compared prefix (series_get comparison_df data)) result
  end.

Definition _extract_metrics (columns_of_interest : list string)
    (account_code account_name : pyval)
    (desc_last_year desc_current_year : list (string * summary))
    (comparison_df : list (string * list (string * pyval))) : row :=
  fold_left (extract_column desc_last_year desc_current_year comparison_df)
    columns_of_interest
    [("Account Code", account_code); ("Account Name", account_name)].

(** The suffixes of the labels that [_extract_metrics] writes. *)
Definition suffixes : list string := [
  "LY_Mean"; "LY_Std"; "LY_Min"; "LY_Max"; "LY_Median";
  "CY_Mean"; "CY_Std"; "CY_Min"; "CY_Max"; "CY_Median";
  "Mean_Diff"; "Std_Diff"; "Min_Diff"; "Max_Diff"; "Median_Diff";
  "TTest_Statistic"; "TTest_PValue"; "TTest_Significant";
  "MannWhitney_Statistic"; "MannWhitney_PValue"; "MannWhitney_Significant";
  "ANOVA_FStatistic"; "ANOVA_PValue"; "ANOVA_Significant";
  "KS_Statistic"; "KS_PValue"; "KS_Significant";
  "Cohens_D"; "Effect_Size";
  "Correlation"; "Correlation_PValue"; "Correlation_Significant";
  "Correlation_Strength"
].

(** A label ends with an underscore and a suffix. *)
Definition ends_with (suffix label : string) : bool :=
  Str.is_prefix (rev ("_"%char :: Str.chars suffix)) (rev (Str.chars label)).

End GLAnalyzer.

(** ** Sample batches *)

Definition sample_columns : list string :=
  ["Account Code"; "Account Name"; "Credit_LY_Mean"; "Credit_CY_Mean";
   "Credit_CY_Std"; "Credit_TTest_Significant"; "Credit_KS_Significant";
   "Credit_Effect_Size"].

(** An account whose credit postings moved from a mean of 301.28 to a mean of
    773.04, with a significant t-test and KS test and a large effect. *)
Definition moved_account (code : string) : row := [
  ("Account Code", PStr code);
  ("Account Name", PStr "Sales");
  ("Credit_LY_Mean", PFloat (F64.of_decimal false 30128 (-2)));
  ("Credit_CY_Mean", PFloat (F64.of_decimal false 77304 (-2)));
  ("Credit_CY_Std", PFloat F64.nan);
  ("Credit_TTest_Significant", PBool true);
  ("Credit_KS_Significant", PBool true);
  ("Credit_Effect_Size", PStr "large")
].

(** An account all of whose credit fields are blank. *)
Definition blank_account (code : string) : row := [
  ("Account Code", PStr code);
  ("Account Name", PStr "Bank fees");
  ("Credit_LY_Mean", PFloat F64.nan);
  ("Credit_CY_Mean", PStr "");
  ("Credit_CY_Std", PNone);
  ("Credit_TTest_Significant", PFloat F64.nan);
  ("Credit_KS_Significant", PNone);
  ("Credit_Effect_Size", PFloat F64.nan)
].

Definition sample_batch : DataFrame := {|
  columns := sample_columns;
  rows := [moved_account "4000"; blank_account "4100"; moved_account "4200"]
|}.

(** The same accounts in another order. *)
Definition sample_batch_permuted : DataFrame := {|
  columns := sample_columns;
  rows := [moved_account "4200"; blank_account "4100"; moved_account "4000"]
|}.

Definition sample_row (tier code : string) : report_row := {|
  Tier := tier;
  Account_Code := PStr code;
  Account_Name := PStr "Sales";
  Key_Metrics_Triggered := "Distribution Change, Mean Shift, Large Effect Size";
  Score := 14;
  Dominant_Metric := "Credit"
|}.

(** An account whose significance flags are coded as numbers. *)
Definition coded_account : row := [
  ("Account Code", PStr "4300");
  ("Account Name", PStr "Interest");
  ("Credit_LY_Mean", PFloat (F64.of_decimal false 30128 (-2)));
  ("Credit_CY_Mean", PFloat (F64.of_decimal false 77304 (-2)));
  ("Credit_CY_Std", PFloat F64.nan);
  ("Credit_TTest_Significant", PInt 1);
  ("Credit_KS_Significant", PFloat (F64.of_Z 1));
  ("Credit_Effect_Size", PStr "large")
].

(** The default configuration without its per-metric profiles,
    [DeviationConfig(profiles={})]. *)
Definition bare_config : DeviationConfig := {|
  thresholds := Thresholds.default;
  weights := Weights.default;
  tiers := Tiering.default;
  profiles := ∅;
  language := Language.default;
  enabled_checks := enabled_checks default_config
|}.

(** A library whose tests and quantiles answer NaN. *)
Definition blank_library : Library := {|
  ttest_ind := fun _ _ => (F64.nan, F64.nan);
  mannwhitneyu := fun _ _ => (F64.nan, F64.nan);
  f_oneway := fun _ _ => (F64.nan, F64.nan);
  ks_2samp := fun _ _ => (F64.nan, F64.nan);
  pearsonr := fun _ _ => (F64.nan, F64.nan);
  quantile := fun _ _ => F64.nan
|}.

Definition posting (day : Z) (debit credit : float)
  : StatisticalInferences.entry := {|
  StatisticalInferences.Date := day;
  StatisticalInferences.amounts := [("Debit", debit); ("Credit", credit)]
|}.

Definition postings (l : list StatisticalInferences.entry)
  : option StatisticalInferences.ledger :=
  Some {| StatisticalInferences.ledger_columns := ["Debit"; "Credit"];
          StatisticalInferences.entries := l |}.

(** Two months of each year (15 January and 15 February of 2023 and of
    2024): the debits move, the credits of the last year do not. *)
Definition sample_comparator : StatisticalInferences.t := {|
  StatisticalInferences.columns_of_interest := ["Debit"; "Credit"];
  StatisticalInferences.df_last_year :=
    postings [posting 19372 (F64.of_Z 100) (F64.of_Z 50);
              posting 19403 (F64.of_Z 300) (F64.of_Z 50)];
  StatisticalInferences.df_current_year :=
    postings [posting 19737 (F64.of_Z 200) (F64.of_Z 70);
              posting 19768 (F64.of_Z 600) (F64.of_Z 90)]
|}.

(** The same months with debits of 0 and of 1e-200 in both years. *)
Definition tiny_comparator : StatisticalInferences.t := {|
  StatisticalInferences.columns_of_interest := ["Debit"];
  StatisticalInferences.df_last_year :=
    postings [posting 19372 F64.zero F64.zero;
              posting 19403 (F64.of_decimal false 1 (-200)) F64.zero];
  StatisticalInferences.df_current_year :=
    postings [posting 19737 F64.zero F64.zero;
              posting 19768 (F64.of_decimal false 1 (-200)) F64.zero]
|}.

(** A comparator whose frames were empty. *)
Definition idle_comparator : StatisticalInferences.t := {|
  StatisticalInferences.columns_of_interest := ["Debit"; "Credit"];
  StatisticalInferences.df_last_year := None;
  StatisticalInferences.df_current_year := None
|}.

(** What a call returns, three empty frames for a call that raises. *)
Definition returned {A B C : Type}
    (r : result (list A * list B * list C)) : list A * list B * list C :=
  match r with
  | Ok x => x
  | Raise _ => ([], [], [])
  end.

Definition sample_comparison
  : list (string * StatisticalInferences.summary)
    * list (string * StatisticalInferences.summary)
    * list (string * list (string * pyval)) :=
  Eval vm_compute in
    returned (StatisticalInferences.compare_statistical_inferences
                blank_library sample_comparator "monthly").

Definition tiny_comparison
  : list (string * StatisticalInferences.summary)
    * list (string * StatisticalInferences.summary)
    * list (string * list (string * pyval)) :=
  Eval vm_compute in
    returned (StatisticalInferences.compare_statistical_inferences
                blank_library tiny_comparator "monthly").

(** The entry of a metric in a comparison, under a key. *)
Definition inference (comparison : list (string * list (string * pyval)))
    (metric key : string) : option pyval :=
  e ← assoc metric comparison; assoc key e.

(** A dictionary that sets the switch of the CV check to the text
    ["false"]. *)
Definition text_switch_dict : list (string * pyval) :=
  [("enabled_checks", PDict [("cv", PStr "false")])].

(** The sample batch with its columns in the opposite order. *)
Definition sample_batch_reversed : DataFrame := {|
  columns := rev (columns sample_batch);
  rows := rows sample_batch
|}.

(** The default configuration with every check switched off. *)
Definition all_off_config : DeviationConfig :=
  with_enabled_checks (list_to_map (map (fun k => (k, false)) check_names))
                      default_config.

(** An account with a current-year mean of 100 for its credits, the
    standard deviation given, and no other cell. *)
Definition unbounded_account (std : pyval) : row := [
  ("Account Code", PStr "4300");
  ("Account Name", PStr "Freight");
  ("Credit_CY_Mean", PFloat (F64.of_Z 100));
  ("Credit_CY_Std", std)
].

Definition unbounded_batch (std : pyval) : DataFrame := {|
  columns := ["Account Code"; "Account Name"; "Credit_CY_Mean";
              "Credit_CY_Std"];
  rows := [unbounded_account std]
|}.

(** The configuration [cfg] with another [tiers.tier2_min_score]. *)
Definition with_tier2_min_score (score : Z) (cfg : DeviationConfig)
  : DeviationConfig := {|
  thresholds := thresholds cfg;
  weights := weights cfg;
  tiers := {|
    Tiering.tier1_min_score := Tiering.tier1_min_score (tiers cfg);
    Tiering.tier2_min_score := score;
    Tiering.tier3_min_score := Tiering.tier3_min_score (tiers cfg);
    Tiering.include_tier3 := Tiering.include_tier3 (tiers cfg);
    Tiering.max_tier1 := Tiering.max_tier1 (tiers cfg);
    Tiering.tier1_materiality_pct := Tiering.tier1_materiality_pct (tiers cfg);
    Tiering.tier1_override_score := Tiering.tier1_override_score (tiers cfg);
    Tiering.drop_pure_volatility_below_mean_pct :=
      Tiering.drop_pure_volatility_below_mean_pct (tiers cfg);
    Tiering.require_any_of_triggers :=
      Tiering.require_any_of_triggers (tiers cfg)
  |};
  profiles := profiles cfg;
  language := language cfg;
  enabled_checks := enabled_checks cfg
|}.

(** * Properties *)

(** ** The float, text and exception model *)

Example float_literals :
  f0_4 = S754_finite false 7205759403792794 (-54) /\
  PyFloat.of_string " 0.4 " = Some f0_4 /\
  PyFloat.of_string "1e-9" = Some f1e_9 /\
  PyFloat.of_string "-Inf" = Some (S754_infinity true) /\
  PyFloat.of_string "" = None /\
  PyFloat.of_string "1_000.5" = Some (F64.of_decimal false 10005 (-1)) /\
  PyFloat.of_string "1__0" = None /\
  PyFloat.of_string "abc" = None /\
  PyFloat.to_int (F64.mul (F64.of_Z 4) (F64.of_decimal false 7 (-1))) = Ok 2.
Proof. vm_compute. repeat split. Qed.

Lemma bind_Ok {A B : Type} (m : result A) (f : A -> result B) (b : B) :
  m ≫= f = Ok b -> exists a, m = Ok a /\ f a = Ok b.
Proof. destruct m as [a|e]; cbn; [eauto | discriminate]. Qed.

Lemma bind_Raise {A B : Type} (m : result A) (f : A -> result B) (e : exn) :
  m ≫= f = Raise e -> m = Raise e \/ exists a, m = Ok a /\ f a = Raise e.
Proof. destruct m as [a|e']; cbn; [eauto | intros [= ->]; auto]. Qed.

(** Every comparison with NaN is false. *)
Lemma geb_nan_l (y : float) : F64.geb F64.nan y = false.
Proof. destruct y; reflexivity. Qed.

Lemma geb_nan_r (x : float) : F64.geb x F64.nan = false.
Proof. destruct x; reflexivity. Qed.

Lemma isnan_true (x : float) : F64.isnan x = true -> x = F64.nan.
Proof. destruct x; intros [=]; reflexivity. Qed.

Lemma pct_ok_nan (t : float) : pct_ok F64.nan t = false.
Proof. reflexivity. Qed.

(** ** The exception of [interpret] *)

(** [interpret] raises for a language without a text for ["general"] and
    for no other, whatever the account and its triggers. *)
Lemma interpret_general (n d : string) (t : list string) (lang : Language.t) :
  match Language.bucket_finish lang !! "general" with
  | Some _ => exists s, interpret n d t lang = Ok s
  | None => interpret n d t lang = Raise (KeyError "general")
  end.
Proof.
  unfold interpret.
  destruct (Language.bucket_finish lang !! "general"); cbn; eauto.
Qed.

Lemma interpret_Ok_any (n d n' d' : string) (t t' : list string)
    (lang : Language.t) (s : string) :
  interpret n d t lang = Ok s -> exists s', interpret n' d' t' lang = Ok s'.
Proof.
  intros H. pose proof (interpret_general n d t lang) as G.
  pose proof (interpret_general n' d' t' lang) as G'.
  destruct (Language.bucket_finish lang !! "general"); [exact G'|].
  rewrite G in H. discriminate.
Qed.

Lemma interpret_Raise_inv (n d : string) (t : list string)
    (lang : Language.t) (e : exn) :
  interpret n d t lang = Raise e ->
  e = KeyError "general" /\ Language.bucket_finish lang !! "general" = None.
Proof.
  intros H. pose proof (interpret_general n d t lang) as G.
  destruct (Language.bucket_finish lang !! "general") as [g|].
  - destruct G as [s' G]. rewrite G in H. discriminate.
  - rewrite G in H. injection H as <-. auto.
Qed.

(** ** Safe parsing *)

(** [to_float] sends a missing cell, a boolean, and any value on which
    [float()] raises (blank or non-numeric text, a container) to NaN. *)
Lemma to_float_no_evidence (x : pyval) :
  x = PNone \/ (exists b, x = PBool b) \/ PyFloat.of_val x = None ->
  to_float x = F64.nan.
Proof.
  intros [-> | [[b ->] | H]]; try reflexivity.
  unfold to_float. rewrite H. destruct x; reflexivity.
Qed.

Example to_float_examples :
  to_float PNone = F64.nan /\
  to_float (PStr "") = F64.nan /\
  to_float (PStr "   ") = F64.nan /\
  to_float (PStr "n/a") = F64.nan /\
  to_float (PBool true) = F64.nan /\
  to_float (PStr "12.5") = F64.of_decimal false 125 (-1) /\
  to_float (PInt 3) = F64.of_Z 3 /\
  to_float (PFloat F64.inf) = F64.inf /\
  to_float (PStr "inf") = F64.inf.
Proof. vm_compute. repeat split. Qed.

Lemma to_bool_number (x : pyval) : plain_number x = true -> to_bool x = None.
Proof. destruct x; cbn; congruence. Qed.

Example to_bool_examples :
  to_bool (PBool true) = Some true /\
  to_bool (PStr " Yes ") = Some true /\
  to_bool (PStr "0") = Some false /\
  to_bool (PStr "maybe") = None /\
  to_bool (PInt 1) = None /\
  to_bool (PInt 0) = None /\
  to_bool (PFloat (F64.of_Z 1)) = None /\
  to_bool (PFloat F64.nan) = None /\
  to_bool PNone = None.
Proof. vm_compute. repeat split. Qed.

(** ** The checks of one metric *)


Ltac bind_inv H :=
  let a := fresh "a" in
  let Ha := fresh "Ha" in
  apply bind_Ok in H; destruct H as (a & Ha & H).

Ltac check_cases H :=
  repeat match type of H with
         | (if ?b then _ else _) = Ok _ => destruct b eqn:?
         | (_ ≫= _) = Ok _ => bind_inv H
         | Ok _ = Ok _ => injection H as <-
         | (let _ := _ in _) = Ok _ => cbv zeta in H
         end.

Ltac solve_fires :=
  first [ left; reflexivity
        | right; eexists _, _; split; [ | reflexivity ];
          repeat first [ apply list_elem_of_here | apply list_elem_of_further ] ].

Lemma check_distribution_change_spec cfg p x s s' :
  check_distribution_change cfg p x s = Ok s' ->
  s' = s \/
  (dist_change x = true /\ exists n, s' = fire "Distribution Change" n s).
Proof.
  unfold check_distribution_change. intros H. bind_inv H.
  destruct (a && dist_change x) eqn:E; [ | injection H as <-; auto ].
  apply andb_prop in E as [_ E]. right. split; [exact E|].
  check_cases H; eauto.
Qed.

Lemma check_mean_shift_spec cfg p x s s' :
  check_mean_shift cfg p x s = Ok s' ->
  s' = s \/
  ((mean_change x = true \/
    F64.isnan (mean_diff x) || F64.isnan (ly_mean x) || F64.isnan (cy_mean x)
      = false)
   /\ exists n, s' = fire "Mean Shift" n s).
Proof.
  unfold check_mean_shift. intros H. bind_inv H.
  destruct (a && mean_change x) eqn:E.
  - apply andb_prop in E as [_ E]. right. split; [auto|]. check_cases H; eauto.
  - bind_inv H. destruct a0; [ | injection H as <-; auto ].
    destruct (F64.isnan (mean_diff x) || F64.isnan (ly_mean x)
              || F64.isnan (cy_mean x)) eqn:En; cbn [negb] in H.
    + injection H as <-; auto.
    + cbv zeta in H. check_cases H; eauto.
Qed.

Lemma check_effect_size_spec cfg p x s s' :
  check_effect_size cfg p x s = Ok s' ->
  s' = s \/
  ((dist_change x || mean_change x || big_move (thresholds cfg) x = true)
   /\ exists name n, name ∈ ["Large Effect Size"; "Medium Effect Size"]
                     /\ s' = fire name n s).
Proof.
  unfold check_effect_size. intros H. bind_inv H.
  destruct a; [ | injection H as <-; auto ].
  destruct (eff_large (thresholds cfg) x
            && (dist_change x || mean_change x || big_move (thresholds cfg) x)
            && eff_mat p x) eqn:E1.
  - apply andb_prop in E1 as [E1 _]. apply andb_prop in E1 as [_ E1].
    bind_inv H. injection H as <-. right. split; [exact E1|].
    eexists _, _. split; [apply list_elem_of_here | reflexivity].
  - destruct (eff_med (thresholds cfg) x && (dist_change x || mean_change x)
              && eff_mat p x) eqn:E2; [ | injection H as <-; auto ].
    apply andb_prop in E2 as [E2 _]. apply andb_prop in E2 as [_ E2].
    bind_inv H. injection H as <-. right. split.
    + rewrite E2. reflexivity.
    + eexists _, _. split; [apply list_elem_of_further, list_elem_of_here | reflexivity].
Qed.

Lemma check_cv_spec cfg p x s s' :
  check_cv cfg p x s = Ok s' ->
  s' = s \/
  (F64.isnan (cv x) = false
   /\ exists name n, name ∈ ["High CV"; "Moderate CV"] /\ s' = fire name n s).
Proof.
  unfold check_cv. intros H. bind_inv H.
  destruct (a && negb (F64.isnan (cv x))) eqn:E; [ | injection H as <-; auto ].
  apply andb_prop in E as [_ E]. apply negb_true_iff in E.
  check_cases H; auto; right; (split; [exact E|]); eexists _, _;
    (split; [ | reflexivity]);
    repeat first [ apply list_elem_of_here | apply list_elem_of_further ].
Qed.

Lemma check_low_mean_high_variance_spec cfg p x s s' :
  check_low_mean_high_variance cfg p x s = Ok s' ->
  s' = s \/
  (F64.isnan (cv x) = false
   /\ exists n, s' = fire "Low Mean with High Variance" n s).
Proof.
  unfold check_low_mean_high_variance. intros H. bind_inv H.
  destruct (a && negb (F64.isnan (cv x))) eqn:E; [ | injection H as <-; auto ].
  apply andb_prop in E as [_ E]. apply negb_true_iff in E.
  check_cases H; eauto.
Qed.

Lemma check_mean_median_gap_spec cfg p x s s' :
  check_mean_median_gap cfg p x s = Ok s' ->
  s' = s \/
  (F64.isnan (gap_ratio x) = false
   /\ exists n, s' = fire "Mean-Median Gap" n s).
Proof.
  unfold check_mean_median_gap. intros H. bind_inv H.
  destruct (a && negb (F64.isnan (gap_ratio x))) eqn:E;
    [ | injection H as <-; auto ].
  apply andb_prop in E as [_ E]. apply negb_true_iff in E.
  check_cases H; eauto.
Qed.

Lemma check_pearson_skew_spec cfg p x s s' :
  check_pearson_skew cfg p x s = Ok s' ->
  s' = s \/
  (F64.isnan (pearson_skew x) = false
   /\ exists n, s' = fire "Pearson Skew" n s).
Proof.
  unfold check_pearson_skew. intros H. bind_inv H.
  destruct (a && negb (F64.isnan (pearson_skew x))) eqn:E;
    [ | injection H as <-; auto ].
  apply andb_prop in E as [_ E]. apply negb_true_iff in E.
  check_cases H; eauto.
Qed.

Lemma check_volatility_jump_spec cfg p x s s' :
  check_volatility_jump cfg p x s = Ok s' ->
  s' = s \/
  (F64.isnan (std_diff x) || F64.isnan (ly_std x) = false
   /\ exists n, s' = fire "Volatility Jump" n s).
Proof.
  unfold check_volatility_jump. intros H. bind_inv H.
  destruct (a && negb (F64.isnan (std_diff x) || F64.isnan (ly_std x))) eqn:E;
    [ | injection H as <-; auto ].
  apply andb_prop in E as [_ E]. apply negb_true_iff in E.
  cbv zeta in H. check_cases H; eauto.
Qed.

Lemma check_new_activity_spec cfg p x s s' :
  check_new_activity cfg p x s = Ok s' ->
  s' = s \/
  (F64.isnan (ly_mean x) || F64.isnan (cy_mean x) = false
   /\ exists n, s' = fire "New Activity / Re-start" n s).
Proof.
  unfold check_new_activity. intros H. bind_inv H.
  destruct (a && negb (F64.isnan (ly_mean x) || F64.isnan (cy_mean x))) eqn:E;
    [ | injection H as <-; auto ].
  apply andb_prop in E as [_ E]. apply negb_true_iff in E.
  check_cases H; eauto.
Qed.

Lemma check_sign_reversal_spec cfg p x s s' :
  check_sign_reversal cfg p x s = Ok s' ->
  s' = s \/
  (F64.isnan (ly_mean x) || F64.isnan (cy_mean x) = false
   /\ exists n, s' = fire "Sign Reversal" n s).
Proof.
  unfold check_sign_reversal. intros H. bind_inv H.
  destruct (a && negb (F64.isnan (ly_mean x) || F64.isnan (cy_mean x))) eqn:E;
    [ | injection H as <-; auto ].
  apply andb_prop in E as [_ E]. apply negb_true_iff in E.
  check_cases H; eauto.
Qed.

(** ** No evidence, no trigger *)


Lemma count_if_cons {A : Type} (p : A -> bool) (a : A) (l : list A) :
  count_if p (a :: l) = (if p a then 1 else 0) + count_if p l.
Proof.
  unfold count_if. rewrite filter_cons.
  destruct (p a).
  - rewrite decide_True by exact I. change (length (a :: ?l)) with (S (length l)).
    rewrite Nat2Z.inj_succ. lia.
  - rewrite decide_False by (intros []). lia.
Qed.

Lemma count_if_nil {A : Type} (p : A -> bool) : count_if p [] = 0.
Proof. reflexivity. Qed.

Lemma count_if_nonneg {A : Type} (p : A -> bool) (l : list A) :
  0 <= count_if p l.
Proof. unfold count_if. lia. Qed.

Lemma lone_field_quiet (r : row) (m : string) (mp sp : float) :
  lone_field r m = true -> quiet (read_signals r m mp sp).
Proof.
  unfold lone_field, flags_unknown, flag_cells, numeric_cells.
  cbn [map numeric_suffixes flag_suffixes forallb].
  intros H. apply andb_prop in H as [Hn Hf].
  repeat (apply andb_prop in Hf as [?%bool_decide_eq_true Hf]).
  clear Hf. apply Z.leb_le in Hn.
  rewrite !count_if_cons, count_if_nil in Hn.
  split; unfold dist_change, mean_change; cbn [read_signals ks_sig mw_sig t_sig
    anova_sig mean_diff ly_mean cy_mean cy_std cy_med std_diff ly_std];
    repeat match goal with H : to_bool _ = None |- _ => rewrite H; clear H end;
    try reflexivity;
    repeat match type of Hn with
           | context [F64.isnan ?a] =>
               let E := fresh "E" in
               destruct (F64.isnan a) eqn:E; cbn [negb] in Hn
           end;
    first [ reflexivity | exfalso; lia ].
Qed.

Lemma no_evidence_lone_field (r : row) (m : string) :
  no_evidence r m = true -> lone_field r m = true.
Proof.
  unfold no_evidence, lone_field, numeric_cells.
  cbn [map numeric_suffixes forallb].
  intros H. apply andb_prop in H as [Hn Hf]. rewrite Hf, andb_true_r.
  repeat (apply andb_prop in Hn as [? Hn]).
  rewrite !count_if_cons, count_if_nil.
  repeat match goal with H : F64.isnan _ = true |- _ => rewrite H; clear H end.
  reflexivity.
Qed.

Lemma quiet_derived (x : signals) :
  quiet x ->
  F64.isnan (cv x) = true /\ F64.isnan (gap_ratio x) = true /\
  F64.isnan (pearson_skew x) = true /\
  (forall th, big_move th x = false).
Proof.
  intros [].
  unfold cv, gap_ratio, pearson_skew, big_move.
  rewrite quiet_cv0, quiet_skew0, quiet_gap0, quiet_move0. cbn. auto.
Qed.

(** On a quiet metric every check only reads its switch. *)
Lemma quiet_checks (cfg : DeviationConfig) (p : MetricProfile.t)
    (x : signals) (s : tally) :
  quiet x ->
  check_distribution_change cfg p x s
    = (enabled cfg "distribution_change" ≫= fun _ => Ok s) /\
  check_mean_shift cfg p x s = (enabled cfg "mean_shift" ≫= fun _ => Ok s) /\
  check_effect_size cfg p x s = (enabled cfg "effect_size" ≫= fun _ => Ok s) /\
  check_cv cfg p x s = (enabled cfg "cv" ≫= fun _ => Ok s) /\
  check_low_mean_high_variance cfg p x s
    = (enabled cfg "low_mean_high_variance" ≫= fun _ => Ok s) /\
  check_mean_median_gap cfg p x s
    = (enabled cfg "mean_median_gap" ≫= fun _ => Ok s) /\
  check_pearson_skew cfg p x s
    = (enabled cfg "pearson_skew" ≫= fun _ => Ok s) /\
  check_volatility_jump cfg p x s
    = (enabled cfg "volatility_jump" ≫= fun _ => Ok s) /\
  check_new_activity cfg p x s
    = (enabled cfg "new_activity" ≫= fun _ => Ok s) /\
  check_sign_reversal cfg p x s
    = (enabled cfg "sign_reversal" ≫= fun _ => Ok s).
Proof.
  intros Q. destruct (quiet_derived x Q) as (Hcv & Hgap & Hskew & Hmove).
  destruct Q.
  unfold check_distribution_change, check_mean_shift, check_effect_size,
    check_cv, check_low_mean_high_variance, check_mean_median_gap,
    check_pearson_skew, check_volatility_jump, check_new_activity,
    check_sign_reversal.
  rewrite Hcv, Hgap, Hskew, Hmove, quiet_dist0, quiet_mean0, quiet_shift0,
    quiet_jump0, quiet_means0.
  repeat split;
    match goal with
    | |- context [enabled cfg ?k] =>
        destruct (enabled cfg k) as [[|]|]; cbn;
        rewrite ?andb_false_r, ?andb_false_l; reflexivity
    end.
Qed.

Lemma quiet_run_checks (cfg : DeviationConfig) (p : MetricProfile.t)
    (x : signals) (s : tally) :
  quiet x ->
  run_checks cfg p x checks s
  = (read_switches cfg switch_order ≫= fun _ => Ok s).
Proof.
  intros Q.
  destruct (quiet_checks cfg p x s Q)
    as (E1 & E2 & E3 & E4 & E5 & E6 & E7 & E8 & E9 & E10).
  unfold checks, switch_order. cbn [run_checks read_switches].
  rewrite E1. destruct (enabled cfg "distribution_change"); [ | reflexivity ].
  cbn [mbind result_bind].
  rewrite E2. destruct (enabled cfg "mean_shift"); [ | reflexivity ].
  cbn [mbind result_bind].
  rewrite E3. destruct (enabled cfg "effect_size"); [ | reflexivity ].
  cbn [mbind result_bind].
  rewrite E4. destruct (enabled cfg "cv"); [ | reflexivity ].
  cbn [mbind result_bind].
  rewrite E5. destruct (enabled cfg "low_mean_high_variance"); [ | reflexivity ].
  cbn [mbind result_bind].
  rewrite E6. destruct (enabled cfg "mean_median_gap"); [ | reflexivity ].
  cbn [mbind result_bind].
  rewrite E7. destruct (enabled cfg "pearson_skew"); [ | reflexivity ].
  cbn [mbind result_bind].
  rewrite E8. destruct (enabled cfg "volatility_jump"); [ | reflexivity ].
  cbn [mbind result_bind].
  rewrite E9. destruct (enabled cfg "new_activity"); [ | reflexivity ].
  cbn [mbind result_bind].
  rewrite E10. destruct (enabled cfg "sign_reversal"); reflexivity.
Qed.

Lemma read_switches_Ok (cfg : DeviationConfig) (keys : list string) :
  (forall k, k ∈ keys -> is_Some (enabled_checks cfg !! k)) ->
  read_switches cfg keys = Ok tt.
Proof.
  induction keys as [|k keys IH]; intros H; [reflexivity|].
  cbn [read_switches]. unfold enabled.
  destruct (H k) as [b ->]; [apply list_elem_of_here|].
  cbn. apply IH. intros k' Hk'. apply H. now apply list_elem_of_further.
Qed.

Lemma read_switches_Raise (cfg : DeviationConfig) (keys : list string) (e : exn) :
  read_switches cfg keys = Raise e ->
  exists k, k ∈ keys /\ enabled_checks cfg !! k = None /\ e = KeyError k.
Proof.
  induction keys as [|k keys IH]; [discriminate|].
  cbn [read_switches]. unfold enabled at 1.
  destruct (enabled_checks cfg !! k) eqn:E; cbn.
  - intros H. destruct (IH H) as (k' & Hin & Hk').
    exists k'. split; [now apply list_elem_of_further | exact Hk'].
  - intros [= <-]. exists k. split; [apply list_elem_of_here | auto].
Qed.

(** The score of a metric with a lone field: nothing fires.  The only way
    out of the scorer other than the tally [(0, [])] is the [KeyError] of a
    switch that the configuration lacks. *)
Lemma switch_order_names (k : string) : k ∈ switch_order -> k ∈ check_names.
Proof.
  unfold switch_order, check_names. rewrite !elem_of_cons, !elem_of_nil. tauto.
Qed.

Lemma lone_field_score_metric (cfg : DeviationConfig) (r : row)
    (mp sp : float) (m : string) :
  lone_field r m = true ->
  match score_metric cfg r mp sp m with
  | Ok t => t = (0, [])
  | Raise e => exists k, k ∈ check_names /\ enabled_checks cfg !! k = None
                         /\ e = KeyError k
  end.
Proof.
  intros H. unfold score_metric.
  rewrite quiet_run_checks by now apply lone_field_quiet.
  destruct (read_switches cfg switch_order) as [[]|e] eqn:E; cbn.
  - reflexivity.
  - apply read_switches_Raise in E as (k & Hk & E).
    exists k. split; [now apply switch_order_names | exact E].
Qed.

Lemma lone_field_score_metric_total (cfg : DeviationConfig) (r : row)
    (mp sp : float) (m : string) :
  (forall k, k ∈ check_names -> is_Some (enabled_checks cfg !! k)) ->
  lone_field r m = true ->
  score_metric cfg r mp sp m = Ok (0, []).
Proof.
  intros Hk H. unfold score_metric.
  rewrite quiet_run_checks by now apply lone_field_quiet.
  rewrite read_switches_Ok; [reflexivity|].
  intros k Hin. now apply Hk, switch_order_names.
Qed.

(** An account all of whose metrics have a lone field scores nothing and is
    skipped. *)
Lemma lone_field_score_metrics (cfg : DeviationConfig) (r : row)
    (mp sp : string -> float) (metrics : list string)
    (scored : list (string * tally)) :
  forallb (lone_field r) metrics = true ->
  score_metrics cfg r mp sp metrics = Ok scored -> scored = [].
Proof.
  revert scored. induction metrics as [|m ms IH]; intros scored Hl H.
  - now injection H as <-.
  - cbn [forallb] in Hl. apply andb_prop in Hl as [Hm Hms].
    cbn [score_metrics] in H.
    pose proof (lone_field_score_metric cfg r (mp m) (sp m) m Hm) as Hs.
    destruct (score_metric cfg r (mp m) (sp m) m) as [t|e]; [ | discriminate ].
    subst t. cbn in H.
    destruct (score_metrics cfg r mp sp ms) as [rest|e]; [ | discriminate ].
    cbn in H. injection H as <-. now apply IH.
Qed.

Lemma lone_field_account_row (cfg : DeviationConfig) (r : row)
    (mp sp : string -> float) (metrics : list string)
    (o : option report_row) :
  forallb (lone_field r) metrics = true ->
  account_row cfg metrics mp sp r = Ok o -> o = None.
Proof.
  intros Hl H. unfold account_row in H.
  destruct (score_metrics cfg r mp sp metrics) as [scored|e] eqn:E;
    [ | discriminate ].
  rewrite (lone_field_score_metrics _ _ _ _ _ _ Hl E) in H.
  cbn in H. now injection H as <-.
Qed.

(** ** The loop over rows *)

Lemma iterrows_elem cfg metrics mt st idx (l : list row) out o :
  iterrows cfg metrics mt st idx l = Ok out ->
  o ∈ out ->
  exists i r, l !! i = Some r /\
    account_row cfg metrics (pct_at mt (idx + i)) (pct_at st (idx + i)) r
    = Ok (Some o).
Proof.
  revert idx out. induction l as [|r l IH]; intros idx out H Ho.
  - injection H as <-. now apply elem_of_nil in Ho.
  - cbn [iterrows] in H. bind_inv H. bind_inv H. injection H as <-.
    assert (Hrest : o ∈ a0 ->
      exists i r0, (r :: l) !! i = Some r0 /\
        account_row cfg metrics (pct_at mt (idx + i)) (pct_at st (idx + i)) r0
        = Ok (Some o)).
    { intros Hin. destruct (IH _ _ Ha0 Hin) as (i & r0 & Hi & Hr0).
      exists (S i), r0. split; [exact Hi|].
      now replace (idx + S i)%nat with (S idx + i)%nat by lia. }
    destruct a as [x|]; [ | auto ].
    apply elem_of_cons in Ho as [-> | Ho]; [ | auto ].
    exists 0%nat, r. split; [reflexivity|].
    now replace (idx + 0)%nat with idx by lia.
Qed.

Lemma iterrows_all_Ok cfg metrics mt st idx (l : list row) out i r :
  iterrows cfg metrics mt st idx l = Ok out ->
  l !! i = Some r ->
  exists o,
    account_row cfg metrics (pct_at mt (idx + i)) (pct_at st (idx + i)) r = Ok o.
Proof.
  revert idx out i. induction l as [|r0 l IH]; intros idx out i H Hi.
  - discriminate.
  - cbn [iterrows] in H. bind_inv H. bind_inv H. destruct i as [|i].
    + injection Hi as <-. exists a.
      now replace (idx + 0)%nat with idx by lia.
    + cbn in Hi. destruct (IH _ _ _ Ha0 Hi) as (o & Ho). exists o.
      now replace (idx + S i)%nat with (S idx + i)%nat by lia.
Qed.

(** ** Sorting and the cap *)

Lemma insert_by_Permutation {A : Type} (le : A -> A -> bool) (x : A)
    (l : list A) :
  insert_by le x l ≡ₚ x :: l.
Proof.
  induction l as [|y l IH]; cbn; [reflexivity|].
  destruct (le x y); [reflexivity|].
  rewrite IH. apply Permutation_swap.
Qed.

Lemma sort_by_Permutation {A : Type} (le : A -> A -> bool) (l : list A) :
  sort_by le l ≡ₚ l.
Proof.
  induction l as [|x l IH]; cbn; [reflexivity|].
  unfold sort_by in IH. now rewrite insert_by_Permutation, IH.
Qed.

Lemma count_if_app {A : Type} (p : A -> bool) (l1 l2 : list A) :
  count_if p (l1 ++ l2) = count_if p l1 + count_if p l2.
Proof.
  induction l1 as [|a l1 IH]; [ cbn; rewrite count_if_nil; lia | ].
  cbn [app]. rewrite !count_if_cons, IH. lia.
Qed.

Lemma count_if_Permutation {A : Type} (p : A -> bool) (l l' : list A) :
  l ≡ₚ l' -> count_if p l = count_if p l'.
Proof.
  induction 1 as [|x l l' _ IH|x y l|l l' l'' _ IH1 _ IH2];
    rewrite ?count_if_cons; lia.
Qed.

Lemma count_if_map {A B : Type} (p : B -> bool) (f : A -> B) (l : list A) :
  count_if p (map f l) = count_if (fun x => p (f x)) l.
Proof.
  induction l as [|a l IH]; [reflexivity|].
  cbn [map]. rewrite !count_if_cons, IH. reflexivity.
Qed.

Lemma count_if_ext {A : Type} (p q : A -> bool) (l : list A) :
  (forall x, x ∈ l -> p x = q x) -> count_if p l = count_if q l.
Proof.
  induction l as [|a l IH]; intros H; [reflexivity|].
  rewrite !count_if_cons, IH, (H a); [reflexivity | apply list_elem_of_here | ].
  intros x Hx. apply H. now apply list_elem_of_further.
Qed.

Lemma count_if_le_length {A : Type} (p : A -> bool) (l : list A) :
  count_if p l <= Z.of_nat (length l).
Proof.
  induction l as [|a l IH]; [ rewrite count_if_nil; cbn; lia | ].
  rewrite count_if_cons. cbn [length]. destruct (p a); lia.
Qed.

Lemma count_if_filter {A : Type} (p : A -> bool) (l : list A) :
  count_if p l = Z.of_nat (length (filter (fun x => p x) l)).
Proof. reflexivity. Qed.

Lemma with_index_from (g : nat -> nat) (l : list report_row) :
  map snd (imap (fun i o => (g i, o)) l) = l /\
  map fst (imap (fun i o => (g i, o)) l) = map g (seq 0 (length l)).
Proof.
  revert g. induction l as [|o l IH]; intros g; [split; reflexivity|].
  cbn [imap map length seq fst snd].
  destruct (IH (fun i => g (S i))) as [E1 E2].
  unfold compose. split.
  - f_equal. exact E1.
  - f_equal. rewrite E2, <- seq_shift, map_map. reflexivity.
Qed.

Lemma with_index_snd (l : list report_row) : map snd (with_index l) = l.
Proof. apply (with_index_from (fun i => i)). Qed.

Lemma with_index_fst (l : list report_row) :
  map fst (with_index l) = seq 0 (length l).
Proof.
  unfold with_index. rewrite (proj2 (with_index_from (fun i => i) l)).
  apply map_id.
Qed.

Lemma sort_values_Permutation (l : list labelled) : sort_values l ≡ₚ l.
Proof. apply sort_by_Permutation. Qed.

(** The labels of the sorted report are pairwise distinct. *)
Lemma sorted_labels_NoDup (rows : list report_row) :
  NoDup (map fst (sort_values (with_index rows))).
Proof.
  assert (E : map fst (sort_values (with_index rows)) ≡ₚ seq 0 (length rows)).
  { rewrite <- with_index_fst. apply Permutation_map, sort_values_Permutation. }
  rewrite E. apply NoDup_seq.
Qed.

Lemma mem_nat_spec (i : nat) (l : list nat) : mem_nat i l = true <-> i ∈ l.
Proof.
  unfold mem_nat. rewrite existsb_exists. split.
  - intros (j & Hj & E). apply Nat.eqb_eq in E as ->. now apply list_elem_of_In.
  - intros H. exists i. split; [now apply list_elem_of_In | apply Nat.eqb_refl].
Qed.


Lemma cap_tier1_unfold (k : Z) (out : list labelled) :
  cap_tier1 k out =
  if negb (k =? 0) && (k <? count_if is_tier1 out)
  then sort_values
         (demote_rows (slice_from k (map fst (filter is_tier1 out))) out)
  else out.
Proof. reflexivity. Qed.

Lemma count_demote_rows (D : list nat) (L : list labelled) :
  count_if is_tier1 (demote_rows D L)
  = count_if (fun i => negb (mem_nat i D)) (map fst (filter is_tier1 L)).
Proof.
  induction L as [|x L IH]; [reflexivity|].
  unfold demote_rows in *. cbn [map]. rewrite count_if_cons, IH.
  rewrite filter_cons. unfold is_tier1 at 1 3.
  destruct (mem_nat (fst x) D) eqn:ED; cbn [snd set_tier Tier].
  - destruct (decide (Is_true (is_tier1 x))) as [Hx|Hx].
    + cbn [map]. rewrite count_if_cons, ED. reflexivity.
    + reflexivity.
  - destruct (decide (Is_true (is_tier1 x))) as [Hx|Hx].
    + cbn [map]. rewrite count_if_cons, ED. cbn [negb].
      unfold is_tier1 in Hx. apply Is_true_true in Hx. now rewrite Hx.
    + unfold is_tier1 in Hx. apply Is_true_false in Hx. now rewrite Hx.
Qed.

Lemma count_notin_suffix (t u : list nat) :
  NoDup (t ++ u) ->
  count_if (fun i => negb (mem_nat i u)) (t ++ u) = Z.of_nat (length t).
Proof.
  intros Hnd. apply NoDup_app in Hnd as (_ & Hdisj & _).
  rewrite count_if_app.
  assert (E1 : count_if (fun i => negb (mem_nat i u)) t = Z.of_nat (length t)).
  { induction t as [|a t IH]; [reflexivity|].
    rewrite count_if_cons, IH.
    - destruct (mem_nat a u) eqn:E.
      + apply mem_nat_spec in E. exfalso.
        apply (Hdisj a); [apply list_elem_of_here | exact E].
      + cbn [negb length]. lia.
    - intros x Hx. apply Hdisj. now apply list_elem_of_further. }
  assert (E2 : forall v, (forall x, x ∈ v -> x ∈ u) ->
                 count_if (fun i => negb (mem_nat i u)) v = 0).
  { induction v as [|a v IH]; intros Hv; [reflexivity|].
    rewrite count_if_cons, IH.
    - assert (Ha : mem_nat a u = true)
        by (apply mem_nat_spec, Hv, list_elem_of_here).
      now rewrite Ha.
    - intros x Hx. apply Hv. now apply list_elem_of_further. }
  rewrite E1, E2 by auto. lia.
Qed.

Lemma count_notin_drop (d : nat) (l : list nat) :
  NoDup l ->
  count_if (fun i => negb (mem_nat i (drop d l))) l
  = Z.of_nat (Nat.min d (length l)).
Proof.
  intros Hnd.
  pose proof (count_notin_suffix (take d l) (drop d l)) as H.
  rewrite take_drop in H. rewrite H by exact Hnd.
  now rewrite length_take.
Qed.

Lemma NoDup_labels_filter (P : labelled -> bool) (L : list labelled) :
  NoDup (map fst L) -> NoDup (map fst (filter (fun x => P x) L)).
Proof.
  induction L as [|x L IH]; intros H; [constructor|].
  cbn [map] in H. apply NoDup_cons in H as [Hx HL].
  rewrite filter_cons. destruct (decide (Is_true (P x))); [ | auto ].
  cbn [map]. apply NoDup_cons. split; [ | auto ].
  intros Hin. apply Hx. clear -Hin.
  induction L as [|y L IH]; [exact Hin|].
  rewrite filter_cons in Hin. cbn [map].
  destruct (decide (Is_true (P y))).
  - cbn [map] in Hin. apply elem_of_cons in Hin as [->|Hin];
      [apply list_elem_of_here | apply list_elem_of_further; auto].
  - apply list_elem_of_further; auto.
Qed.

Lemma length_tier1_labels (L : list labelled) :
  Z.of_nat (length (map fst (filter is_tier1 L))) = count_if is_tier1 L.
Proof. rewrite length_map. reflexivity. Qed.

(** What the cap does to the number of Tier-1 rows. *)
Lemma cap_tier1_count (k : Z) (L : list labelled) :
  NoDup (map fst L) ->
  count_if is_tier1 (cap_tier1 k L) = cap_count k (count_if is_tier1 L).
Proof.
  intros Hnd. rewrite cap_tier1_unfold. unfold cap_count.
  pose proof (count_if_nonneg is_tier1 L) as Hn.
  destruct (k =? 0) eqn:Ek; cbn [negb andb]; [reflexivity|].
  apply Z.eqb_neq in Ek.
  destruct (k <? count_if is_tier1 L) eqn:Elt.
  - apply Z.ltb_lt in Elt.
    rewrite (count_if_Permutation _ _ _ (sort_values_Permutation _)).
    rewrite count_demote_rows. unfold slice_from.
    pose proof (length_tier1_labels L) as Hlen.
    destruct (0 <=? k) eqn:E0.
    + apply Z.leb_le in E0.
      rewrite count_notin_drop by now apply NoDup_labels_filter.
      destruct (0 <? k) eqn:E1; [ | apply Z.ltb_ge in E1; lia ]. lia.
    + apply Z.leb_gt in E0.
      rewrite count_notin_drop by now apply NoDup_labels_filter.
      destruct (0 <? k) eqn:E1; [ apply Z.ltb_lt in E1; lia | ]. lia.
  - apply Z.ltb_ge in Elt.
    destruct (0 <? k) eqn:E1; [ lia | apply Z.ltb_ge in E1; lia ].
Qed.

Lemma finish_unfold (k : Z) (rows : list report_row) :
  finish k rows = map snd (cap_tier1 k (sort_values (with_index rows))).
Proof.
  destruct rows as [|o rows]; [ | reflexivity ].
  cbn. rewrite cap_tier1_unfold. cbn.
  match goal with |- context [if ?b then _ else _] => destruct b end;
    reflexivity.
Qed.

Lemma tier1_count_labelled (L : list labelled) :
  tier1_count (map snd L) = count_if is_tier1 L.
Proof. unfold tier1_count. now rewrite count_if_map. Qed.

(** The number of Tier-1 rows of the finished report, from the number of
    accounts that qualify for Tier-1. *)
Lemma finish_tier1_count (k : Z) (rows : list report_row) :
  tier1_count (finish k rows) = cap_count k (tier1_count rows).
Proof.
  rewrite finish_unfold, tier1_count_labelled.
  rewrite cap_tier1_count by apply sorted_labels_NoDup.
  rewrite (count_if_Permutation _ _ _ (sort_values_Permutation _)).
  rewrite <- tier1_count_labelled, with_index_snd. reflexivity.
Qed.

(** ** The report of a batch *)

Lemma build_Ok_inv (df : DataFrame) (cfg : DeviationConfig)
    (out : list report_row) :
  build_deviation_report df (Some cfg) = Ok out ->
  let metrics := detect_metrics (columns df) in
  exists kept,
    iterrows cfg metrics (pct_table df metrics "CY_Mean")
             (pct_table df metrics "CY_Std") 0 (rows df) = Ok kept /\
    out = finish (Tiering.max_tier1 (tiers cfg)) kept.
Proof.
  intros H metrics. unfold build_deviation_report in H.
  destruct (negb (Str.mem "Account Code" (columns df))
            || negb (Str.mem "Account Name" (columns df))); [discriminate|].
  fold metrics in H. destruct metrics as [|m ms]; [discriminate|].
  bind_inv H. injection H as <-. exists a. split; [exact Ha | reflexivity].
Qed.

Lemma cap_count_mono (k n n' : Z) : n' <= n -> cap_count k n' <= cap_count k n.
Proof.
  unfold cap_count. intros H.
  destruct (k =? 0); [exact H|]. destruct (0 <? k); lia.
Qed.

Lemma cap_count_positive (k n : Z) : 0 < k -> cap_count k n <= k.
Proof.
  unfold cap_count. intros H.
  destruct (k =? 0) eqn:E; [apply Z.eqb_eq in E; lia|].
  destruct (0 <? k) eqn:E'; [lia | apply Z.ltb_ge in E'; lia].
Qed.

(** ** Raising [tier1_min_score] *)

Lemma score_metrics_tier1_min_score (s : Z) cfg r mp sp ms :
  score_metrics (with_tier1_min_score s cfg) r mp sp ms
  = score_metrics cfg r mp sp ms.
Proof.
  induction ms as [|m ms IH]; [reflexivity|].
  cbn [score_metrics]. rewrite IH. reflexivity.
Qed.


Lemma assign_tier_raise (t t' : Tiering.t) (total : Z) (mmp : float) :
  Tiering.tier1_min_score t <= Tiering.tier1_min_score t' ->
  Tiering.tier1_materiality_pct t' = Tiering.tier1_materiality_pct t ->
  Tiering.tier1_override_score t' = Tiering.tier1_override_score t ->
  assign_tier t' total mmp = Some "Tier-1" ->
  assign_tier t total mmp = Some "Tier-1".
Proof.
  unfold assign_tier. intros Hle -> ->.
  destruct (Tiering.tier1_min_score t' <=? total) eqn:E'.
  - apply Z.leb_le in E'.
    assert (E : (Tiering.tier1_min_score t <=? total) = true)
      by (apply Z.leb_le; lia).
    rewrite E. cbn [andb].
    destruct ((negb (F64.isnan mmp)
               && F64.geb mmp (Tiering.tier1_materiality_pct t))
              || (Tiering.tier1_override_score t <=? total)); [reflexivity|].
    intros H. repeat match type of H with
                     | (if ?b then _ else _) = _ => destruct b
                     end; discriminate.
  - cbn [andb]. intros H.
    repeat match type of H with
           | (if ?b then _ else _) = _ => destruct b
           end; discriminate.
Qed.

Lemma assign_tier_raise_None (cfg : DeviationConfig) (s total : Z)
    (mmp : float) :
  Tiering.tier1_min_score (tiers cfg) <= s ->
  assign_tier (tiers cfg) total mmp = None ->
  assign_tier (tiers (with_tier1_min_score s cfg)) total mmp = None.
Proof.
  unfold assign_tier.
  cbn [tiers with_tier1_min_score Tiering.tier1_min_score
       Tiering.tier2_min_score Tiering.tier3_min_score Tiering.include_tier3
       Tiering.tier1_materiality_pct Tiering.tier1_override_score].
  intros Hs.
  destruct (Tiering.tier1_min_score (tiers cfg) <=? total) eqn:E.
  - destruct ((negb (F64.isnan mmp)
               && F64.geb mmp (Tiering.tier1_materiality_pct (tiers cfg)))
              || (Tiering.tier1_override_score (tiers cfg) <=? total));
      cbn [andb]; [discriminate|].
    rewrite andb_false_r. auto.
  - cbn [andb]. destruct (s <=? total) eqn:E'; [|auto].
    apply Z.leb_le in E'. apply Z.leb_gt in E. lia.
Qed.

Lemma account_row_raise (s : Z) cfg metrics mp sp r o :
  Tiering.tier1_min_score (tiers cfg) <= s ->
  account_row cfg metrics mp sp r = Ok o ->
  exists o', account_row (with_tier1_min_score s cfg) metrics mp sp r = Ok o'
             /\ (row_is_tier1 o' = true -> row_is_tier1 o = true).
Proof.
  intros Hs H. unfold account_row in *.
  rewrite score_metrics_tier1_min_score.
  destruct (score_metrics cfg r mp sp metrics) as [scored|e]; [ | discriminate ].
  cbn [mbind result_bind] in *.
  destruct scored as [|x scored]; [ injection H as <-; eauto | ].
  cbn [tiers with_tier1_min_score Tiering.drop_pure_volatility_below_mean_pct
       Tiering.require_any_of_triggers language].
  match type of H with (if ?b then _ else _) = _ => destruct b end;
    [ injection H as <-; eauto | ].
  match type of H with (if ?b then _ else _) = _ => destruct b end;
    [ injection H as <-; eauto | ].
  set (t' := {| Tiering.tier1_min_score := s |}).
  pose proof (assign_tier_raise (tiers cfg) t' (total_score (x :: scored))
                (max_mean_pct mp (x :: scored)) Hs eq_refl eq_refl) as Hr.
  pose proof (assign_tier_raise_None cfg s (total_score (x :: scored))
                (max_mean_pct mp (x :: scored)) Hs) as Hn.
  cbn [tiers with_tier1_min_score] in Hn. fold t' in Hn.
  destruct (assign_tier (tiers cfg) _ _) as [tier|] eqn:E.
  - cbv zeta in H. bind_inv H. injection H as <-.
    destruct (assign_tier t' _ _) as [tier'|] eqn:E';
      [ | exists None; split; [reflexivity | discriminate] ].
    cbv zeta. rewrite Ha. cbn [mbind result_bind].
    eexists. split; [reflexivity|]. cbn [row_is_tier1 Tier].
    intros Ht. apply String.eqb_eq in Ht. subst tier'.
    specialize (Hr eq_refl). injection Hr as ->. reflexivity.
  - rewrite (Hn eq_refl). injection H as <-.
    exists None. split; [reflexivity | discriminate].
Qed.

Lemma iterrows_raise (s : Z) cfg metrics mt st idx (l : list row) kept :
  Tiering.tier1_min_score (tiers cfg) <= s ->
  iterrows cfg metrics mt st idx l = Ok kept ->
  exists kept',
    iterrows (with_tier1_min_score s cfg) metrics mt st idx l = Ok kept'
    /\ tier1_count kept' <= tier1_count kept.
Proof.
  intros Hs. revert idx kept. induction l as [|r l IH]; intros idx kept H.
  - injection H as <-. exists []. split; [reflexivity | cbn; lia].
  - cbn [iterrows] in *. bind_inv H. bind_inv H. injection H as <-.
    destruct (account_row_raise s _ _ _ _ _ _ Hs Ha) as (o' & -> & Ho').
    destruct (IH _ _ Ha0) as (kept' & -> & Hle).
    cbn [mbind result_bind]. eexists. split; [reflexivity|].
    unfold tier1_count in *.
    destruct o' as [x'|], a as [x|]; cbn [row_is_tier1] in Ho';
      rewrite ?count_if_cons.
    + destruct (String.eqb (Tier x') "Tier-1"); [ rewrite Ho' by reflexivity | ];
        [ lia | destruct (String.eqb (Tier x) "Tier-1"); lia ].
    + destruct (String.eqb (Tier x') "Tier-1");
        [ specialize (Ho' eq_refl); discriminate | lia ].
    + destruct (String.eqb (Tier x) "Tier-1"); lia.
    + exact Hle.
Qed.

(** ** The claims on the deviation engine *)

Example sample_batch_report :
  build_deviation_report sample_batch None
  = Ok [sample_row "Tier-1" "4000"; sample_row "Tier-1" "4200"].
Proof. vm_compute. reflexivity. Qed.

(** C6 (monotonic tiering).  Holding the batch and every other field of the
    configuration fixed, raising [tiers.tier1_min_score] never increases the
    number of Tier-1 rows of the report: where the engine returns a report
    for [cfg], it returns one for the raised configuration too, with at most
    as many Tier-1 rows. *)
Theorem monotonic_tiering (df : DataFrame) (cfg : DeviationConfig)
    (score : Z) (out : list report_row) :
  Tiering.tier1_min_score (tiers cfg) <= score ->
  build_deviation_report df (Some cfg) = Ok out ->
  exists out',
    build_deviation_report df (Some (with_tier1_min_score score cfg)) = Ok out'
    /\ tier1_count out' <= tier1_count out.
Proof.
  intros Hs H.
  destruct (build_Ok_inv _ _ _ H) as (kept & Hk & ->).
  destruct (iterrows_raise score _ _ _ _ _ _ _ Hs Hk) as (kept' & Hk' & Hle).
  exists (finish (Tiering.max_tier1 (tiers cfg)) kept'). split.
  - unfold build_deviation_report in *.
    destruct (negb (Str.mem "Account Code" (columns df))
              || negb (Str.mem "Account Name" (columns df))); [discriminate|].
    destruct (detect_metrics (columns df)) as [|m ms]; [discriminate|].
    rewrite Hk'. reflexivity.
  - rewrite !finish_tier1_count. now apply cap_count_mono.
Qed.

Lemma monotonic_tiering_witness :
  exists out',
    build_deviation_report sample_batch
      (Some (with_tier1_min_score 15 default_config)) = Ok out'
    /\ tier1_count out'
       <= tier1_count [sample_row "Tier-1" "4000"; sample_row "Tier-1" "4200"].
Proof.
  apply (monotonic_tiering sample_batch default_config 15).
  - vm_compute. discriminate.
  - vm_compute. reflexivity.
Defined.

(** ** The order of the report *)


Lemma sort_le_spec (a b : labelled) :
  sort_le a b = true <-> report_le (snd a) (snd b).
Proof.
  unfold sort_le, report_le.
  rewrite orb_true_iff, andb_true_iff, Z.ltb_lt, Z.eqb_eq, Z.leb_le.
  reflexivity.
Qed.

Lemma report_le_trans (a b c : report_row) :
  report_le a b -> report_le b c -> report_le a c.
Proof. unfold report_le. lia. Qed.

Lemma report_le_total (a b : report_row) : report_le a b \/ report_le b a.
Proof. unfold report_le. lia. Qed.

Lemma insert_by_sorted {A : Type} (le : A -> A -> bool) (x : A) (l : list A) :
  (forall a b c, le a b = true -> le b c = true -> le a c = true) ->
  (forall a b, le a b = true \/ le b a = true) ->
  StronglySorted (fun a b => le a b = true) l ->
  StronglySorted (fun a b => le a b = true) (insert_by le x l).
Proof.
  intros Htrans Htotal. induction l as [|y l IH]; intros Hs; cbn.
  - repeat constructor.
  - apply StronglySorted_cons in Hs as [Hy Hl].
    destruct (le x y) eqn:E.
    + apply StronglySorted_cons. split.
      * constructor; [exact E|].
        eapply Forall_impl; [exact Hy|]. intros z Hz. now apply (Htrans x y z).
      * apply StronglySorted_cons. auto.
    + apply StronglySorted_cons. split; [ | auto ].
      rewrite insert_by_Permutation. constructor; [ | exact Hy ].
      destruct (Htotal x y) as [H|H]; [congruence | exact H].
Qed.

Lemma sort_by_sorted {A : Type} (le : A -> A -> bool) (l : list A) :
  (forall a b c, le a b = true -> le b c = true -> le a c = true) ->
  (forall a b, le a b = true \/ le b a = true) ->
  StronglySorted (fun a b => le a b = true) (sort_by le l).
Proof.
  intros Htrans Htotal. induction l as [|x l IH]; cbn; [constructor|].
  now apply insert_by_sorted.
Qed.

Lemma sort_values_sorted (l : list labelled) :
  StronglySorted labelled_le (sort_values l).
Proof.
  apply sort_by_sorted.
  - intros a b c. rewrite !sort_le_spec. apply report_le_trans.
  - intros a b. rewrite !sort_le_spec. apply report_le_total.
Qed.

Lemma StronglySorted_map_snd (l : list labelled) :
  StronglySorted labelled_le l -> StronglySorted report_le (map snd l).
Proof.
  induction l as [|x l IH]; intros H; [constructor|].
  apply StronglySorted_cons in H as [Hx Hl]. cbn [map].
  apply StronglySorted_cons. split; [ | auto ].
  apply Forall_forall. intros y Hy.
  apply list_elem_of_In, in_map_iff in Hy as (z & <- & Hz).
  rewrite Forall_forall in Hx. apply sort_le_spec, Hx. now apply list_elem_of_In.
Qed.

Lemma StronglySorted_filter {A : Type} (R : A -> A -> Prop) (p : A -> Prop)
    `{forall x, Decision (p x)} (l : list A) :
  StronglySorted R l -> StronglySorted R (filter p l).
Proof.
  induction l as [|x l IH]; intros Hs; [constructor|].
  apply StronglySorted_cons in Hs as [Hx Hl]. rewrite filter_cons.
  destruct (decide (p x)); [ | auto ].
  apply StronglySorted_cons. split; [ | auto ].
  rewrite Forall_forall in *. intros y Hy. apply Hx.
  now apply list_elem_of_filter in Hy as [_ Hy].
Qed.

(** The report that [finish] returns is in order, with or without the
    cap. *)
Lemma finish_sorted (k : Z) (rows : list report_row) :
  StronglySorted report_le (finish k rows).
Proof.
  rewrite finish_unfold. apply StronglySorted_map_snd.
  rewrite cap_tier1_unfold.
  destruct (negb (k =? 0) && (k <? _)); apply sort_values_sorted.
Qed.

(** ** What the cap keeps and what it demotes *)

Lemma demote_rows_id (D : list nat) (l : list labelled) :
  (forall x, x ∈ l -> fst x ∉ D) -> demote_rows D l = l.
Proof.
  induction l as [|x l IH]; intros H; [reflexivity|].
  unfold demote_rows in *. cbn [map]. rewrite IH.
  - destruct (mem_nat (fst x) D) eqn:E; [ | reflexivity ].
    apply mem_nat_spec in E. exfalso. apply (H x); [apply list_elem_of_here | exact E].
  - intros y Hy. apply H. now apply list_elem_of_further.
Qed.

Lemma demote_rows_all (D : list nat) (l : list labelled) :
  (forall x, x ∈ l -> fst x ∈ D) -> demote_rows D l = map demote1 l.
Proof.
  induction l as [|x l IH]; intros H; [reflexivity|].
  unfold demote_rows in *. cbn [map]. rewrite IH.
  - assert (E : mem_nat (fst x) D = true)
      by (apply mem_nat_spec, H, list_elem_of_here).
    rewrite E. reflexivity.
  - intros y Hy. apply H. now apply list_elem_of_further.
Qed.

Lemma demote_rows_app (D : list nat) (l1 l2 : list labelled) :
  demote_rows D (l1 ++ l2) = demote_rows D l1 ++ demote_rows D l2.
Proof. unfold demote_rows. apply map_app. Qed.

Lemma elem_of_map_fst (x : labelled) (l : list labelled) :
  x ∈ l -> fst x ∈ map fst l.
Proof. intros H. apply list_elem_of_In, in_map, list_elem_of_In, H. Qed.

Lemma map_fst_drop (d : nat) (l : list labelled) :
  map fst (drop d l) = drop d (map fst l).
Proof.
  revert d. induction l as [|x l IH]; intros [|d]; cbn; auto.
Qed.

Lemma cap_tier1_split (k : Z) (L : list labelled) :
  NoDup (map fst L) ->
  let T := filter (fun x => is_tier1 x) L in
  let N := filter (fun x => ~ is_tier1 x) L in
  let d := Z.to_nat (cap_count k (count_if is_tier1 L)) in
  cap_tier1 k L ≡ₚ take d T ++ map demote1 (drop d T) ++ N.
Proof.
  intros Hnd T N d.
  assert (HL : L ≡ₚ T ++ N) by (symmetry; apply filter_app_complement).
  assert (Hn : count_if is_tier1 L = Z.of_nat (length T)) by reflexivity.
  rewrite cap_tier1_unfold.
  destruct (negb (k =? 0) && (k <? count_if is_tier1 L)) eqn:Ec.
  - apply andb_prop in Ec as [Ek Elt].
    apply negb_true_iff, Z.eqb_neq in Ek. apply Z.ltb_lt in Elt.
    rewrite sort_values_Permutation.
    assert (ED : slice_from k (map fst T) = map fst (drop d T)).
    { rewrite map_fst_drop. unfold slice_from, d, cap_count.
      rewrite length_map.
      destruct (k =? 0) eqn:E0; [apply Z.eqb_eq in E0; lia|].
      rewrite Hn in *. unfold labelled in *.
      destruct (0 <=? k) eqn:E1.
      - apply Z.leb_le in E1.
        destruct (0 <? k) eqn:E2; [ | apply Z.ltb_ge in E2; lia ].
        f_equal. lia.
      - apply Z.leb_gt in E1.
        destruct (0 <? k) eqn:E2; [ apply Z.ltb_lt in E2; lia | ].
        f_equal. lia. }
    fold T. rewrite ED.
    set (D := map fst (drop d T)).
    transitivity (demote_rows D (T ++ N)).
    { unfold demote_rows. now apply Permutation_map. }
    rewrite <- (take_drop d T) at 1. rewrite !demote_rows_app.
    assert (Hnd' : NoDup (map fst (take d T) ++ map fst (drop d T) ++ map fst N)).
    { rewrite <- !map_app, app_assoc, take_drop.
      assert (E : map fst (T ++ N) ≡ₚ map fst L)
        by (symmetry; now apply Permutation_map).
      now rewrite E. }
    apply NoDup_app in Hnd' as (_ & H1 & H2).
    apply NoDup_app in H2 as (_ & H2 & _).
    assert (E1 : demote_rows D (take d T) = take d T).
    { apply demote_rows_id. intros x Hx HD.
      apply (H1 (fst x)); [now apply elem_of_map_fst|].
      apply elem_of_app. now left. }
    assert (E2 : demote_rows D (drop d T) = map demote1 (drop d T)).
    { apply demote_rows_all. intros x Hx. now apply elem_of_map_fst. }
    assert (E3 : demote_rows D N = N).
    { apply demote_rows_id. intros x Hx HD.
      apply (H2 (fst x)); [exact HD | now apply elem_of_map_fst]. }
    rewrite E1, E2, E3. now rewrite <- app_assoc.
  - assert (Ed : d = length T).
    { unfold d, cap_count. rewrite Hn in *.
      destruct (k =? 0) eqn:E0; [lia|]. cbn [negb andb] in Ec.
      apply Z.ltb_ge in Ec. apply Z.eqb_neq in E0.
      destruct (0 <? k) eqn:E2; [ lia | apply Z.ltb_ge in E2; lia ]. }
    rewrite Ed, firstn_all, drop_all. cbn [map app]. now symmetry.
Qed.

Lemma map_snd_demote1 (l : list labelled) :
  map snd (map demote1 l) = map (set_tier "Tier-2") (map snd l).
Proof. rewrite !map_map. reflexivity. Qed.

Lemma map_take {A B : Type} (f : A -> B) (n : nat) (l : list A) :
  map f (take n l) = take n (map f l).
Proof. revert n. induction l as [|x l IH]; intros [|n]; cbn; f_equal; auto. Qed.

Lemma map_drop {A B : Type} (f : A -> B) (n : nat) (l : list A) :
  map f (drop n l) = drop n (map f l).
Proof. revert n. induction l as [|x l IH]; intros [|n]; cbn; auto. Qed.

Lemma tier1_count_with_index (kept : list report_row) :
  count_if is_tier1 (sort_values (with_index kept)) = tier1_count kept.
Proof.
  rewrite (count_if_Permutation _ _ _ (sort_values_Permutation _)).
  rewrite <- tier1_count_labelled, with_index_snd. reflexivity.
Qed.

(** The finished report, piece by piece: the first candidates stay in
    Tier-1, the candidates past them are moved to Tier-2, the other rows are
    as they were. *)
Lemma finish_split (k : Z) (kept : list report_row) :
  let d := Z.to_nat (cap_count k (tier1_count kept)) in
  finish k kept ≡ₚ take d (candidates kept)
                   ++ map (set_tier "Tier-2") (drop d (candidates kept))
                   ++ others kept.
Proof.
  intros d. rewrite finish_unfold.
  rewrite (Permutation_map snd
             (cap_tier1_split k _ (sorted_labels_NoDup kept))).
  rewrite !map_app, map_snd_demote1, map_take, map_drop.
  rewrite tier1_count_with_index. reflexivity.
Qed.

Lemma candidates_others (kept : list report_row) :
  kept ≡ₚ candidates kept ++ others kept.
Proof.
  unfold candidates, others. rewrite <- map_app.
  rewrite <- (with_index_snd kept) at 1.
  apply Permutation_map. rewrite filter_app_complement.
  symmetry. apply sort_values_Permutation.
Qed.

Lemma candidates_sorted (kept : list report_row) :
  StronglySorted report_le (candidates kept).
Proof.
  apply StronglySorted_map_snd, StronglySorted_filter, sort_values_sorted.
Qed.

Lemma candidates_tier1 (kept : list report_row) (o : report_row) :
  o ∈ candidates kept -> tier1 o = true.
Proof.
  intros H. apply list_elem_of_In, in_map_iff in H as (x & <- & Hx).
  apply list_elem_of_In, list_elem_of_filter in Hx as [Hx _].
  now apply Is_true_true in Hx.
Qed.

Lemma others_not_tier1 (kept : list report_row) (o : report_row) :
  o ∈ others kept -> tier1 o = false.
Proof.
  intros H. apply list_elem_of_In, in_map_iff in H as (x & <- & Hx).
  apply list_elem_of_In, list_elem_of_filter in Hx as [Hx _].
  unfold tier1. fold (is_tier1 x). destruct (is_tier1 x); [ | reflexivity ].
  exfalso. apply Hx. exact I.
Qed.

Lemma candidates_length (kept : list report_row) :
  Z.of_nat (length (candidates kept)) = tier1_count kept.
Proof.
  unfold candidates. rewrite length_map.
  rewrite <- tier1_count_with_index. reflexivity.
Qed.

(** Among Tier-1 rows the order of the report is by falling score. *)
Lemma tier1_report_le (a b : report_row) :
  tier1 a = true -> tier1 b = true -> report_le a b -> Score b <= Score a.
Proof.
  unfold tier1, report_le, tier_rank. intros -> ->. lia.
Qed.

Lemma sorted_take_drop (d : nat) (l : list report_row) (a b : report_row) :
  StronglySorted report_le l -> a ∈ take d l -> b ∈ drop d l -> report_le a b.
Proof.
  intros Hs Ha Hb. rewrite <- (take_drop d l) in Hs.
  eapply StronglySorted_app_1_elem_of; eauto.
Qed.

Lemma elem_of_take_elem {A : Type} (d : nat) (l : list A) (x : A) :
  x ∈ take d l -> x ∈ l.
Proof. intros H. rewrite <- (take_drop d l). apply elem_of_app. now left. Qed.

Lemma elem_of_drop_elem {A : Type} (d : nat) (l : list A) (x : A) :
  x ∈ drop d l -> x ∈ l.
Proof. intros H. rewrite <- (take_drop d l). apply elem_of_app. now right. Qed.

(** ** The cap does not enter the scores *)

Lemma account_row_max_tier1 (k : Z) cfg metrics mp sp r :
  account_row (with_max_tier1 k cfg) metrics mp sp r
  = account_row cfg metrics mp sp r.
Proof.
  unfold account_row.
  assert (E : score_metrics (with_max_tier1 k cfg) r mp sp metrics
              = score_metrics cfg r mp sp metrics).
  { induction metrics as [|m ms IH]; [reflexivity|].
    cbn [score_metrics]. rewrite IH. reflexivity. }
  rewrite E. reflexivity.
Qed.

Lemma iterrows_max_tier1 (k : Z) cfg metrics mt st idx (l : list row) :
  iterrows (with_max_tier1 k cfg) metrics mt st idx l
  = iterrows cfg metrics mt st idx l.
Proof.
  revert idx. induction l as [|r l IH]; intros idx; [reflexivity|].
  cbn [iterrows]. rewrite account_row_max_tier1.
  destruct (account_row cfg metrics (pct_at mt idx) (pct_at st idx) r);
    [ | reflexivity ].
  cbn [mbind result_bind]. now rewrite IH.
Qed.

Lemma build_with_max_tier1 (k : Z) (df : DataFrame) (cfg : DeviationConfig)
    (kept : list report_row) :
  let metrics := detect_metrics (columns df) in
  iterrows cfg metrics (pct_table df metrics "CY_Mean")
           (pct_table df metrics "CY_Std") 0 (rows df) = Ok kept ->
  forall out, build_deviation_report df (Some cfg) = Ok out ->
  build_deviation_report df (Some (with_max_tier1 k cfg)) = Ok (finish k kept).
Proof.
  intros metrics Hk out H. unfold build_deviation_report in *.
  destruct (negb (Str.mem "Account Code" (columns df))
            || negb (Str.mem "Account Name" (columns df))); [discriminate|].
  fold metrics in H |- *. destruct metrics as [|m ms]; [discriminate|].
  rewrite iterrows_max_tier1, Hk. reflexivity.
Qed.

Lemma finish_no_cap (kept : list report_row) :
  finish 0 kept ≡ₚ kept.
Proof.
  rewrite finish_unfold, cap_tier1_unfold. cbn [Z.eqb negb andb].
  rewrite (Permutation_map snd (sort_values_Permutation _)).
  now rewrite with_index_snd.
Qed.

(** ** Which check a trigger comes from *)

Lemma fires_only_passes (names : list string) (s s' : tally) (t : string) :
  fires_only names s s' -> t ∉ names -> t ∈ snd s' -> t ∈ snd s.
Proof.
  intros [-> | (name & n & Hin & ->)] Ht H; [exact H|].
  cbn [fire snd] in H. apply elem_of_app in H as [H|H]; [exact H|].
  apply list_elem_of_singleton in H as ->. contradiction.
Qed.

Ltac fires_from spec :=
  let H := fresh "H" in
  intros H; apply spec in H;
  let n := fresh "n" in
  destruct H as [-> | [_ H]]; [ left; reflexivity | right ];
  first [ destruct H as (n & ->); eexists _, n; split; [ | reflexivity ];
          apply list_elem_of_here
        | exact H ].

Lemma check_distribution_change_fires cfg p x s s' :
  check_distribution_change cfg p x s = Ok s' ->
  fires_only ["Distribution Change"] s s'.
Proof. fires_from check_distribution_change_spec. Qed.

Lemma check_mean_shift_fires cfg p x s s' :
  check_mean_shift cfg p x s = Ok s' -> fires_only ["Mean Shift"] s s'.
Proof. fires_from check_mean_shift_spec. Qed.

Lemma check_effect_size_fires cfg p x s s' :
  check_effect_size cfg p x s = Ok s' ->
  fires_only ["Large Effect Size"; "Medium Effect Size"] s s'.
Proof. fires_from check_effect_size_spec. Qed.

Lemma check_cv_fires cfg p x s s' :
  check_cv cfg p x s = Ok s' -> fires_only ["High CV"; "Moderate CV"] s s'.
Proof. fires_from check_cv_spec. Qed.

Lemma check_low_mean_high_variance_fires cfg p x s s' :
  check_low_mean_high_variance cfg p x s = Ok s' ->
  fires_only ["Low Mean with High Variance"] s s'.
Proof. fires_from check_low_mean_high_variance_spec. Qed.

Lemma check_mean_median_gap_fires cfg p x s s' :
  check_mean_median_gap cfg p x s = Ok s' ->
  fires_only ["Mean-Median Gap"] s s'.
Proof. fires_from check_mean_median_gap_spec. Qed.

Lemma check_pearson_skew_fires cfg p x s s' :
  check_pearson_skew cfg p x s = Ok s' -> fires_only ["Pearson Skew"] s s'.
Proof. fires_from check_pearson_skew_spec. Qed.

Lemma check_volatility_jump_fires cfg p x s s' :
  check_volatility_jump cfg p x s = Ok s' ->
  fires_only ["Volatility Jump"] s s'.
Proof. fires_from check_volatility_jump_spec. Qed.

Lemma check_new_activity_fires cfg p x s s' :
  check_new_activity cfg p x s = Ok s' ->
  fires_only ["New Activity / Re-start"] s s'.
Proof. fires_from check_new_activity_spec. Qed.

Lemma check_sign_reversal_fires cfg p x s s' :
  check_sign_reversal cfg p x s = Ok s' -> fires_only ["Sign Reversal"] s s'.
Proof. fires_from check_sign_reversal_spec. Qed.

Ltac not_in_names :=
  rewrite ?elem_of_cons, ?elem_of_nil; intros H'; decompose [or] H';
  try discriminate; try contradiction.

(** The run of the ten checks, check by check. *)
Lemma score_metric_steps cfg r mp sp m t :
  score_metric cfg r mp sp m = Ok t ->
  let p := prof cfg m in
  let x := read_signals r m mp sp in
  exists s1 s2 s3,
    check_distribution_change cfg p x (0, []) = Ok s1 /\
    check_mean_shift cfg p x s1 = Ok s2 /\
    check_effect_size cfg p x s2 = Ok s3 /\
    forall name, name ∈ ["Distribution Change"; "Mean Shift";
                         "Large Effect Size"; "Medium Effect Size"] ->
                 name ∈ snd t -> name ∈ snd s3.
Proof.
  intros H p x. unfold score_metric, checks in H. fold p x in H.
  cbn [run_checks] in H.
  bind_inv H. rename a into s1, Ha into H1.
  bind_inv H. rename a into s2, Ha into H2.
  bind_inv H. rename a into s3, Ha into H3.
  bind_inv H. rename a into s4, Ha into H4.
  bind_inv H. rename a into s5, Ha into H5.
  bind_inv H. rename a into s6, Ha into H6.
  bind_inv H. rename a into s7, Ha into H7.
  bind_inv H. rename a into s8, Ha into H8.
  bind_inv H. rename a into s9, Ha into H9.
  bind_inv H. rename a into s10, Ha into H10.
  injection H as <-.
  exists s1, s2, s3. repeat split; try assumption.
  intros name Hname Hin.
  apply check_cv_fires in H4. apply check_low_mean_high_variance_fires in H5.
  apply check_mean_median_gap_fires in H6. apply check_pearson_skew_fires in H7.
  apply check_volatility_jump_fires in H8. apply check_new_activity_fires in H9.
  apply check_sign_reversal_fires in H10.
  rewrite !elem_of_cons, elem_of_nil in Hname.
  eapply (fires_only_passes _ _ _ name H4);
    [ destruct Hname as [->|[->|[->|[->|[]]]]]; not_in_names | ].
  eapply (fires_only_passes _ _ _ name H5);
    [ destruct Hname as [->|[->|[->|[->|[]]]]]; not_in_names | ].
  eapply (fires_only_passes _ _ _ name H6);
    [ destruct Hname as [->|[->|[->|[->|[]]]]]; not_in_names | ].
  eapply (fires_only_passes _ _ _ name H7);
    [ destruct Hname as [->|[->|[->|[->|[]]]]]; not_in_names | ].
  eapply (fires_only_passes _ _ _ name H8);
    [ destruct Hname as [->|[->|[->|[->|[]]]]]; not_in_names | ].
  eapply (fires_only_passes _ _ _ name H9);
    [ destruct Hname as [->|[->|[->|[->|[]]]]]; not_in_names | ].
  eapply (fires_only_passes _ _ _ name H10);
    [ destruct Hname as [->|[->|[->|[->|[]]]]]; not_in_names | ].
  exact Hin.
Qed.

(** "Distribution Change" is in the triggers of a metric only with a
    significant KS or Mann-Whitney test. *)
Lemma distribution_change_needs_test cfg r mp sp m t :
  score_metric cfg r mp sp m = Ok t ->
  "Distribution Change" ∈ snd t ->
  dist_change (read_signals r m mp sp) = true.
Proof.
  intros H Hin.
  destruct (score_metric_steps _ _ _ _ _ _ H) as (s1 & s2 & s3 & H1 & H2 & H3 & Hback).
  apply Hback in Hin; [ | apply list_elem_of_here ].
  apply check_effect_size_fires in H3. apply check_mean_shift_fires in H2.
  eapply (fires_only_passes _ _ _ _ H3) in Hin; [ | not_in_names ].
  eapply (fires_only_passes _ _ _ _ H2) in Hin; [ | not_in_names ].
  apply check_distribution_change_spec in H1 as [-> | [Hd _]]; [ | exact Hd ].
  now apply elem_of_nil in Hin.
Qed.

(** "Mean Shift" is in the triggers of a metric only with a significant
    t-test or ANOVA, or through the relative-move fallback, which needs the
    mean difference and both means to be numbers. *)
Lemma mean_shift_needs_test_or_move cfg r mp sp m t :
  score_metric cfg r mp sp m = Ok t ->
  "Mean Shift" ∈ snd t ->
  let x := read_signals r m mp sp in
  mean_change x = true \/
  F64.isnan (mean_diff x) || F64.isnan (ly_mean x) || F64.isnan (cy_mean x)
  = false.
Proof.
  intros H Hin x.
  destruct (score_metric_steps _ _ _ _ _ _ H) as (s1 & s2 & s3 & H1 & H2 & H3 & Hback).
  apply Hback in Hin; [ | apply list_elem_of_further, list_elem_of_here ].
  apply check_effect_size_fires in H3.
  eapply (fires_only_passes _ _ _ _ H3) in Hin; [ | not_in_names ].
  apply check_mean_shift_spec in H2 as [-> | [Hd _]]; [ | exact Hd ].
  apply check_distribution_change_fires in H1.
  eapply (fires_only_passes _ _ _ _ H1) in Hin; [ | not_in_names ].
  now apply elem_of_nil in Hin.
Qed.

(** C9 (numeric-coded significance flags never count).  A significance cell
    that holds a plain integer (such as 1 or 0) or a float that is not NaN
    (such as 1.0) is read by [to_bool] as unknown.  The test of that cell
    then counts for nothing: the Distribution Change condition is decided
    by the other test of its pair alone, and so is the Mean Shift
    significance condition; a "Distribution Change" trigger in the result of
    the scorer needs the other test to be significant, and a "Mean Shift"
    trigger needs the other test or the relative-move fallback. *)
Theorem numeric_flags_never_count (cfg : DeviationConfig) (r : row)
    (m sfx : string) (mp sp : float) :
  sfx ∈ flag_suffixes ->
  plain_number (get r (col m sfx)) = true ->
  let x := read_signals r m mp sp in
  to_bool (get r (col m sfx)) = None /\
  (sfx = "KS_Significant" ->
     dist_change x = is_True (mw_sig x) /\
     forall t, score_metric cfg r mp sp m = Ok t ->
               "Distribution Change" ∈ snd t -> mw_sig x = Some true) /\
  (sfx = "MannWhitney_Significant" ->
     dist_change x = is_True (ks_sig x) /\
     forall t, score_metric cfg r mp sp m = Ok t ->
               "Distribution Change" ∈ snd t -> ks_sig x = Some true) /\
  (sfx = "TTest_Significant" ->
     mean_change x = is_True (anova_sig x) /\
     forall t, score_metric cfg r mp sp m = Ok t -> "Mean Shift" ∈ snd t ->
               anova_sig x = Some true \/
               F64.isnan (mean_diff x) || F64.isnan (ly_mean x)
               || F64.isnan (cy_mean x) = false) /\
  (sfx = "ANOVA_Significant" ->
     mean_change x = is_True (t_sig x) /\
     forall t, score_metric cfg r mp sp m = Ok t -> "Mean Shift" ∈ snd t ->
               t_sig x = Some true \/
               F64.isnan (mean_diff x) || F64.isnan (ly_mean x)
               || F64.isnan (cy_mean x) = false).
Proof.
  intros _ Hnum x. pose proof (to_bool_number _ Hnum) as Hnone.
  assert (Htrue : forall b : option bool, is_True b = true -> b = Some true).
  { intros [[|]|]; cbn; congruence. }
  split; [exact Hnone|].
  split; [ | split; [ | split ] ]; intros ->; split.
  - unfold dist_change. subst x. cbn [read_signals ks_sig]. now rewrite Hnone.
  - intros t Ht Hin. apply Htrue.
    pose proof (distribution_change_needs_test _ _ _ _ _ _ Ht Hin) as Hd.
    unfold dist_change in Hd. cbn [read_signals ks_sig] in Hd.
    now rewrite Hnone in Hd.
  - unfold dist_change. subst x. cbn [read_signals mw_sig]. rewrite Hnone.
    cbn. now rewrite orb_false_r.
  - intros t Ht Hin. apply Htrue.
    pose proof (distribution_change_needs_test _ _ _ _ _ _ Ht Hin) as Hd.
    unfold dist_change in Hd. cbn [read_signals mw_sig] in Hd.
    rewrite Hnone in Hd. cbn in Hd. now rewrite orb_false_r in Hd.
  - unfold mean_change. subst x. cbn [read_signals t_sig]. now rewrite Hnone.
  - intros t Ht Hin.
    destruct (mean_shift_needs_test_or_move _ _ _ _ _ _ Ht Hin) as [Hd|Hd];
      [ left | right; exact Hd ].
    apply Htrue. unfold mean_change in Hd. cbn [read_signals t_sig] in Hd.
    now rewrite Hnone in Hd.
  - unfold mean_change. subst x. cbn [read_signals anova_sig]. rewrite Hnone.
    cbn. now rewrite orb_false_r.
  - intros t Ht Hin.
    destruct (mean_shift_needs_test_or_move _ _ _ _ _ _ Ht Hin) as [Hd|Hd];
      [ left | right; exact Hd ].
    apply Htrue. unfold mean_change in Hd. cbn [read_signals anova_sig] in Hd.
    rewrite Hnone in Hd. cbn in Hd. now rewrite orb_false_r in Hd.
Qed.

Lemma numeric_flags_never_count_witness :
  plain_number (get coded_account (col "Credit" "KS_Significant")) = true /\
  to_bool (get coded_account (col "Credit" "KS_Significant")) = None /\
  dist_change (read_signals coded_account "Credit" F64.nan F64.nan)
  = is_True (mw_sig (read_signals coded_account "Credit" F64.nan F64.nan)).
Proof.
  assert (Hin : "KS_Significant" ∈ flag_suffixes)
    by (repeat first [apply list_elem_of_here | apply list_elem_of_further]).
  assert (Hnum : plain_number (get coded_account (col "Credit" "KS_Significant"))
                 = true) by (vm_compute; reflexivity).
  pose proof (numeric_flags_never_count default_config coded_account "Credit"
                "KS_Significant" F64.nan F64.nan Hin Hnum) as H.
  cbv zeta in H. destruct H as (H1 & H2 & _).
  split; [exact Hnum|]. split; [exact H1|]. exact (proj1 (H2 eq_refl)).
Defined.

Lemma no_evidence_forallb (r : row) (metrics : list string) :
  forallb (no_evidence r) metrics = true ->
  forallb (lone_field r) metrics = true.
Proof.
  rewrite !forallb_forall. intros H m Hm. apply no_evidence_lone_field. auto.
Qed.

Lemma score_metrics_each cfg r mp sp metrics scored :
  score_metrics cfg r mp sp metrics = Ok scored ->
  forall m, m ∈ metrics -> exists t, score_metric cfg r (mp m) (sp m) m = Ok t.
Proof.
  revert scored. induction metrics as [|m0 ms IH]; intros scored H m Hm.
  - now apply elem_of_nil in Hm.
  - cbn [score_metrics] in H. bind_inv H. bind_inv H.
    apply elem_of_cons in Hm as [-> | Hm]; [eauto | ].
    eapply IH; eauto.
Qed.

(** A row of the finished report is a row the loop kept, under its own
    tier or under Tier-2. *)
Lemma finish_elem (k : Z) (kept : list report_row) (o : report_row) :
  o ∈ finish k kept ->
  exists o', o' ∈ kept /\ (o = o' \/ o = set_tier "Tier-2" o').
Proof.
  intros H. rewrite finish_split in H.
  pose proof (candidates_others kept) as Hk.
  apply elem_of_app in H as [H|H]; [ | apply elem_of_app in H as [H|H] ].
  - exists o. split; [ | now left ].
    rewrite Hk. apply elem_of_app. left. eapply elem_of_take_elem, H.
  - apply list_elem_of_In, in_map_iff in H as (o' & <- & H).
    exists o'. split; [ | now right ].
    rewrite Hk. apply elem_of_app. left.
    eapply elem_of_drop_elem. apply list_elem_of_In, H.
  - exists o. split; [ | now left ].
    rewrite Hk. apply elem_of_app. now right.
Qed.

(** C1 (no-evidence invariant), as the code has it.  Whenever the engine
    returns a report:
    - an account row in which, for every detected metric, every numeric
      field (means, stds, median, diffs, Cohen's d) is not-a-number and every
      significance flag is missing or unknown scores nothing on any metric,
      so that its per-account score is 0, and it is skipped;
    - the same holds when one numeric field per metric holds a number, be
      it finite or infinite, and nothing else does: no single field fires a
      trigger by itself;
    - every row of the report is the row of an input account that has more
      evidence than that, under the tier the engine gave it or Tier-2;
    - [to_float] reads a missing cell, a boolean, and a cell on which
      [float()] raises (blank or non-numeric text, a container) as NaN, and
      it keeps a float as it is, an infinity too: an infinite field is not
      turned into "no evidence", and beside a valid field it can fire a
      trigger, as the counterexample shows.  Only the percentile ranks
      take an infinite cell for a missing one. *)
Theorem no_evidence_invariant (df : DataFrame) (cfg : DeviationConfig)
    (out : list report_row) :
  build_deviation_report df (Some cfg) = Ok out ->
  let metrics := detect_metrics (columns df) in
  let mean_pct := pct_table df metrics "CY_Mean" in
  let std_pct := pct_table df metrics "CY_Std" in
  (forall (i : nat) (r : row),
     rows df !! i = Some r ->
     forallb (no_evidence r) metrics = true
     \/ forallb (lone_field r) metrics = true ->
     (forall m, m ∈ metrics ->
        score_metric cfg r (pct_at mean_pct i m) (pct_at std_pct i m) m
        = Ok (0, [])) /\
     score_metrics cfg r (pct_at mean_pct i) (pct_at std_pct i) metrics = Ok [] /\
     total_score [] = 0 /\
     account_row cfg metrics (pct_at mean_pct i) (pct_at std_pct i) r = Ok None)
  /\
  (forall o, o ∈ out ->
     exists (i : nat) (r : row) (o' : report_row),
       rows df !! i = Some r /\
       account_row cfg metrics (pct_at mean_pct i) (pct_at std_pct i) r
       = Ok (Some o') /\
       (o = o' \/ o = set_tier "Tier-2" o') /\
       forallb (no_evidence r) metrics = false /\
       forallb (lone_field r) metrics = false)
  /\
  ((forall x, x = PNone \/ (exists b, x = PBool b) \/ PyFloat.of_val x = None ->
      to_float x = F64.nan)
   /\ to_float (PStr "") = F64.nan
   /\ (forall f, to_float (PFloat f) = f)
   /\ forall x, F64.isinf (to_numeric x) = true -> abs_finite x = F64.nan).
Proof.
  intros H metrics mean_pct std_pct.
  destruct (build_Ok_inv _ _ _ H) as (kept & Hk & ->).
  fold metrics mean_pct std_pct in Hk. split; [|split].
  3:{ split; [apply to_float_no_evidence|].
      split; [reflexivity|]. split; [reflexivity|].
      intros x Hx. unfold abs_finite.
      destruct (to_numeric x); try discriminate Hx. reflexivity. }
  - intros i r Hi Hev.
    assert (Hl : forallb (lone_field r) metrics = true).
    { destruct Hev as [Hev|Hev]; [ | exact Hev ].
      now apply no_evidence_forallb. }
    destruct (iterrows_all_Ok _ _ _ _ _ _ _ _ _ Hk Hi) as (o & Ho).
    cbn [Nat.add] in Ho.
    pose proof (lone_field_account_row _ _ _ _ _ _ Hl Ho) as ->.
    pose proof Ho as Ho'. unfold account_row in Ho'. bind_inv Ho'.
    pose proof (lone_field_score_metrics _ _ _ _ _ _ Hl Ha) as ->.
    repeat split; try assumption.
    intros m Hm.
    destruct (score_metrics_each _ _ _ _ _ _ Ha m Hm) as (t & Ht).
    rewrite forallb_forall in Hl.
    pose proof (lone_field_score_metric cfg r (pct_at mean_pct i m)
                  (pct_at std_pct i m) m (Hl m (proj1 (list_elem_of_In _ _) Hm))) as Hs.
    rewrite Ht in Hs. now rewrite Hs in Ht.
  - intros o Ho.
    destruct (finish_elem _ _ _ Ho) as (o' & Ho' & Hoo').
    destruct (iterrows_elem _ _ _ _ _ _ _ _ Hk Ho') as (i & r & Hi & Hr).
    cbn [Nat.add] in Hr.
    exists i, r, o'. repeat split; try assumption.
    + destruct (forallb (no_evidence r) metrics) eqn:E; [ | reflexivity ].
      apply no_evidence_forallb in E.
      now pose proof (lone_field_account_row _ _ _ _ _ _ E Hr).
    + destruct (forallb (lone_field r) metrics) eqn:E; [ | reflexivity ].
      now pose proof (lone_field_account_row _ _ _ _ _ _ E Hr).
Qed.

Lemma no_evidence_invariant_witness :
  forallb (no_evidence (blank_account "4100"))
          (detect_metrics (columns sample_batch)) = true /\
  account_row default_config (detect_metrics (columns sample_batch))
    (pct_at (pct_table sample_batch (detect_metrics (columns sample_batch))
                       "CY_Mean") 1)
    (pct_at (pct_table sample_batch (detect_metrics (columns sample_batch))
                       "CY_Std") 1)
    (blank_account "4100") = Ok None.
Proof.
  assert (Hb : build_deviation_report sample_batch (Some default_config)
               = Ok [sample_row "Tier-1" "4000"; sample_row "Tier-1" "4200"])
    by (vm_compute; reflexivity).
  assert (Hev : forallb (no_evidence (blank_account "4100"))
                        (detect_metrics (columns sample_batch)) = true)
    by (vm_compute; reflexivity).
  split; [exact Hev|].
  pose proof (no_evidence_invariant sample_batch default_config _ Hb) as H.
  cbv zeta in H. destruct H as [H _].
  exact (proj2 (proj2 (proj2
           (H 1%nat (blank_account "4100") eq_refl (or_introl Hev))))).
Defined.

(** The claim as stated fails for an infinite field: [to_float] keeps an
    infinity, so an account whose only cells are a current-year mean of
    100 and an infinite current-year standard deviation has an infinite
    coefficient of variation and fires "High CV", where the same account
    with NaN for the standard deviation fires nothing; with
    [tier2_min_score] at 2 the first account is reported and the second is
    not. *)
Lemma no_evidence_invariant_counterexample :
  to_float (PFloat F64.inf) = F64.inf
  /\ F64.isnan (to_float (PFloat F64.inf)) = false
  /\ score_metric default_config (unbounded_account (PFloat F64.inf))
       (F64.of_Z 1) F64.nan "Credit" = Ok (2, ["High CV"])
  /\ score_metric default_config (unbounded_account (PFloat F64.nan))
       (F64.of_Z 1) F64.nan "Credit" = Ok (0, [])
  /\ build_deviation_report (unbounded_batch (PFloat F64.inf))
       (Some (with_tier2_min_score 2 default_config))
     = Ok [{| Tier := "Tier-2";
              Account_Code := PStr "4300";
              Account_Name := PStr "Freight";
              Key_Metrics_Triggered := "High CV";
              Score := 2;
              Dominant_Metric := "Credit" |}]
  /\ build_deviation_report (unbounded_batch (PFloat F64.nan))
       (Some (with_tier2_min_score 2 default_config))
     = Ok [].
Proof. vm_compute. repeat split; reflexivity. Qed.

(** C2 (cap enforcement), as the code has it.  The claim as stated fails
    for a configuration whose [max_tier1] is zero, which the engine reads
    as "no cap" (and for a negative one); for every batch and every
    configuration with a positive [max_tier1]:
    - the number of Tier-1 rows of the report never exceeds [max_tier1];
    - the report is in order, by tier and then by falling score;
    - against the report of the same run without a cap, the rows that keep
      Tier-1 are as many as qualify, up to [max_tier1]; the rows demoted are
      the other rows that qualify, they come out as Tier-2 with everything
      else unchanged, and none of them scores higher than a row that keeps
      Tier-1; the rows that did not qualify are untouched. *)
Theorem cap_enforcement (df : DataFrame) (cfg : DeviationConfig)
    (out : list report_row) :
  0 < Tiering.max_tier1 (tiers cfg) ->
  build_deviation_report df (Some cfg) = Ok out ->
  tier1_count out <= Tiering.max_tier1 (tiers cfg) /\
  StronglySorted report_le out /\
  exists uncapped keep demoted rest,
    build_deviation_report df (Some (with_max_tier1 0 cfg)) = Ok uncapped /\
    uncapped ≡ₚ keep ++ demoted ++ rest /\
    out ≡ₚ keep ++ map (set_tier "Tier-2") demoted ++ rest /\
    Z.of_nat (length keep)
    = Z.min (tier1_count uncapped) (Tiering.max_tier1 (tiers cfg)) /\
    (forall o, o ∈ keep ++ demoted -> tier1 o = true) /\
    (forall o, o ∈ rest -> tier1 o = false) /\
    (forall a b, a ∈ keep -> b ∈ demoted -> Score b <= Score a).
Proof.
  intros Hpos H.
  destruct (build_Ok_inv _ _ _ H) as (kept & Hk & ->).
  set (k := Tiering.max_tier1 (tiers cfg)) in *.
  split; [ rewrite finish_tier1_count; now apply cap_count_positive | ].
  split; [ apply finish_sorted | ].
  set (d := Z.to_nat (cap_count k (tier1_count kept))).
  exists (finish 0 kept), (take d (candidates kept)),
         (drop d (candidates kept)), (others kept).
  split; [ eapply build_with_max_tier1; eauto | ].
  split; [ rewrite finish_no_cap, app_assoc, take_drop;
           apply candidates_others | ].
  split; [ apply finish_split | ].
  split.
  { rewrite finish_tier1_count.
    change (cap_count 0 (tier1_count kept)) with (tier1_count kept).
    rewrite length_take. pose proof (candidates_length kept) as Hl.
    unfold d, cap_count.
    destruct (k =? 0) eqn:E0; [apply Z.eqb_eq in E0; lia|].
    destruct (0 <? k) eqn:E1; [ lia | apply Z.ltb_ge in E1; lia ]. }
  split.
  { intros o Ho. rewrite take_drop in Ho. now apply candidates_tier1 in Ho. }
  split; [ apply others_not_tier1 | ].
  intros a b Ha Hb.
  apply tier1_report_le.
  - eapply candidates_tier1, elem_of_take_elem, Ha.
  - eapply candidates_tier1, elem_of_drop_elem, Hb.
  - eapply sorted_take_drop; eauto. apply candidates_sorted.
Qed.

Lemma cap_enforcement_witness :
  tier1_count [sample_row "Tier-1" "4000"; sample_row "Tier-2" "4200"]
  <= Tiering.max_tier1 (tiers (with_max_tier1 1 default_config)).
Proof.
  refine (proj1 (cap_enforcement sample_batch (with_max_tier1 1 default_config)
                   [sample_row "Tier-1" "4000"; sample_row "Tier-2" "4200"]
                   _ _)).
  - vm_compute. reflexivity.
  - vm_compute. reflexivity.
Defined.

(** C2, the claim as stated, fails: with [max_tier1 = 0] the engine applies
    no cap and two Tier-1 rows come out; with [max_tier1 = -1] it demotes
    the last Tier-1 row only and one comes out. *)
Lemma cap_enforcement_counterexample :
  build_deviation_report sample_batch (Some (with_max_tier1 0 default_config))
  = Ok [sample_row "Tier-1" "4000"; sample_row "Tier-1" "4200"] /\
  (Tiering.max_tier1 (tiers (with_max_tier1 0 default_config))
   <? tier1_count [sample_row "Tier-1" "4000"; sample_row "Tier-1" "4200"])
  = true /\
  build_deviation_report sample_batch (Some (with_max_tier1 (-1) default_config))
  = Ok [sample_row "Tier-1" "4000"; sample_row "Tier-2" "4200"] /\
  (Tiering.max_tier1 (tiers (with_max_tier1 (-1) default_config))
   <? tier1_count [sample_row "Tier-1" "4000"; sample_row "Tier-2" "4200"])
  = true.
Proof. vm_compute. repeat split. Qed.

(** ** Percentile ranks by row *)

Lemma nth_map_lookup {A B : Type} (f : A -> B) (l : list A) (i : nat)
    (x : A) (d : B) :
  l !! i = Some x -> nth i (map f l) d = f x.
Proof.
  revert i. induction l as [|y l IH]; intros [|i] H; try discriminate.
  - now injection H as ->.
  - cbn. now apply IH.
Qed.

Lemma percentile_rank_abs_loc (df : DataFrame) (m sfx : string) (i : nat)
    (r : row) :
  rows df !! i = Some r ->
  loc (percentile_rank_abs df m sfx) i = row_pct df m sfx r.
Proof.
  intros Hi. unfold loc, percentile_rank_abs, row_pct.
  destruct (negb (Str.mem (m +:+ "_" +:+ sfx) (columns df))).
  - now rewrite (nth_map_lookup _ _ _ _ _ Hi).
  - cbv zeta. rewrite map_map. now rewrite (nth_map_lookup _ _ _ _ _ Hi).
Qed.

Lemma assoc_pct_table (df : DataFrame) (metrics : list string)
    (sfx m : string) :
  assoc m (pct_table df metrics sfx)
  = if Str.mem m metrics then Some (percentile_rank_abs df m sfx) else None.
Proof.
  unfold pct_table, Str.mem.
  induction metrics as [|m0 ms IH]; [reflexivity|].
  cbn [map assoc existsb].
  destruct (String.eqb m m0) eqn:E; [ | exact IH ].
  apply String.eqb_eq in E as ->. reflexivity.
Qed.

Lemma pct_at_row (df : DataFrame) (metrics : list string) (sfx : string)
    (i : nat) (r : row) (m : string) :
  rows df !! i = Some r ->
  pct_at (pct_table df metrics sfx) i m = row_pct_at df metrics sfx r m.
Proof.
  intros Hi. unfold pct_at, row_pct_at. rewrite assoc_pct_table.
  destruct (Str.mem m metrics); [ | reflexivity ].
  now apply percentile_rank_abs_loc.
Qed.

Lemma rank_pct_Permutation (l l' : list float) (v : float) :
  l ≡ₚ l' -> rank_pct l v = rank_pct l' v.
Proof.
  intros H. unfold rank_pct.
  rewrite !(count_if_Permutation _ _ _ H).
  now rewrite (Permutation_length H).
Qed.

(** The percentile rank of a row does not depend on the order of the
    batch. *)
Lemma row_pct_Permutation (df df' : DataFrame) (m sfx : string) (r : row) :
  columns df' = columns df -> rows df' ≡ₚ rows df ->
  row_pct df' m sfx r = row_pct df m sfx r.
Proof.
  intros Hc Hr. unfold row_pct. rewrite Hc.
  destruct (negb (Str.mem (m +:+ "_" +:+ sfx) (columns df))); [reflexivity|].
  cbv zeta. destruct (F64.isnan (abs_finite (get r (m +:+ "_" +:+ sfx))));
    [reflexivity|].
  apply rank_pct_Permutation.
  apply filter_Permutation. now apply Permutation_map.
Qed.

(** ** The loop over rows, by row *)

Lemma score_metrics_ext cfg r (mp sp mp' sp' : string -> float) metrics :
  (forall m, mp m = mp' m) -> (forall m, sp m = sp' m) ->
  score_metrics cfg r mp sp metrics = score_metrics cfg r mp' sp' metrics.
Proof.
  intros Hm Hs. induction metrics as [|m ms IH]; [reflexivity|].
  cbn [score_metrics]. now rewrite IH, Hm, Hs.
Qed.

Lemma account_row_ext cfg metrics (mp sp mp' sp' : string -> float) r :
  (forall m, mp m = mp' m) -> (forall m, sp m = sp' m) ->
  account_row cfg metrics mp sp r = account_row cfg metrics mp' sp' r.
Proof.
  intros Hm Hs. unfold account_row.
  rewrite (score_metrics_ext _ _ _ _ _ _ _ Hm Hs).
  destruct (score_metrics cfg r mp' sp' metrics) as [scored|e]; [ | reflexivity ].
  cbn [mbind result_bind].
  assert (E : max_mean_pct mp scored = max_mean_pct mp' scored).
  { unfold max_mean_pct. f_equal. f_equal. apply map_ext. auto. }
  now rewrite E.
Qed.

Lemma iterrows_collect (df : DataFrame) (cfg : DeviationConfig) (idx : nat)
    (l : list row) :
  let metrics := detect_metrics (columns df) in
  (forall i r, l !! i = Some r -> rows df !! (idx + i)%nat = Some r) ->
  iterrows cfg metrics (pct_table df metrics "CY_Mean")
           (pct_table df metrics "CY_Std") idx l
  = collect (account_of df cfg) l.
Proof.
  intros metrics. revert idx. induction l as [|r l IH]; intros idx H;
    [reflexivity|].
  cbn [iterrows collect].
  assert (Hr : rows df !! idx = Some r).
  { specialize (H 0%nat r eq_refl). now rewrite Nat.add_0_r in H. }
  assert (E : account_row cfg metrics
                (pct_at (pct_table df metrics "CY_Mean") idx)
                (pct_at (pct_table df metrics "CY_Std") idx) r
              = account_of df cfg r).
  { unfold account_of. fold metrics. apply account_row_ext; intros m;
      now apply pct_at_row. }
  rewrite E, IH; [reflexivity|].
  intros i r' Hi. specialize (H (S i) r' Hi).
  now replace (S idx + i)%nat with (idx + S i)%nat by lia.
Qed.

Lemma account_of_Permutation (df df' : DataFrame) (cfg : DeviationConfig)
    (r : row) :
  columns df' = columns df -> rows df' ≡ₚ rows df ->
  account_of df' cfg r = account_of df cfg r.
Proof.
  intros Hc Hr. unfold account_of. rewrite Hc.
  apply account_row_ext; intros m; unfold row_pct_at;
    destruct (Str.mem m (detect_metrics (columns df))); try reflexivity;
    now apply row_pct_Permutation.
Qed.

Lemma collect_ext (g g' : row -> result (option report_row)) (l : list row) :
  (forall r, g r = g' r) -> collect g l = collect g' l.
Proof.
  intros H. induction l as [|r l IH]; [reflexivity|].
  cbn [collect]. now rewrite H, IH.
Qed.

(** When no row raises, the rows kept from a reordered batch are the rows
    kept from the batch, reordered. *)
Lemma collect_Permutation (g : row -> result (option report_row))
    (l l' : list row) (kept : list report_row) :
  l ≡ₚ l' -> collect g l = Ok kept ->
  exists kept', collect g l' = Ok kept' /\ kept' ≡ₚ kept.
Proof.
  intros H. revert kept.
  induction H as [|r l l' _ IH|r1 r2 l|l l' l'' _ IH1 _ IH2]; intros kept Hk.
  - exists kept. split; [exact Hk | reflexivity].
  - cbn [collect] in *. bind_inv Hk. bind_inv Hk. injection Hk as <-.
    destruct (IH _ Ha0) as (rest' & -> & Hp). rewrite Ha.
    cbn [mbind result_bind]. eexists. split; [reflexivity|].
    destruct a; now rewrite Hp.
  - cbn [collect] in *. bind_inv Hk. bind_inv Hk. injection Hk as <-.
    rename a into o1, Ha into H1, a0 into rest1.
    bind_inv Ha0. bind_inv Ha0. injection Ha0 as <-.
    rewrite H1, Ha, Ha1. cbn [mbind result_bind].
    eexists. split; [reflexivity|].
    destruct o1, a; try reflexivity. apply Permutation_swap.
  - destruct (IH1 _ Hk) as (k1 & H1 & P1).
    destruct (IH2 _ H1) as (k2 & H2 & P2).
    exists k2. split; [exact H2 | now rewrite P2].
Qed.

(** ** The finished report of a reordered batch *)

Lemma set_tier_set_tier (t t' : string) (o : report_row) :
  set_tier t (set_tier t' o) = set_tier t o.
Proof. reflexivity. Qed.

Lemma finish_erase (k : Z) (kept : list report_row) :
  map (set_tier "") (finish k kept) ≡ₚ map (set_tier "") kept.
Proof.
  etransitivity; [ apply Permutation_map, finish_split | ].
  rewrite !map_app, map_map.
  change (map (fun x => set_tier "" (set_tier "Tier-2" x)))
    with (map (set_tier "")).
  rewrite <- !map_app, app_assoc, take_drop.
  apply Permutation_map. symmetry. apply candidates_others.
Qed.

Lemma map_snd_filter (P : report_row -> Prop) `{forall o, Decision (P o)}
    (l : list labelled) :
  map snd (filter (fun x => P (snd x)) l) = filter P (map snd l).
Proof.
  induction l as [|x l IH]; [reflexivity|].
  cbn [map]. rewrite !filter_cons. cbv beta.
  destruct (decide (P (snd x))); cbn [map];
    first [ exact IH | f_equal; exact IH ].
Qed.

Lemma candidates_filter (kept : list report_row) :
  candidates kept ≡ₚ filter (fun o => tier1 o) kept.
Proof.
  assert (E : candidates kept
              = filter (fun o => tier1 o)
                       (map snd (sort_values (with_index kept))))
    by exact (map_snd_filter (fun o => Is_true (tier1 o)) _).
  rewrite E. apply filter_Permutation.
  rewrite (Permutation_map snd (sort_values_Permutation _)).
  now rewrite with_index_snd.
Qed.

Lemma others_filter (kept : list report_row) :
  others kept ≡ₚ filter (fun o => ~ tier1 o) kept.
Proof.
  assert (E : others kept
              = filter (fun o => ~ tier1 o)
                       (map snd (sort_values (with_index kept))))
    by exact (map_snd_filter (fun o => ~ Is_true (tier1 o)) _).
  rewrite E. apply filter_Permutation.
  rewrite (Permutation_map snd (sort_values_Permutation _)).
  now rewrite with_index_snd.
Qed.

Lemma tier1_count_Permutation (l l' : list report_row) :
  l ≡ₚ l' -> tier1_count l = tier1_count l'.
Proof. apply count_if_Permutation. Qed.

(** With no tie among the candidates, their order in the report is the
    same whatever order they came in. *)
Lemma candidates_unique (kept kept' : list report_row) :
  kept' ≡ₚ kept -> no_tied_candidates kept ->
  candidates kept' = candidates kept.
Proof.
  intros Hp Hu.
  apply (StronglySorted_unique_strong report_le).
  - intros a b Ha Hb Hab Hba.
    pose proof (candidates_tier1 _ _ Ha) as Ta.
    pose proof (candidates_tier1 _ _ Hb) as Tb.
    assert (Hin : forall x, x ∈ candidates kept' -> x ∈ kept).
    { intros x Hx. apply (elem_of_Permutation_proper x _ _ Hp).
      apply (elem_of_Permutation_proper x _ _ (candidates_others kept')).
      apply elem_of_app. left. exact Hx. }
    assert (Hb' : b ∈ kept).
    { apply (elem_of_Permutation_proper b _ _ (candidates_others kept)).
      apply elem_of_app. left. exact Hb. }
    apply Hu; [ apply Hin, Ha | exact Hb' | exact Ta | exact Tb | ].
    pose proof (tier1_report_le _ _ Ta Tb Hab).
    pose proof (tier1_report_le _ _ Tb Ta Hba). lia.
  - apply candidates_sorted.
  - apply candidates_sorted.
  - rewrite !candidates_filter. now apply filter_Permutation.
Qed.

Lemma finish_Permutation (k : Z) (kept kept' : list report_row) :
  kept' ≡ₚ kept ->
  cap_count k (tier1_count kept) = tier1_count kept
  \/ no_tied_candidates kept ->
  finish k kept' ≡ₚ finish k kept.
Proof.
  intros Hp Hu. rewrite !finish_split.
  rewrite (tier1_count_Permutation _ _ Hp).
  assert (Ho : others kept' ≡ₚ others kept).
  { rewrite !others_filter. now apply filter_Permutation. }
  rewrite Ho. destruct Hu as [Hn|Hu].
  - rewrite Hn.
    pose proof (candidates_length kept) as L.
    pose proof (candidates_length kept') as L'.
    rewrite (tier1_count_Permutation _ _ Hp) in L'.
    rewrite !take_ge, !drop_ge by lia. cbn [map app].
    apply Permutation_app_tail.
    rewrite !candidates_filter. now apply filter_Permutation.
  - now rewrite (candidates_unique _ _ Hp Hu).
Qed.

Lemma build_collect (df : DataFrame) (cfg : DeviationConfig)
    (out : list report_row) :
  build_deviation_report df (Some cfg) = Ok out <->
  (negb (Str.mem "Account Code" (columns df))
   || negb (Str.mem "Account Name" (columns df)) = false /\
   detect_metrics (columns df) <> [] /\
   exists kept, collect (account_of df cfg) (rows df) = Ok kept /\
                out = finish (Tiering.max_tier1 (tiers cfg)) kept).
Proof.
  unfold build_deviation_report.
  destruct (negb (Str.mem "Account Code" (columns df))
            || negb (Str.mem "Account Name" (columns df))).
  { split; [discriminate | intros [[=] _]]. }
  pose proof (iterrows_collect df cfg 0 (rows df)) as E. cbv zeta in E.
  destruct (detect_metrics (columns df)) as [|m ms] eqn:Em.
  { split; [discriminate | intros (_ & H & _); congruence]. }
  rewrite E by (intros i r Hi; exact Hi).
  split.
  - intros H. bind_inv H. injection H as <-.
    repeat split; [discriminate | eauto].
  - intros (_ & _ & kept & -> & ->). reflexivity.
Qed.

(** C7 (permutation invariance), as the code has it.  The claim as stated
    fails: when the cap demotes rows and candidates for Tier-1 tie on score,
    the order of the batch decides which of them stays in Tier-1.  For every
    batch and configuration on which the engine returns a report, and every
    reordering of the rows of the batch:
    - the percentile rank of each row, for every metric and for both
      [CY_Mean] and [CY_Std], is the same in both batches;
    - the engine returns a report for the reordered batch too;
    - before the cap (the report of the run with [max_tier1 = 0]) the two
      reports hold the same rows with the same scores and tiers;
    - the two capped reports hold the same rows with the same scores, up
      to tiers, and the same number of Tier-1 rows;
    - they hold the same rows with the same tiers too when the cap demotes
      nothing, or when no two different candidates for Tier-1 have the same
      score. *)
Theorem permutation_invariance (df df' : DataFrame) (cfg : DeviationConfig)
    (out : list report_row) :
  columns df' = columns df ->
  rows df' ≡ₚ rows df ->
  build_deviation_report df (Some cfg) = Ok out ->
  (forall (m sfx : string) (i j : nat) (r : row),
     rows df !! i = Some r -> rows df' !! j = Some r ->
     loc (percentile_rank_abs df' m sfx) j
     = loc (percentile_rank_abs df m sfx) i) /\
  exists out' uncapped uncapped',
    build_deviation_report df' (Some cfg) = Ok out' /\
    build_deviation_report df (Some (with_max_tier1 0 cfg)) = Ok uncapped /\
    build_deviation_report df' (Some (with_max_tier1 0 cfg)) = Ok uncapped' /\
    uncapped' ≡ₚ uncapped /\
    map (set_tier "") out' ≡ₚ map (set_tier "") out /\
    tier1_count out' = tier1_count out /\
    (tier1_count out = tier1_count uncapped \/ no_tied_candidates uncapped ->
     out' ≡ₚ out).
Proof.
  intros Hc Hr H. split.
  { intros m sfx i j r Hi Hj.
    rewrite (percentile_rank_abs_loc _ _ _ _ _ Hi),
      (percentile_rank_abs_loc _ _ _ _ _ Hj).
    now apply row_pct_Permutation. }
  apply build_collect in H as (Hcols & Hm & kept & Hk & ->).
  assert (Hk' : collect (account_of df' cfg) (rows df) = Ok kept).
  { rewrite <- Hk. apply collect_ext. intros r.
    now apply account_of_Permutation. }
  destruct (collect_Permutation _ _ _ _ (symmetry Hr) Hk') as (kept' & Hk2 & Hp).
  set (k := Tiering.max_tier1 (tiers cfg)).
  assert (B : forall c d kk, collect (account_of d cfg) (rows d) = Ok kk ->
                columns d = columns df ->
                build_deviation_report d (Some (with_max_tier1 c cfg))
                = Ok (finish c kk)).
  { intros c d kk Hkk Hcd. apply build_collect. rewrite Hcd.
    repeat split; try assumption.
    exists kk. split; [ | reflexivity ].
    rewrite <- Hkk. apply collect_ext. intros r. unfold account_of.
    apply account_row_max_tier1. }
  exists (finish k kept'), (finish 0 kept), (finish 0 kept').
  split.
  { apply build_collect. rewrite Hc. repeat split; try assumption. eauto. }
  split; [ now apply B | ].
  split; [ now apply B | ].
  split; [ now rewrite !finish_no_cap | ].
  split; [ rewrite !finish_erase; now apply Permutation_map | ].
  split; [ rewrite !finish_tier1_count;
           now rewrite (tier1_count_Permutation _ _ Hp) | ].
  intros Hu. apply finish_Permutation; [exact Hp|].
  destruct Hu as [Hu|Hu].
  - left. rewrite !finish_tier1_count in Hu. exact Hu.
  - right. intros a b Ha Hb. apply Hu.
    + now apply (elem_of_Permutation_proper a _ _ (finish_no_cap kept)).
    + now apply (elem_of_Permutation_proper b _ _ (finish_no_cap kept)).
Qed.

Lemma permutation_invariance_witness :
  exists out',
    build_deviation_report sample_batch_permuted (Some default_config) = Ok out'
    /\ tier1_count out'
       = tier1_count [sample_row "Tier-1" "4000"; sample_row "Tier-1" "4200"].
Proof.
  assert (Hc : columns sample_batch_permuted = columns sample_batch)
    by reflexivity.
  assert (Hr : rows sample_batch_permuted ≡ₚ rows sample_batch).
  { cbn [rows sample_batch sample_batch_permuted].
    etransitivity; [ apply Permutation_swap | ].
    etransitivity; [ apply Permutation_skip, Permutation_swap | ].
    apply Permutation_swap. }
  assert (Hb : build_deviation_report sample_batch (Some default_config)
               = Ok [sample_row "Tier-1" "4000"; sample_row "Tier-1" "4200"])
    by (vm_compute; reflexivity).
  destruct (permutation_invariance sample_batch sample_batch_permuted
              default_config _ Hc Hr Hb)
    as (_ & out' & u & u' & H1 & _ & _ & _ & _ & H2 & _).
  exists out'. split; [exact H1 | exact H2].
Defined.

(** C7, the claim as stated, fails: with a cap of one Tier-1 row, two
    accounts that tie on score swap their final tiers when the batch is
    reordered. *)
Lemma permutation_invariance_counterexample :
  build_deviation_report sample_batch (Some (with_max_tier1 1 default_config))
  = Ok [sample_row "Tier-1" "4000"; sample_row "Tier-2" "4200"] /\
  build_deviation_report sample_batch_permuted
    (Some (with_max_tier1 1 default_config))
  = Ok [sample_row "Tier-1" "4200"; sample_row "Tier-2" "4000"].
Proof. vm_compute. split; reflexivity. Qed.

(** ** Configuration dictionaries *)

Lemma as_strs_map_PStr (k : string) (l : list string) :
  as_strs k (map PStr l) = Ok l.
Proof.
  induction l as [|s l IH]; [reflexivity|].
  cbn. rewrite IH. reflexivity.
Qed.

Lemma Thresholds_set_all_fields (t t0 : Thresholds.t) :
  set_all ThresholdsDict.setattr (ThresholdsDict.fields t) t0 = Ok t.
Proof. destruct t, t0. reflexivity. Qed.

Lemma Weights_set_all_fields (t t0 : Weights.t) :
  set_all WeightsDict.setattr (WeightsDict.fields t) t0 = Ok t.
Proof. destruct t, t0. reflexivity. Qed.

Lemma MetricProfile_set_all_fields (t t0 : MetricProfile.t) :
  set_all MetricProfileDict.setattr (MetricProfileDict.fields t) t0 = Ok t.
Proof. destruct t, t0. reflexivity. Qed.

Lemma Tiering_set_all_fields (t t0 : Tiering.t) :
  set_all TieringDict.setattr (TieringDict.fields t) t0 = Ok t.
Proof.
  destruct t as [a1 a2 a3 a4 a5 a6 a7 a8 l], t0 as [b1 b2 b3 b4 b5 b6 b7 b8 l0].
  cbn. repeat (rewrite as_strs_map_PStr; cbn). reflexivity.
Qed.

Lemma str_items_PStr (l : list (string * string)) :
  str_items (map (fun kv => (fst kv, PStr (snd kv))) l) = Ok l.
Proof.
  induction l as [|[k v] l IH]; [reflexivity|].
  cbn. rewrite IH. reflexivity.
Qed.

Lemma dict_update_list {A : Type} (l : list (string * A)) (m : gmap string A) :
  NoDup l.*1 -> dict_update m l = list_to_map l ∪ m.
Proof.
  unfold dict_update. revert m.
  induction l as [|[k v] l IH]; intros m ND; cbn.
  - symmetry. apply (left_id ∅ (∪)).
  - apply NoDup_cons in ND as [Hk ND].
    rewrite (IH _ ND).
    rewrite <- insert_union_r by (apply not_elem_of_list_to_map_1; exact Hk).
    rewrite insert_union_l. reflexivity.
Qed.

Lemma merge_profiles_entries (l : list (string * MetricProfile.t))
    (ps : gmap string MetricProfile.t) :
  NoDup l.*1 ->
  merge_profiles
    (map (fun mp => (fst mp, PDict (MetricProfileDict.fields (snd mp)))) l) ps
  = Ok (list_to_map l ∪ ps).
Proof.
  revert ps.
  induction l as [|[k p] l IH]; intros ps ND.
  - cbn. f_equal. symmetry. apply (left_id ∅ (∪)).
  - apply NoDup_cons in ND as [Hk ND].
    cbn [map merge_profiles fst snd items mbind result_bind].
    rewrite MetricProfile_set_all_fields.
    cbn [mbind result_bind].
    rewrite (IH _ ND). f_equal.
    cbn [list_to_map foldr fst snd uncurry].
    rewrite <- insert_union_r by (apply not_elem_of_list_to_map_1; exact Hk).
    rewrite insert_union_l. reflexivity.
Qed.

Lemma merge_checks_bools (l : list (string * bool)) (m : gmap string bool) :
  NoDup l.*1 ->
  merge_checks (map (fun kb => (fst kb, PBool (snd kb))) l) m
  = filter (fun kb => is_Some (m !! fst kb)) (list_to_map l ∪ m).
Proof.
  revert m.
  induction l as [|[k b] l IH]; intros m ND.
  - cbn. rewrite (left_id ∅ (∪)).
    apply map_eq. intros i. rewrite map_lookup_filter.
    destruct (m !! i) as [x|] eqn:E; cbn; [|reflexivity].
    rewrite option_guard_True; [reflexivity|]. cbn. rewrite E. eauto.
  - apply NoDup_cons in ND as [Hk ND].
    cbn [map merge_checks fst snd py_bool].
    rewrite (IH _ ND).
    apply map_eq. intros i. rewrite !map_lookup_filter.
    cbn [list_to_map foldr fst snd uncurry].
    assert (Hl : (list_to_map l : gmap string bool) !! k = None)
      by (apply not_elem_of_list_to_map_1; exact Hk).
    destruct (m !! k) as [b0|] eqn:Ek.
    + destruct (decide (i = k)) as [->|Hik].
      * rewrite !lookup_union, Hl, !lookup_insert_eq, Ek. cbn.
        rewrite !option_guard_True; [reflexivity| |]; eauto.
      * rewrite !lookup_union, !lookup_insert_ne by congruence.
        reflexivity.
    + destruct (decide (i = k)) as [->|Hik].
      * rewrite !lookup_union, Hl, Ek, lookup_insert_eq. cbn.
        rewrite option_guard_False; [reflexivity|].
        intros [? ?]. discriminate.
      * rewrite !lookup_union, !lookup_insert_ne by congruence.
        reflexivity.
Qed.

Lemma union_absorbs {A : Type} (m d : gmap string A) :
  m ∪ d = m <-> dom d ⊆ dom m.
Proof.
  split.
  - intros E k Hk. apply elem_of_dom in Hk as [x Hx].
    apply elem_of_dom. rewrite <- E, lookup_union.
    rewrite Hx. destruct (m !! k); cbn; eauto.
  - intros S. apply map_eq. intros k. rewrite lookup_union.
    destruct (m !! k) as [x|] eqn:E.
    + destruct (d !! k); reflexivity.
    + destruct (d !! k) as [y|] eqn:Ed; [|reflexivity].
      exfalso. assert (Hk : k ∈ dom m) by (apply S, elem_of_dom; eauto).
      apply elem_of_dom in Hk as [x Hx]. congruence.
Qed.

Lemma filter_union_absorbs {A : Type} (m d : gmap string A) :
  filter (fun kb => is_Some (d !! fst kb)) (m ∪ d) = m <-> dom m = dom d.
Proof.
  split.
  - intros E. apply set_eq. intros k. rewrite !elem_of_dom.
    rewrite <- E at 1. unfold is_Some at 1.
    setoid_rewrite map_lookup_filter_Some. rewrite lookup_union. cbn.
    split.
    + intros [x [_ H]]. exact H.
    + intros [y Hy]. destruct (m !! k) as [x|]; rewrite Hy; cbn; eauto.
  - intros E. apply map_eq. intros k. rewrite map_lookup_filter, lookup_union.
    destruct (m !! k) as [x|] eqn:Em.
    + assert (Hk : k ∈ dom d) by (rewrite <- E; apply elem_of_dom; eauto).
      apply elem_of_dom in Hk as [y Hy]. rewrite Hy. cbn.
      rewrite option_guard_True; [reflexivity|]. cbn. rewrite Hy. eauto.
    + assert (Hd : d !! k = None).
      { apply not_elem_of_dom. rewrite <- E. apply not_elem_of_dom. exact Em. }
      rewrite Hd. reflexivity.
Qed.

Lemma config_from_dict_asdict (c : DeviationConfig) :
  config_from_dict (asdict c) = Ok (restored c).
Proof.
  unfold config_from_dict, section.
  change (assoc "thresholds" (asdict c))
    with (Some (PDict (ThresholdsDict.fields (thresholds c)))).
  change (assoc "weights" (asdict c))
    with (Some (PDict (WeightsDict.fields (weights c)))).
  change (assoc "tiers" (asdict c))
    with (Some (PDict (TieringDict.fields (tiers c)))).
  change (assoc "enabled_checks" (asdict c))
    with (Some (PDict (map (fun kb => (fst kb, PBool (snd kb)))
                           (map_to_list (enabled_checks c))))).
  change (assoc "profiles" (asdict c))
    with (Some (PDict
           (map (fun mp => (fst mp, PDict (MetricProfileDict.fields (snd mp))))
                (map_to_list (profiles c))))).
  change (assoc "language" (asdict c))
    with (Some (PDict [("bucket_finish",
           PDict (map (fun kv => (fst kv, PStr (snd kv)))
                      (map_to_list (Language.bucket_finish (language c)))))])).
  cbn [items mbind result_bind].
  rewrite Thresholds_set_all_fields, Weights_set_all_fields,
    Tiering_set_all_fields.
  cbn [mbind result_bind].
  rewrite merge_checks_bools by apply NoDup_fst_map_to_list.
  rewrite merge_profiles_entries by apply NoDup_fst_map_to_list.
  change (assoc "bucket_finish" [("bucket_finish", ?v)]) with (Some v).
  cbn [mbind result_bind].
  rewrite str_items_PStr.
  cbn [mbind result_bind].
  rewrite dict_update_list by apply NoDup_fst_map_to_list.
  rewrite !list_to_map_to_list.
  reflexivity.
Qed.

Lemma restored_fixed (c : DeviationConfig) : restored c = c <-> complete c.
Proof.
  unfold complete. rewrite <- !union_absorbs.
  rewrite <- (filter_union_absorbs (enabled_checks c)).
  destruct c as [th we ti ps [bf] ec]. unfold restored. cbn.
  split.
  - intros E. injection E as E1 E2 E3. auto.
  - intros (E1 & E2 & E3). rewrite E1, E2, E3. reflexivity.
Qed.

Lemma config_from_dict_sections (d d' : list (string * pyval)) :
  (forall k, Str.mem k section_names = true -> assoc k d = assoc k d') ->
  config_from_dict d = config_from_dict d'.
Proof.
  intros H. unfold config_from_dict, section.
  rewrite (H "thresholds"), (H "weights"), (H "tiers"), (H "enabled_checks"),
    (H "profiles"), (H "language") by reflexivity.
  reflexivity.
Qed.

Lemma set_if_has_unknown {T : Type} (fields : T -> list (string * pyval))
    (of_fields : list (string * pyval) -> result T)
    (obj : T) (k : string) (v : pyval) :
  Str.mem k (map fst (fields obj)) = false ->
  String.prefix "__" k = false ->
  set_if_has fields of_fields obj k v = Ok obj.
Proof. unfold set_if_has. intros -> ->. reflexivity. Qed.

Example default_config_complete : complete default_config.
Proof. repeat split; reflexivity. Qed.

Example default_config_dict_round_trip :
  config_from_dict default_config_dict = Ok default_config.
Proof. vm_compute. reflexivity. Qed.

(** ** The statistical comparator *)

Import StatisticalInferences.

Lemma assoc_dict_set {A : Type} (k k' : string) (v : A) (d : list (string * A)) :
  assoc k (dict_set k' v d) = if String.eqb k k' then Some v else assoc k d.
Proof.
  induction d as [|[k0 v0] d IH]; cbn.
  - destruct (String.eqb k k'); reflexivity.
  - destruct (String.eqb_spec k' k0) as [->|Hne]; cbn.
    + destruct (String.eqb k k0); reflexivity.
    + rewrite IH.
      destruct (String.eqb_spec k k0) as [->|Hne'].
      * destruct (String.eqb_spec k0 k'); [congruence | reflexivity].
      * reflexivity.
Qed.

Lemma mem_keys_assoc {A : Type} (k : string) (d : list (string * A)) :
  Str.mem k (map fst d) = match assoc k d with Some _ => true | None => false end.
Proof.
  unfold Str.mem.
  induction d as [|[k0 v0] d IH]; cbn; [reflexivity|].
  destruct (String.eqb k k0); cbn; [reflexivity | exact IH].
Qed.

Lemma assoc_keys_map {A B : Type} (f : A -> B) (k : string)
    (d : list (string * A)) :
  assoc k (map (fun cs => (fst cs, f (snd cs))) d) = f <$> assoc k d.
Proof.
  induction d as [|[k0 v0] d IH]; cbn; [reflexivity|].
  destruct (String.eqb k k0); cbn; [reflexivity | exact IH].
Qed.

Lemma groupby_sum_keys (df : ledger) (keys labels : list group_key)
    (columns : list string) (d : list (string * list float)) :
  groupby_sum df keys labels columns = Ok d -> map fst d = columns.
Proof.
  revert d. induction columns as [|c columns IH]; intros d; cbn.
  - intros [= <-]. reflexivity.
  - destruct (Str.mem c (ledger_columns df)); [|discriminate].
    destruct (groupby_sum df keys labels columns) as [rest|]; [|discriminate].
    cbn. intros [= <-]. cbn. f_equal. apply IH. reflexivity.
Qed.

Lemma groupby_sum_total (df : ledger) (keys labels : list group_key)
    (columns : list string) :
  forallb (fun c => Str.mem c (ledger_columns df)) columns = true ->
  exists d, groupby_sum df keys labels columns = Ok d.
Proof.
  induction columns as [|c columns IH]; cbn; [eauto|].
  intros [Hc H]%andb_true_iff. rewrite Hc.
  destruct (IH H) as [rest ->]. cbn. eauto.
Qed.

Lemma period_column_valid (period : string) (dates : list Z) :
  Str.mem period period_names = true ->
  exists keys, period_column period dates = Ok keys
               /\ length keys = length dates.
Proof.
  unfold period_column, period_names, Str.mem. cbn [existsb].
  destruct (String.eqb period "weekly");
    [intros _; eexists; split; [reflexivity | apply length_map]|].
  destruct (String.eqb period "bi-weekly");
    [intros _; eexists; split; [reflexivity | apply length_map]|].
  destruct (String.eqb period "monthly");
    [intros _; eexists; split; [reflexivity | apply length_map]|].
  destruct (String.eqb period "quarterly");
    [intros _; eexists; split; [reflexivity | apply length_map]|].
  discriminate.
Qed.

Lemma period_column_invalid (period : string) (dates : list Z) :
  Str.mem period period_names = false ->
  period_column period dates = Raise (ValueError invalid_period).
Proof.
  unfold period_column, period_names, Str.mem. cbn [existsb].
  destruct (String.eqb period "weekly"); [discriminate|].
  destruct (String.eqb period "bi-weekly"); [discriminate|].
  destruct (String.eqb period "monthly"); [discriminate|].
  destruct (String.eqb period "quarterly"); [discriminate|].
  reflexivity.
Qed.


Lemma period_column_length (period : string) (dates : list Z)
    (keys : list group_key) :
  period_column period dates = Ok keys -> length keys = length dates.
Proof.
  unfold period_column.
  repeat (destruct (String.eqb period _);
          [intros [= <-]; apply length_map|]).
  discriminate.
Qed.

Lemma insert_by_not_nil {A : Type} (le : A -> A -> bool) (x : A) (l : list A) :
  insert_by le x l <> [].
Proof. destruct l as [|y l]; cbn; [|destruct (le x y)]; discriminate. Qed.

Lemma labels_not_nil (keys : list group_key) :
  keys <> [] -> sort_by key_le (distinct key_eqb keys) <> [].
Proof.
  destruct keys as [|k keys]; [congruence|]. intros _.
  cbn. apply insert_by_not_nil.
Qed.

Lemma aggregate_no_rows (self : t) (df : option ledger) (period : string) :
  has_rows df = false -> aggregate self df period = Ok empty_frame.
Proof.
  destruct df as [[cs [|e es]]|]; cbn; [reflexivity | discriminate | reflexivity].
Qed.

Lemma aggregate_rows (self : t) (df : ledger) (period : string) :
  has_rows (Some df) = true ->
  aggregate self (Some df) period
  = (keys ← period_column period (map Date (entries df));
     series ← groupby_sum df keys (sort_by key_le (distinct key_eqb keys))
                (columns_of_interest self);
     Ok {| index := sort_by key_le (distinct key_eqb keys); data := series |}).
Proof. destruct df as [cs [|e es]]; cbn; [discriminate | reflexivity]. Qed.

(** The frame of [aggregate] is [pd.DataFrame()], or it has a row for each
    period and the columns of interest. *)
Lemma aggregate_shape (self : t) (df : option ledger) (period : string)
    (f : frame) :
  aggregate self df period = Ok f ->
  f = empty_frame
  \/ (index f <> [] /\ map fst (data f) = columns_of_interest self).
Proof.
  destruct (has_rows df) eqn:R.
  - destruct df as [df|]; [|discriminate].
    rewrite aggregate_rows by exact R.
    intros H. apply bind_Ok in H as (keys & Hk & H).
    apply bind_Ok in H as (series & Hs & H).
    injection H as <-. right. cbn. split.
    + apply labels_not_nil. apply period_column_length in Hk.
      destruct df as [cs [|e es]]; [discriminate|].
      destruct keys; [discriminate | congruence].
    + apply groupby_sum_keys in Hs. exact Hs.
  - rewrite aggregate_no_rows by exact R. intros [= <-]. auto.
Qed.

Lemma aggregate_total (self : t) (df : option ledger) (period : string) :
  Str.mem period period_names = true ->
  has_columns (columns_of_interest self) df = true ->
  exists f, aggregate self df period = Ok f.
Proof.
  intros Hp Hc. destruct (has_rows df) eqn:R.
  - destruct df as [df|]; [|discriminate].
    rewrite aggregate_rows by exact R.
    destruct (period_column_valid period (map Date (entries df)) Hp)
      as (keys & -> & _).
    cbn [mbind result_bind].
    destruct (groupby_sum_total df keys (sort_by key_le (distinct key_eqb keys))
                (columns_of_interest self)) as [d ->].
    + destruct df as [cs [|e es]]; [discriminate | exact Hc].
    + cbn. eauto.
  - rewrite aggregate_no_rows by exact R. eauto.
Qed.

Lemma aggregate_invalid (self : t) (df : option ledger) (period : string) :
  Str.mem period period_names = false ->
  aggregate self df period
  = if has_rows df then Raise (ValueError invalid_period) else Ok empty_frame.
Proof.
  intros Hp. destruct (has_rows df) eqn:R.
  - destruct df as [df|]; [|discriminate].
    rewrite aggregate_rows by exact R.
    rewrite period_column_invalid by exact Hp. reflexivity.
  - apply aggregate_no_rows. exact R.
Qed.

Lemma aggregate_valid_no_ValueError (self : t) (df : option ledger)
    (period msg : string) :
  Str.mem period period_names = true ->
  aggregate self df period <> Raise (ValueError msg).
Proof.
  intros Hp. destruct (has_rows df) eqn:R.
  - destruct df as [df|]; [|discriminate].
    rewrite aggregate_rows by exact R.
    destruct (period_column_valid period (map Date (entries df)) Hp)
      as (keys & -> & _).
    cbn [mbind result_bind].
    generalize (sort_by key_le (distinct key_eqb keys)). intros labels.
    assert (G : forall cols, groupby_sum df keys labels cols
                             <> Raise (ValueError msg)).
    { induction cols as [|c cols IH]; cbn; [discriminate|].
      destruct (Str.mem c (ledger_columns df)); [|discriminate].
      destruct (groupby_sum df keys labels cols) as [rest|e]; cbn;
        [discriminate | congruence]. }
    specialize (G (columns_of_interest self)).
    destruct (groupby_sum df keys labels (columns_of_interest self)); cbn;
      [discriminate | congruence].
  - rewrite aggregate_no_rows by exact R. discriminate.
Qed.

Lemma is_empty_data (f : frame) :
  is_empty f = false -> data f <> [].
Proof. destruct f as [[|k i] [|d ds]]; cbn; congruence. Qed.

Lemma compare_column_spec (lib : Library) (ly cy : frame) (c : string) :
  map fst (data ly) = map fst (data cy) ->
  compare_column lib ly cy (describe lib ly) (describe lib cy) c
  = Ok (entry_of lib ly cy c).
Proof.
  intros K. unfold compare_column, entry_of, getitem, describe.
  rewrite !assoc_keys_map.
  pose proof (mem_keys_assoc c (data ly)) as Hl.
  rewrite mem_keys_assoc. rewrite K, mem_keys_assoc in Hl.
  destruct (assoc c (data cy)) as [s_cy|], (assoc c (data ly)) as [s_ly|];
    try discriminate; cbn; [|reflexivity].
  destruct (1 <? nunique s_ly); cbn; [|reflexivity].
  destruct (1 <? nunique s_cy); reflexivity.
Qed.

Lemma compare_columns_spec (lib : Library) (ly cy : frame)
    (columns : list string) (acc : list (string * list (string * pyval))) :
  map fst (data ly) = map fst (data cy) ->
  compare_columns lib ly cy (describe lib ly) (describe lib cy) columns acc
  = Ok (collected lib ly cy columns acc).
Proof.
  intros K. revert acc.
  induction columns as [|c columns IH]; intros acc; cbn; [reflexivity|].
  rewrite compare_column_spec by exact K. cbn. apply IH.
Qed.

Lemma assoc_collected (lib : Library) (ly cy : frame) (columns : list string)
    (acc : list (string * list (string * pyval))) (c : string) :
  assoc c (collected lib ly cy columns acc)
  = if Str.mem c columns
    then match entry_of lib ly cy c with
         | Some e => Some e
         | None => assoc c acc
         end
    else assoc c acc.
Proof.
  revert acc. unfold collected, Str.mem.
  induction columns as [|c0 columns IH]; intros acc; cbn; [reflexivity|].
  rewrite IH.
  destruct (String.eqb_spec c c0) as [->|Hne]; cbn.
  - destruct (entry_of lib ly cy c0) as [e|] eqn:E.
    + rewrite assoc_dict_set, String.eqb_refl.
      destruct (existsb _ _); reflexivity.
    + destruct (existsb _ _); reflexivity.
  - destruct (entry_of lib ly cy c0) as [e0|]; [|reflexivity].
    rewrite assoc_dict_set.
    destruct (String.eqb_spec c c0); [congruence | reflexivity].
Qed.


Lemma compare_spec (lib : Library) (self : t) (period : string)
    (ly cy : frame) :
  aggregate self (df_last_year self) period = Ok ly ->
  aggregate self (df_current_year self) period = Ok cy ->
  compare_statistical_inferences lib self period
  = Ok (if negb (is_empty ly) && negb (is_empty cy)
        then (describe lib ly, describe lib cy,
              collected lib ly cy (columns_of_interest self) [])
        else ([], [], [])).
Proof.
  intros Hl Hc. unfold compare_statistical_inferences.
  rewrite Hl, Hc. cbn [mbind result_bind].
  destruct (is_empty ly) eqn:El; [reflexivity|].
  destruct (is_empty cy) eqn:Ec; [reflexivity|].
  cbn [negb andb].
  rewrite compare_columns_spec; [reflexivity|].
  apply aggregate_shape in Hl as [->|[_ ->]]; [discriminate|].
  apply aggregate_shape in Hc as [->|[_ ->]]; [discriminate|].
  reflexivity.
Qed.

Lemma compare_Ok_inv (lib : Library) (self : t) (period : string)
    (dly dcy : list (string * summary))
    (comparison : list (string * list (string * pyval))) :
  compare_statistical_inferences lib self period = Ok (dly, dcy, comparison) ->
  exists ly cy,
    aggregate self (df_last_year self) period = Ok ly
    /\ aggregate self (df_current_year self) period = Ok cy
    /\ (dly, dcy, comparison)
       = (if negb (is_empty ly) && negb (is_empty cy)
          then (describe lib ly, describe lib cy,
                collected lib ly cy (columns_of_interest self) [])
          else ([], [], [])).
Proof.
  intros H.
  destruct (aggregate self (df_last_year self) period) as [ly|e] eqn:Hl;
    [|unfold compare_statistical_inferences in H; rewrite Hl in H;
      discriminate].
  destruct (aggregate self (df_current_year self) period) as [cy|e] eqn:Hc;
    [|unfold compare_statistical_inferences in H; rewrite Hl, Hc in H;
      discriminate].
  rewrite (compare_spec lib self period ly cy Hl Hc) in H.
  injection H as H. exists ly, cy. auto.
Qed.

Lemma entry_of_varies (lib : Library) (ly cy : frame) (c : string) :
  is_Some (entry_of lib ly cy c)
  <-> varies ly c = true /\ varies cy c = true.
Proof.
  unfold entry_of, varies.
  destruct (assoc c (data ly)) as [s_ly|], (assoc c (data cy)) as [s_cy|];
    try (split; [intros [? [=]] | intros [? ?]; discriminate]).
  destruct (1 <? nunique s_ly), (1 <? nunique s_cy); cbn;
    try (split; [intros [? [=]] | intros [? ?]; discriminate]).
  split; eauto.
Qed.

(** An evaluated metric comes from a comparison of two frames with rows. *)
Lemma evaluated_inv (lib : Library) (self : t) (period : string)
    (dly dcy : list (string * summary))
    (comparison : list (string * list (string * pyval)))
    (c : string) (e : list (string * pyval)) :
  compare_statistical_inferences lib self period = Ok (dly, dcy, comparison) ->
  assoc c comparison = Some e ->
  exists ly cy s_ly s_cy,
    aggregate self (df_last_year self) period = Ok ly
    /\ aggregate self (df_current_year self) period = Ok cy
    /\ assoc c (data ly) = Some s_ly
    /\ assoc c (data cy) = Some s_cy
    /\ 1 < nunique s_ly
    /\ 1 < nunique s_cy
    /\ assoc c dly = Some (summarize lib s_ly)
    /\ assoc c dcy = Some (summarize lib s_cy)
    /\ e = inferences lib s_ly s_cy (summarize lib s_ly) (summarize lib s_cy).
Proof.
  intros H He.
  apply compare_Ok_inv in H as (ly & cy & Hl & Hc & H).
  destruct (negb (is_empty ly) && negb (is_empty cy));
    injection H as -> -> ->; [|discriminate].
  rewrite assoc_collected in He.
  destruct (Str.mem c (columns_of_interest self)); [|discriminate].
  unfold entry_of in He.
  destruct (assoc c (data ly)) as [s_ly|] eqn:Al; [|discriminate].
  destruct (assoc c (data cy)) as [s_cy|] eqn:Ac; [|discriminate].
  destruct (1 <? nunique s_ly) eqn:Nl; [|discriminate].
  destruct (1 <? nunique s_cy) eqn:Nc; [|discriminate].
  cbn in He. injection He as <-.
  exists ly, cy, s_ly, s_cy.
  unfold describe. rewrite !assoc_keys_map, Al, Ac.
  apply Z.ltb_lt in Nl, Nc. repeat split; auto.
Qed.

Lemma assoc_effect (lib : Library) (ly cy : list float) (d_ly d_cy : summary)
    (k : string) :
  k = "cohens_d" \/ k = "effect_size" ->
  assoc k (inferences lib ly cy d_ly d_cy)
  = assoc k (effect (F64.sub (s_mean d_cy) (s_mean d_ly))
               (s_std d_ly) (s_std d_cy)).
Proof.
  unfold inferences, differences, test_entries, correlation.
  intros [-> | ->]; destruct (len ly =? len cy); reflexivity.
Qed.

Lemma inferences_keys (lib : Library) (ly cy : list float)
    (d_ly d_cy : summary) :
  Forall (fun k => is_Some (assoc k (inferences lib ly cy d_ly d_cy)))
         emitted_keys.
Proof.
  unfold emitted_keys.
  repeat (apply Forall_cons; split;
          [first [ solve [cbn; eauto]
                 | rewrite assoc_effect by auto; unfold effect;
                   destruct (F64.neqb _ _); cbn; eauto ] |]).
  constructor.
Qed.


Ltac order_cases :=
  repeat match goal with
         | H : context [(?x ?= ?y)%Z] |- _ =>
             destruct (Z.compare_spec x y); cbn in H
         | |- context [(?x ?= ?y)%Z] => destruct (Z.compare_spec x y); cbn
         | H : context [Pos.compare_cont Eq ?x ?y] |- _ =>
             change (Pos.compare_cont Eq x y) with (Pos.compare x y) in H;
             destruct (Pos.compare_spec x y); cbn in H
         | |- context [Pos.compare_cont Eq ?x ?y] =>
             change (Pos.compare_cont Eq x y) with (Pos.compare x y);
             destruct (Pos.compare_spec x y); cbn
         end;
  subst; try reflexivity; try discriminate; try lia.

(** The order of the comparisons is total on the numbers: [x <= y] and
    [y < x] exclude each other, and [<=] is transitive. *)
Lemma leb_not_ltb (x y : float) : F64.leb x y = true -> F64.ltb y x = false.
Proof.
  unfold F64.leb, F64.ltb, SFleb, SFltb.
  destruct x as [[]|[]| |[] mx ex], y as [[]|[]| |[] my ey]; cbn;
    try reflexivity; try discriminate; intros H; order_cases.
Qed.

Lemma ltb_not_leb (x y : float) : F64.ltb x y = true -> F64.leb y x = false.
Proof.
  intros H. destruct (F64.leb y x) eqn:E; [|reflexivity].
  apply leb_not_ltb in E. congruence.
Qed.

Lemma leb_trans (x y z : float) :
  F64.leb x y = true -> F64.leb y z = true -> F64.leb x z = true.
Proof.
  unfold F64.leb, SFleb.
  destruct x as [[]|[]| |[] mx ex], y as [[]|[]| |[] my ey],
           z as [[]|[]| |[] mz ez]; cbn;
    try reflexivity; try discriminate; intros H1 H2; order_cases.
Qed.

(** *** Distinct values of a series *)

Lemma feqb_refl (x : float) : F64.isnan x = false -> F64.eqb x x = true.
Proof.
  unfold F64.eqb, SFeqb.
  destruct x as [[]|[]| |[] mx ex]; cbn; try reflexivity; try discriminate;
    intros _; rewrite ?Z.compare_refl, ?Pos.compare_cont_refl; cbn;
    rewrite ?Pos.compare_cont_refl; reflexivity.
Qed.

Lemma feqb_sym (x y : float) : F64.eqb x y = F64.eqb y x.
Proof.
  unfold F64.eqb, SFeqb.
  destruct x as [[]|[]| |[] mx ex], y as [[]|[]| |[] my ey]; cbn;
    try reflexivity; order_cases.
Qed.

Lemma feqb_trans (x y z : float) :
  F64.eqb x y = true -> F64.eqb y z = true -> F64.eqb x z = true.
Proof.
  unfold F64.eqb, SFeqb.
  destruct x as [[]|[]| |[] mx ex], y as [[]|[]| |[] my ey],
           z as [[]|[]| |[] mz ez]; cbn;
    try reflexivity; try discriminate; intros H1 H2; order_cases.
Qed.

Lemma feqb_nan (x y : float) : F64.eqb x y = true -> F64.isnan x = false.
Proof. destruct x; try reflexivity. discriminate. Qed.

Lemma distinct_sub {A : Type} (eqb : A -> A -> bool) (l : list A) (x : A) :
  x ∈ distinct eqb l -> x ∈ l.
Proof.
  revert x. induction l as [|a l IH]; intros x; cbn; [auto|].
  rewrite !elem_of_cons, list_elem_of_filter. intros [->|[_ H]]; auto.
Qed.

Lemma distinct_repr (l : list float) (z : float) :
  z ∈ l -> F64.isnan z = false ->
  exists z', z' ∈ distinct F64.eqb l /\ F64.eqb z' z = true.
Proof.
  intros Hin Hz. induction l as [|a l IH]; [inversion Hin|].
  cbn. apply elem_of_cons in Hin as [<-|Hin].
  - exists z. split; [left | apply feqb_refl, Hz].
  - destruct (IH Hin) as (z' & Hz' & E).
    destruct (F64.eqb a z') eqn:Ea.
    + exists a. split; [left | exact (feqb_trans _ _ _ Ea E)].
    + exists z'. split; [|exact E]. right.
      apply list_elem_of_filter. rewrite Ea. split; [exact I | exact Hz'].
Qed.

(** A list without NaN has more than one distinct value when two of its
    values differ. *)
Lemma distinct_two (l : list float) :
  Forall (fun x => F64.isnan x = false) l ->
  1 < len (distinct F64.eqb l)
  <-> exists x y, x ∈ l /\ y ∈ l /\ F64.eqb x y = false.
Proof.
  intros N. destruct l as [|h t].
  { unfold len. cbn. split; [lia | intros (x & _ & Hx & _); inversion Hx]. }
  apply Forall_cons in N as [Nh Nt].
  assert (R : (exists z, z ∈ t /\ F64.eqb h z = false)
              <-> 1 < len (distinct F64.eqb (h :: t))).
  { cbn [distinct]. unfold len. cbn [length].
    destruct (filter (fun y => negb (F64.eqb h y)) (distinct F64.eqb t))
      as [|z f] eqn:F.
    - split; [|cbn; lia]. intros (z & Hz & E). exfalso.
      destruct (distinct_repr t z Hz) as (z' & Hz' & E').
      { rewrite Forall_forall in Nt. apply Nt, Hz. }
      assert (K : z' ∈ filter (fun y => negb (F64.eqb h y)) (distinct F64.eqb t)).
      { apply list_elem_of_filter. split; [|exact Hz'].
        destruct (F64.eqb h z') eqn:Ez; [|exact I].
        rewrite (feqb_trans _ _ _ Ez E') in E. discriminate. }
      rewrite F in K. inversion K.
    - split; [cbn; lia|]. intros _. exists z.
      assert (K : z ∈ filter (fun y => negb (F64.eqb h y)) (distinct F64.eqb t))
        by (rewrite F; left).
      apply list_elem_of_filter in K as [K1 K2].
      split; [apply (distinct_sub _ _ _ K2)|].
      destruct (F64.eqb h z); [contradiction | reflexivity]. }
  rewrite <- R. split.
  - intros (z & Hz & E). exists h, z. split; [left|]. split; [right|]; auto.
  - intros (x & y & Hx & Hy & E).
    assert (T : forall w, w ∈ h :: t -> F64.eqb h w = false -> w ∈ t).
    { intros w Hw Ew. apply elem_of_cons in Hw as [->|Hw]; [|exact Hw].
      rewrite (feqb_refl _ Nh) in Ew. discriminate. }
    destruct (F64.eqb h x) eqn:Ex.
    + exists y. destruct (F64.eqb h y) eqn:Ey.
      * rewrite feqb_sym in Ex. rewrite (feqb_trans _ _ _ Ex Ey) in E.
        discriminate.
      * split; [apply T; [exact Hy | exact Ey] | reflexivity].
    + exists x. split; [apply T; [exact Hx | exact Ex] | exact Ex].
Qed.

(** [nunique] counts more than one value exactly when the series holds two
    numbers, neither of them NaN, that are not equal. *)
Lemma nunique_two (s : list float) :
  1 < nunique s
  <-> exists x y, x ∈ s /\ y ∈ s /\ F64.isnan x = false
                  /\ F64.isnan y = false /\ F64.eqb x y = false.
Proof.
  unfold nunique. rewrite distinct_two.
  - unfold notna. split.
    + intros (x & y & Hx & Hy & E).
      apply list_elem_of_filter in Hx as [Nx Hx], Hy as [Ny Hy].
      exists x, y. repeat split; auto.
      * destruct (F64.isnan x); [contradiction | reflexivity].
      * destruct (F64.isnan y); [contradiction | reflexivity].
    + intros (x & y & Hx & Hy & Nx & Ny & E). exists x, y.
      split; [apply list_elem_of_filter; rewrite Nx; split; [exact I | exact Hx]|].
      split; [apply list_elem_of_filter; rewrite Ny; split; [exact I | exact Hy]|].
      exact E.
  - apply Forall_forall. intros x Hx. unfold notna in Hx.
    apply list_elem_of_filter in Hx as [Nx _].
    destruct (F64.isnan x); [contradiction | reflexivity].
Qed.

(** The loop over the columns: it raises nothing, and a metric has an
    entry exactly when the test of the loop passes for both years. *)
Lemma comparison_entries (lib : Library) (self : t) (period : string) :
  prepared self = true ->
  Str.mem period period_names = true ->
  exists ly cy dly dcy comparison,
    aggregate self (df_last_year self) period = Ok ly
    /\ aggregate self (df_current_year self) period = Ok cy
    /\ compare_statistical_inferences lib self period
       = Ok (dly, dcy, comparison)
    /\ forall c,
         (is_Some (assoc c comparison)
          <-> Str.mem c (columns_of_interest self) = true
              /\ varies ly c = true /\ varies cy c = true)
         /\ (forall e, assoc c comparison = Some e ->
               Forall (fun k => is_Some (assoc k e)) emitted_keys).
Proof.
  intros Hp Hv. unfold prepared in Hp.
  apply andb_true_iff in Hp as [Hp Hcy]. apply andb_true_iff in Hp as [_ Hly].
  destruct (aggregate_total self (df_last_year self) period Hv Hly)
    as [ly Hl].
  destruct (aggregate_total self (df_current_year self) period Hv Hcy)
    as [cy Hc].
  exists ly, cy.
  pose proof (compare_spec lib self period ly cy Hl Hc) as H.
  destruct (negb (is_empty ly) && negb (is_empty cy)) eqn:E.
  - exists (describe lib ly), (describe lib cy),
      (collected lib ly cy (columns_of_interest self) []).
    split; [exact Hl|]. split; [exact Hc|]. split; [exact H|].
    intros c. rewrite assoc_collected.
    destruct (Str.mem c (columns_of_interest self)).
    + split.
      * rewrite <- (entry_of_varies lib).
        destruct (entry_of lib ly cy c) as [e|];
          (split; [intros Hs; split; [reflexivity | exact Hs]
                  | intros [_ Hs]; exact Hs]).
      * intros e He. unfold entry_of in He.
        destruct (assoc c (data ly)) as [s_ly|]; [|discriminate].
        destruct (assoc c (data cy)) as [s_cy|]; [|discriminate].
        destruct ((1 <? nunique s_ly) && (1 <? nunique s_cy));
          [|discriminate].
        injection He as <-. apply inferences_keys.
    + split; [|discriminate].
      split; [intros [? [=]] | intros [[=] _]].
  - exists [], [], [].
    split; [exact Hl|]. split; [exact Hc|]. split; [exact H|].
    intros c. split; [|discriminate].
    split; [intros [? [=]]|]. intros (Hm & Vl & Vc). exfalso.
    assert (K : forall (df : option ledger) f,
              aggregate self df period = Ok f -> is_empty f = true ->
              varies f c = false).
    { intros df f Hf Ef.
      apply aggregate_shape in Hf as [->|[Hi Hk]]; [reflexivity|].
      destruct f as [[|k i] [|d ds]]; cbn in *; congruence. }
    apply andb_false_iff in E as [E|E]; apply negb_false_iff in E.
    + rewrite (K _ _ Hl E) in Vl. discriminate.
    + rewrite (K _ _ Hc E) in Vc. discriminate.
Qed.


Lemma varies_two (f : frame) (c : string) :
  varies f c = true
  <-> exists s, assoc c (data f) = Some s
                /\ exists x y, x ∈ s /\ y ∈ s /\ F64.isnan x = false
                               /\ F64.isnan y = false /\ F64.eqb x y = false.
Proof.
  unfold varies. destruct (assoc c (data f)) as [s|].
  - rewrite Z.ltb_lt, nunique_two. split.
    + intros H. exists s. split; [reflexivity | exact H].
    + intros (s' & [= <-] & H). exact H.
  - split; [discriminate | intros (s & [=] & _)].
Qed.

(** C5 (metric skip invariant).  For a comparator as its constructor leaves
    it and a period name that [aggregate] knows,
    [compare_statistical_inferences] returns (it raises nothing), and a
    metric has an entry in the comparison if and only if it is a column of
    interest whose aggregated series holds, in both years, two numbers
    that are not NaN and not equal (more than one distinct value): any
    other metric is absent from the record.  The entry of an evaluated
    metric holds the descriptive differences, the statistic, p-value and
    significance of the four tests, Cohen's d and the effect-size label. *)
Theorem metric_skip_invariant (lib : Library) (self : t) (period : string) :
  prepared self = true ->
  Str.mem period period_names = true ->
  exists ly cy dly dcy comparison,
    aggregate self (df_last_year self) period = Ok ly
    /\ aggregate self (df_current_year self) period = Ok cy
    /\ compare_statistical_inferences lib self period
       = Ok (dly, dcy, comparison)
    /\ forall c,
         (is_Some (assoc c comparison)
          <-> Str.mem c (columns_of_interest self) = true
              /\ (exists s_ly,
                    assoc c (data ly) = Some s_ly
                    /\ exists x y, x ∈ s_ly /\ y ∈ s_ly
                                   /\ F64.isnan x = false
                                   /\ F64.isnan y = false
                                   /\ F64.eqb x y = false)
              /\ (exists s_cy,
                    assoc c (data cy) = Some s_cy
                    /\ exists x y, x ∈ s_cy /\ y ∈ s_cy
                                   /\ F64.isnan x = false
                                   /\ F64.isnan y = false
                                   /\ F64.eqb x y = false))
         /\ (forall e, assoc c comparison = Some e ->
               Forall (fun k => is_Some (assoc k e)) emitted_keys).
Proof.
  intros Hp Hv.
  destruct (comparison_entries lib self period Hp Hv)
    as (ly & cy & dly & dcy & comparison & Hl & Hc & H & K).
  exists ly, cy, dly, dcy, comparison.
  split; [exact Hl|]. split; [exact Hc|]. split; [exact H|].
  intros c. destruct (K c) as [K1 K2]. split; [|exact K2].
  rewrite K1, !varies_two. reflexivity.
Qed.

Lemma metric_skip_invariant_witness :
  exists ly cy dly dcy comparison,
    aggregate sample_comparator (df_last_year sample_comparator) "monthly"
    = Ok ly
    /\ aggregate sample_comparator (df_current_year sample_comparator)
         "monthly" = Ok cy
    /\ compare_statistical_inferences blank_library sample_comparator
         "monthly" = Ok (dly, dcy, comparison)
    /\ forall c,
         (is_Some (assoc c comparison)
          <-> Str.mem c (columns_of_interest sample_comparator) = true
              /\ (exists s_ly,
                    assoc c (data ly) = Some s_ly
                    /\ exists x y, x ∈ s_ly /\ y ∈ s_ly
                                   /\ F64.isnan x = false
                                   /\ F64.isnan y = false
                                   /\ F64.eqb x y = false)
              /\ (exists s_cy,
                    assoc c (data cy) = Some s_cy
                    /\ exists x y, x ∈ s_cy /\ y ∈ s_cy
                                   /\ F64.isnan x = false
                                   /\ F64.isnan y = false
                                   /\ F64.eqb x y = false))
         /\ (forall e, assoc c comparison = Some e ->
               Forall (fun k => is_Some (assoc k e)) emitted_keys).
Proof.
  apply (metric_skip_invariant blank_library sample_comparator "monthly").
  - vm_compute. reflexivity.
  - vm_compute. reflexivity.
Defined.

(** C4 (effect-size labelling).  In the entry of an evaluated metric, when
    the pooled standard deviation, [sqrt ((std_ly * std_ly + std_cy * std_cy)
    / 2)] of the two years' standard deviations as [describe] returns them,
    is not zero, Cohen's d is the difference of the two means, current year
    less last year, divided by it, and the label is "small" for
    [|d| < 0.2], "medium" for [0.2 <= |d| < 0.5], "large" for [|d| >= 0.8],
    and "none" in the gap [0.5 <= |d| < 0.8]. *)
Theorem effect_size_labelling (lib : Library) (self : t) (period : string)
    (dly dcy : list (string * summary))
    (comparison : list (string * list (string * pyval)))
    (c : string) (e : list (string * pyval)) :
  compare_statistical_inferences lib self period = Ok (dly, dcy, comparison) ->
  assoc c comparison = Some e ->
  exists d_ly d_cy,
    assoc c dly = Some d_ly
    /\ assoc c dcy = Some d_cy
    /\ let pooled :=
         F64.sqrt (F64.div (F64.add (F64.mul (s_std d_ly) (s_std d_ly))
                                    (F64.mul (s_std d_cy) (s_std d_cy)))
                           (F64.of_Z 2)) in
       let cohens_d := F64.div (F64.sub (s_mean d_cy) (s_mean d_ly)) pooled in
       let abs_cd := F64.abs cohens_d in
       F64.neqb pooled F64.zero = true ->
       assoc "mean_diff" e = Some (PFloat (F64.sub (s_mean d_cy) (s_mean d_ly)))
       /\ assoc "cohens_d" e = Some (PFloat cohens_d)
       /\ exists label,
            assoc "effect_size" e = Some (PStr label)
            /\ (F64.ltb abs_cd f0_2 = true -> label = "small")
            /\ (F64.geb abs_cd f0_2 = true -> F64.ltb abs_cd f0_5 = true ->
                label = "medium")
            /\ (F64.geb abs_cd f0_8 = true -> label = "large")
            /\ (F64.geb abs_cd f0_5 = true -> F64.ltb abs_cd f0_8 = true ->
                label = "none").
Proof.
  intros H He.
  destruct (evaluated_inv lib self period dly dcy comparison c e H He)
    as (ly & cy & s_ly & s_cy & _ & _ & _ & _ & _ & _ & Dl & Dc & ->).
  exists (summarize lib s_ly), (summarize lib s_cy).
  split; [exact Dl|]. split; [exact Dc|].
  intros pooled cohens_d abs_cd Hz.
  split; [reflexivity|].
  rewrite !assoc_effect by auto.
  unfold effect, pooled_std. fold pooled. rewrite Hz. fold cohens_d.
  fold abs_cd.
  cbn [assoc String.eqb Ascii.eqb Bool.eqb].
  split; [reflexivity|].
  exists (effect_size abs_cd). split; [reflexivity|].
  assert (L28 : F64.leb f0_2 f0_8 = true) by (vm_compute; reflexivity).
  assert (L25 : F64.leb f0_2 f0_5 = true) by (vm_compute; reflexivity).
  assert (L58 : F64.leb f0_5 f0_8 = true) by (vm_compute; reflexivity).
  unfold effect_size, F64.geb. fold (F64.leb f0_2 abs_cd).
  fold (F64.leb f0_5 abs_cd). fold (F64.leb f0_8 abs_cd).
  split; [intros ->; reflexivity|].
  split.
  { intros G L. rewrite (leb_not_ltb _ _ G), L. reflexivity. }
  split.
  { intros G.
    rewrite (leb_not_ltb _ _ (leb_trans _ _ _ L28 G)).
    rewrite (leb_not_ltb _ _ (leb_trans _ _ _ L58 G)).
    unfold F64.geb. fold (F64.leb f0_8 abs_cd). rewrite G. reflexivity. }
  intros G L.
  rewrite (leb_not_ltb _ _ (leb_trans _ _ _ L25 G)).
  rewrite (leb_not_ltb _ _ G).
  unfold F64.geb. fold (F64.leb f0_8 abs_cd).
  rewrite (ltb_not_leb _ _ L). reflexivity.
Qed.

Lemma effect_size_labelling_witness :
  inference (snd sample_comparison) "Debit" "effect_size" = Some (PStr "large").
Proof.
  assert (H : compare_statistical_inferences blank_library sample_comparator
                "monthly"
              = Ok (fst (fst sample_comparison), snd (fst sample_comparison),
                    snd sample_comparison)) by (vm_compute; reflexivity).
  destruct (assoc "Debit" (snd sample_comparison)) as [e|] eqn:He;
    [|vm_compute in He; discriminate].
  destruct (effect_size_labelling blank_library sample_comparator "monthly"
              _ _ _ "Debit" e H He) as (d_ly & d_cy & Hl & Hc & K).
  cbv zeta in K.
  vm_compute in Hl. injection Hl as <-.
  vm_compute in Hc. injection Hc as <-.
  destruct K as (_ & _ & label & Hlabel & _ & _ & Hlarge & _);
    [vm_compute; reflexivity|].
  rewrite (Hlarge ltac:(vm_compute; reflexivity)) in Hlabel.
  unfold inference. rewrite He. exact Hlabel.
Defined.

(** C8 (fail fast on an invalid period), as the code has it.  The claim as
    stated fails for a frame that is [None] or has no rows.  For a period
    name outside weekly, bi-weekly, monthly and quarterly, [aggregate]
    raises the [ValueError] with its message on a frame that has rows, and
    returns the empty frame, raising nothing, on [None] and on a frame
    without rows; so the comparison raises it when a year has rows and
    returns three empty frames when none has.  No granularity is
    substituted.  A period name of the four never gives a [ValueError]. *)
Theorem fail_fast_on_invalid_period (lib : Library) (self : t)
    (df : option ledger) (period : string) :
  Str.mem period period_names = false ->
  aggregate self df period
  = (if has_rows df then Raise (ValueError invalid_period)
     else Ok empty_frame)
  /\ compare_statistical_inferences lib self period
     = (if has_rows (df_last_year self) || has_rows (df_current_year self)
        then Raise (ValueError invalid_period)
        else Ok ([], [], []))
  /\ (forall period' msg,
        Str.mem period' period_names = true ->
        aggregate self df period' <> Raise (ValueError msg)).
Proof.
  intros Hp. split; [apply aggregate_invalid; exact Hp|]. split.
  - unfold compare_statistical_inferences.
    rewrite !aggregate_invalid by exact Hp.
    destruct (has_rows (df_last_year self)); [reflexivity|].
    destruct (has_rows (df_current_year self)); reflexivity.
  - intros period' msg Hv. apply aggregate_valid_no_ValueError. exact Hv.
Qed.

Lemma fail_fast_on_invalid_period_witness :
  aggregate sample_comparator (df_last_year sample_comparator) "yearly"
  = Raise (ValueError invalid_period)
  /\ compare_statistical_inferences blank_library sample_comparator "yearly"
     = Raise (ValueError invalid_period).
Proof.
  destruct (fail_fast_on_invalid_period blank_library sample_comparator
              (df_last_year sample_comparator) "yearly")
    as (H1 & H2 & _); [reflexivity|].
  split; [exact H1 | exact H2].
Defined.

(** C8, the claim as stated, fails: on [None] and on a frame without rows
    the period name is not looked at, and a comparison of two such frames
    returns although the name is none of the four. *)
Lemma fail_fast_on_invalid_period_counterexample :
  Str.mem "yearly" period_names = false
  /\ aggregate idle_comparator None "yearly" = Ok empty_frame
  /\ aggregate idle_comparator (postings []) "yearly" = Ok empty_frame
  /\ compare_statistical_inferences blank_library idle_comparator "yearly"
     = Ok ([], [], []).
Proof. repeat split; reflexivity. Qed.

(** C10 (the branch for a pooled standard deviation of zero), as the code
    has it.  The claim as stated fails: the branch can run.  The entry of
    every evaluated metric holds a value of Cohen's d and an effect-size
    label.  The branch for zero is the one taken exactly when the pooled
    standard deviation that the floating-point operations give is zero:
    the entry then holds NaN and "none", and otherwise the quotient of the
    mean difference by the pooled standard deviation and its label.  That
    both series have more than one distinct value, as they do for an
    evaluated metric, does not exclude the first case. *)
Theorem zero_pooled_std_fallback (lib : Library) (self : t) (period : string)
    (dly dcy : list (string * summary))
    (comparison : list (string * list (string * pyval)))
    (c : string) (e : list (string * pyval)) :
  compare_statistical_inferences lib self period = Ok (dly, dcy, comparison) ->
  assoc c comparison = Some e ->
  exists ly cy s_ly s_cy,
    aggregate self (df_last_year self) period = Ok ly
    /\ aggregate self (df_current_year self) period = Ok cy
    /\ assoc c (data ly) = Some s_ly
    /\ assoc c (data cy) = Some s_cy
    /\ 1 < nunique s_ly
    /\ 1 < nunique s_cy
    /\ is_Some (assoc "cohens_d" e)
    /\ is_Some (assoc "effect_size" e)
    /\ let pooled := pooled_std (std s_ly) (std s_cy) in
       let cohens_d := F64.div (F64.sub (mean s_cy) (mean s_ly)) pooled in
       (F64.eqb pooled F64.zero = true ->
        assoc "cohens_d" e = Some (PFloat F64.nan)
        /\ assoc "effect_size" e = Some (PStr "none"))
       /\ (F64.eqb pooled F64.zero = false ->
           assoc "cohens_d" e = Some (PFloat cohens_d)
           /\ assoc "effect_size" e
              = Some (PStr (effect_size (F64.abs cohens_d)))).
Proof.
  intros H He.
  destruct (evaluated_inv lib self period dly dcy comparison c e H He)
    as (ly & cy & s_ly & s_cy & Hl & Hc & Al & Ac & Nl & Nc & _ & _ & ->).
  exists ly, cy, s_ly, s_cy.
  repeat (split; [assumption|]).
  rewrite !assoc_effect by auto.
  unfold effect, F64.neqb. cbn [summarize s_mean s_std].
  fold (F64.eqb (pooled_std (std s_ly) (std s_cy)) F64.zero).
  destruct (F64.eqb (pooled_std (std s_ly) (std s_cy)) F64.zero);
    cbn [negb assoc String.eqb Ascii.eqb Bool.eqb].
  - split; [eauto|]. split; [eauto|]. split; [auto | discriminate].
  - split; [eauto|]. split; [eauto|]. split; [discriminate | auto].
Qed.

Lemma zero_pooled_std_fallback_witness :
  inference (snd sample_comparison) "Debit" "cohens_d"
  = Some (PFloat (F64.div (F64.sub (F64.of_Z 400) (F64.of_Z 200))
                    (pooled_std (std [F64.of_Z 100; F64.of_Z 300])
                                (std [F64.of_Z 200; F64.of_Z 600])))).
Proof.
  assert (H : compare_statistical_inferences blank_library sample_comparator
                "monthly"
              = Ok (fst (fst sample_comparison), snd (fst sample_comparison),
                    snd sample_comparison)) by (vm_compute; reflexivity).
  destruct (assoc "Debit" (snd sample_comparison)) as [e|] eqn:He;
    [|vm_compute in He; discriminate].
  destruct (zero_pooled_std_fallback blank_library sample_comparator "monthly"
              _ _ _ "Debit" e H He)
    as (ly & cy & s_ly & s_cy & Hl & Hc & Al & Ac & _ & _ & _ & _ & K).
  vm_compute in Hl. injection Hl as <-.
  vm_compute in Hc. injection Hc as <-.
  vm_compute in Al. injection Al as <-.
  vm_compute in Ac. injection Ac as <-.
  cbv zeta in K. destruct K as [_ K].
  destruct K as [K _]; [vm_compute; reflexivity|].
  unfold inference. rewrite He. cbn [mbind option_bind]. rewrite K.
  vm_compute. reflexivity.
Defined.

(** C10, the claim as stated, fails: the debits 0 and 1e-200 of the two
    months are two distinct values in both years, the squares of their
    distances to the mean underflow to 0, so both standard deviations and
    the pooled one are 0 and the branch for zero runs. *)
Lemma zero_pooled_std_fallback_counterexample :
  compare_statistical_inferences blank_library tiny_comparator "monthly"
  = Ok tiny_comparison
  /\ nunique [F64.zero; F64.of_decimal false 1 (-200)] = 2
  /\ std [F64.zero; F64.of_decimal false 1 (-200)] = F64.zero
  /\ F64.neqb (pooled_std F64.zero F64.zero) F64.zero = false
  /\ (s_std <$> assoc "Debit" (fst (fst tiny_comparison))) = Some F64.zero
  /\ (s_std <$> assoc "Debit" (snd (fst tiny_comparison))) = Some F64.zero
  /\ inference (snd tiny_comparison) "Debit" "std_diff"
     = Some (PFloat F64.zero)
  /\ inference (snd tiny_comparison) "Debit" "cohens_d"
     = Some (PFloat F64.nan)
  /\ inference (snd tiny_comparison) "Debit" "effect_size"
     = Some (PStr "none").
Proof. vm_compute. repeat split; reflexivity. Qed.

(** * Further properties of the code *)

(** ** Reading a configuration from a dictionary *)

Lemma merge_checks_dom (l : list (string * pyval)) (m : gmap string bool) :
  dom (merge_checks l m) = dom m.
Proof.
  revert m. induction l as [|[k v] l IH]; intros m; cbn; [reflexivity|].
  rewrite IH. destruct (m !! k) as [b|] eqn:E; [|reflexivity].
  apply dom_insert_lookup_L. eauto.
Qed.

Lemma merge_profiles_dom (l : list (string * pyval))
    (ps ps' : gmap string MetricProfile.t) :
  merge_profiles l ps = Ok ps' -> dom ps ⊆ dom ps'.
Proof.
  revert ps. induction l as [|[k v] l IH]; intros ps; cbn.
  - intros [= <-]. reflexivity.
  - intros H. bind_inv H. bind_inv H.
    apply IH in H. etransitivity; [|exact H].
    rewrite dom_insert_L. set_solver.
Qed.

Lemma dict_update_dom {A : Type} (l : list (string * A)) (m : gmap string A) :
  dom m ⊆ dom (dict_update m l).
Proof.
  unfold dict_update. revert m.
  induction l as [|[k v] l IH]; intros m; cbn; [reflexivity|].
  etransitivity; [|apply IH]. rewrite dom_insert_L. set_solver.
Qed.

Lemma config_from_dict_Ok_complete (d : list (string * pyval))
    (c : DeviationConfig) :
  config_from_dict d = Ok c -> complete c.
Proof.
  unfold config_from_dict, section. intros H.
  bind_inv H. bind_inv H. bind_inv H. bind_inv H. bind_inv H. bind_inv H.
  injection H as <-. unfold complete. cbn.
  split; [|split].
  - destruct (assoc "profiles" d) as [[]|]; try (injection Ha3 as <-; reflexivity).
    apply merge_profiles_dom in Ha3. exact Ha3.
  - destruct (assoc "language" d) as [[]|]; try (injection Ha4 as <-; reflexivity).
    destruct (assoc "bucket_finish" d0) as [[]|];
      try (injection Ha4 as <-; reflexivity).
    bind_inv Ha4. injection Ha4 as <-. cbn. apply dict_update_dom.
  - destruct (assoc "enabled_checks" d) as [v|]; [|injection Ha2 as <-; reflexivity].
    bind_inv Ha2. injection Ha2 as <-. apply merge_checks_dom.
Qed.

Lemma default_switches (k : string) :
  is_Some (enabled_checks default_config !! k) <-> k ∈ check_names.
Proof.
  split.
  - intros [b Hb]. unfold default_config, enabled_checks in Hb.
    apply elem_of_list_to_map_2 in Hb.
    apply list_elem_of_fmap in Hb as (k' & [= -> _] & Hk). exact Hk.
  - intros H. unfold check_names in H.
    repeat (apply elem_of_cons in H as [->|H]; [vm_compute; eauto|]).
    apply elem_of_nil in H. contradiction.
Qed.

Lemma complete_switches (c : DeviationConfig) (k : string) :
  complete c -> (is_Some (enabled_checks c !! k) <-> k ∈ check_names).
Proof.
  intros (_ & _ & E). rewrite <- default_switches, <- !elem_of_dom, E.
  reflexivity.
Qed.

(** X1.  Whatever the dictionary holds, a configuration that
    [config_from_dict] returns has the ten switches of the checks and no
    other, a profile for each of the four default metrics and a text for
    each of the seven default buckets, ["general"] among them: no lookup of
    a switch by the engine fails on it. *)
Theorem config_from_dict_keeps_defaults (d : list (string * pyval))
    (c : DeviationConfig) :
  config_from_dict d = Ok c ->
  (forall k, is_Some (enabled_checks c !! k) <-> k ∈ check_names)
  /\ (forall m, is_Some (profiles default_config !! m) ->
                is_Some (profiles c !! m))
  /\ (forall b, is_Some (Language.bucket_finish Language.default !! b) ->
                is_Some (Language.bucket_finish (language c) !! b))
  /\ is_Some (Language.bucket_finish (language c) !! "general")
  /\ read_switches c switch_order = Ok tt.
Proof.
  intros H. apply config_from_dict_Ok_complete in H.
  pose proof H as (Hp & Hb & _).
  assert (B : forall b, is_Some (Language.bucket_finish Language.default !! b) ->
                is_Some (Language.bucket_finish (language c) !! b)).
  { intros b Hd. apply elem_of_dom, Hb, elem_of_dom. exact Hd. }
  split; [intros k; apply complete_switches; exact H|].
  split; [intros m Hm; apply elem_of_dom, Hp, elem_of_dom; exact Hm|].
  split; [exact B|].
  split; [apply B; vm_compute; eauto|].
  apply read_switches_Ok. intros k Hk.
  apply complete_switches; [exact H | apply switch_order_names; exact Hk].
Qed.

Lemma config_from_dict_keeps_defaults_witness :
  is_Some (Language.bucket_finish (language (restored bare_config))
           !! "general").
Proof.
  refine (proj1 (proj2 (proj2 (proj2
    (config_from_dict_keeps_defaults (asdict bare_config)
       (restored bare_config) _))))).
  apply config_from_dict_asdict.
Defined.

(** X2.  The round trip through the dictionary settles at once: the
    configuration that comes back from the dictionary of [c] is returned
    unchanged by the round trip, whatever [c] lacked. *)
Theorem config_round_trip_idempotent (c c' : DeviationConfig) :
  config_from_dict (asdict c) = Ok c' ->
  config_from_dict (asdict c') = Ok c'.
Proof.
  intros H. pose proof (config_from_dict_Ok_complete _ _ H) as Hc.
  rewrite config_from_dict_asdict. f_equal. apply restored_fixed. exact Hc.
Qed.

Lemma config_round_trip_idempotent_witness :
  config_from_dict (asdict (restored bare_config)) = Ok (restored bare_config).
Proof.
  apply (config_round_trip_idempotent bare_config (restored bare_config)).
  apply config_from_dict_asdict.
Defined.

Lemma merge_checks_lookup (kvs : list (string * pyval)) (m : gmap string bool)
    (k : string) :
  NoDup (map fst kvs) ->
  merge_checks kvs m !! k
  = match m !! k with
    | Some b => Some (match assoc k kvs with
                      | Some v => py_bool v
                      | None => b
                      end)
    | None => None
    end.
Proof.
  revert m. induction kvs as [|[k0 v0] kvs IH]; intros m ND; cbn.
  - destruct (m !! k); reflexivity.
  - apply NoDup_cons in ND as [Hk0 ND]. rewrite (IH _ ND).
    destruct (String.eqb_spec k k0) as [->|Hne].
    + assert (A : assoc k0 kvs = None).
      { pose proof (mem_keys_assoc k0 kvs) as M.
        destruct (assoc k0 kvs); [|reflexivity].
        exfalso. apply Hk0. unfold Str.mem in M.
        apply existsb_exists in M as (x & Hx & E).
        apply String.eqb_eq in E as <-. apply list_elem_of_In. exact Hx. }
      rewrite A. destruct (m !! k0) as [b|] eqn:E.
      * rewrite lookup_insert_eq. reflexivity.
      * rewrite E. reflexivity.
    + destruct (m !! k0) as [b|] eqn:E.
      * rewrite lookup_insert_ne by congruence. reflexivity.
      * reflexivity.
Qed.

Lemma assoc_elem_of {A : Type} (k : string) (v : A) (l : list (string * A)) :
  NoDup (map fst l) -> (k, v) ∈ l -> assoc k l = Some v.
Proof.
  induction l as [|[k0 v0] l IH]; intros ND H.
  - apply elem_of_nil in H. contradiction.
  - apply NoDup_cons in ND as [Hk0 ND]. cbn.
    apply elem_of_cons in H as [[= -> ->]|H].
    + rewrite String.eqb_refl. reflexivity.
    + destruct (String.eqb_spec k k0) as [->|_]; [|auto].
      exfalso. apply Hk0. apply list_elem_of_fmap. exists (k0, v). auto.
Qed.

(** X4.  A switch of [enabled_checks] is set to the truth value that Python
    gives its entry, not to what [to_bool] reads in it: a text that is not
    empty turns the check on, ["false"] and ["0"] included, and the numbers
    other than zero do too.  An entry for a key that is no switch adds
    none. *)
Theorem enabled_checks_truth_value (d kvs : list (string * pyval))
    (k : string) (v : pyval) (c : DeviationConfig) :
  config_from_dict d = Ok c ->
  assoc "enabled_checks" d = Some (PDict kvs) ->
  NoDup (map fst kvs) ->
  (k, v) ∈ kvs ->
  (k ∈ check_names -> enabled_checks c !! k = Some (py_bool v))
  /\ (k ∈ check_names -> forall s, v = PStr s -> s <> "" ->
      enabled_checks c !! k = Some true)
  /\ (k ∉ check_names -> enabled_checks c !! k = None).
Proof.
  intros H Hd ND Hin.
  assert (E : enabled_checks c !! k
              = match enabled_checks default_config !! k with
                | Some b => Some (py_bool v)
                | None => None
                end).
  { unfold config_from_dict, section in H. rewrite Hd in H.
    bind_inv H. bind_inv H. bind_inv H. bind_inv H. bind_inv H. bind_inv H.
    injection H as <-. cbn [enabled_checks].
    cbn in Ha2. injection Ha2 as <-.
    rewrite (merge_checks_lookup _ _ _ ND), (assoc_elem_of _ _ _ ND Hin).
    reflexivity. }
  pose proof (default_switches k) as D.
  destruct (enabled_checks default_config !! k) as [b|].
  - assert (Hk : k ∈ check_names) by (apply D; eauto).
    split; [intros _; exact E|]. split; [|contradiction].
    intros _ s -> Hs. rewrite E. cbn.
    destruct (String.eqb_spec s ""); [contradiction | reflexivity].
  - assert (Hk : k ∉ check_names) by (intros Hk; apply D in Hk as [? [=]]).
    split; [contradiction|]. split; [contradiction|]. intros _. exact E.
Qed.

Lemma enabled_checks_truth_value_witness :
  config_from_dict text_switch_dict = Ok default_config
  /\ enabled_checks default_config !! "cv" = Some true.
Proof.
  assert (H : config_from_dict text_switch_dict = Ok default_config)
    by (vm_compute; reflexivity).
  split; [exact H|].
  refine (proj1 (proj2
    (enabled_checks_truth_value text_switch_dict [("cv", PStr "false")]
       "cv" (PStr "false") default_config H eq_refl _ _)) _ "false" eq_refl _).
  - apply NoDup_singleton.
  - apply list_elem_of_here.
  - unfold check_names.
    repeat first [apply list_elem_of_here | apply list_elem_of_further].
  - discriminate.
Defined.

Lemma assoc_without {A : Type} (k k' : string) (d : list (string * A)) :
  assoc k' (without k d) = if String.eqb k' k then None else assoc k' d.
Proof.
  unfold without. induction d as [|[k0 v0] d IH]; cbn.
  - destruct (String.eqb k' k); reflexivity.
  - destruct (String.eqb_spec k0 k) as [->|Hne]; cbn.
    + rewrite IH. destruct (String.eqb_spec k' k); reflexivity.
    + rewrite IH. destruct (String.eqb_spec k' k0) as [->|_]; [|reflexivity].
      destruct (String.eqb_spec k0 k); [contradiction | reflexivity].
Qed.

Lemma items_not_dict (v : pyval) :
  is_dict v = false -> items v = Raise AttributeError.
Proof. destruct v; cbn; congruence. Qed.

Lemma bind_raises {A B : Type} (m : result A) (f : A -> result B) :
  (forall a, exists e, f a = Raise e) -> exists e, m ≫= f = Raise e.
Proof. intros H. destruct m as [a|e]; cbn; eauto. Qed.

(** X3.  A section of the dictionary that is no dictionary is an error
    for the thresholds, the weights, the tiers and the switches (the call
    raises, [AttributeError] when no section before it raises first), and
    is passed over for the profiles and the language, which then stay at
    their defaults as if the section were not there. *)
Theorem config_from_dict_section_types (d : list (string * pyval))
    (v : pyval) :
  is_dict v = false ->
  (assoc "thresholds" d = Some v -> config_from_dict d = Raise AttributeError)
  /\ (forall k, k ∈ ["weights"; "tiers"; "enabled_checks"] ->
        assoc k d = Some v -> exists e, config_from_dict d = Raise e)
  /\ (forall k, k ∈ ["thresholds"; "weights"; "tiers"; "enabled_checks"] ->
        config_from_dict [(k, v)] = Raise AttributeError)
  /\ (forall k, k ∈ ["profiles"; "language"] ->
        assoc k d = Some v ->
        config_from_dict d = config_from_dict (without k d)).
Proof.
  intros Hv. pose proof (items_not_dict v Hv) as Hi.
  split; [|split; [|split]].
  - intros H. unfold config_from_dict, section. rewrite H, Hi. reflexivity.
  - intros k Hk H. unfold config_from_dict, section.
    repeat (apply elem_of_cons in Hk as [->|Hk]);
      [ | | | apply elem_of_nil in Hk; contradiction ];
      rewrite H, Hi;
      repeat first [ solve [cbn; eauto]
                   | apply bind_raises; intros ? ].
  - intros k Hk.
    repeat (apply elem_of_cons in Hk as [->|Hk]);
      [ | | | | apply elem_of_nil in Hk; contradiction ];
      unfold config_from_dict, section; cbn [assoc String.eqb Ascii.eqb Bool.eqb];
      rewrite Hi; reflexivity.
  - intros k Hk H. unfold config_from_dict, section.
    repeat (apply elem_of_cons in Hk as [->|Hk]);
      [ | | apply elem_of_nil in Hk; contradiction ];
      rewrite !assoc_without; cbn [String.eqb Ascii.eqb Bool.eqb];
      rewrite H; destruct v; try discriminate; reflexivity.
Qed.

Lemma config_from_dict_section_types_witness :
  config_from_dict [("thresholds", PInt 1)] = Raise AttributeError
  /\ config_from_dict [("profiles", PInt 1)] = config_from_dict [].
Proof.
  destruct (config_from_dict_section_types [("thresholds", PInt 1)] (PInt 1)
              eq_refl) as (H1 & _).
  destruct (config_from_dict_section_types [("profiles", PInt 1)] (PInt 1)
              eq_refl) as (_ & _ & _ & H4).
  split; [apply H1; reflexivity|].
  apply (H4 "profiles"); [apply list_elem_of_here | reflexivity].
Defined.

(** ** The round trip of a configuration *)

(** *** Keys that a dictionary lacks *)

Lemma assoc_update_assoc_ne {A : Type} (f k : string) (v : A)
    (l : list (string * A)) :
  f <> k -> assoc f (update_assoc k v l) = assoc f l.
Proof.
  intros Hne. unfold update_assoc.
  induction l as [|[k0 v0] l IH]; [reflexivity|]. cbn.
  destruct (String.eqb_spec k0 k) as [->|Hk]; cbn.
  - destruct (String.eqb_spec f k); [congruence | exact IH].
  - rewrite IH. reflexivity.
Qed.

Ltac known_key M k :=
  unfold Str.mem in M; cbn [existsb map fst] in M;
  repeat (apply orb_true_iff in M as [M|M]; [apply String.eqb_eq in M|]);
  first [discriminate M | subst k].

Ltac other_field :=
  let f := fresh "f" in
  let Hf := fresh "Hf" in
  intros f Hf; cbn [assoc];
  repeat match goal with
         | |- context [String.eqb f ?n] =>
             destruct (String.eqb_spec f n) as [->|?];
             [first [congruence | reflexivity]|]
         end;
  reflexivity.

Lemma Thresholds_setattr_other (t t' : Thresholds.t) (k : string) (v : pyval) :
  ThresholdsDict.setattr t k v = Ok t' ->
  forall f, f <> k ->
    assoc f (ThresholdsDict.fields t') = assoc f (ThresholdsDict.fields t).
Proof.
  unfold ThresholdsDict.setattr, set_if_has.
  destruct (Str.mem k (map fst (ThresholdsDict.fields t))) eqn:M.
  - destruct t. unfold ThresholdsDict.fields in *.
    known_key M k; intros H; cbn in H;
      (destruct v; try discriminate H); injection H as <-; cbn; other_field.
  - destruct (String.prefix "__" k); [discriminate|].
    intros [= <-]. reflexivity.
Qed.

Lemma Weights_setattr_other (t t' : Weights.t) (k : string) (v : pyval) :
  WeightsDict.setattr t k v = Ok t' ->
  forall f, f <> k ->
    assoc f (WeightsDict.fields t') = assoc f (WeightsDict.fields t).
Proof.
  unfold WeightsDict.setattr, set_if_has.
  destruct (Str.mem k (map fst (WeightsDict.fields t))) eqn:M.
  - destruct t. unfold WeightsDict.fields in *.
    known_key M k; intros H; cbn in H;
      (destruct v; try discriminate H); injection H as <-; cbn; other_field.
  - destruct (String.prefix "__" k); [discriminate|].
    intros [= <-]. reflexivity.
Qed.

Lemma MetricProfile_setattr_other (t t' : MetricProfile.t) (k : string)
    (v : pyval) :
  MetricProfileDict.setattr t k v = Ok t' ->
  forall f, f <> k ->
    assoc f (MetricProfileDict.fields t')
    = assoc f (MetricProfileDict.fields t).
Proof.
  unfold MetricProfileDict.setattr, set_if_has.
  destruct (Str.mem k (map fst (MetricProfileDict.fields t))) eqn:M.
  - destruct t. unfold MetricProfileDict.fields in *.
    known_key M k; intros H; cbn in H;
      (destruct v; try discriminate H); injection H as <-; cbn; other_field.
  - destruct (String.prefix "__" k); [discriminate|].
    intros [= <-]. reflexivity.
Qed.

Lemma Tiering_setattr_other (t t' : Tiering.t) (k : string) (v : pyval) :
  TieringDict.setattr t k v = Ok t' ->
  forall f, f <> k ->
    assoc f (TieringDict.fields t') = assoc f (TieringDict.fields t).
Proof.
  unfold TieringDict.setattr.
  destruct (Str.mem k (map fst (TieringDict.fields t))) eqn:M.
  - destruct t. unfold TieringDict.fields in *.
    known_key M k; intros H; cbn in H.
    1-8: (destruct v; try discriminate H);
      cbn in H; rewrite as_strs_map_PStr in H; cbn in H;
      injection H as <-; cbn; other_field.
    apply bind_Ok in H as (v' & _ & H).
    destruct v' as [| | | | | |l|]; try discriminate H. cbn in H.
    destruct (as_strs "require_any_of_triggers" l); [|discriminate].
    injection H as <-. cbn. other_field.
  - destruct (String.prefix "__" k); [discriminate|].
    intros [= <-]. reflexivity.
Qed.

(** A loop of [setattr] leaves the fields alone whose names are no key of
    the dictionary. *)
Lemma set_all_other {T : Type} (fields : T -> list (string * pyval))
    (setattr : T -> string -> pyval -> result T) :
  (forall t t' k v, setattr t k v = Ok t' ->
     forall f, f <> k -> assoc f (fields t') = assoc f (fields t)) ->
  forall kvs t t' f,
    set_all setattr kvs t = Ok t' ->
    Str.mem f (map fst kvs) = false ->
    assoc f (fields t') = assoc f (fields t).
Proof.
  intros S kvs. induction kvs as [|[k v] kvs IH]; intros t t' f; cbn.
  - intros [= <-] _. reflexivity.
  - intros H M. apply bind_Ok in H as (t1 & H1 & H).
    unfold Str.mem in M. cbn in M. apply orb_false_iff in M as [M1 M2].
    rewrite (IH _ _ _ H M2). apply (S _ _ _ _ H1).
    apply String.eqb_neq. exact M1.
Qed.

Lemma merge_checks_other (kvs : list (string * pyval)) (m : gmap string bool)
    (f : string) :
  Str.mem f (map fst kvs) = false -> merge_checks kvs m !! f = m !! f.
Proof.
  revert m. induction kvs as [|[k v] kvs IH]; intros m M; cbn; [reflexivity|].
  unfold Str.mem in M. cbn in M. apply orb_false_iff in M as [M1 M2].
  rewrite (IH _ M2). apply String.eqb_neq in M1.
  destruct (m !! k); [|reflexivity].
  apply lookup_insert_ne. congruence.
Qed.

Lemma merge_profiles_other (entries : list (string * pyval))
    (ps ps' : gmap string MetricProfile.t) (f : string) :
  merge_profiles entries ps = Ok ps' ->
  Str.mem f (map fst entries) = false -> ps' !! f = ps !! f.
Proof.
  revert ps. induction entries as [|[k v] entries IH]; intros ps; cbn.
  - intros [= <-] _. reflexivity.
  - intros H M. apply bind_Ok in H as (kvs & _ & H).
    apply bind_Ok in H as (mp & _ & H).
    unfold Str.mem in M. cbn in M. apply orb_false_iff in M as [M1 M2].
    rewrite (IH _ H M2). apply String.eqb_neq in M1.
    apply lookup_insert_ne. congruence.
Qed.

Lemma dict_update_other {A : Type} (new : list (string * A))
    (m : gmap string A) (f : string) :
  Str.mem f (map fst new) = false -> dict_update m new !! f = m !! f.
Proof.
  unfold dict_update. revert m.
  induction new as [|[k v] new IH]; intros m M; cbn; [reflexivity|].
  unfold Str.mem in M. cbn in M. apply orb_false_iff in M as [M1 M2].
  rewrite (IH _ M2). apply String.eqb_neq in M1.
  apply lookup_insert_ne. congruence.
Qed.

Lemma str_items_keys (bf : list (string * pyval))
    (new : list (string * string)) :
  str_items bf = Ok new -> map fst new = map fst bf.
Proof.
  revert new. induction bf as [|[k v] bf IH]; intros new; cbn.
  - intros [= <-]. reflexivity.
  - intros H. apply bind_Ok in H as (s & _ & H).
    apply bind_Ok in H as (rest & Hr & H). injection H as <-.
    cbn. rewrite (IH _ Hr). reflexivity.
Qed.

(** The profile of a metric that the dictionary of profiles names once:
    the loop of [setattr] over its entry, from the default profile of the
    metric or from a new profile. *)
Lemma merge_profiles_entry (entries : list (string * pyval))
    (ps ps' : gmap string MetricProfile.t) (m : string) (profd : pyval) :
  merge_profiles entries ps = Ok ps' ->
  NoDup (map fst entries) ->
  (m, profd) ∈ entries ->
  exists kvs p,
    profd = PDict kvs
    /\ ps' !! m = Some p
    /\ set_all MetricProfileDict.setattr kvs
         (match ps !! m with
          | Some p0 => p0
          | None => MetricProfile.new m
          end) = Ok p.
Proof.
  revert ps. induction entries as [|[k v] entries IH]; intros ps H ND Hin;
    [inversion Hin|].
  cbn in H. apply bind_Ok in H as (kvs & Hk & H).
  apply bind_Ok in H as (mp & Hmp & H).
  cbn in ND. apply NoDup_cons in ND as [Hnk ND].
  apply elem_of_cons in Hin as [[= <- <-]|Hin].
  - exists kvs, mp. destruct profd; try discriminate Hk.
    injection Hk as ->. split; [reflexivity|]. split; [|exact Hmp].
    rewrite (merge_profiles_other _ _ _ _ H).
    + apply lookup_insert_eq.
    + destruct (Str.mem m (map fst entries)) eqn:E; [|reflexivity].
      exfalso. apply Hnk. unfold Str.mem in E.
      apply existsb_exists in E as (x & Hx & E).
      apply String.eqb_eq in E as <-. apply list_elem_of_In. exact Hx.
  - destruct (IH _ H ND Hin) as (kvs' & p & -> & Hp & Hs).
    exists kvs', p. split; [reflexivity|]. split; [exact Hp|].
    rewrite lookup_insert_ne in Hs; [exact Hs|].
    intros <-. apply Hnk.
    apply list_elem_of_fmap. exists (k, PDict kvs'). split; [reflexivity|exact Hin].
Qed.

(** What [config_from_dict] does section by section. *)
Lemma config_from_dict_Ok_inv (d : list (string * pyval)) (c : DeviationConfig) :
  config_from_dict d = Ok c ->
  section d "thresholds" (set_all ThresholdsDict.setattr)
    (thresholds default_config) = Ok (thresholds c)
  /\ section d "weights" (set_all WeightsDict.setattr)
       (weights default_config) = Ok (weights c)
  /\ section d "tiers" (set_all TieringDict.setattr)
       (tiers default_config) = Ok (tiers c)
  /\ section d "enabled_checks" (fun kvs ec => Ok (merge_checks kvs ec))
       (enabled_checks default_config) = Ok (enabled_checks c)
  /\ match assoc "profiles" d with
     | Some (PDict entries) => merge_profiles entries (profiles default_config)
     | _ => Ok (profiles default_config)
     end = Ok (profiles c)
  /\ match assoc "language" d with
     | Some (PDict l) =>
         match assoc "bucket_finish" l with
         | Some (PDict bf) =>
             new ← str_items bf;
             Ok (Language.mk
                   (dict_update
                      (Language.bucket_finish (language default_config)) new))
         | _ => Ok (language default_config)
         end
     | _ => Ok (language default_config)
     end = Ok (language c).
Proof.
  unfold config_from_dict. intros H.
  apply bind_Ok in H as (th & H1 & H). apply bind_Ok in H as (we & H2 & H).
  apply bind_Ok in H as (ti & H3 & H). apply bind_Ok in H as (ec & H4 & H).
  apply bind_Ok in H as (ps & H5 & H). apply bind_Ok in H as (la & H6 & H).
  injection H as <-. cbn [thresholds weights tiers enabled_checks profiles language].
  repeat split; assumption.
Qed.

(** C3 (config round trip), as the code has it.  The claim as stated fails
    for a configuration that lacks a default profile, bucket or switch, or
    has a switch of its own.  Reading back the dictionary of a configuration
    [c] gives [c] with the default entries merged in: the thresholds, the
    weights and the tiering (the tuple of required triggers included) are
    those of [c]; the profiles and the bucket texts are those of [c] and,
    for every default metric or bucket that [c] lacks, the default one; the
    switches are the ten default ones, with the value [c] gives them where
    it has them.  So the round trip returns [c] itself exactly when [c] has
    a profile for every default metric, a text for every default bucket and
    the ten default switches and no other.

    Unknown keys are ignored: a key at the top of the dictionary that names
    no section, and inside a section a key that names no field and does not
    start with two underscores (a name such as [__class__] is an attribute
    of every object, so [hasattr] holds for it and it is no unknown key).

    Missing keys take defaults, for every dictionary that
    [config_from_dict] reads: a section that the dictionary lacks is the
    default one; a field, switch, metric or bucket that a section does not
    name has its default value, and so has a field that the entry of a
    metric does not name (its value in the default profile of the metric,
    or in a new profile); the empty dictionary gives the default
    configuration. *)
Theorem config_round_trip (c : DeviationConfig) :
  config_from_dict (asdict c) = Ok (restored c)
  /\ (config_from_dict (asdict c) = Ok c <-> complete c)
  /\ (forall d k v, Str.mem k section_names = false ->
        config_from_dict ((k, v) :: d) = config_from_dict d)
  /\ (forall t k v,
        Str.mem k (map fst (ThresholdsDict.fields t)) = false ->
        String.prefix "__" k = false ->
        ThresholdsDict.setattr t k v = Ok t)
  /\ (forall t k v,
        Str.mem k (map fst (WeightsDict.fields t)) = false ->
        String.prefix "__" k = false ->
        WeightsDict.setattr t k v = Ok t)
  /\ (forall t k v,
        Str.mem k (map fst (TieringDict.fields t)) = false ->
        String.prefix "__" k = false ->
        TieringDict.setattr t k v = Ok t)
  /\ (forall t k v,
        Str.mem k (map fst (MetricProfileDict.fields t)) = false ->
        String.prefix "__" k = false ->
        MetricProfileDict.setattr t k v = Ok t)
  /\ (forall ec k v l,
        ec !! k = None -> merge_checks ((k, v) :: l) ec = merge_checks l ec)
  /\ config_from_dict [] = Ok default_config
  /\ (forall d c', config_from_dict d = Ok c' ->
        (assoc "thresholds" d = None ->
         thresholds c' = thresholds default_config)
        /\ (assoc "weights" d = None -> weights c' = weights default_config)
        /\ (assoc "tiers" d = None -> tiers c' = tiers default_config)
        /\ (assoc "enabled_checks" d = None ->
            enabled_checks c' = enabled_checks default_config)
        /\ (assoc "profiles" d = None ->
            profiles c' = profiles default_config)
        /\ (assoc "language" d = None ->
            language c' = language default_config)
        /\ (forall l, assoc "language" d = Some (PDict l) ->
              assoc "bucket_finish" l = None ->
              language c' = language default_config))
  /\ (forall d c' kvs f, config_from_dict d = Ok c' ->
        Str.mem f (map fst kvs) = false ->
        (assoc "thresholds" d = Some (PDict kvs) ->
         assoc f (ThresholdsDict.fields (thresholds c'))
         = assoc f (ThresholdsDict.fields (thresholds default_config)))
        /\ (assoc "weights" d = Some (PDict kvs) ->
            assoc f (WeightsDict.fields (weights c'))
            = assoc f (WeightsDict.fields (weights default_config)))
        /\ (assoc "tiers" d = Some (PDict kvs) ->
            assoc f (TieringDict.fields (tiers c'))
            = assoc f (TieringDict.fields (tiers default_config)))
        /\ (assoc "enabled_checks" d = Some (PDict kvs) ->
            enabled_checks c' !! f = enabled_checks default_config !! f)
        /\ (assoc "profiles" d = Some (PDict kvs) ->
            profiles c' !! f = profiles default_config !! f)
        /\ (forall l, assoc "language" d = Some (PDict l) ->
              assoc "bucket_finish" l = Some (PDict kvs) ->
              Language.bucket_finish (language c') !! f
              = Language.bucket_finish (language default_config) !! f)
        /\ (forall entries m,
              assoc "profiles" d = Some (PDict entries) ->
              NoDup (map fst entries) ->
              (m, PDict kvs) ∈ entries ->
              exists p,
                profiles c' !! m = Some p
                /\ assoc f (MetricProfileDict.fields p)
                   = assoc f (MetricProfileDict.fields
                                (match profiles default_config !! m with
                                 | Some p0 => p0
                                 | None => MetricProfile.new m
                                 end)))).
Proof.
  split; [apply config_from_dict_asdict|].
  split.
  { rewrite config_from_dict_asdict, <- restored_fixed.
    split; [intros E; injection E; auto | intros ->; reflexivity]. }
  split.
  { intros d k v Hk. apply config_from_dict_sections.
    intros k' Hk'. cbn [assoc].
    destruct (String.eqb_spec k' k) as [->|_]; [congruence | reflexivity]. }
  split; [intros; apply set_if_has_unknown; assumption|].
  split; [intros; apply set_if_has_unknown; assumption|].
  split; [intros t k v H H'; unfold TieringDict.setattr; rewrite H, H';
          reflexivity|].
  split; [intros; apply set_if_has_unknown; assumption|].
  split; [intros ec k v l H; cbn [merge_checks]; rewrite H; reflexivity|].
  split; [reflexivity|].
  split.
  - intros d c' H.
    apply config_from_dict_Ok_inv in H as (H1 & H2 & H3 & H4 & H5 & H6).
    unfold section in H1, H2, H3, H4.
    repeat split.
    + intros E. rewrite E in H1. injection H1 as <-. reflexivity.
    + intros E. rewrite E in H2. injection H2 as <-. reflexivity.
    + intros E. rewrite E in H3. injection H3 as <-. reflexivity.
    + intros E. rewrite E in H4. injection H4 as <-. reflexivity.
    + intros E. rewrite E in H5. injection H5 as <-. reflexivity.
    + intros E. rewrite E in H6. injection H6 as <-. reflexivity.
    + intros l E E'. rewrite E, E' in H6. injection H6 as <-. reflexivity.
  - intros d c' kvs f H M.
    apply config_from_dict_Ok_inv in H as (H1 & H2 & H3 & H4 & H5 & H6).
    unfold section in H1, H2, H3, H4.
    repeat split.
    + intros E. rewrite E in H1. cbn in H1.
      exact (set_all_other _ _ Thresholds_setattr_other _ _ _ _ H1 M).
    + intros E. rewrite E in H2. cbn in H2.
      exact (set_all_other _ _ Weights_setattr_other _ _ _ _ H2 M).
    + intros E. rewrite E in H3. cbn in H3.
      exact (set_all_other _ _ Tiering_setattr_other _ _ _ _ H3 M).
    + intros E. rewrite E in H4. cbn in H4. injection H4 as <-.
      apply merge_checks_other. exact M.
    + intros E. rewrite E in H5.
      apply (merge_profiles_other _ _ _ _ H5 M).
    + intros l E E'. rewrite E, E' in H6.
      apply bind_Ok in H6 as (new & Hn & H6). injection H6 as <-.
      cbn [Language.bucket_finish]. apply dict_update_other.
      rewrite (str_items_keys _ _ Hn). exact M.
    + intros entries m E ND Hin. rewrite E in H5.
      destruct (merge_profiles_entry _ _ _ _ _ H5 ND Hin)
        as (kvs' & p & [= <-] & Hp & Hs).
      exists p. split; [exact Hp|].
      exact (set_all_other _ _ MetricProfile_setattr_other _ _ _ _ Hs M).
Qed.

(** C3, the claim as stated, fails: the configuration without profiles
    comes back with the four default profiles. *)
Lemma config_round_trip_counterexample :
  config_from_dict (asdict bare_config) = Ok default_config
  /\ profiles bare_config !! "Credit" = None
  /\ profiles default_config !! "Credit"
     = Some (MetricProfile.mk "Credit"
               (F64.of_decimal false 60 (-2)) (F64.of_decimal false 60 (-2))
               (F64.of_Z 1) (F64.of_Z 1)
               (F64.of_decimal false 30 (-2)) (F64.of_decimal false 70 (-2))).
Proof. vm_compute. repeat split; reflexivity. Qed.


(** ** Metric detection *)

Lemma ascii_compare_trans_le (a b c : ascii) :
  Ascii.compare a b <> Gt -> Ascii.compare b c <> Gt ->
  Ascii.compare a c <> Gt.
Proof.
  unfold Ascii.compare. rewrite !N.compare_le_iff. lia.
Qed.

Lemma string_compare_trans_le (s1 s2 s3 : string) :
  String.compare s1 s2 <> Gt -> String.compare s2 s3 <> Gt ->
  String.compare s1 s3 <> Gt.
Proof.
  revert s2 s3. induction s1 as [|a s1 IH]; intros [|b s2] [|c s3]; cbn;
    try congruence.
  unfold Ascii.compare.
  destruct (N.compare_spec (N_of_ascii a) (N_of_ascii b)) as [E1|L1|G1];
    destruct (N.compare_spec (N_of_ascii b) (N_of_ascii c)) as [E2|L2|G2];
    try congruence.
  - rewrite E1, E2, N.compare_refl. apply IH.
  - rewrite E1. destruct (N.compare_spec (N_of_ascii b) (N_of_ascii c));
      try lia; congruence.
  - rewrite <- E2. destruct (N.compare_spec (N_of_ascii a) (N_of_ascii b));
      try lia; congruence.
  - destruct (N.compare_spec (N_of_ascii a) (N_of_ascii c)); try lia;
      congruence.
Qed.

Lemma string_leb_trans (s1 s2 s3 : string) :
  String.leb s1 s2 = true -> String.leb s2 s3 = true ->
  String.leb s1 s3 = true.
Proof.
  unfold String.leb. intros H1 H2.
  pose proof (string_compare_trans_le s1 s2 s3) as T.
  destruct (String.compare s1 s2), (String.compare s2 s3),
    (String.compare s1 s3); try reflexivity; try discriminate;
    exfalso; apply T; congruence.
Qed.

Lemma metric_key_le_trans (x y z : string) :
  metric_key_le x y = true -> metric_key_le y z = true ->
  metric_key_le x z = true.
Proof.
  unfold metric_key_le.
  rewrite !orb_true_iff, !andb_true_iff, !Z.ltb_lt, !Z.eqb_eq.
  intros [H1|[H1 L1]] [H2|[H2 L2]]; try (left; lia).
  right. split; [lia|]. eapply string_leb_trans; eassumption.
Qed.

Lemma metric_key_le_total (x y : string) :
  metric_key_le x y = true \/ metric_key_le y x = true.
Proof.
  unfold metric_key_le.
  rewrite !orb_true_iff, !andb_true_iff, !Z.ltb_lt, !Z.eqb_eq.
  destruct (Z.lt_total (pref_index x pref 0) (pref_index y pref 0))
    as [H|[H|H]]; [auto | | auto].
  destruct (String.leb_total x y); [left | right]; right; auto.
Qed.

Lemma metric_key_le_antisym (x y : string) :
  metric_key_le x y = true -> metric_key_le y x = true -> x = y.
Proof.
  unfold metric_key_le.
  rewrite !orb_true_iff, !andb_true_iff, !Z.ltb_lt, !Z.eqb_eq.
  intros [H1|[H1 L1]] [H2|[H2 L2]]; try lia.
  apply String.leb_antisym; assumption.
Qed.

Lemma elem_of_dedup_strings (x : string) (l : list string) :
  x ∈ dedup_strings l <-> x ∈ l.
Proof.
  induction l as [|y l IH]; cbn; [reflexivity|].
  rewrite !elem_of_cons, list_elem_of_filter, IH.
  destruct (String.eqb_spec y x) as [->|Hne]; cbn.
  - split; [intros [?|[[] _]]; auto | intros [?|?]; auto].
  - split; [intros [?|[_ ?]]; auto|].
    intros [->|?]; [contradiction | right; split; [exact I | assumption]].
Qed.

Lemma NoDup_dedup_strings (l : list string) : NoDup (dedup_strings l).
Proof.
  induction l as [|y l IH]; cbn; [constructor|].
  constructor.
  - rewrite list_elem_of_filter. intros [H _].
    rewrite String.eqb_refl in H. exact H.
  - apply NoDup_filter. exact IH.
Qed.

Lemma detect_metrics_Permutation (columns : list string) :
  detect_metrics columns ≡ₚ dedup_strings (omap metric_of_column columns).
Proof. unfold detect_metrics. apply sort_by_Permutation. Qed.

Lemma elem_of_detect_metrics (columns : list string) (m : string) :
  m ∈ detect_metrics columns
  <-> exists c, c ∈ columns /\ metric_of_column c = Some m.
Proof.
  rewrite (elem_of_Permutation_proper m _ _ (detect_metrics_Permutation _)).
  rewrite elem_of_dedup_strings, list_elem_of_omap. reflexivity.
Qed.

Lemma detect_metrics_NoDup (columns : list string) :
  NoDup (detect_metrics columns).
Proof.
  rewrite detect_metrics_Permutation. apply NoDup_dedup_strings.
Qed.

Lemma detect_metrics_sorted (columns : list string) :
  StronglySorted (fun x y => metric_key_le x y = true)
                 (detect_metrics columns).
Proof.
  apply sort_by_sorted; [apply metric_key_le_trans | apply metric_key_le_total].
Qed.

(** The metrics detected depend on which columns there are, not on their
    order. *)
Lemma detect_metrics_same_columns (columns columns' : list string) :
  (forall c, c ∈ columns <-> c ∈ columns') ->
  detect_metrics columns = detect_metrics columns'.
Proof.
  intros H.
  assert (AS : AntiSymm eq (fun x y => metric_key_le x y = true))
    by (intros x y; apply metric_key_le_antisym).
  apply (StronglySorted_unique (fun x y => metric_key_le x y = true)).
  - apply detect_metrics_sorted.
  - apply detect_metrics_sorted.
  - apply NoDup_Permutation; try apply detect_metrics_NoDup.
    intros m. rewrite !elem_of_detect_metrics.
    split; intros (c & Hc & E); exists c; split; auto; apply H; auto.
Qed.

Lemma is_prefix_app (p r : list ascii) : Str.is_prefix p (p ++ r) = true.
Proof.
  induction p as [|c p IH]; cbn; [reflexivity|].
  rewrite Ascii.eqb_refl. exact IH.
Qed.

Lemma is_prefix_inv (p s : list ascii) :
  Str.is_prefix p s = true -> s = p ++ drop (length p) s.
Proof.
  revert s. induction p as [|c p IH]; intros [|d s]; cbn;
    try reflexivity; try discriminate.
  intros [E H]%andb_true_iff. apply Ascii.eqb_eq in E as ->.
  f_equal. apply IH. exact H.
Qed.

Lemma chars_append (a b : string) :
  Str.chars (a +:+ b) = Str.chars a ++ Str.chars b.
Proof.
  unfold Str.chars. induction a as [|c a IH]; simpl; [reflexivity|].
  f_equal. exact IH.
Qed.

Lemma of_chars_chars (s : string) : Str.of_chars (Str.chars s) = s.
Proof. apply string_of_list_ascii_of_string. Qed.

Lemma chars_of_chars (l : list ascii) : Str.chars (Str.of_chars l) = l.
Proof. apply list_ascii_of_string_of_list_ascii. Qed.

Lemma chars_inj (s s' : string) : Str.chars s = Str.chars s' -> s = s'.
Proof.
  intros H. rewrite <- (of_chars_chars s), <- (of_chars_chars s'), H.
  reflexivity.
Qed.

Lemma existsb_rev {A : Type} (p : A -> bool) (l : list A) :
  existsb p (rev l) = existsb p l.
Proof.
  induction l as [|x l IH]; cbn; [reflexivity|].
  rewrite existsb_app, IH. cbn. rewrite orb_false_r. apply orb_comm.
Qed.

(** The pattern of the source matches the labels that end in [_CY_Mean],
    or in [_CY_Mean] and a newline, with no newline before that. *)
Lemma metric_of_column_spec (c m : string) :
  metric_of_column c = Some m
  <-> existsb (Ascii.eqb newline) (Str.chars m) = false
      /\ (c = m +:+ "_CY_Mean"
          \/ c = m +:+ "_CY_Mean" +:+ String newline "").
Proof.
  unfold metric_of_column.
  set (suffix := rev (Str.chars "_CY_Mean")).
  split.
  - destruct (Str.is_prefix suffix (rev (Str.chars c))) eqn:P1.
    + apply is_prefix_inv in P1.
      change (length suffix) with 8%nat in P1.
      destruct (existsb (Ascii.eqb newline) (drop 8 (rev (Str.chars c))))
        eqn:N; [discriminate|].
      intros [= <-]. rewrite chars_of_chars, existsb_rev. split; [exact N|].
      left. apply chars_inj. rewrite chars_append, chars_of_chars.
      apply (f_equal (@rev ascii)) in P1.
      rewrite rev_involutive, rev_app_distr in P1. exact P1.
    + destruct (Str.is_prefix (newline :: suffix) (rev (Str.chars c))) eqn:P2;
        [|discriminate].
      apply is_prefix_inv in P2.
      change (length (newline :: suffix)) with 9%nat in P2.
      destruct (existsb (Ascii.eqb newline) (drop 9 (rev (Str.chars c))))
        eqn:N; [discriminate|].
      intros [= <-]. rewrite chars_of_chars, existsb_rev. split; [exact N|].
      right. apply chars_inj. rewrite !chars_append, chars_of_chars.
      apply (f_equal (@rev ascii)) in P2.
      rewrite rev_involutive, rev_app_distr in P2.
      exact P2.
  - intros [N [->| ->]].
    + rewrite chars_append, rev_app_distr. fold suffix.
      rewrite is_prefix_app.
      change 8%nat with (length suffix). rewrite drop_app_length.
      rewrite existsb_rev, N, rev_involutive, of_chars_chars. reflexivity.
    + rewrite !chars_append, !rev_app_distr.
      change (rev (Str.chars (String newline ""))) with [newline].
      fold suffix. cbn [app].
      replace (Str.is_prefix suffix (newline :: suffix ++ rev (Str.chars m)))
        with false by reflexivity.
      change (newline :: suffix ++ rev (Str.chars m))
        with ((newline :: suffix) ++ rev (Str.chars m)).
      rewrite is_prefix_app.
      change 9%nat with (length (newline :: suffix)). rewrite drop_app_length.
      rewrite existsb_rev, N, rev_involutive, of_chars_chars. reflexivity.
Qed.

Lemma append_assoc (a b c : string) : (a +:+ b) +:+ c = a +:+ b +:+ c.
Proof.
  induction a as [|x a IH]; [reflexivity|].
  change (String x ((a +:+ b) +:+ c) = String x (a +:+ b +:+ c)).
  rewrite IH. reflexivity.
Qed.

(** A name is a metric exactly when its [_CY_Mean] label is there. *)
Lemma detect_metrics_label (columns : list string) (m : string) :
  m ∈ detect_metrics columns
  <-> existsb (Ascii.eqb newline) (Str.chars m) = false
      /\ (col m "CY_Mean" ∈ columns
          \/ col m "CY_Mean" +:+ String newline "" ∈ columns).
Proof.
  rewrite elem_of_detect_metrics. split.
  + intros (c & Hc & E). apply metric_of_column_spec in E as [N [-> | ->]].
    * split; [exact N|]. left. exact Hc.
    * split; [exact N|]. right.
      unfold col. rewrite append_assoc. exact Hc.
  + intros [N [H|H]].
    * exists (col m "CY_Mean"). split; [exact H|].
      apply metric_of_column_spec. split; [exact N|]. left. reflexivity.
    * exists (col m "CY_Mean" +:+ String newline ""). split; [exact H|].
      apply metric_of_column_spec. split; [exact N|]. right.
      unfold col. rewrite append_assoc. reflexivity.
Qed.

(** X5.  [detect_metrics] returns each metric once; a name without a
    newline is a metric exactly when its [_CY_Mean] column is among the
    labels (or that label followed by a newline, which the pattern lets
    through); and the metrics come in the order of the sort key, the four
    preferred ones first and the others by name. *)
Theorem detect_metrics_spec (columns : list string) :
  NoDup (detect_metrics columns)
  /\ (forall m,
        m ∈ detect_metrics columns
        <-> existsb (Ascii.eqb newline) (Str.chars m) = false
            /\ (col m "CY_Mean" ∈ columns
                \/ col m "CY_Mean" +:+ String newline "" ∈ columns))
  /\ StronglySorted (fun x y => metric_key_le x y = true)
                    (detect_metrics columns)
  /\ (forall x y, metric_key_le x y = true
        <-> pref_index x pref 0 < pref_index y pref 0
            \/ (pref_index x pref 0 = pref_index y pref 0
                /\ String.leb x y = true)).
Proof.
  split; [apply detect_metrics_NoDup|].
  split; [|split; [apply detect_metrics_sorted|]].
  - apply detect_metrics_label.
  - intros x y. unfold metric_key_le.
    rewrite orb_true_iff, andb_true_iff, Z.ltb_lt, Z.eqb_eq. reflexivity.
Qed.

Lemma mem_Permutation (c : string) (l l' : list string) :
  l' ≡ₚ l -> Str.mem c l' = Str.mem c l.
Proof.
  intros H. unfold Str.mem.
  destruct (existsb (String.eqb c) l) eqn:E.
  - apply existsb_exists in E as (x & Hx & Ex).
    apply existsb_exists. exists x. split; [|exact Ex].
    apply list_elem_of_In. rewrite H. apply list_elem_of_In. exact Hx.
  - destruct (existsb (String.eqb c) l') eqn:E'; [|reflexivity].
    apply existsb_exists in E' as (x & Hx & Ex).
    assert (existsb (String.eqb c) l = true); [|congruence].
    apply existsb_exists. exists x. split; [|exact Ex].
    apply list_elem_of_In. rewrite <- H. apply list_elem_of_In. exact Hx.
Qed.

(** X6.  The report does not depend on the order of the columns of the
    input: two frames with the same rows and the same column labels in
    another order give the same result, be it a report or an exception. *)
Theorem report_ignores_column_order (df df' : DataFrame)
    (cfg : option DeviationConfig) :
  rows df' = rows df ->
  columns df' ≡ₚ columns df ->
  build_deviation_report df' cfg = build_deviation_report df cfg.
Proof.
  destruct df as [cs rs], df' as [cs' rs']. cbn. intros -> P.
  unfold build_deviation_report. cbn [columns rows].
  rewrite !(mem_Permutation _ _ _ P).
  rewrite (detect_metrics_same_columns cs' cs)
    by (intros c; rewrite P; reflexivity).
  assert (T : forall ms sfx,
            pct_table {| columns := cs'; rows := rs |} ms sfx
            = pct_table {| columns := cs; rows := rs |} ms sfx).
  { intros ms sfx. unfold pct_table. apply map_ext. intros m.
    unfold percentile_rank_abs. cbn [columns rows].
    rewrite (mem_Permutation _ _ _ P). reflexivity. }
  rewrite !T. reflexivity.
Qed.

Lemma report_ignores_column_order_witness :
  build_deviation_report sample_batch_reversed (Some default_config)
  = build_deviation_report sample_batch (Some default_config).
Proof.
  apply report_ignores_column_order.
  - reflexivity.
  - symmetry. apply Permutation_rev.
Defined.

(** ** The exceptions of the engine *)

Lemma enabled_Raise (cfg : DeviationConfig) (k : string) (e : exn) :
  enabled cfg k = Raise e -> enabled_checks cfg !! k = None /\ e = KeyError k.
Proof.
  unfold enabled. destruct (enabled_checks cfg !! k); [discriminate|].
  intros [= <-]. auto.
Qed.

Lemma scaled_Raise (w : Z) (mult : float) (e : exn) :
  scaled w mult = Raise e ->
  e = OverflowError \/ e = ValueError "cannot convert float NaN to integer".
Proof.
  unfold scaled, PyFloat.int_mul, PyFloat.to_int.
  destruct (PyFloat.of_int w) as [f|]; cbn; [|intros [= <-]; auto].
  destruct (F64.trunc (F64.mul f mult)); [discriminate|].
  destruct (F64.isnan (F64.mul f mult)); intros [= <-]; auto.
Qed.

Ltac raise_cases H :=
  repeat match type of H with
         | (_ ≫= _) = Raise _ =>
             let a := fresh "a" in
             let Ha := fresh "Ha" in
             apply bind_Raise in H as [H | (a & Ha & H)]
         | (if ?b then _ else _) = Raise _ => destruct b
         | Ok _ = Raise _ => discriminate H
         | (let _ := _ in _) = Raise _ => cbv zeta in H
         end.

Ltac scoring_error_from H :=
  first
    [ apply enabled_Raise in H as [H ->]; left; eexists; split;
      [ | split; [exact H | reflexivity] ];
      unfold switch_order;
      repeat first [apply list_elem_of_here | apply list_elem_of_further]
    | apply scaled_Raise in H as [-> | ->]; [right; left | right; right];
      reflexivity ].

Ltac check_raises c :=
  let H := fresh "H" in
  unfold c; intros H; raise_cases H; scoring_error_from H.

Lemma check_distribution_change_Raise cfg p x s e :
  check_distribution_change cfg p x s = Raise e -> scoring_error cfg e.
Proof. check_raises check_distribution_change. Qed.

Lemma check_mean_shift_Raise cfg p x s e :
  check_mean_shift cfg p x s = Raise e -> scoring_error cfg e.
Proof. check_raises check_mean_shift. Qed.

Lemma check_effect_size_Raise cfg p x s e :
  check_effect_size cfg p x s = Raise e -> scoring_error cfg e.
Proof. check_raises check_effect_size. Qed.

Lemma check_cv_Raise cfg p x s e :
  check_cv cfg p x s = Raise e -> scoring_error cfg e.
Proof. check_raises check_cv. Qed.

Lemma check_low_mean_high_variance_Raise cfg p x s e :
  check_low_mean_high_variance cfg p x s = Raise e -> scoring_error cfg e.
Proof. check_raises check_low_mean_high_variance. Qed.

Lemma check_mean_median_gap_Raise cfg p x s e :
  check_mean_median_gap cfg p x s = Raise e -> scoring_error cfg e.
Proof. check_raises check_mean_median_gap. Qed.

Lemma check_pearson_skew_Raise cfg p x s e :
  check_pearson_skew cfg p x s = Raise e -> scoring_error cfg e.
Proof. check_raises check_pearson_skew. Qed.

Lemma check_volatility_jump_Raise cfg p x s e :
  check_volatility_jump cfg p x s = Raise e -> scoring_error cfg e.
Proof. check_raises check_volatility_jump. Qed.

Lemma check_new_activity_Raise cfg p x s e :
  check_new_activity cfg p x s = Raise e -> scoring_error cfg e.
Proof. check_raises check_new_activity. Qed.

Lemma check_sign_reversal_Raise cfg p x s e :
  check_sign_reversal cfg p x s = Raise e -> scoring_error cfg e.
Proof. check_raises check_sign_reversal. Qed.

Lemma score_metric_Raise cfg r mp sp m e :
  score_metric cfg r mp sp m = Raise e -> scoring_error cfg e.
Proof.
  unfold score_metric, checks. cbn [run_checks]. intros H.
  repeat (apply bind_Raise in H as [H | (? & _ & H)];
          [ first [ apply check_distribution_change_Raise in H
                  | apply check_mean_shift_Raise in H
                  | apply check_effect_size_Raise in H
                  | apply check_cv_Raise in H
                  | apply check_low_mean_high_variance_Raise in H
                  | apply check_mean_median_gap_Raise in H
                  | apply check_pearson_skew_Raise in H
                  | apply check_volatility_jump_Raise in H
                  | apply check_new_activity_Raise in H
                  | apply check_sign_reversal_Raise in H ]; exact H | ]).
  discriminate.
Qed.

Lemma score_metrics_Raise cfg r mp sp metrics e :
  score_metrics cfg r mp sp metrics = Raise e -> scoring_error cfg e.
Proof.
  induction metrics as [|m ms IH]; cbn; [discriminate|]. intros H.
  apply bind_Raise in H as [H | (t & _ & H)];
    [apply score_metric_Raise in H; exact H|].
  apply bind_Raise in H as [H | (rest & _ & H)]; [auto | discriminate].
Qed.

Lemma account_row_Raise cfg metrics mp sp r e :
  account_row cfg metrics mp sp r = Raise e -> report_error cfg e.
Proof.
  unfold account_row. intros H.
  apply bind_Raise in H as [H | (scored & _ & H)];
    [left; apply score_metrics_Raise in H; exact H|].
  destruct scored; [discriminate|]. cbv zeta in H.
  repeat match type of H with
         | (if ?b then _ else _) = Raise _ => destruct b
         | match ?o with Some _ => _ | None => _ end = Raise _ => destruct o
         | Ok _ = Raise _ => discriminate H
         end.
  apply bind_Raise in H as [H | (text & _ & H)]; [|discriminate].
  apply interpret_Raise_inv in H as [-> H]. right. auto.
Qed.

Lemma iterrows_Raise cfg metrics mt st idx (l : list row) e :
  iterrows cfg metrics mt st idx l = Raise e -> report_error cfg e.
Proof.
  revert idx. induction l as [|r l IH]; intros idx; cbn; [discriminate|].
  intros H.
  apply bind_Raise in H as [H | (o & _ & H)];
    [apply account_row_Raise in H; exact H|].
  apply bind_Raise in H as [H | (rest & _ & H)]; [eauto | discriminate].
Qed.

Lemma build_missing_columns (df : DataFrame) (cfg : option DeviationConfig) :
  negb (Str.mem "Account Code" (columns df))
  || negb (Str.mem "Account Name" (columns df)) = true ->
  build_deviation_report df cfg = Raise (ValueError missing_columns).
Proof. unfold build_deviation_report. intros ->. reflexivity. Qed.

Lemma build_no_metrics (df : DataFrame) (cfg : option DeviationConfig) :
  negb (Str.mem "Account Code" (columns df))
  || negb (Str.mem "Account Name" (columns df)) = false ->
  detect_metrics (columns df) = [] ->
  build_deviation_report df cfg = Raise (ValueError no_metrics).
Proof. unfold build_deviation_report. intros -> ->. reflexivity. Qed.

Lemma build_report_error (df : DataFrame) (cfg : DeviationConfig) (e : exn) :
  negb (Str.mem "Account Code" (columns df))
  || negb (Str.mem "Account Name" (columns df)) = false ->
  detect_metrics (columns df) <> [] ->
  build_deviation_report df (Some cfg) = Raise e ->
  report_error cfg e.
Proof.
  unfold build_deviation_report. intros -> Hm.
  destruct (detect_metrics (columns df)) as [|m ms]; [congruence|].
  intros H. apply bind_Raise in H as [H | (kept & _ & H)]; [|discriminate].
  apply iterrows_Raise in H. exact H.
Qed.

Lemma report_error_not_input (cfg : DeviationConfig) (msg : string) :
  msg ∈ [missing_columns; no_metrics] ->
  ~ report_error cfg (ValueError msg).
Proof.
  intros Hm [[(k & _ & _ & [=]) | [[=] | [= E]]] | [_ [=]]].
  repeat (apply elem_of_cons in Hm as [->|Hm]; [discriminate E|]).
  apply elem_of_nil in Hm. exact Hm.
Qed.

(** Without a text for ["general"] no row is written. *)
Lemma account_row_general cfg metrics mp sp r o :
  Language.bucket_finish (language cfg) !! "general" = None ->
  account_row cfg metrics mp sp r = Ok o -> o = None.
Proof.
  intros Hg. unfold account_row. intros H. bind_inv H.
  destruct a; [injection H as <-; reflexivity|]. cbv zeta in H.
  repeat match type of H with
         | (if ?b then _ else _) = Ok _ => destruct b
         | match ?x with Some _ => _ | None => _ end = Ok _ => destruct x
         | Ok _ = Ok _ => injection H as <-; reflexivity
         end.
  bind_inv H.
  pose proof (interpret_general
                (str_of (get_or (PStr "") r "Account Name"))
                (dominant (p :: a))
                (ordered_triggers (uniq_triggers (p :: a))) (language cfg)) as G.
  rewrite Hg, Ha0 in G. discriminate.
Qed.

Lemma iterrows_general cfg metrics mt st idx (l : list row) kept :
  Language.bucket_finish (language cfg) !! "general" = None ->
  iterrows cfg metrics mt st idx l = Ok kept -> kept = [].
Proof.
  intros Hg. revert idx kept.
  induction l as [|r l IH]; intros idx kept; cbn; [intros [= <-]; reflexivity|].
  intros H. bind_inv H. bind_inv H. injection H as <-.
  apply (account_row_general _ _ _ _ _ _ Hg) in Ha as ->.
  apply IH in Ha0. exact Ha0.
Qed.

(** X7.  The exceptions of [build_deviation_report].  A frame without the
    column [Account Code] or [Account Name] is refused with a [ValueError]
    before anything else is looked at; a frame with both and no
    [<Metric>_CY_Mean] column is refused with the other [ValueError].  On
    every other frame whose labels are distinct and whose integers are in
    the range of the floats, the engine raises nothing but the [KeyError]
    of a switch that [cfg.enabled_checks] lacks, the error of
    [int(weight * multiplier)] for a product that is NaN or infinite, and
    the [KeyError] of [interpret] for a language without a text for
    ["general"]; with the ten switches and that text in place only the
    error of [int] is left.  Without the text for ["general"] the engine
    reports no account: it raises, or it returns an empty report. *)
Theorem engine_exceptions (df : DataFrame) (cfg : DeviationConfig) :
  let refused := negb (Str.mem "Account Code" (columns df))
                 || negb (Str.mem "Account Name" (columns df)) in
  let general := Language.bucket_finish (language cfg) !! "general" in
  (refused = true ->
   build_deviation_report df (Some cfg) = Raise (ValueError missing_columns))
  /\ (refused = false -> detect_metrics (columns df) = [] ->
      build_deviation_report df (Some cfg) = Raise (ValueError no_metrics))
  /\ (refused = false -> detect_metrics (columns df) <> [] ->
      plain_frame df ->
      forall e, build_deviation_report df (Some cfg) = Raise e ->
        ((exists k, k ∈ switch_order /\ enabled_checks cfg !! k = None
                    /\ e = KeyError k)
         \/ e = OverflowError
         \/ e = ValueError "cannot convert float NaN to integer"
         \/ (general = None /\ e = KeyError "general"))
        /\ ((forall k, k ∈ check_names -> is_Some (enabled_checks cfg !! k)) ->
            is_Some general ->
            e = OverflowError
            \/ e = ValueError "cannot convert float NaN to integer"))
  /\ (general = None ->
      forall out, build_deviation_report df (Some cfg) = Ok out -> out = []).
Proof.
  intros refused general.
  split; [apply build_missing_columns|].
  split; [apply build_no_metrics|].
  split.
  - intros Hr Hm _ e H.
    pose proof (build_report_error df cfg e Hr Hm H) as S.
    split.
    + destruct S as [[S | [S | S]] | S]; auto.
    + intros Hk [g Hg].
      destruct S as [[(k & Hin & Hnone & _) | S] | [S _]]; [|exact S|].
      * apply switch_order_names, Hk in Hin as [b Hb]. congruence.
      * unfold general in Hg. congruence.
  - intros Hg out H.
    destruct (build_Ok_inv _ _ _ H) as (kept & Hk & ->).
    apply (iterrows_general _ _ _ _ _ _ _ Hg) in Hk as ->. reflexivity.
Qed.

(** ** Input validation *)

Lemma validate_issues (df : DataFrame) :
  df_empty df = false ->
  fst (validate_input_df (Some df))
  = negb (negb (Str.mem "Account Code" (columns df))
          || negb (Str.mem "Account Name" (columns df)))
    && negb (bool_decide (detect_metrics (columns df) = [])).
Proof.
  intros E. unfold validate_input_df. rewrite E. cbn [fst flat_map].
  destruct (Str.mem "Account Code" (columns df)),
    (Str.mem "Account Name" (columns df)),
    (detect_metrics (columns df)); reflexivity.
Qed.

(** X8.  [validate_input_df] and the engine agree on a frame that is not
    empty: the frame passes exactly when [build_deviation_report] raises
    neither of its two input errors, and it passes exactly when no issue is
    listed.  They part on an empty frame: validation fails with "CSV looks
    empty." whatever the columns, while the engine, given the columns it
    needs, returns an empty report for a frame without rows. *)
Theorem validate_input_df_spec (df : DataFrame) (cfg : DeviationConfig) :
  let v := validate_input_df (Some df) in
  validate_input_df None = (false, ["CSV looks empty."])
  /\ (fst v = true <-> snd v = [])
  /\ (df_empty df = true -> v = (false, ["CSV looks empty."]))
  /\ (df_empty df = false ->
      (fst v = false
       <-> exists msg, msg ∈ [missing_columns; no_metrics]
             /\ build_deviation_report df (Some cfg)
                = Raise (ValueError msg)))
  /\ (rows df = [] ->
      Str.mem "Account Code" (columns df) = true ->
      Str.mem "Account Name" (columns df) = true ->
      detect_metrics (columns df) <> [] ->
      fst v = false /\ build_deviation_report df (Some cfg) = Ok []).
Proof.
  intros v. split; [reflexivity|]. split; [|split; [|split]].
  - subst v. unfold validate_input_df.
    destruct (df_empty df); cbn [fst snd]; [split; discriminate|].
    match goal with
    | |- (Z.of_nat (length ?l) =? 0) = true <-> _ => destruct l
    end; cbn [length snd]; [split; reflexivity|].
    split; [|discriminate]. rewrite Nat2Z.inj_succ. intros H.
    apply Z.eqb_eq in H. lia.
  - intros E. subst v. unfold validate_input_df. rewrite E. reflexivity.
  - intros E. subst v. rewrite (validate_issues df E).
    destruct (negb (Str.mem "Account Code" (columns df))
              || negb (Str.mem "Account Name" (columns df))) eqn:R.
    + cbn. split; [intros _|reflexivity].
      exists missing_columns. split; [apply list_elem_of_here|].
      apply build_missing_columns. exact R.
    + cbn. destruct (detect_metrics (columns df)) as [|m ms] eqn:M.
      * cbn. split; [intros _|reflexivity].
        exists no_metrics.
        split; [apply list_elem_of_further, list_elem_of_here|].
        apply build_no_metrics; assumption.
      * cbn. split; [discriminate|]. intros (msg & Hmsg & H). exfalso.
        apply (report_error_not_input cfg msg Hmsg).
        apply (build_report_error df cfg _ R); [congruence | exact H].
  - intros Hr Hc Hn Hm. split.
    + subst v. unfold validate_input_df, df_empty. rewrite Hr.
      destruct (columns df); reflexivity.
    + unfold build_deviation_report. rewrite Hc, Hn, Hr. cbn.
      destruct (detect_metrics (columns df)); [congruence | reflexivity].
Qed.

(** ** The switches of the checks *)

Ltac check_off c :=
  let H := fresh "H" in
  intros H; unfold c, enabled; rewrite H; reflexivity.

Lemma check_distribution_change_off cfg p x s :
  enabled_checks cfg !! "distribution_change" = Some false ->
  check_distribution_change cfg p x s = Ok s.
Proof. check_off check_distribution_change. Qed.

Lemma check_mean_shift_off cfg p x s :
  enabled_checks cfg !! "mean_shift" = Some false ->
  check_mean_shift cfg p x s = Ok s.
Proof. check_off check_mean_shift. Qed.

Lemma check_effect_size_off cfg p x s :
  enabled_checks cfg !! "effect_size" = Some false ->
  check_effect_size cfg p x s = Ok s.
Proof. check_off check_effect_size. Qed.

Lemma check_cv_off cfg p x s :
  enabled_checks cfg !! "cv" = Some false -> check_cv cfg p x s = Ok s.
Proof. check_off check_cv. Qed.

Lemma check_low_mean_high_variance_off cfg p x s :
  enabled_checks cfg !! "low_mean_high_variance" = Some false ->
  check_low_mean_high_variance cfg p x s = Ok s.
Proof. check_off check_low_mean_high_variance. Qed.

Lemma check_mean_median_gap_off cfg p x s :
  enabled_checks cfg !! "mean_median_gap" = Some false ->
  check_mean_median_gap cfg p x s = Ok s.
Proof. check_off check_mean_median_gap. Qed.

Lemma check_pearson_skew_off cfg p x s :
  enabled_checks cfg !! "pearson_skew" = Some false ->
  check_pearson_skew cfg p x s = Ok s.
Proof. check_off check_pearson_skew. Qed.

Lemma check_volatility_jump_off cfg p x s :
  enabled_checks cfg !! "volatility_jump" = Some false ->
  check_volatility_jump cfg p x s = Ok s.
Proof. check_off check_volatility_jump. Qed.

Lemma check_new_activity_off cfg p x s :
  enabled_checks cfg !! "new_activity" = Some false ->
  check_new_activity cfg p x s = Ok s.
Proof. check_off check_new_activity. Qed.

Lemma check_sign_reversal_off cfg p x s :
  enabled_checks cfg !! "sign_reversal" = Some false ->
  check_sign_reversal cfg p x s = Ok s.
Proof. check_off check_sign_reversal. Qed.

(** The ten checks of a metric, one after the other. *)
Lemma score_metric_run cfg r mp sp m t :
  score_metric cfg r mp sp m = Ok t ->
  let p := prof cfg m in
  let x := read_signals r m mp sp in
  exists s1 s2 s3 s4 s5 s6 s7 s8 s9,
    check_distribution_change cfg p x (0, []) = Ok s1
    /\ check_mean_shift cfg p x s1 = Ok s2
    /\ check_effect_size cfg p x s2 = Ok s3
    /\ check_cv cfg p x s3 = Ok s4
    /\ check_low_mean_high_variance cfg p x s4 = Ok s5
    /\ check_mean_median_gap cfg p x s5 = Ok s6
    /\ check_pearson_skew cfg p x s6 = Ok s7
    /\ check_volatility_jump cfg p x s7 = Ok s8
    /\ check_new_activity cfg p x s8 = Ok s9
    /\ check_sign_reversal cfg p x s9 = Ok t.
Proof.
  intros H. cbv zeta. unfold score_metric, checks in H.
  cbn [run_checks] in H.
  do 10 bind_inv H. injection H as <-.
  eexists _, _, _, _, _, _, _, _, _. repeat (split; [eassumption|]).
  assumption.
Qed.

(** What the run of the checks does to a property of the tally that every
    check keeps. *)
Lemma score_metric_keeps (P : tally -> Prop) cfg r mp sp m t :
  (forall (p : MetricProfile.t) (x : signals) (s s' : tally),
     P s ->
     (check_distribution_change cfg p x s = Ok s' -> P s')
     /\ (check_mean_shift cfg p x s = Ok s' -> P s')
     /\ (check_effect_size cfg p x s = Ok s' -> P s')
     /\ (check_cv cfg p x s = Ok s' -> P s')
     /\ (check_low_mean_high_variance cfg p x s = Ok s' -> P s')
     /\ (check_mean_median_gap cfg p x s = Ok s' -> P s')
     /\ (check_pearson_skew cfg p x s = Ok s' -> P s')
     /\ (check_volatility_jump cfg p x s = Ok s' -> P s')
     /\ (check_new_activity cfg p x s = Ok s' -> P s')
     /\ (check_sign_reversal cfg p x s = Ok s' -> P s')) ->
  P (0, []) ->
  score_metric cfg r mp sp m = Ok t -> P t.
Proof.
  intros K P0 H. apply score_metric_run in H. cbv zeta in H.
  destruct H as (s1 & s2 & s3 & s4 & s5 & s6 & s7 & s8 & s9
                 & H1 & H2 & H3 & H4 & H5 & H6 & H7 & H8 & H9 & H10).
  apply (K _ _ _ _ P0) in H1.
  apply (K _ _ _ _ H1) in H2.
  apply (K _ _ _ _ H2) in H3.
  apply (K _ _ _ _ H3) in H4.
  apply (K _ _ _ _ H4) in H5.
  apply (K _ _ _ _ H5) in H6.
  apply (K _ _ _ _ H6) in H7.
  apply (K _ _ _ _ H7) in H8.
  apply (K _ _ _ _ H8) in H9.
  apply (K _ _ _ _ H9) in H10. exact H10.
Qed.

Ltac on_from c fires off :=
  let H := fresh "H" in
  let E := fresh "E" in
  let F := fresh "F" in
  intros H; pose proof (fires _ _ _ _ _ H) as F;
  match type of F with
  | fires_only _ _ _ =>
      match goal with
      | |- fires_when ?cfg ?k _ _ _ =>
          destruct (enabled_checks cfg !! k) as [[|]|] eqn:E;
          [ destruct F as [F|F]; [left; exact F | right; split; [exact E | exact F]]
          | rewrite (off _ _ _ _ E) in H; injection H as <-; left; reflexivity
          | unfold c, enabled in H; rewrite E in H; discriminate H ]
      end
  end.

Lemma check_distribution_change_on cfg p x s s' :
  check_distribution_change cfg p x s = Ok s' ->
  fires_when cfg "distribution_change" ["Distribution Change"] s s'.
Proof.
  on_from check_distribution_change check_distribution_change_fires
          check_distribution_change_off.
Qed.

Lemma check_mean_shift_on cfg p x s s' :
  check_mean_shift cfg p x s = Ok s' ->
  fires_when cfg "mean_shift" ["Mean Shift"] s s'.
Proof.
  on_from check_mean_shift check_mean_shift_fires check_mean_shift_off.
Qed.

Lemma check_effect_size_on cfg p x s s' :
  check_effect_size cfg p x s = Ok s' ->
  fires_when cfg "effect_size" ["Large Effect Size"; "Medium Effect Size"]
             s s'.
Proof.
  on_from check_effect_size check_effect_size_fires check_effect_size_off.
Qed.

Lemma check_cv_on cfg p x s s' :
  check_cv cfg p x s = Ok s' ->
  fires_when cfg "cv" ["High CV"; "Moderate CV"] s s'.
Proof. on_from check_cv check_cv_fires check_cv_off. Qed.

Lemma check_low_mean_high_variance_on cfg p x s s' :
  check_low_mean_high_variance cfg p x s = Ok s' ->
  fires_when cfg "low_mean_high_variance" ["Low Mean with High Variance"]
             s s'.
Proof.
  on_from check_low_mean_high_variance check_low_mean_high_variance_fires
          check_low_mean_high_variance_off.
Qed.

Lemma check_mean_median_gap_on cfg p x s s' :
  check_mean_median_gap cfg p x s = Ok s' ->
  fires_when cfg "mean_median_gap" ["Mean-Median Gap"] s s'.
Proof.
  on_from check_mean_median_gap check_mean_median_gap_fires
          check_mean_median_gap_off.
Qed.

Lemma check_pearson_skew_on cfg p x s s' :
  check_pearson_skew cfg p x s = Ok s' ->
  fires_when cfg "pearson_skew" ["Pearson Skew"] s s'.
Proof.
  on_from check_pearson_skew check_pearson_skew_fires check_pearson_skew_off.
Qed.

Lemma check_volatility_jump_on cfg p x s s' :
  check_volatility_jump cfg p x s = Ok s' ->
  fires_when cfg "volatility_jump" ["Volatility Jump"] s s'.
Proof.
  on_from check_volatility_jump check_volatility_jump_fires
          check_volatility_jump_off.
Qed.

Lemma check_new_activity_on cfg p x s s' :
  check_new_activity cfg p x s = Ok s' ->
  fires_when cfg "new_activity" ["New Activity / Re-start"] s s'.
Proof.
  on_from check_new_activity check_new_activity_fires check_new_activity_off.
Qed.

Lemma check_sign_reversal_on cfg p x s s' :
  check_sign_reversal cfg p x s = Ok s' ->
  fires_when cfg "sign_reversal" ["Sign Reversal"] s s'.
Proof.
  on_from check_sign_reversal check_sign_reversal_fires
          check_sign_reversal_off.
Qed.

(** A property of the tally that firing a trigger of a switch that is on
    keeps is kept by the run of the checks. *)
Lemma score_metric_fires (P : tally -> Prop) cfg r mp sp m t :
  (forall k names name n s,
     (k, names) ∈ switch_triggers -> name ∈ names ->
     enabled_checks cfg !! k = Some true ->
     P s -> P (fire name n s)) ->
  P (0, []) ->
  score_metric cfg r mp sp m = Ok t -> P t.
Proof.
  intros K. apply score_metric_keeps. intros p x s s' Ps.
  assert (G : forall k names, (k, names) ∈ switch_triggers ->
                fires_when cfg k names s s' -> P s').
  { intros k names Hin [-> | (E & name & n & Hn & ->)]; [exact Ps|].
    apply (K k names); assumption. }
  repeat split; intros H;
    [ apply check_distribution_change_on in H
    | apply check_mean_shift_on in H
    | apply check_effect_size_on in H
    | apply check_cv_on in H
    | apply check_low_mean_high_variance_on in H
    | apply check_mean_median_gap_on in H
    | apply check_pearson_skew_on in H
    | apply check_volatility_jump_on in H
    | apply check_new_activity_on in H
    | apply check_sign_reversal_on in H ];
    (eapply G; [|exact H]); unfold switch_triggers;
    repeat first [apply list_elem_of_here | apply list_elem_of_further].
Qed.

Lemma score_metric_triggers_enabled cfg r mp sp m t :
  score_metric cfg r mp sp m = Ok t -> triggers_enabled cfg t.
Proof.
  apply (score_metric_fires (triggers_enabled cfg)).
  - intros k names name n s Hin Hn E Ps name' H'. cbn in H'.
    apply elem_of_app in H' as [H'|H']; [apply Ps; exact H'|].
    apply list_elem_of_singleton in H' as ->. eauto.
  - intros name H. apply elem_of_nil in H. contradiction.
Qed.

Lemma score_metric_scored cfg r mp sp m t :
  score_metric cfg r mp sp m = Ok t -> snd t = [] -> fst t = 0.
Proof.
  apply (score_metric_fires (fun s => snd s = [] -> fst s = 0)).
  - intros k names name n s _ _ _ _ H. cbn in H.
    destruct (snd s); discriminate.
  - reflexivity.
Qed.

Lemma switch_triggers_disjoint (k k' name : string) (names names' : list string) :
  (k, names) ∈ switch_triggers -> (k', names') ∈ switch_triggers ->
  name ∈ names -> name ∈ names' -> k = k'.
Proof.
  unfold switch_triggers. intros H H' Hn Hn'.
  repeat (apply elem_of_cons in H as [[= -> ->]|H]);
    try (apply elem_of_nil in H; contradiction);
    repeat (apply elem_of_cons in Hn as [->|Hn]);
    try (apply elem_of_nil in Hn; contradiction);
    repeat (apply elem_of_cons in H' as [[= -> ->]|H']);
    try (apply elem_of_nil in H'; contradiction);
    try reflexivity;
    exfalso; revert Hn'; clear; not_in_names.
Qed.

(** ** The rows of the report *)

Lemma score_metrics_elem cfg r mp sp metrics scored m t :
  score_metrics cfg r mp sp metrics = Ok scored ->
  (m, t) ∈ scored ->
  m ∈ metrics /\ 0 < fst t
  /\ exists t0, score_metric cfg r (mp m) (sp m) m = Ok t0
                /\ t = (fst t0, dedup_strings (snd t0)).
Proof.
  revert scored. induction metrics as [|m0 ms IH]; intros scored; cbn.
  - intros [= <-] H. apply elem_of_nil in H. contradiction.
  - intros H Hin. bind_inv H. bind_inv H. injection H as <-.
    destruct (0 <? fst a) eqn:E.
    + apply elem_of_cons in Hin as [[= -> ->]|Hin].
      * apply Z.ltb_lt in E. split; [apply list_elem_of_here|].
        split; [exact E|]. eauto.
      * destruct (IH _ Ha0 Hin) as (H1 & H2 & H3).
        split; [apply list_elem_of_further; exact H1 | auto].
    + destruct (IH _ Ha0 Hin) as (H1 & H2 & H3).
      split; [apply list_elem_of_further; exact H1 | auto].
Qed.

Lemma score_metrics_length cfg r mp sp metrics scored :
  score_metrics cfg r mp sp metrics = Ok scored ->
  (length scored <= length metrics)%nat.
Proof.
  revert scored. induction metrics as [|m0 ms IH]; intros scored; cbn.
  - intros [= <-]. reflexivity.
  - intros H. bind_inv H. bind_inv H. injection H as <-.
    apply IH in Ha0. destruct (0 <? fst a); cbn; lia.
Qed.

(** What a row of the report holds, read off the loop body. *)
Lemma account_row_Some cfg metrics mp sp r o :
  account_row cfg metrics mp sp r = Ok (Some o) ->
  exists scored,
    score_metrics cfg r mp sp metrics = Ok scored
    /\ scored <> []
    /\ assign_tier (tiers cfg) (total_score scored) (max_mean_pct mp scored)
       = Some (Tier o)
    /\ Score o = total_score scored
    /\ Dominant_Metric o = dominant scored
    /\ Key_Metrics_Triggered o
       = Str.join ", " (take 6 (ordered_triggers (uniq_triggers scored)))
    /\ Account_Code o = get_or (PStr "") r "Account Code"
    /\ Account_Name o = get_or (PStr "") r "Account Name"
    /\ (Tiering.require_any_of_triggers (tiers cfg) = []
        \/ exists t, t ∈ Tiering.require_any_of_triggers (tiers cfg)
                     /\ t ∈ uniq_triggers scored).
Proof.
  unfold account_row. intros H. bind_inv H. exists a.
  split; [exact Ha|]. destruct a as [|x a]; [discriminate|].
  split; [discriminate|]. cbv zeta in H.
  match type of H with
  | (if ?b then _ else _) = _ => destruct b; [discriminate|]
  end.
  destruct (negb (bool_decide (Tiering.require_any_of_triggers (tiers cfg) = []))
            && negb (existsb (fun t => Str.mem t (uniq_triggers (x :: a)))
                             (Tiering.require_any_of_triggers (tiers cfg))))
    eqn:G; [discriminate|].
  destruct (assign_tier (tiers cfg) (total_score (x :: a))
              (max_mean_pct mp (x :: a))) as [tier|] eqn:T; [|discriminate].
  apply bind_Ok in H as (text & _ & H). injection H as <-.
  cbn [Tier Score Dominant_Metric Key_Metrics_Triggered Account_Code
       Account_Name].
  repeat (split; [reflexivity|]).
  apply andb_false_iff in G as [G|G].
  - left. apply negb_false_iff, bool_decide_eq_true in G. exact G.
  - right. apply negb_false_iff, existsb_exists in G as (t & Ht & Hm).
    exists t. split; [apply list_elem_of_In; exact Ht|].
    unfold Str.mem in Hm. apply existsb_exists in Hm as (y & Hy & E).
    apply String.eqb_eq in E as ->. apply list_elem_of_In. exact Hy.
Qed.

Lemma sum_scores_positive (scored : list (string * tally)) :
  (forall x, x ∈ scored -> 0 < fst (snd x)) ->
  scored <> [] -> 0 < sum_scores scored.
Proof.
  induction scored as [|x l IH]; [congruence|]. intros H _.
  change (0 < fst (snd x) + sum_scores l).
  assert (0 < fst (snd x)) by (apply H, list_elem_of_here).
  destruct l as [|y l]; [change (sum_scores []) with 0; lia|].
  assert (0 < sum_scores (y :: l)); [|lia].
  apply IH; [|discriminate]. intros z Hz. apply H, list_elem_of_further, Hz.
Qed.

Lemma total_score_ge_sum (scored : list (string * tally)) :
  sum_scores scored <= total_score scored.
Proof.
  unfold total_score.
  destruct (2 <=? _), (3 <=? _); lia.
Qed.

Lemma fold_left_greatest (l : list (string * tally)) (acc : string * tally)
    (pick : string * tally -> string * tally -> string * tally) :
  (forall a y, pick a y = if fst (snd a) <? fst (snd y) then y else a) ->
  (fold_left pick l acc = acc \/ fold_left pick l acc ∈ l)
  /\ fst (snd acc) <= fst (snd (fold_left pick l acc))
  /\ forall y, y ∈ l -> fst (snd y) <= fst (snd (fold_left pick l acc)).
Proof.
  intros Hp. revert acc. induction l as [|y l IH]; intros acc; cbn [fold_left].
  - split; [auto|]. split; [apply Z.le_refl|]. intros y H.
    apply elem_of_nil in H. contradiction.
  - destruct (IH (pick acc y)) as (I1 & I2 & I3).
    generalize dependent (fold_left pick l (pick acc y)). intros b I1 I2 I3.
    rewrite Hp in I1, I2.
    destruct (fst (snd acc) <? fst (snd y)) eqn:E.
    + apply Z.ltb_lt in E. split.
      * right. destruct I1 as [-> | I1];
          [apply list_elem_of_here | apply list_elem_of_further, I1].
      * split; [exact (Z.le_trans _ _ _ (Z.lt_le_incl _ _ E) I2)|].
        intros z Hz.
        apply elem_of_cons in Hz as [->|Hz]; [exact I2 | auto].
    + apply Z.ltb_ge in E. split.
      * destruct I1 as [I1 | I1];
          [left; exact I1 | right; apply list_elem_of_further, I1].
      * split; [exact I2|]. intros z Hz.
        apply elem_of_cons in Hz as [->|Hz]; [|auto].
        exact (Z.le_trans _ _ _ E I2).
Qed.

Lemma dominant_greatest (scored : list (string * tally)) :
  scored <> [] ->
  exists t, (dominant scored, t) ∈ scored
            /\ forall x, x ∈ scored -> fst (snd x) <= fst t.
Proof.
  destruct scored as [|x l]; [congruence|]. intros _.
  set (f := fun acc y : string * tally =>
              if fst (snd acc) <? fst (snd y) then y else acc).
  change (dominant (x :: l)) with (fst (fold_left f l x)).
  destruct (fold_left_greatest l x f (fun a y => eq_refl)) as (G1 & G2 & G3).
  revert G1 G2 G3. generalize (fold_left f l x).
  intros b G1 G2 G3.
  assert (Hb : b ∈ x :: l).
  { destruct G1 as [G1 | G1];
      [rewrite G1; apply list_elem_of_here | apply list_elem_of_further, G1]. }
  exists (snd b). split.
  - destruct b as [bm bt]. exact Hb.
  - intros y Hy. apply elem_of_cons in Hy as [->|Hy]; [exact G2 | auto].
Qed.

Lemma assign_tier_Some (t : Tiering.t) (total : Z) (mmp : float)
    (tier : string) :
  assign_tier t total mmp = Some tier ->
  (tier = "Tier-1" /\ Tiering.tier1_min_score t <= total)
  \/ (tier = "Tier-2" /\ Tiering.tier2_min_score t <= total)
  \/ (tier = "Tier-3" /\ Tiering.tier3_min_score t <= total
      /\ total < Tiering.tier2_min_score t
      /\ Tiering.include_tier3 t = true).
Proof.
  unfold assign_tier.
  destruct ((Tiering.tier1_min_score t <=? total) && _) eqn:E1.
  - intros [= <-]. left. apply andb_true_iff in E1 as [E1 _].
    apply Z.leb_le in E1. auto.
  - destruct (Tiering.tier2_min_score t <=? total) eqn:E2.
    + intros [= <-]. right. left. apply Z.leb_le in E2. auto.
    + destruct ((Tiering.tier3_min_score t <=? total)
                && Tiering.include_tier3 t) eqn:E3; [|discriminate].
      intros [= <-]. right. right.
      apply andb_true_iff in E3 as [E3 E4].
      apply Z.leb_le in E3. apply Z.leb_gt in E2. auto.
Qed.

Lemma collect_elem (g : row -> result (option report_row)) (l : list row)
    (kept : list report_row) (o : report_row) :
  collect g l = Ok kept -> o ∈ kept ->
  exists r, r ∈ l /\ g r = Ok (Some o).
Proof.
  revert kept. induction l as [|r l IH]; intros kept; cbn [collect].
  - intros [= <-] H. apply elem_of_nil in H. contradiction.
  - intros H Hin. bind_inv H. bind_inv H. injection H as <-.
    destruct a as [x|].
    + apply elem_of_cons in Hin as [->|Hin].
      * exists r. split; [apply list_elem_of_here | exact Ha].
      * destruct (IH _ Ha0 Hin) as (r' & Hr' & E).
        exists r'. split; [apply list_elem_of_further, Hr' | exact E].
    + destruct (IH _ Ha0 Hin) as (r' & Hr' & E).
      exists r'. split; [apply list_elem_of_further, Hr' | exact E].
Qed.

Lemma collect_length (g : row -> result (option report_row)) (l : list row)
    (kept : list report_row) :
  collect g l = Ok kept -> (length kept <= length l)%nat.
Proof.
  revert kept. induction l as [|r l IH]; intros kept; cbn [collect].
  - intros [= <-]. reflexivity.
  - intros H. bind_inv H. bind_inv H. injection H as <-.
    apply IH in Ha0. destruct a; cbn; lia.
Qed.

(** A row of the capped report is a row that the loop kept, or a Tier-1
    row that the loop kept, moved to Tier-2. *)
Lemma finish_origin (k : Z) (kept : list report_row) (o : report_row) :
  o ∈ finish k kept ->
  o ∈ kept
  \/ exists c, c ∈ kept /\ tier1 c = true /\ o = set_tier "Tier-2" c.
Proof.
  intros H.
  apply (elem_of_Permutation_proper o _ _ (finish_split k kept)) in H.
  cbv zeta in H.
  assert (C : forall x, x ∈ candidates kept -> x ∈ kept).
  { intros x Hx.
    apply (elem_of_Permutation_proper x _ _ (candidates_others kept)).
    apply elem_of_app. left. exact Hx. }
  apply elem_of_app in H as [H|H].
  - left. apply C. eapply elem_of_take_elem. exact H.
  - apply elem_of_app in H as [H|H].
    + right. apply list_elem_of_fmap in H as (c & -> & Hc).
      apply elem_of_drop_elem in Hc.
      exists c. split; [apply C, Hc|]. split; [|reflexivity].
      eapply candidates_tier1. exact Hc.
    + left.
      apply (elem_of_Permutation_proper o _ _ (candidates_others kept)).
      apply elem_of_app. right. exact H.
Qed.

Lemma finish_length (k : Z) (kept : list report_row) :
  length (finish k kept) = length kept.
Proof.
  rewrite (Permutation_length (finish_split k kept)). cbv zeta.
  rewrite (Permutation_length (candidates_others kept)).
  rewrite !length_app, length_map.
  rewrite <- (take_drop (Z.to_nat (cap_count k (tier1_count kept)))
                        (candidates kept)) at 3.
  rewrite length_app. lia.
Qed.

(** Where a row of the report comes from. *)
Lemma report_row_origin (df : DataFrame) (cfg : DeviationConfig)
    (out : list report_row) (o : report_row) :
  build_deviation_report df (Some cfg) = Ok out ->
  o ∈ out ->
  exists r o',
    r ∈ rows df
    /\ account_of df cfg r = Ok (Some o')
    /\ (o = o' \/ (tier1 o' = true /\ o = set_tier "Tier-2" o')).
Proof.
  intros H Hin. apply build_collect in H as (_ & _ & kept & Hk & ->).
  apply finish_origin in Hin as [Hin | (c & Hc & T & ->)].
  - destruct (collect_elem _ _ _ _ Hk Hin) as (r & Hr & E).
    exists r, o. auto.
  - destruct (collect_elem _ _ _ _ Hk Hc) as (r & Hr & E).
    exists r, c. auto.
Qed.

(** X9.  What every report holds, whatever the batch and the
    configuration.  The report has at most one row for each account of the
    batch, with the code and the name of that account.  The score of a row
    is at least 1.  A Tier-1 row scores at least [tier1_min_score]; a
    Tier-2 row scores at least [tier2_min_score], or is a row that the cap
    moved out of Tier-1 and so scores at least [tier1_min_score]; a Tier-3 row
    appears only with [include_tier3] set, and scores at least
    [tier3_min_score] and less than [tier2_min_score]; there is no other
    tier.  The dominant metric is one of the metrics detected, and no
    metric of the account scores more. *)
Theorem report_rows_invariants (df : DataFrame) (cfg : DeviationConfig)
    (out : list report_row) :
  build_deviation_report df (Some cfg) = Ok out ->
  (length out <= length (rows df))%nat
  /\ forall o, o ∈ out ->
       1 <= Score o
       /\ ((Tier o = "Tier-1"
            /\ Tiering.tier1_min_score (tiers cfg) <= Score o)
           \/ (Tier o = "Tier-2"
               /\ (Tiering.tier2_min_score (tiers cfg) <= Score o
                   \/ Tiering.tier1_min_score (tiers cfg) <= Score o))
           \/ (Tier o = "Tier-3"
               /\ Tiering.include_tier3 (tiers cfg) = true
               /\ Tiering.tier3_min_score (tiers cfg) <= Score o
               /\ Score o < Tiering.tier2_min_score (tiers cfg)))
       /\ Dominant_Metric o ∈ detect_metrics (columns df)
       /\ exists r mean_pct std_pct scored t,
            r ∈ rows df
            /\ Account_Code o = get_or (PStr "") r "Account Code"
            /\ Account_Name o = get_or (PStr "") r "Account Name"
            /\ score_metrics cfg r mean_pct std_pct
                 (detect_metrics (columns df)) = Ok scored
            /\ Score o = total_score scored
            /\ (Dominant_Metric o, t) ∈ scored
            /\ forall x, x ∈ scored -> fst (snd x) <= fst t.
Proof.
  intros H. split.
  - pose proof H as H'. apply build_collect in H' as (_ & _ & kept & Hk & ->).
    rewrite finish_length. eapply collect_length. exact Hk.
  - intros o Hin.
    destruct (report_row_origin df cfg out o H Hin) as (r & o' & Hr & Ho' & Ho).
    unfold account_of in Ho'.
    apply account_row_Some in Ho'
      as (scored & Hs & Hne & Ht & Hscore & Hdom & _ & Hcode & Hname & _).
    destruct (dominant_greatest scored Hne) as (t & Hd & Hmax).
    assert (Hpos : 1 <= Score o').
    { rewrite Hscore.
      pose proof (total_score_ge_sum scored).
      assert (0 < sum_scores scored); [|lia].
      apply sum_scores_positive; [|exact Hne].
      intros [m tm] Hx. apply (score_metrics_elem _ _ _ _ _ _ _ _ Hs Hx). }
    assert (Hdm : Dominant_Metric o' ∈ detect_metrics (columns df)).
    { rewrite Hdom. apply (score_metrics_elem _ _ _ _ _ _ _ _ Hs Hd). }
    apply assign_tier_Some in Ht. rewrite <- Hscore in Ht.
    assert (Same : Score o = Score o' /\ Dominant_Metric o = Dominant_Metric o'
                   /\ Account_Code o = Account_Code o'
                   /\ Account_Name o = Account_Name o').
    { destruct Ho as [-> | [_ ->]]; repeat split; reflexivity. }
    destruct Same as (S1 & S2 & S3 & S4). rewrite S1, S2, S3, S4.
    split; [exact Hpos|]. split.
    + destruct Ho as [-> | [T ->]].
      * destruct Ht as [[T1 L]|[[T2 L]|(T3 & L1 & L2 & I)]]; auto 10.
      * right. left. split; [reflexivity|]. right.
        destruct Ht as [[T1 L]|[[T2 L]|(T3 & L1 & L2 & I)]]; [exact L | | ];
          unfold tier1 in T; rewrite ?T2, ?T3 in T; discriminate.
    + split; [exact Hdm|].
      eexists r, _, _, scored, t.
      split; [exact Hr|]. split; [exact Hcode|]. split; [exact Hname|].
      split; [exact Hs|]. split; [exact Hscore|].
      split; [rewrite Hdom; exact Hd | exact Hmax].
Qed.

Lemma report_rows_invariants_witness :
  1 <= Score (sample_row "Tier-1" "4000").
Proof.
  refine (proj1 (proj2 (report_rows_invariants sample_batch default_config
                          [sample_row "Tier-1" "4000";
                           sample_row "Tier-1" "4200"] _) _ _)).
  - vm_compute. reflexivity.
  - apply list_elem_of_here.
Defined.

Lemma switch_triggers_names (k : string) (names : list string) :
  (k, names) ∈ switch_triggers -> k ∈ check_names.
Proof.
  unfold switch_triggers, check_names. intros H.
  repeat (apply elem_of_cons in H as [[= -> ->]|H];
          [repeat first [apply list_elem_of_here | apply list_elem_of_further]|]).
  apply elem_of_nil in H. contradiction.
Qed.

Lemma all_off_score_metric cfg r mp sp m t :
  (forall k, k ∈ check_names -> enabled_checks cfg !! k = Some false) ->
  score_metric cfg r mp sp m = Ok t -> t = (0, []).
Proof.
  intros Off H.
  pose proof (score_metric_triggers_enabled _ _ _ _ _ _ H) as T.
  pose proof (score_metric_scored _ _ _ _ _ _ H) as S.
  destruct t as [n l]. cbn in *.
  destruct l as [|name l].
  - rewrite S by reflexivity. reflexivity.
  - destruct (T name) as (k & names & Hk & _ & E); [apply list_elem_of_here|].
    apply switch_triggers_names in Hk. rewrite (Off k Hk) in E. discriminate.
Qed.

(** X10.  The switches of [enabled_checks] do what they say.  In the tally
    of a metric every trigger is one that a switch that is on governs, and
    a switch that is off keeps its triggers out, whatever the numbers.
    With the ten switches off no account is reported. *)
Theorem disabled_checks_never_fire (cfg : DeviationConfig) :
  (forall r mp sp m t,
     score_metric cfg r mp sp m = Ok t ->
     triggers_enabled cfg t
     /\ forall k names name,
          (k, names) ∈ switch_triggers ->
          enabled_checks cfg !! k = Some false ->
          name ∈ names -> name ∉ snd t)
  /\ ((forall k, k ∈ check_names -> enabled_checks cfg !! k = Some false) ->
      forall df out,
        build_deviation_report df (Some cfg) = Ok out -> out = []).
Proof.
  split.
  - intros r mp sp m t H.
    pose proof (score_metric_triggers_enabled _ _ _ _ _ _ H) as T.
    split; [exact T|]. intros k names name Hk Off Hn Hin.
    destruct (T name Hin) as (k' & names' & Hk' & Hn' & On).
    rewrite (switch_triggers_disjoint k k' name names names' Hk Hk' Hn Hn')
      in Off.
    congruence.
  - intros Off df out H.
    destruct out as [|o out]; [reflexivity|]. exfalso.
    destruct (report_row_origin df cfg _ o H (list_elem_of_here _ _))
      as (r & o' & _ & Ho' & _).
    unfold account_of in Ho'.
    apply account_row_Some in Ho' as (scored & Hs & Hne & _).
    destruct scored as [|[m t] scored]; [congruence|].
    destruct (score_metrics_elem _ _ _ _ _ _ m t Hs (list_elem_of_here _ _))
      as (_ & Hpos & t0 & Ht0 & ->).
    apply (all_off_score_metric _ _ _ _ _ _ Off) in Ht0 as ->.
    cbn in Hpos. lia.
Qed.

Example all_off_report :
  build_deviation_report sample_batch (Some all_off_config) = Ok [].
Proof. vm_compute. reflexivity. Qed.

(** ** The triggers of a row *)

Lemma filter_all {A : Type} (P : A -> Prop) `{forall x, Decision (P x)}
    (l : list A) :
  (forall x, x ∈ l -> P x) -> filter P l = l.
Proof.
  induction l as [|x l IH]; intros K; [reflexivity|].
  rewrite filter_cons, decide_True by (apply K, list_elem_of_here).
  f_equal. apply IH. intros y Hy. apply K, list_elem_of_further, Hy.
Qed.

Lemma filter_none {A : Type} (P : A -> Prop) `{forall x, Decision (P x)}
    (l : list A) :
  (forall x, x ∈ l -> ~ P x) -> filter P l = [].
Proof.
  induction l as [|x l IH]; intros K; [reflexivity|].
  rewrite filter_cons, decide_False by (apply K, list_elem_of_here).
  apply IH. intros y Hy. apply K, list_elem_of_further, Hy.
Qed.

Lemma dedup_strings_filter (P : string -> bool) (l : list string) :
  dedup_strings (filter P l) = filter P (dedup_strings l).
Proof.
  induction l as [|x l IH]; [reflexivity|].
  rewrite filter_cons. destruct (decide (P x)) as [Hx|Hx].
  - cbn [dedup_strings]. rewrite filter_cons, decide_True by exact Hx.
    rewrite IH. f_equal.
    rewrite !list_filter_filter. apply list_filter_iff. intros y. tauto.
  - cbn [dedup_strings]. rewrite filter_cons, decide_False by exact Hx.
    rewrite IH, list_filter_filter. apply list_filter_iff. intros y.
    split; [|tauto]. intros Hy. split; [exact Hy|].
    destruct (String.eqb_spec x y) as [->|_]; [contradiction | exact I].
Qed.

Lemma dedup_strings_NoDup (l : list string) : NoDup l -> dedup_strings l = l.
Proof.
  induction l as [|x l IH]; [reflexivity|]. intros ND.
  apply NoDup_cons in ND as [Hx ND]. cbn. rewrite (IH ND). f_equal.
  apply filter_all. intros y Hy.
  destruct (String.eqb_spec x y) as [->|_]; [contradiction | exact I].
Qed.

Lemma dedup_strings_app (a b : list string) :
  dedup_strings (a ++ b)
  = dedup_strings a ++ filter (fun y => negb (Str.mem y a)) (dedup_strings b).
Proof.
  induction a as [|x a IH].
  - cbn. symmetry. apply filter_all. intros y _. exact I.
  - cbn [app dedup_strings]. rewrite IH, filter_app. cbn [app]. f_equal.
    f_equal. rewrite list_filter_filter. apply list_filter_iff. intros y.
    unfold Str.mem. cbn [existsb].
    rewrite (String.eqb_sym y x).
    destruct (String.eqb x y), (existsb (String.eqb y) a); cbn; tauto.
Qed.

Lemma mem_elem_of (x : string) (l : list string) :
  Str.mem x l = true <-> x ∈ l.
Proof.
  unfold Str.mem. rewrite existsb_exists. split.
  - intros (y & Hy & E). apply String.eqb_eq in E as ->.
    apply list_elem_of_In. exact Hy.
  - intros H. exists x. split; [apply list_elem_of_In, H|].
    apply String.eqb_refl.
Qed.

(** When every trigger is one of the priority list, the display order is
    the priority list cut down to the triggers. *)
Lemma ordered_triggers_priority (uniq : list string) :
  (forall t, t ∈ uniq -> t ∈ priority) ->
  ordered_triggers uniq = filter (fun p => Str.mem p uniq) priority.
Proof.
  intros H. unfold ordered_triggers. rewrite dedup_strings_app.
  rewrite dedup_strings_filter.
  rewrite (dedup_strings_NoDup priority)
    by (unfold priority; repeat (constructor; [not_in_names|]); constructor).
  rewrite <- (app_nil_r (filter _ priority)) at 2. f_equal.
  apply filter_none. intros y Hy Hn.
  rewrite elem_of_dedup_strings in Hy.
  apply Is_true_true, negb_true_iff in Hn.
  assert (M : Str.mem y (filter (fun p => Str.mem p uniq) priority) = true);
    [|congruence].
  apply mem_elem_of, list_elem_of_filter. split; [|apply H, Hy].
  apply Is_true_true, mem_elem_of, Hy.
Qed.

Lemma elem_of_uniq_triggers (scored : list (string * tally)) (name : string) :
  name ∈ uniq_triggers scored
  <-> exists x, x ∈ scored /\ name ∈ snd (snd x).
Proof.
  unfold uniq_triggers. rewrite elem_of_dedup_strings.
  rewrite list_elem_of_In, in_concat. split.
  - intros (l & Hl & Hn). apply in_map_iff in Hl as (x & <- & Hx).
    exists x. split; apply list_elem_of_In; assumption.
  - intros (x & Hx & Hn). exists (snd (snd x)).
    split; [|apply list_elem_of_In, Hn].
    apply in_map_iff. exists x. split; [reflexivity|].
    apply list_elem_of_In, Hx.
Qed.

Lemma switch_triggers_priority (k name : string) (names : list string) :
  (k, names) ∈ switch_triggers -> name ∈ names -> name ∈ priority.
Proof.
  unfold switch_triggers, priority. intros H Hn.
  repeat (apply elem_of_cons in H as [[= -> ->]|H]);
    try (apply elem_of_nil in H; contradiction);
    repeat (apply elem_of_cons in Hn as [->|Hn]);
    try (apply elem_of_nil in Hn; contradiction);
    repeat first [apply list_elem_of_here | apply list_elem_of_further].
Qed.

(** The triggers of the metrics that scored are triggers of switches that
    are on, and there is one at least. *)
Lemma scored_triggers cfg r mp sp metrics scored :
  score_metrics cfg r mp sp metrics = Ok scored ->
  (forall name, name ∈ uniq_triggers scored ->
     exists k names, (k, names) ∈ switch_triggers /\ name ∈ names
                     /\ enabled_checks cfg !! k = Some true)
  /\ (scored <> [] -> uniq_triggers scored <> []).
Proof.
  intros Hs. split.
  - intros name Hn.
    apply elem_of_uniq_triggers in Hn as ([m t] & Hx & Hn).
    destruct (score_metrics_elem _ _ _ _ _ _ _ _ Hs Hx)
      as (_ & _ & t0 & Ht0 & ->).
    cbn in Hn. rewrite elem_of_dedup_strings in Hn.
    apply (score_metric_triggers_enabled _ _ _ _ _ _ Ht0). exact Hn.
  - intros Hne E. destruct scored as [|[m t] scored]; [congruence|].
    destruct (score_metrics_elem _ _ _ _ _ _ m t Hs (list_elem_of_here _ _))
      as (_ & Hpos & t0 & Ht0 & ->).
    cbn in Hpos.
    assert (K : forall name, name ∈ snd t0 -> False).
    { intros name Hn0. apply (proj1 (elem_of_nil name)). rewrite <- E.
      apply elem_of_uniq_triggers. eexists. split; [apply list_elem_of_here|].
      cbn. rewrite elem_of_dedup_strings. exact Hn0. }
    destruct (snd t0) as [|name l] eqn:E0.
    + rewrite (score_metric_scored _ _ _ _ _ _ Ht0 E0) in Hpos. lia.
    + apply (K name). apply list_elem_of_here.
Qed.

Lemma score_metrics_scored cfg r mp sp metrics scored m t :
  score_metrics cfg r mp sp metrics = Ok scored ->
  m ∈ metrics ->
  score_metric cfg r (mp m) (sp m) m = Ok t ->
  0 < fst t ->
  (m, (fst t, dedup_strings (snd t))) ∈ scored.
Proof.
  revert scored. induction metrics as [|m0 ms IH]; intros scored; cbn.
  - intros _ H. apply elem_of_nil in H. contradiction.
  - intros H Hin Ht Hpos. bind_inv H. bind_inv H. injection H as <-.
    apply elem_of_cons in Hin as [->|Hin].
    + rewrite Ht in Ha. injection Ha as <-.
      apply Z.ltb_lt in Hpos. rewrite Hpos. apply list_elem_of_here.
    + specialize (IH _ Ha0 Hin Ht Hpos).
      destruct (0 <? fst a); [apply list_elem_of_further|]; exact IH.
Qed.

(** X11.  The column [Key Metrics Triggered] of a row of the report holds
    the triggers that fired for its account: the triggers in the tally of
    a detected metric that scored above zero on the row of the account,
    with the percentile ranks of that row.  The cell names the first six
    of them, separated by a comma and a space, in the order of the priority
    list and without repeats, and there is one at least.  Each of them
    belongs to a check that is switched on, and when
    [require_any_of_triggers] is not empty one of the triggers that fired
    is among the required ones. *)
Theorem key_metrics_triggered (df : DataFrame) (cfg : DeviationConfig)
    (out : list report_row) :
  build_deviation_report df (Some cfg) = Ok out ->
  forall o, o ∈ out ->
    exists r fired,
      r ∈ rows df
      /\ Account_Code o = get_or (PStr "") r "Account Code"
      /\ Account_Name o = get_or (PStr "") r "Account Name"
      /\ (forall name,
            name ∈ fired
            <-> exists m t,
                  m ∈ detect_metrics (columns df)
                  /\ score_metric cfg r
                       (row_pct_at df (detect_metrics (columns df))
                                   "CY_Mean" r m)
                       (row_pct_at df (detect_metrics (columns df))
                                   "CY_Std" r m) m = Ok t
                  /\ 0 < fst t
                  /\ name ∈ snd t)
      /\ NoDup fired
      /\ fired `sublist_of` priority
      /\ Key_Metrics_Triggered o = Str.join ", " (take 6 fired)
      /\ fired <> []
      /\ (forall name, name ∈ fired ->
            exists k names, (k, names) ∈ switch_triggers /\ name ∈ names
                            /\ enabled_checks cfg !! k = Some true)
      /\ (Tiering.require_any_of_triggers (tiers cfg) = []
          \/ exists t, t ∈ Tiering.require_any_of_triggers (tiers cfg)
                       /\ t ∈ fired).
Proof.
  intros H o Hin.
  destruct (report_row_origin df cfg out o H Hin) as (r & o' & Hr & Ho' & Ho).
  unfold account_of in Ho'.
  apply account_row_Some in Ho'
    as (scored & Hs & Hne & _ & _ & _ & Hk & Hc & Hn & Hreq).
  destruct (scored_triggers _ _ _ _ _ _ Hs) as [Hen Hnn].
  assert (Hp : forall t, t ∈ uniq_triggers scored -> t ∈ priority).
  { intros t Ht. destruct (Hen t Ht) as (k & names & Hk' & Hn' & _).
    eapply switch_triggers_priority; eassumption. }
  rewrite (ordered_triggers_priority _ Hp) in Hk.
  assert (Hf : forall t, t ∈ filter (fun p => Str.mem p (uniq_triggers scored))
                               priority
                 <-> t ∈ uniq_triggers scored).
  { intros t. rewrite list_elem_of_filter. split.
    - intros [Hm _]. apply mem_elem_of, Is_true_true, Hm.
    - intros Ht. split; [apply Is_true_true, mem_elem_of, Ht | apply Hp, Ht]. }
  exists r, (filter (fun p => Str.mem p (uniq_triggers scored)) priority).
  split; [exact Hr|].
  split; [destruct Ho as [-> | [_ ->]]; exact Hc|].
  split; [destruct Ho as [-> | [_ ->]]; exact Hn|].
  split.
  { intros name. rewrite Hf, elem_of_uniq_triggers. split.
    - intros ([m t] & Hx & Hname).
      destruct (score_metrics_elem _ _ _ _ _ _ _ _ Hs Hx)
        as (Hm & Hpos & t0 & Ht0 & ->).
      cbn in Hname, Hpos. rewrite elem_of_dedup_strings in Hname.
      exists m, t0. auto.
    - intros (m & t & Hm & Ht & Hpos & Hname).
      exists (m, (fst t, dedup_strings (snd t))).
      split; [exact (score_metrics_scored _ _ _ _ _ _ _ _ Hs Hm Ht Hpos)|].
      cbn. rewrite elem_of_dedup_strings. exact Hname. }
  split.
  { apply NoDup_filter. unfold priority.
    repeat (constructor; [not_in_names|]). constructor. }
  split; [apply sublist_filter|].
  split; [destruct Ho as [-> | [_ ->]]; exact Hk|].
  split.
  { intros E. specialize (Hnn Hne).
    destruct (uniq_triggers scored) as [|t l] eqn:U; [congruence|].
    assert (Ht : t ∈ filter (fun p => Str.mem p (t :: l)) priority)
      by (apply Hf, list_elem_of_here).
    rewrite E in Ht. apply elem_of_nil in Ht. exact Ht. }
  split; [intros name Hname; apply Hen, Hf, Hname|].
  destruct Hreq as [E | (t & Ht & Hu)]; [left; exact E | right].
  exists t. split; [exact Ht | apply Hf, Hu].
Qed.

Lemma key_metrics_triggered_witness :
  exists fired,
    Key_Metrics_Triggered (sample_row "Tier-1" "4000")
    = Str.join ", " (take 6 fired)
    /\ fired <> [].
Proof.
  destruct (key_metrics_triggered sample_batch default_config
              [sample_row "Tier-1" "4000"; sample_row "Tier-1" "4200"])
    with (o := sample_row "Tier-1" "4000")
    as (r & fired & _ & _ & _ & _ & _ & _ & H1 & H2 & _).
  - vm_compute. reflexivity.
  - apply list_elem_of_here.
  - exists fired. split; assumption.
Defined.

(** ** Interpretation *)

Example bucketize_examples :
  bucketize "Sales Tax" = "revenue"
  /\ bucketize "GST Payable" = "clearing"
  /\ bucketize "ANZ BANK Account" = "cash"
  /\ bucketize "Motor Vehicle Expenses" = "general"
  /\ bucketize "" = "general".
Proof. vm_compute. repeat split. Qed.

Lemma lower_char_idem (c : ascii) :
  Str.lower_char (Str.lower_char c) = Str.lower_char c.
Proof. destruct c as [[] [] [] [] [] [] [] []]; reflexivity. Qed.

Lemma lower_idem (s : string) : Str.lower (Str.lower s) = Str.lower s.
Proof.
  unfold Str.lower, Str.chars, Str.of_chars.
  rewrite list_ascii_of_string_of_list_ascii, map_map.
  f_equal. apply map_ext. intros c. apply lower_char_idem.
Qed.

Lemma bucketize_bucket (account_name : string) :
  bucketize account_name ∈ bucket_names.
Proof.
  unfold bucketize, bucket_names. cbv zeta.
  repeat match goal with
         | |- context [if ?b then _ else _] => destruct b
         end;
    repeat first [apply list_elem_of_here | apply list_elem_of_further].
Qed.

(** X12.  [bucketize] returns one of seven bucket names, each of which has
    a text in the default language; the bucket depends on the name up to
    the case of its letters only; and it is ["general"] exactly when none
    of the keywords occurs in the name in lower case. *)
Theorem bucketize_spec (account_name : string) :
  bucketize account_name ∈ bucket_names
  /\ is_Some (Language.bucket_finish Language.default
              !! bucketize account_name)
  /\ bucketize (Str.lower account_name) = bucketize account_name
  /\ (forall other, Str.lower other = Str.lower account_name ->
        bucketize other = bucketize account_name)
  /\ (bucketize account_name = "general"
      <-> any_in ["sales"; "revenue"; "income"; "bank"; "merchant"; "eftpos";
                  "stripe"; "fees"; "interest"; "insurance"; "subscription";
                  "subscriptions"; "prepaid"; "licence"; "license"; "annual";
                  "payable"; "receivable"; "deposit"; "clearing"; "suspense";
                  "control"; "intercompany"; "loan"; "hire purchase"; "hp";
                  "gst"; "vat"; "tax"; "rwt"; "rounding"; "round off";
                  "round-off"] (Str.lower account_name) = false).
Proof.
  pose proof (bucketize_bucket account_name) as B.
  split; [exact B|]. split.
  { unfold bucket_names in B.
    repeat (apply elem_of_cons in B as [-> | B]; [vm_compute; eauto|]).
    apply elem_of_nil in B. contradiction. }
  split; [unfold bucketize; rewrite lower_idem; reflexivity|].
  split; [intros other E; unfold bucketize; rewrite E; reflexivity|].
  unfold bucketize. cbv zeta. set (n := Str.lower account_name).
  change (any_in _ n)
    with (any_in (["sales"; "revenue"; "income"]
                  ++ ["bank"; "merchant"; "eftpos"; "stripe"; "fees";
                      "interest"]
                  ++ ["insurance"; "subscription"; "subscriptions"; "prepaid";
                      "licence"; "license"; "annual"]
                  ++ ["payable"; "receivable"; "deposit"; "clearing";
                      "suspense"; "control"; "intercompany"; "loan";
                      "hire purchase"; "hp"]
                  ++ ["gst"; "vat"; "tax"; "rwt"]
                  ++ ["rounding"; "round off"; "round-off"]) n) at 7.
  unfold any_in at 7. rewrite !existsb_app.
  fold (any_in ["sales"; "revenue"; "income"] n).
  fold (any_in ["bank"; "merchant"; "eftpos"; "stripe"; "fees"; "interest"] n).
  fold (any_in ["insurance"; "subscription"; "subscriptions"; "prepaid";
                "licence"; "license"; "annual"] n).
  fold (any_in ["payable"; "receivable"; "deposit"; "clearing"; "suspense";
                "control"; "intercompany"; "loan"; "hire purchase"; "hp"] n).
  fold (any_in ["gst"; "vat"; "tax"; "rwt"] n).
  fold (any_in ["rounding"; "round off"; "round-off"] n).
  destruct (any_in ["sales"; "revenue"; "income"] n);
    [split; discriminate|].
  destruct (any_in ["bank"; "merchant"; "eftpos"; "stripe"; "fees";
                    "interest"] n); [split; discriminate|].
  destruct (any_in ["insurance"; "subscription"; "subscriptions"; "prepaid";
                    "licence"; "license"; "annual"] n);
    [split; discriminate|].
  destruct (any_in ["payable"; "receivable"; "deposit"; "clearing";
                    "suspense"; "control"; "intercompany"; "loan";
                    "hire purchase"; "hp"] n); [split; discriminate|].
  destruct (any_in ["gst"; "vat"; "tax"; "rwt"] n); [split; discriminate|].
  destruct (any_in ["rounding"; "round off"; "round-off"] n);
    [split; discriminate|].
  split; reflexivity.
Qed.

Example interpret_example :
  interpret "Sales - Online" "Credit" ["Mean Shift"; "Moderate CV"]
            Language.default
  = Ok ("Credit postings: average level moved materially. "
        +:+ "Check cut-off, pricing/mix changes, and recognition timing.").
Proof. vm_compute. reflexivity. Qed.

(** X13.  [interpret] needs the text of the bucket ["general"] even for an
    account of another bucket that has its text: without it the call
    raises [KeyError], with it the call returns the subject, the words for
    the triggers and the text of the bucket of the account, or else the
    text of ["general"].  For the language of a configuration that
    [config_from_dict] returned the call always returns, and the text it
    ends with is the text of the bucket of the account itself. *)
Theorem interpret_spec (account_name dominant_metric : string)
    (triggers : list string) (lang : Language.t) :
  let bf := Language.bucket_finish lang in
  let sentence := subject dominant_metric +:+ ": " +:+ middle triggers
                  +:+ ". " in
  (bf !! "general" = None ->
   interpret account_name dominant_metric triggers lang
   = Raise (KeyError "general"))
  /\ (forall g, bf !! "general" = Some g ->
        interpret account_name dominant_metric triggers lang
        = Ok (sentence +:+ match bf !! bucketize account_name with
                           | Some s => s
                           | None => g
                           end))
  /\ (forall d c, config_from_dict d = Ok c -> lang = language c ->
        exists finish,
          bf !! bucketize account_name = Some finish
          /\ interpret account_name dominant_metric triggers lang
             = Ok (sentence +:+ finish)).
Proof.
  intros bf sentence. unfold interpret. fold bf. cbv zeta.
  split; [intros ->; reflexivity|].
  split; [intros g ->; cbn; unfold sentence; rewrite !append_assoc;
          reflexivity|].
  intros d c Hc ->.
  apply config_from_dict_Ok_complete in Hc as (_ & Hb & _).
  assert (G : forall b, b ∈ bucket_names -> is_Some (bf !! b)).
  { intros b Hin. apply elem_of_dom, Hb, elem_of_dom.
    unfold bucket_names in Hin.
    repeat (apply elem_of_cons in Hin as [-> | Hin]; [vm_compute; eauto|]).
    apply elem_of_nil in Hin. contradiction. }
  destruct (G "general") as [g Hg];
    [unfold bucket_names;
     repeat first [apply list_elem_of_here | apply list_elem_of_further]|].
  destruct (G (bucketize account_name)) as [finish Hf];
    [apply bucketize_bucket|].
  exists finish. split; [exact Hf|].
  rewrite Hg, Hf. cbn. unfold sentence. rewrite !append_assoc. reflexivity.
Qed.

(** ** Period aggregation *)

Lemma key_eqb_eq (a b : group_key) : key_eqb a b = true <-> a = b.
Proof.
  destruct a as [m|s], b as [n|u]; cbn.
  - rewrite Z.eqb_eq. split; congruence.
  - split; discriminate.
  - split; discriminate.
  - rewrite String.eqb_eq. split; congruence.
Qed.

Lemma key_le_trans (a b c : group_key) :
  key_le a b = true -> key_le b c = true -> key_le a c = true.
Proof.
  destruct a as [m|s], b as [n|u], c as [k|w]; cbn;
    try reflexivity; try discriminate.
  - rewrite !Z.leb_le. lia.
  - apply string_leb_trans.
Qed.

Lemma key_le_total (a b : group_key) :
  key_le a b = true \/ key_le b a = true.
Proof.
  destruct a as [m|s], b as [n|u]; cbn; auto.
  - rewrite !Z.leb_le. lia.
  - apply String.leb_total.
Qed.

Lemma key_le_antisym (a b : group_key) :
  key_le a b = true -> key_le b a = true -> a = b.
Proof.
  destruct a as [m|s], b as [n|u]; cbn; try discriminate.
  - rewrite !Z.leb_le. intros. f_equal. lia.
  - intros H1 H2. f_equal. apply String.leb_antisym; assumption.
Qed.

Lemma elem_of_distinct {A : Type} (eqb : A -> A -> bool) (l : list A) (x : A) :
  (forall a b, eqb a b = true <-> a = b) ->
  x ∈ distinct eqb l <-> x ∈ l.
Proof.
  intros E. induction l as [|y l IH]; cbn; [reflexivity|].
  rewrite !elem_of_cons, list_elem_of_filter, IH.
  destruct (eqb y x) eqn:Eyx; cbn.
  - apply E in Eyx as ->. split; [intros [?|[[] _]]; auto | intros [?|?]; auto].
  - split; [intros [?|[_ ?]]; auto|].
    intros [->|?]; [|right; split; [exact I | assumption]].
    rewrite (proj2 (E y y) eq_refl) in Eyx. discriminate.
Qed.

Lemma NoDup_distinct {A : Type} (eqb : A -> A -> bool) (l : list A) :
  (forall a b, eqb a b = true <-> a = b) -> NoDup (distinct eqb l).
Proof.
  intros E. induction l as [|y l IH]; cbn; [constructor|].
  constructor.
  - rewrite list_elem_of_filter. intros [H _].
    rewrite (proj2 (E y y) eq_refl) in H. exact H.
  - apply NoDup_filter. exact IH.
Qed.

Lemma distinct_length {A : Type} (eqb : A -> A -> bool) (l : list A) :
  (length (distinct eqb l) <= length l)%nat.
Proof.
  induction l as [|y l IH]; cbn; [lia|].
  pose proof (length_filter (fun z => negb (eqb y z)) (distinct eqb l)). lia.
Qed.

Lemma groupby_sum_elem (df : ledger) (keys labels : list group_key)
    (columns : list string) (d : list (string * list float))
    (c : string) (s : list float) :
  groupby_sum df keys labels columns = Ok d ->
  (c, s) ∈ d ->
  c ∈ columns
  /\ s = map (group_sum keys (map (amount c) (entries df))) labels.
Proof.
  revert d. induction columns as [|c0 columns IH]; intros d; cbn.
  - intros [= <-] H. apply elem_of_nil in H. contradiction.
  - destruct (Str.mem c0 (ledger_columns df)); [|discriminate].
    intros H Hin. bind_inv H. injection H as <-.
    apply elem_of_cons in Hin as [[= -> ->]|Hin].
    + split; [apply list_elem_of_here | reflexivity].
    + destruct (IH _ Ha Hin) as [H1 H2].
      split; [apply list_elem_of_further, H1 | exact H2].
Qed.

Lemma period_column_cases (period : string) (dates : list Z)
    (keys : list group_key) :
  period_column period dates = Ok keys ->
  Str.mem period period_names = true
  /\ exists key : Z -> group_key, keys = map key dates.
Proof.
  unfold period_column, period_names, Str.mem. cbn [existsb].
  repeat (destruct (String.eqb period _);
          [intros [= <-]; split; [rewrite ?orb_true_r; reflexivity|];
           eexists; reflexivity|]).
  discriminate.
Qed.

Lemma group_cells (key : Z -> group_key) (c : string) (k : group_key)
    (es : list entry) :
  map snd (filter (fun kc => key_eqb (fst kc) k && negb (F64.isnan (snd kc)))
                  (combine (map key (map Date es)) (map (amount c) es)))
  = map (amount c)
        (filter (fun e => key_eqb (key (Date e)) k
                          && negb (F64.isnan (amount c e))) es).
Proof.
  induction es as [|e es IH]; [reflexivity|].
  cbn [map combine]. rewrite !filter_cons. cbn [fst snd].
  destruct (decide (key_eqb (key (Date e)) k && negb (F64.isnan (amount c e))));
    cbn [map snd]; rewrite IH; reflexivity.
Qed.

(** X14.  The frame that [aggregate] returns for a frame with rows has
    one row for each period in which the frame has a row and no other, the
    periods without repeats and in rising order; its columns are the
    columns of interest in their order.  The cell of a column for a period
    is the sum of the cells of the column in the rows of the period, taken
    in row order with NaN cells left out, as [pandas] adds it: from a sum
    and a compensation of 0, each cell [val] gives [y = val - compensation],
    the new sum [t = sum + y] and the new compensation [(t - sum) - y], or 0
    when that is NaN; so a period without a number sums to 0.  The frame
    has no more rows than the frame it is made from, and it is not empty
    unless no column is of interest.  A frame without rows, or [None],
    gives the empty frame. *)
Theorem aggregate_frame (self : t) (df : option ledger) (period : string)
    (f : frame) :
  aggregate self df period = Ok f ->
  (has_rows df = false /\ f = empty_frame)
  \/ (exists (l : ledger) (key : Z -> group_key),
        df = Some l
        /\ Str.mem period period_names = true
        /\ period_column period (map Date (entries l))
           = Ok (map key (map Date (entries l)))
        /\ (forall k, k ∈ index f
                      <-> exists e, e ∈ entries l /\ k = key (Date e))
        /\ NoDup (index f)
        /\ StronglySorted (fun a b => key_le a b = true) (index f)
        /\ index f <> []
        /\ (length (index f) <= length (entries l))%nat
        /\ map fst (data f) = columns_of_interest self
        /\ (forall c s, (c, s) ∈ data f ->
              c ∈ ledger_columns l
              /\ s = map (fun k =>
                            fst (fold_left
                                   (fun acc val =>
                                      let y := F64.sub val (snd acc) in
                                      let t := F64.add (fst acc) y in
                                      let compensation :=
                                        F64.sub (F64.sub t (fst acc)) y in
                                      (t, if F64.isnan compensation
                                          then F64.zero else compensation))
                                   (map (amount c)
                                      (filter
                                         (fun e =>
                                            key_eqb (key (Date e)) k
                                            && negb (F64.isnan (amount c e)))
                                         (entries l)))
                                   (F64.zero, F64.zero)))
                         (index f))
        /\ (is_empty f = true <-> columns_of_interest self = [])).
Proof.
  intros H. destruct (has_rows df) eqn:R.
  - right. destruct df as [l|]; [|discriminate]. 
    rewrite aggregate_rows in H by exact R.
    bind_inv H. bind_inv H. injection H as <-.
    destruct (period_column_cases _ _ _ Ha) as (Hv & key & ->).
    exists l, key. cbn [index data].
    assert (E : forall k, k ∈ sort_by key_le
                               (distinct key_eqb (map key (map Date (entries l))))
                  <-> exists e, e ∈ entries l /\ k = key (Date e)).
    { intros k.
      rewrite (elem_of_Permutation_proper k _ _ (sort_by_Permutation _ _)).
      rewrite (elem_of_distinct _ _ _ key_eqb_eq), map_map, list_elem_of_fmap.
      split; intros (e & H1 & H2); exists e; auto. }
    split; [reflexivity|]. split; [exact Hv|]. split; [exact Ha|].
    split; [exact E|].
    split; [rewrite sort_by_Permutation; apply NoDup_distinct, key_eqb_eq|].
    split; [apply sort_by_sorted; [apply key_le_trans | apply key_le_total]|].
    assert (Hne : sort_by key_le
                    (distinct key_eqb (map key (map Date (entries l)))) <> []).
    { apply labels_not_nil. destruct l as [cs [|e es]]; discriminate. }
    split; [exact Hne|].
    split.
    { rewrite (Permutation_length (sort_by_Permutation _ _)).
      etransitivity; [apply distinct_length|]. rewrite !length_map.
      reflexivity. }
    split; [eapply groupby_sum_keys; exact Ha0|].
    split.
    { intros c s Hin.
      destruct (groupby_sum_elem _ _ _ _ _ _ _ Ha0 Hin) as [Hc ->].
      split; [|apply map_ext; intros k; unfold group_sum;
               rewrite group_cells; reflexivity].
      clear -Ha0 Hc. revert a0 Ha0.
      induction (columns_of_interest self) as [|c0 cols IH]; intros d Hd.
      - apply elem_of_nil in Hc. contradiction.
      - cbn in Hd. destruct (Str.mem c0 (ledger_columns l)) eqn:M;
          [|discriminate].
        bind_inv Hd. apply elem_of_cons in Hc as [->|Hc].
        + apply mem_elem_of. exact M.
        + eapply IH; eassumption. }
    apply groupby_sum_keys in Ha0. rewrite <- Ha0.
    unfold is_empty. cbn [index data].
    destruct (sort_by key_le _) as [|k ks]; [congruence|].
    destruct a0; cbn; split; congruence.
  - left. rewrite aggregate_no_rows in H by exact R.
    injection H as <-. auto.
Qed.

Lemma aggregate_frame_witness :
  exists f,
    aggregate sample_comparator (df_last_year sample_comparator) "monthly"
    = Ok f
    /\ (length (index f) <= 2)%nat.
Proof.
  destruct (aggregate sample_comparator (df_last_year sample_comparator)
              "monthly") as [f|] eqn:E; [|vm_compute in E; discriminate].
  exists f. split; [reflexivity|].
  destruct (aggregate_frame _ _ _ _ E)
    as [[R _] | (l & key & Hl & _ & _ & _ & _ & _ & _ & Hlen & _)].
  - vm_compute in R. discriminate.
  - injection Hl as <-. exact Hlen.
Defined.

(** ** The entries of the comparison *)

Lemma assoc_Some_elem {A : Type} (k : string) (v : A) (l : list (string * A)) :
  assoc k l = Some v -> (k, v) ∈ l.
Proof.
  induction l as [|[k0 v0] l IH]; cbn; [discriminate|].
  destruct (String.eqb_spec k k0) as [->|_].
  - intros [= ->]. apply list_elem_of_here.
  - intros H. apply list_elem_of_further, IH, H.
Qed.

Lemma aggregate_series_length (self : t) (df : option ledger)
    (period : string) (f : frame) (c : string) (s : list float) :
  aggregate self df period = Ok f ->
  assoc c (data f) = Some s ->
  length s = length (index f).
Proof.
  intros H Hs. destruct (has_rows df) eqn:R.
  - destruct df as [l|]; [|discriminate].
    rewrite aggregate_rows in H by exact R.
    bind_inv H. bind_inv H. injection H as <-. cbn [index data] in *.
    apply assoc_Some_elem in Hs.
    destruct (groupby_sum_elem _ _ _ _ _ _ _ Ha0 Hs) as [_ ->].
    apply length_map.
  - rewrite aggregate_no_rows in H by exact R. injection H as <-.
    discriminate.
Qed.

Lemma assoc_correlation (lib : Library) (ly cy : list float)
    (d_ly d_cy : summary) (k : string) :
  k ∈ ["corr_coef"; "corr_pval"; "corr_significant"; "corr_strength"] ->
  assoc k (inferences lib ly cy d_ly d_cy) = assoc k (correlation lib ly cy).
Proof.
  intros Hk. unfold inferences, differences, test_entries, correlation, effect.
  repeat (apply elem_of_cons in Hk as [->|Hk]);
    try (apply elem_of_nil in Hk; contradiction);
    destruct (len ly =? len cy); try reflexivity;
    destruct (F64.neqb _ _); reflexivity.
Qed.

(** X15.  The correlation is in the entry of an evaluated metric exactly
    when the two years have the same number of periods: then the entry
    holds the coefficient, its p-value, [p < 0.05] and the strength label
    of the absolute coefficient, and otherwise it holds none of the four
    keys.  The significance entries of the four tests are [p < 0.05], so a
    test whose p-value is NaN is not significant. *)
Theorem correlation_entries (lib : Library) (self : t) (period : string)
    (dly dcy : list (string * summary))
    (comparison : list (string * list (string * pyval)))
    (c : string) (e : list (string * pyval)) :
  compare_statistical_inferences lib self period = Ok (dly, dcy, comparison) ->
  assoc c comparison = Some e ->
  exists ly cy s_ly s_cy,
    aggregate self (df_last_year self) period = Ok ly
    /\ aggregate self (df_current_year self) period = Ok cy
    /\ assoc c (data ly) = Some s_ly
    /\ assoc c (data cy) = Some s_cy
    /\ (length (index ly) = length (index cy) ->
        let r := pearsonr lib s_ly s_cy in
        assoc "corr_coef" e = Some (PFloat (fst r))
        /\ assoc "corr_pval" e = Some (PFloat (snd r))
        /\ assoc "corr_significant" e
           = Some (PBool (F64.ltb (snd r) f0_05))
        /\ assoc "corr_strength" e
           = Some (PStr (corr_strength (F64.abs (fst r)))))
    /\ (length (index ly) <> length (index cy) ->
        forall k, k ∈ ["corr_coef"; "corr_pval"; "corr_significant";
                       "corr_strength"] -> assoc k e = None)
    /\ assoc "t_significant" e
       = Some (PBool (F64.ltb (snd (ttest_ind lib s_ly s_cy)) f0_05))
    /\ assoc "u_significant" e
       = Some (PBool (F64.ltb (snd (mannwhitneyu lib s_ly s_cy)) f0_05))
    /\ assoc "anova_significant" e
       = Some (PBool (F64.ltb (snd (f_oneway lib s_ly s_cy)) f0_05))
    /\ assoc "ks_significant" e
       = Some (PBool (F64.ltb (snd (ks_2samp lib s_ly s_cy)) f0_05))
    /\ F64.ltb F64.nan f0_05 = false.
Proof.
  intros H He.
  destruct (evaluated_inv lib self period dly dcy comparison c e H He)
    as (ly & cy & s_ly & s_cy & Hl & Hc & Al & Ac & _ & _ & _ & _ & ->).
  exists ly, cy, s_ly, s_cy.
  repeat (split; [assumption|]).
  pose proof (aggregate_series_length _ _ _ _ _ _ Hl Al) as L1.
  pose proof (aggregate_series_length _ _ _ _ _ _ Hc Ac) as L2.
  assert (In4 : forall k, k ∈ ["corr_coef"; "corr_pval"; "corr_significant";
                                "corr_strength"] ->
                assoc k (inferences lib s_ly s_cy (summarize lib s_ly)
                                    (summarize lib s_cy))
                = assoc k (correlation lib s_ly s_cy))
    by (intros k; apply assoc_correlation).
  split; [|split].
  - intros E. cbv zeta.
    rewrite !In4
      by (repeat first [apply list_elem_of_here | apply list_elem_of_further]).
    unfold correlation, len. rewrite L1, L2, E, Z.eqb_refl.
    repeat split; reflexivity.
  - intros E k Hk. rewrite (In4 k Hk). unfold correlation, len.
    rewrite L1, L2.
    destruct (Z.eqb_spec (Z.of_nat (length (index ly)))
                         (Z.of_nat (length (index cy)))) as [E'|_];
      [apply Nat2Z.inj in E'; contradiction | reflexivity].
  - repeat split; reflexivity.
Qed.

Lemma correlation_entries_witness :
  inference (snd sample_comparison) "Debit" "corr_strength"
  = Some (PStr "none").
Proof.
  assert (H : compare_statistical_inferences blank_library sample_comparator
                "monthly"
              = Ok (fst (fst sample_comparison), snd (fst sample_comparison),
                    snd sample_comparison)) by (vm_compute; reflexivity).
  destruct (assoc "Debit" (snd sample_comparison)) as [e|] eqn:He;
    [|vm_compute in He; discriminate].
  destruct (correlation_entries blank_library sample_comparator "monthly"
              _ _ _ "Debit" e H He)
    as (ly & cy & s_ly & s_cy & Hl & Hc & Al & Ac & K & _).
  vm_compute in Hl. injection Hl as <-.
  vm_compute in Hc. injection Hc as <-.
  destruct K as (_ & _ & _ & K); [reflexivity|].
  unfold inference. rewrite He. exact K.
Defined.

(** Every comparison of two floats is decided by one of four cases: one
    of them is NaN (every comparison is false), or the first is below,
    equal to or above the second. *)
Lemma float_order_cases (x y : float) :
  F64.isnan y = false ->
  (F64.isnan x = true /\ F64.ltb x y = false /\ F64.ltb y x = false
   /\ F64.leb x y = false /\ F64.leb y x = false /\ F64.eqb x y = false)
  \/ (F64.isnan x = false /\ F64.ltb x y = true /\ F64.ltb y x = false
      /\ F64.leb x y = true /\ F64.leb y x = false /\ F64.eqb x y = false)
  \/ (F64.isnan x = false /\ F64.ltb x y = false /\ F64.ltb y x = false
      /\ F64.leb x y = true /\ F64.leb y x = true /\ F64.eqb x y = true)
  \/ (F64.isnan x = false /\ F64.ltb x y = false /\ F64.ltb y x = true
      /\ F64.leb x y = false /\ F64.leb y x = true /\ F64.eqb x y = false).
Proof.
  unfold F64.isnan, F64.ltb, F64.leb, F64.eqb, SFltb, SFleb, SFeqb.
  destruct x as [[]|[]| |[] mx ex], y as [[]|[]| |[] my ey]; cbn;
    try discriminate; intros _; try tauto; order_cases; tauto.
Qed.

(** X16.  The strength of a correlation by its absolute coefficient [a]:
    "weak" exactly for [0.1 < a < 0.3], "moderate" exactly for
    [0.3 < a < 0.5], "strong" exactly for [a > 0.5], and "none" in every
    other case: up to 0.1, for NaN, and also at 0.3 and at 0.5 themselves,
    which fall between the classes. *)
Theorem corr_strength_spec (a : float) :
  (corr_strength a = "weak"
   <-> F64.ltb f0_1 a = true /\ F64.ltb a f0_3 = true)
  /\ (corr_strength a = "moderate"
      <-> F64.ltb f0_3 a = true /\ F64.ltb a f0_5 = true)
  /\ (corr_strength a = "strong" <-> F64.gtb a f0_5 = true)
  /\ (corr_strength a = "none"
      <-> F64.leb a f0_1 = true \/ F64.isnan a = true
          \/ F64.eqb a f0_3 = true \/ F64.eqb a f0_5 = true).
Proof.
  assert (L13 : F64.leb f0_1 f0_3 = true) by (vm_compute; reflexivity).
  assert (L35 : F64.leb f0_3 f0_5 = true) by (vm_compute; reflexivity).
  assert (I1 : F64.isnan f0_1 = false) by (vm_compute; reflexivity).
  assert (I3 : F64.isnan f0_3 = false) by (vm_compute; reflexivity).
  assert (I5 : F64.isnan f0_5 = false) by (vm_compute; reflexivity).
  unfold corr_strength, F64.gtb. fold (F64.ltb f0_5 a).
  revert L13 L35 I1 I3 I5. generalize f0_1, f0_3, f0_5.
  intros c1 c3 c5 L13 L35 I1 I3 I5.
  pose proof (fun H => leb_trans a c1 c3 H L13) as T1.
  pose proof (fun H => leb_trans a c3 c5 H L35) as T2.
  pose proof (fun H => leb_trans c1 c3 a L13 H) as T3.
  pose proof (fun H => leb_trans c3 c5 a L35 H) as T4.
  destruct (float_order_cases a c1 I1)
    as [(N1&A1&B1&C1&D1&E1)|[(N1&A1&B1&C1&D1&E1)
       |[(N1&A1&B1&C1&D1&E1)|(N1&A1&B1&C1&D1&E1)]]];
  destruct (float_order_cases a c3 I3)
    as [(N3&A3&B3&C3&D3&E3)|[(N3&A3&B3&C3&D3&E3)
       |[(N3&A3&B3&C3&D3&E3)|(N3&A3&B3&C3&D3&E3)]]];
  destruct (float_order_cases a c5 I5)
    as [(N5&A5&B5&C5&D5&E5)|[(N5&A5&B5&C5&D5&E5)
       |[(N5&A5&B5&C5&D5&E5)|(N5&A5&B5&C5&D5&E5)]]];
  rewrite ?A1, ?B1, ?C1, ?D1, ?E1, ?A3, ?B3, ?C3, ?D3, ?E3,
          ?A5, ?B5, ?C5, ?D5, ?E5 in *;
  try congruence;
  try (specialize (T1 eq_refl); discriminate);
  try (specialize (T2 eq_refl); discriminate);
  try (specialize (T3 eq_refl); discriminate);
  try (specialize (T4 eq_refl); discriminate);
  cbn [andb]; rewrite ?N1;
  repeat split; try discriminate; try reflexivity; try tauto;
    try (intros [? ?]; discriminate); try (intros; discriminate);
    try (intros [H|[H|[H|H]]]; discriminate).
Qed.

Import GLAnalyzer.

(** *** The row that the analyzer hands to the engine *)

Lemma assoc_app {A : Type} (k : string) (l l' : list (string * A)) :
  assoc k (l ++ l')
  = match assoc k l with Some v => Some v | None => assoc k l' end.
Proof.
  induction l as [|[k0 v0] l IH]; cbn; [reflexivity|].
  destruct (String.eqb k k0); [reflexivity | exact IH].
Qed.

Lemma assoc_set_items (k : string) (items : list (string * pyval)) (d : row) :
  assoc k (set_items items d)
  = match assoc k (rev items) with Some v => Some v | None => assoc k d end.
Proof.
  revert d. unfold set_items.
  induction items as [|[k0 v0] items IH]; intros d; cbn; [reflexivity|].
  rewrite IH, assoc_app, assoc_dict_set. cbn.
  destruct (assoc k (rev items)); [reflexivity|].
  destruct (String.eqb k k0); reflexivity.
Qed.

Lemma append_eqb (p a b : string) :
  String.eqb (p +:+ a) (p +:+ b) = String.eqb a b.
Proof.
  induction p as [|x p IH]; [reflexivity|].
  change (String.eqb (String x p +:+ a) (String x p +:+ b))
    with (if Ascii.eqb x x then String.eqb (p +:+ a) (p +:+ b) else false).
  rewrite Ascii.eqb_refl. exact IH.
Qed.

Lemma col_eqb (p s s' : string) : String.eqb (col p s) (col p s') = String.eqb s s'.
Proof. unfold col. rewrite !append_eqb. reflexivity. Qed.

(** Two texts with a common end: one of the heads ends the other. *)
Lemma is_prefix_common (l1 l2 r1 r2 : list ascii) :
  l1 ++ r1 = l2 ++ r2 ->
  Str.is_prefix l1 l2 = true \/ Str.is_prefix l2 l1 = true.
Proof.
  revert l2. induction l1 as [|x l1 IH]; intros [|y l2]; cbn; auto.
  intros [= -> H]. rewrite Ascii.eqb_refl. cbn. apply IH. exact H.
Qed.

Lemma col_ends_with (p s : string) : ends_with s (col p s) = true.
Proof.
  unfold ends_with, col. rewrite chars_append.
  change (Str.chars ("_" +:+ s)) with ("_"%char :: Str.chars s).
  rewrite rev_app_distr. apply is_prefix_app.
Qed.

Lemma ends_with_suffix (s s' : string) :
  s ∈ suffixes -> s' ∈ suffixes ->
  ends_with s (col "" s') = true -> s = s'.
Proof.
  assert (K : forallb (fun a => forallb (fun b =>
                 implb (ends_with a (col "" b)) (String.eqb a b)) suffixes)
                suffixes = true) by (vm_compute; reflexivity).
  intros Hs Hs' E.
  rewrite forallb_forall in K. apply list_elem_of_In in Hs, Hs'.
  specialize (K s Hs). rewrite forallb_forall in K. specialize (K s' Hs').
  rewrite E in K. apply String.eqb_eq. exact K.
Qed.

(** The labels of two metrics differ when the prefixes do. *)
Lemma col_inj (p p' s s' : string) :
  s ∈ suffixes -> s' ∈ suffixes ->
  col p s = col p' s' -> p = p' /\ s = s'.
Proof.
  intros Hs Hs' E.
  assert (S : s = s').
  { pose proof (f_equal Str.chars E) as C. unfold col in C.
    rewrite !chars_append in C.
    apply (f_equal (@rev ascii)) in C. rewrite !rev_app_distr in C.
    change (Str.chars ("_" +:+ s)) with ("_"%char :: Str.chars s) in C.
    change (Str.chars ("_" +:+ s')) with ("_"%char :: Str.chars s') in C.
    apply is_prefix_common in C as [C|C].
    - apply ends_with_suffix; [exact Hs | exact Hs' | exact C].
    - symmetry. apply ends_with_suffix; [exact Hs' | exact Hs | exact C]. }
  subst s'. split; [|reflexivity].
  apply chars_inj. pose proof (f_equal Str.chars E) as C. unfold col in C.
  rewrite !chars_append in C. apply app_inv_tail in C. exact C.
Qed.

Lemma extract_column_other
    (dly dcy : list (string * summary))
    (cmp : list (string * list (string * pyval))) (r : row) (c' k : string) :
  (forall s', Str.mem s' suffixes = true -> k <> col (prefix_of c') s') ->
  assoc k (extract_column dly dcy cmp r c') = assoc k r.
Proof.
  intros H.
  assert (N : forall s', Str.mem s' suffixes = true ->
                String.eqb k (col (prefix_of c') s') = false).
  { intros s' Hs'. apply String.eqb_neq. apply H. exact Hs'. }
  unfold extract_column.
  destruct (assoc c' cmp) as [e|]; [|reflexivity].
  rewrite assoc_set_items. unfold compared. cbn [rev app assoc].
  rewrite !N by reflexivity.
  destruct (assoc c' dcy) as [sc|], (assoc c' dly) as [sl|];
    rewrite ?assoc_set_items; unfold described;
    cbn [rev app assoc append]; rewrite ?N by reflexivity; reflexivity.
Qed.

Lemma extract_column_self
    (dly dcy : list (string * summary))
    (cmp : list (string * list (string * pyval))) (r : row) (c : string)
    (e : list (string * pyval)) (sl sc : summary) :
  assoc c cmp = Some e -> assoc c dly = Some sl -> assoc c dcy = Some sc ->
  let p := prefix_of c in
  let r' := extract_column dly dcy cmp r c in
  let cell := series_get cmp e in
  assoc (col p "LY_Mean") r' = Some (PFloat (s_mean sl))
  /\ assoc (col p "CY_Mean") r' = Some (PFloat (s_mean sc))
  /\ assoc (col p "LY_Std") r' = Some (PFloat (s_std sl))
  /\ assoc (col p "CY_Std") r' = Some (PFloat (s_std sc))
  /\ assoc (col p "CY_Median") r' = Some (PFloat (s_50 sc))
  /\ assoc (col p "Mean_Diff") r' = Some (cell "mean_diff")
  /\ assoc (col p "Std_Diff") r' = Some (cell "std_diff")
  /\ assoc (col p "TTest_Significant") r' = Some (cell "t_significant")
  /\ assoc (col p "MannWhitney_Significant") r' = Some (cell "u_significant")
  /\ assoc (col p "KS_Significant") r' = Some (cell "ks_significant")
  /\ assoc (col p "ANOVA_Significant") r' = Some (cell "anova_significant")
  /\ assoc (col p "Effect_Size") r' = Some (cell "effect_size")
  /\ assoc (col p "Cohens_D") r' = Some (cell "cohens_d").
Proof.
  intros He Hl Hc p r' cell. subst r'. unfold extract_column.
  rewrite He, Hl, Hc. fold p. fold cell.
  repeat split; rewrite !assoc_set_items; unfold described, compared;
    cbn [rev app assoc append]; rewrite !col_eqb; reflexivity.
Qed.

Lemma fold_left_establish {A B : Type} (f : A -> B -> A) (P : A -> Prop)
    (c : B) (cols : list B) (r : A) :
  (forall r, P (f r c)) ->
  (forall r c', c' ∈ cols -> P r -> P (f r c')) ->
  c ∈ cols -> P (fold_left f cols r).
Proof.
  intros Hc Hk.
  assert (K : forall l r, (forall x, x ∈ l -> x ∈ cols) -> P r ->
                          P (fold_left f l r)).
  { induction l as [|x l IH]; intros r0 Hl Hr; cbn; [exact Hr|].
    apply IH.
    - intros y Hy. apply Hl. right. exact Hy.
    - apply Hk; [apply Hl; left | exact Hr]. }
  assert (G : forall l r, (forall x, x ∈ l -> x ∈ cols) -> c ∈ l ->
                          P (fold_left f l r)).
  { induction l as [|x l IH]; intros r0 Hl Hin; [inversion Hin|].
    cbn. apply elem_of_cons in Hin as [<-|Hin].
    - apply K; [intros y Hy; apply Hl; right; exact Hy | apply Hc].
    - apply IH; [intros y Hy; apply Hl; right; exact Hy | exact Hin]. }
  intros Hin. apply G; auto.
Qed.

(** A cell that the loop writes for a metric keeps its value to the end,
    when no other evaluated column has the prefix of the metric. *)
Lemma extracted_cell (cols : list string) (code name : pyval)
    (dly dcy : list (string * summary))
    (cmp : list (string * list (string * pyval)))
    (c s : string) (v : pyval) :
  c ∈ cols ->
  (forall c', c' ∈ cols -> is_Some (assoc c' cmp) ->
              prefix_of c' = prefix_of c -> c' = c) ->
  Str.mem s suffixes = true ->
  (forall r, assoc (col (prefix_of c) s) (extract_column dly dcy cmp r c)
             = Some v) ->
  assoc (col (prefix_of c) s) (_extract_metrics cols code name dly dcy cmp)
  = Some v.
Proof.
  intros Hin Hp Hs Hv. unfold _extract_metrics.
  apply (fold_left_establish (extract_column dly dcy cmp)
           (fun r => assoc (col (prefix_of c) s) r = Some v) c);
    [exact Hv | | exact Hin].
  intros r c' Hc' Hr.
  destruct (decide (c' = c)) as [->|Hne]; [apply Hv|].
  destruct (assoc c' cmp) as [e'|] eqn:E.
  - rewrite extract_column_other; [exact Hr|].
    intros s' Hs' K. apply col_inj in K as [K _];
      [|apply mem_elem_of; exact Hs | apply mem_elem_of; exact Hs'].
    apply Hne, Hp; [exact Hc' | rewrite E; eauto | congruence].
  - unfold extract_column. rewrite E. exact Hr.
Qed.

Lemma extracted_account (cols : list string) (code name : pyval)
    (dly dcy : list (string * summary))
    (cmp : list (string * list (string * pyval))) :
  let r := _extract_metrics cols code name dly dcy cmp in
  assoc "Account Code" r = Some code /\ assoc "Account Name" r = Some name.
Proof.
  assert (K : forall k, k = "Account Code" \/ k = "Account Name" ->
              forall c' s', Str.mem s' suffixes = true ->
                            k <> col (prefix_of c') s').
  { intros k Hk c' s' Hs' E.
    pose proof (col_ends_with (prefix_of c') s') as W. rewrite <- E in W.
    assert (F : forallb (fun s => negb (ends_with s "Account Code")
                                  && negb (ends_with s "Account Name"))
                  suffixes = true) by (vm_compute; reflexivity).
    rewrite forallb_forall in F.
    apply mem_elem_of, list_elem_of_In in Hs'. specialize (F s' Hs').
    destruct Hk as [-> | ->]; rewrite W in F;
      [discriminate | rewrite andb_false_r in F; discriminate]. }
  cbv zeta. unfold _extract_metrics.
  generalize (eq_refl : assoc "Account Code"
                          [("Account Code", code); ("Account Name", name)]
                        = Some code).
  generalize (eq_refl : assoc "Account Name"
                          [("Account Code", code); ("Account Name", name)]
                        = Some name).
  generalize [("Account Code", code); ("Account Name", name)].
  induction cols as [|c' cols IH]; intros r Hn Hc; cbn [fold_left]; [auto|].
  apply IH; rewrite extract_column_other; auto.
Qed.

Lemma series_get_Some (cmp : list (string * list (string * pyval)))
    (e : list (string * pyval)) (k : string) (v : pyval) :
  assoc k e = Some v -> series_get cmp e k = v.
Proof. intros H. unfold series_get. rewrite H. reflexivity. Qed.

Lemma eff_text_effect_size (x : float) :
  eff_text (PStr (effect_size x)) = Some (effect_size x).
Proof.
  unfold effect_size.
  destruct (F64.ltb x f0_2); [reflexivity|].
  destruct (F64.ltb x f0_5); [reflexivity|].
  destruct (F64.geb x f0_8); reflexivity.
Qed.

(** X17.  The row that the analyzer builds from a comparison hands the
    comparator's statistics to the engine.  The row keeps the account's
    code and name; and for a metric with an entry in the comparison, whose
    prefix (the name with underscores for spaces) no other evaluated
    column of interest has, what the engine reads under the prefix is: the
    means, the standard deviations and the median of the two descriptions,
    the differences of the means and of the standard deviations, the four
    significance flags as the booleans [p < 0.05], and Cohen's d with its
    label (NaN and "none" when the pooled standard deviation is zero). *)
Theorem extracted_row_signals (lib : Library) (self : t) (period : string)
    (dly dcy : list (string * summary))
    (comparison : list (string * list (string * pyval)))
    (c : string) (code name : pyval) (mp sp : float) :
  compare_statistical_inferences lib self period = Ok (dly, dcy, comparison) ->
  is_Some (assoc c comparison) ->
  (forall c', c' ∈ columns_of_interest self ->
              is_Some (assoc c' comparison) ->
              prefix_of c' = prefix_of c -> c' = c) ->
  let r := _extract_metrics (columns_of_interest self) code name
             dly dcy comparison in
  get r "Account Code" = code
  /\ get r "Account Name" = name
  /\ exists ly cy s_ly s_cy,
       aggregate self (df_last_year self) period = Ok ly
       /\ aggregate self (df_current_year self) period = Ok cy
       /\ assoc c (data ly) = Some s_ly
       /\ assoc c (data cy) = Some s_cy
       /\ let d_ly := summarize lib s_ly in
          let d_cy := summarize lib s_cy in
          let diff := F64.sub (s_mean d_cy) (s_mean d_ly) in
          let pooled := pooled_std (s_std d_ly) (s_std d_cy) in
          let d := F64.div diff pooled in
          let significant (p : float * float) := Some (F64.ltb (snd p) f0_05) in
          read_signals r (prefix_of c) mp sp = {|
            ly_mean := s_mean d_ly;
            cy_mean := s_mean d_cy;
            ly_std := s_std d_ly;
            cy_std := s_std d_cy;
            cy_med := s_50 d_cy;
            mean_diff := diff;
            std_diff := F64.sub (s_std d_cy) (s_std d_ly);
            t_sig := significant (ttest_ind lib s_ly s_cy);
            mw_sig := significant (mannwhitneyu lib s_ly s_cy);
            ks_sig := significant (ks_2samp lib s_ly s_cy);
            anova_sig := significant (f_oneway lib s_ly s_cy);
            eff := Some (if F64.neqb pooled F64.zero
                         then effect_size (F64.abs d) else "none");
            cohens_d := if F64.neqb pooled F64.zero then d else F64.nan;
            mean_pct := mp;
            std_pct := sp
          |}.
Proof.
  intros H [e He] Hp r.
  destruct (extracted_account (columns_of_interest self) code name
              dly dcy comparison) as [Ac An].
  fold r in Ac, An. unfold get, get_or. rewrite Ac, An.
  split; [reflexivity|]. split; [reflexivity|].
  destruct (evaluated_inv lib self period dly dcy comparison c e H He)
    as (ly & cy & s_ly & s_cy & Hl & Hc & Sl & Sc & _ & _ & Dl & Dc & E).
  exists ly, cy, s_ly, s_cy.
  split; [exact Hl|]. split; [exact Hc|]. split; [exact Sl|].
  split; [exact Sc|].
  cbv zeta.
  set (d_ly := summarize lib s_ly) in *. set (d_cy := summarize lib s_cy) in *.
  set (diff := F64.sub (s_mean d_cy) (s_mean d_ly)).
  set (pooled := pooled_std (s_std d_ly) (s_std d_cy)).
  set (d := F64.div diff pooled).
  assert (Hin : c ∈ columns_of_interest self).
  { apply compare_Ok_inv in H as (ly' & cy' & _ & _ & H).
    destruct (negb (is_empty ly') && negb (is_empty cy'));
      injection H as -> -> ->; [|discriminate].
    rewrite assoc_collected in He. apply mem_elem_of.
    destruct (Str.mem c (columns_of_interest self)); [reflexivity|discriminate]. }
  pose proof (fun r0 => extract_column_self dly dcy comparison r0 c e
                          d_ly d_cy He Dl Dc) as V. cbv zeta in V.
  pose proof (fun s v Hs Hv =>
                extracted_cell (columns_of_interest self) code name dly dcy
                  comparison c s v Hin Hp Hs Hv) as G.
  fold r in G.
  unfold read_signals, get, get_or.
  rewrite (G "LY_Mean" _ eq_refl (fun r0 => proj1 (V r0))).
  rewrite (G "CY_Mean" _ eq_refl (fun r0 => proj1 (proj2 (V r0)))).
  rewrite (G "LY_Std" _ eq_refl (fun r0 => proj1 (proj2 (proj2 (V r0))))).
  rewrite (G "CY_Std" _ eq_refl
             (fun r0 => proj1 (proj2 (proj2 (proj2 (V r0)))))).
  rewrite (G "CY_Median" _ eq_refl
             (fun r0 => proj1 (proj2 (proj2 (proj2 (proj2 (V r0))))))).
  rewrite (G "Mean_Diff" _ eq_refl
             (fun r0 => proj1 (proj2 (proj2 (proj2 (proj2 (proj2 (V r0)))))))).
  rewrite (G "Std_Diff" _ eq_refl
             (fun r0 => proj1 (proj2 (proj2 (proj2 (proj2 (proj2
                          (proj2 (V r0))))))))).
  rewrite (G "TTest_Significant" _ eq_refl
             (fun r0 => proj1 (proj2 (proj2 (proj2 (proj2 (proj2 (proj2
                          (proj2 (V r0)))))))))).
  rewrite (G "MannWhitney_Significant" _ eq_refl
             (fun r0 => proj1 (proj2 (proj2 (proj2 (proj2 (proj2 (proj2
                          (proj2 (proj2 (V r0))))))))))).
  rewrite (G "KS_Significant" _ eq_refl
             (fun r0 => proj1 (proj2 (proj2 (proj2 (proj2 (proj2 (proj2
                          (proj2 (proj2 (proj2 (V r0)))))))))))).
  rewrite (G "ANOVA_Significant" _ eq_refl
             (fun r0 => proj1 (proj2 (proj2 (proj2 (proj2 (proj2 (proj2
                          (proj2 (proj2 (proj2 (proj2 (V r0))))))))))))).
  rewrite (G "Effect_Size" _ eq_refl
             (fun r0 => proj1 (proj2 (proj2 (proj2 (proj2 (proj2 (proj2
                          (proj2 (proj2 (proj2 (proj2 (proj2 (V r0)))))))))))))).
  rewrite (G "Cohens_D" _ eq_refl
             (fun r0 => proj2 (proj2 (proj2 (proj2 (proj2 (proj2 (proj2
                          (proj2 (proj2 (proj2 (proj2 (proj2 (V r0)))))))))))))).
  clear G V.
  assert (K : forall k v, assoc k e = Some v -> series_get comparison e k = v)
    by (intros k v; apply series_get_Some).
  rewrite (K "mean_diff" (PFloat diff)) by (rewrite E; reflexivity).
  rewrite (K "std_diff" (PFloat (F64.sub (s_std d_cy) (s_std d_ly))))
    by (rewrite E; reflexivity).
  rewrite (K "t_significant"
             (PBool (F64.ltb (snd (ttest_ind lib s_ly s_cy)) f0_05)))
    by (rewrite E; reflexivity).
  rewrite (K "u_significant"
             (PBool (F64.ltb (snd (mannwhitneyu lib s_ly s_cy)) f0_05)))
    by (rewrite E; reflexivity).
  rewrite (K "ks_significant"
             (PBool (F64.ltb (snd (ks_2samp lib s_ly s_cy)) f0_05)))
    by (rewrite E; reflexivity).
  rewrite (K "anova_significant"
             (PBool (F64.ltb (snd (f_oneway lib s_ly s_cy)) f0_05)))
    by (rewrite E; reflexivity).
  rewrite (K "effect_size"
             (PStr (if F64.neqb pooled F64.zero
                    then effect_size (F64.abs d) else "none"))).
  2:{ rewrite E, assoc_effect by auto. unfold effect.
      fold d_ly d_cy. fold diff. fold pooled.
      destruct (F64.neqb pooled F64.zero); reflexivity. }
  rewrite (K "cohens_d"
             (PFloat (if F64.neqb pooled F64.zero then d else F64.nan))).
  2:{ rewrite E, assoc_effect by auto. unfold effect.
      fold d_ly d_cy. fold diff. fold pooled.
      destruct (F64.neqb pooled F64.zero); reflexivity. }
  cbn [to_float to_bool PyFloat.of_val].
  f_equal.
  destruct (F64.neqb pooled F64.zero); [|reflexivity].
  apply eff_text_effect_size.
Qed.

Lemma extracted_row_signals_witness :
  get (_extract_metrics ["Debit"; "Credit"] (PStr "4000") (PStr "Sales")
         (fst (fst sample_comparison)) (snd (fst sample_comparison))
         (snd sample_comparison))
      "Account Code"
  = PStr "4000".
Proof.
  refine (proj1 (extracted_row_signals blank_library sample_comparator
                   "monthly" (fst (fst sample_comparison))
                   (snd (fst sample_comparison)) (snd sample_comparison)
                   "Debit" (PStr "4000") (PStr "Sales") F64.nan F64.nan
                   _ _ _)).
  - vm_compute. reflexivity.
  - vm_compute. eauto.
  - intros c' Hc' _ Hp. cbn in Hc'.
    apply elem_of_cons in Hc' as [->|Hc']; [reflexivity|].
    apply elem_of_cons in Hc' as [->|Hc']; [discriminate Hp|].
    inversion Hc'.
Defined.

Lemma elem_of_keys {A : Type} (k : string) (d : list (string * A)) :
  k ∈ map fst d <-> is_Some (assoc k d).
Proof.
  rewrite <- mem_elem_of, mem_keys_assoc.
  destruct (assoc k d); split; eauto; try discriminate.
  intros [? [=]].
Qed.

Lemma extract_column_cy_mean
    (dly dcy : list (string * summary))
    (cmp : list (string * list (string * pyval))) (r : row) (c m : string) :
  is_Some (assoc (col m "CY_Mean") (extract_column dly dcy cmp r c))
  <-> is_Some (assoc (col m "CY_Mean") r)
      \/ (is_Some (assoc c cmp) /\ is_Some (assoc c dcy) /\ prefix_of c = m).
Proof.
  destruct (decide (prefix_of c = m)) as [<-|Hne].
  - unfold extract_column.
    destruct (assoc c cmp) as [e|];
      [|split; [auto | intros [H|([? [=]] & _)]; exact H]].
    destruct (assoc c dcy) as [sc|], (assoc c dly) as [sl|];
      rewrite !assoc_set_items; unfold described, compared;
      cbn [rev app assoc append]; rewrite !col_eqb;
      cbn [String.eqb Ascii.eqb Bool.eqb];
      (split; [eauto 7 | intros [H|(_ & [? [=]] & _)]; eauto]).
  - rewrite extract_column_other.
    + split; [auto | intros [H|(_ & _ & H)]; [exact H | congruence]].
    + intros s' Hs' E. apply col_inj in E as [E _];
        [congruence | apply mem_elem_of; reflexivity
         | apply mem_elem_of; exact Hs'].
Qed.

(** No label of the analyzer ends with a newline. *)
Lemma col_no_newline (p s k : string) :
  Str.mem s suffixes = true -> col p s <> k +:+ String newline "".
Proof.
  intros Hs E.
  assert (F : forallb (fun s => match rev (Str.chars s) with
                                | x :: _ => negb (Ascii.eqb x newline)
                                | [] => false
                                end) suffixes = true)
    by (vm_compute; reflexivity).
  rewrite forallb_forall in F.
  apply mem_elem_of, list_elem_of_In in Hs. specialize (F s Hs).
  apply (f_equal Str.chars) in E. unfold col in E.
  rewrite !chars_append in E. apply (f_equal (@rev ascii)) in E.
  rewrite !rev_app_distr in E.
  change (rev (Str.chars (String newline ""))) with [newline] in E.
  destruct (rev (Str.chars s)) as [|x l]; [discriminate|].
  cbn in E. injection E as -> _. rewrite Ascii.eqb_refl in F. discriminate.
Qed.

Lemma extract_column_newline
    (dly dcy : list (string * summary))
    (cmp : list (string * list (string * pyval))) (r : row) (c k : string) :
  assoc (k +:+ String newline "") (extract_column dly dcy cmp r c)
  = assoc (k +:+ String newline "") r.
Proof.
  apply extract_column_other. intros s' Hs' E.
  symmetry in E. revert E. apply col_no_newline. exact Hs'.
Qed.

Lemma extracted_cy_mean (cols : list string)
    (dly dcy : list (string * summary))
    (cmp : list (string * list (string * pyval))) (r : row) (m : string) :
  is_Some (assoc (col m "CY_Mean")
             (fold_left (extract_column dly dcy cmp) cols r))
  <-> is_Some (assoc (col m "CY_Mean") r)
      \/ exists c, c ∈ cols /\ is_Some (assoc c cmp) /\ is_Some (assoc c dcy)
                   /\ prefix_of c = m.
Proof.
  revert r. induction cols as [|c cols IH]; intros r; cbn [fold_left].
  - split; [auto | intros [H|(c & Hc & _)]; [exact H | inversion Hc]].
  - rewrite IH, extract_column_cy_mean. split.
    + intros [[H|H]|(c' & Hc' & H)]; [auto | |].
      * right. exists c. split; [left | exact H].
      * right. exists c'. split; [right; exact Hc' | exact H].
    + intros [H|(c' & Hc' & H)]; [auto|].
      apply elem_of_cons in Hc' as [->|Hc']; [auto|].
      right. exists c'. auto.
Qed.

Lemma extracted_newline (cols : list string)
    (dly dcy : list (string * summary))
    (cmp : list (string * list (string * pyval))) (r : row) (k : string) :
  assoc (k +:+ String newline "")
    (fold_left (extract_column dly dcy cmp) cols r)
  = assoc (k +:+ String newline "") r.
Proof.
  revert r. induction cols as [|c cols IH]; intros r; cbn [fold_left];
    [reflexivity|].
  rewrite IH. apply extract_column_newline.
Qed.

(** X18.  The metrics that the engine detects in the row of the analyzer
    are the prefixes of the evaluated columns: a name is detected exactly
    when it holds no newline and is the prefix of a column of interest
    that has an entry in the comparison and a column in the description
    of the current year. *)
Theorem extracted_row_metrics (cols : list string) (code name : pyval)
    (dly dcy : list (string * summary))
    (cmp : list (string * list (string * pyval))) (m : string) :
  m ∈ detect_metrics (map fst (_extract_metrics cols code name dly dcy cmp))
  <-> existsb (Ascii.eqb newline) (Str.chars m) = false
      /\ exists c, c ∈ cols /\ is_Some (assoc c cmp) /\ is_Some (assoc c dcy)
                   /\ prefix_of c = m.
Proof.
  rewrite detect_metrics_label, !elem_of_keys. unfold _extract_metrics.
  rewrite extracted_newline, extracted_cy_mean.
  set (r := [("Account Code", code); ("Account Name", name)]).
  assert (N1 : assoc (col m "CY_Mean") r = None).
  { pose proof (col_ends_with m "CY_Mean") as W. subst r. cbn [assoc].
    destruct (String.eqb_spec (col m "CY_Mean") "Account Code") as [E|_];
      [rewrite E in W; discriminate|].
    destruct (String.eqb_spec (col m "CY_Mean") "Account Name") as [E|_];
      [rewrite E in W; discriminate|].
    reflexivity. }
  assert (N2 : assoc (col m "CY_Mean" +:+ String newline "") r = None).
  { subst r. cbn [assoc].
    destruct (String.eqb_spec (col m "CY_Mean" +:+ String newline "")
                "Account Code") as [E|_].
    { apply (f_equal (fun s => rev (Str.chars s))) in E.
      rewrite chars_append, rev_app_distr in E. discriminate. }
    destruct (String.eqb_spec (col m "CY_Mean" +:+ String newline "")
                "Account Name") as [E|_].
    { apply (f_equal (fun s => rev (Str.chars s))) in E.
      rewrite chars_append, rev_app_distr in E. discriminate. }
    reflexivity. }
  rewrite N1, N2. split.
  - intros [N [[[? [=]]|H]|[? [=]]]]. auto.
  - intros [N H]. auto.
Qed.
